(** * Arkade script engine: a shallow embedding of [pkg/arkade]

    The development follows the Go sources of the taproot-only script
    engine: the engine itself ([Engine], [Step], [Execute],
    [verifyWitnessProgram], [CheckErrorCondition]), the taproot signature
    verifiers ([taprootSigVerifier], [baseTapscriptSigVerifier]) and the
    asset introspection opcodes ([asset_opcodes.go]).  The stack, the
    script numbers, the tokenizer and the signature opcodes are in files
    that are not among the sources ([stack.go], [scriptnum.go],
    [tokenizer.go], [opcode.go]); they are modelled from the
    specification, each definition saying so.

    Conventions.
    - Go integers are [Z]; a conversion such as [uint16(x)] or an
      arithmetic operation on a fixed-width type is written with its
      wrap-around ([uint16], [uint32], [uint64], [int32]).
    - A byte is a [Z] in [0, 255]; a byte slice is a [list Z].
    - A Go method with a pointer receiver that mutates the engine is a
      function [Engine -> result * Engine] (the monad [M]); the engine
      after a failing call is the engine as the Go code leaves it.
    - Functions of the btcd libraries (Schnorr verification, sighash,
      control blocks) are fields of the class [Btcd]. *)

From Stdlib Require Import ZArith List Lia Bool String Ascii.
From stdpp Require Import base numbers list option gmap pretty.
Import ListNotations.

Local Open Scope Z_scope.

(** ** Fixed-width integers *)

Definition uint8 (x : Z) : Z := x mod 2 ^ 8.
Definition uint16 (x : Z) : Z := x mod 2 ^ 16.
Definition uint32 (x : Z) : Z := x mod 2 ^ 32.
Definition uint64 (x : Z) : Z := x mod 2 ^ 64.
Definition int32 (x : Z) : Z := (x + 2 ^ 31) mod 2 ^ 32 - 2 ^ 31.
Definition int64 (x : Z) : Z := (x + 2 ^ 63) mod 2 ^ 64 - 2 ^ 63.

Definition is_uint16 (x : Z) : Prop := 0 <= x < 2 ^ 16.
Definition is_uint32 (x : Z) : Prop := 0 <= x < 2 ^ 32.
Definition is_uint64 (x : Z) : Prop := 0 <= x < 2 ^ 64.
Definition is_int32 (x : Z) : Prop := - 2 ^ 31 <= x < 2 ^ 31.

Definition byte := Z.
Definition bytes := list byte.

Definition is_byte (b : byte) : Prop := 0 <= b < 256.

(** [len(s)] as a Go [int]. *)
Definition len {A : Type} (l : list A) : Z := Z.of_nat (length l).

(** [s[i]] for an index already checked to be in range; [d] is never
    returned on the paths that guard the index. *)
Definition index {A : Type} (d : A) (l : list A) (i : Z) : A :=
  nth (Z.to_nat i) l d.

(** [make([]byte, n)] followed by [copy(buf, src)]: the first [n] bytes of
    [src], padded with zeroes. *)
Definition copy_into (n : nat) (src : bytes) : bytes :=
  firstn n (src ++ repeat 0 n).

(** [binary.LittleEndian.PutUint64] (and 16/32) into a fresh buffer. *)
Fixpoint le_bytes (n : nat) (v : Z) : bytes :=
  match n with
  | O => []
  | S n' => (v mod 256) :: le_bytes n' (v / 256)
  end.

Fixpoint le_value (b : bytes) : Z :=
  match b with
  | [] => 0
  | x :: r => x + 256 * le_value r
  end.

(** ** Errors: [txscript.Error] and [scriptError] *)

Inductive ErrorCode : Type :=
| ErrInvalidIndex
| ErrInvalidStackOperation
| ErrNumberTooBig
| ErrMinimalData
| ErrReservedOpcode
| ErrElementTooBig
| ErrInvalidProgramCounter
| ErrWitnessProgramEmpty
| ErrDiscourageUpgradeableTaprootVersion
| ErrStackOverflow
| ErrScriptUnfinished
| ErrCleanStack
| ErrEmptyStack
| ErrEvalFalse
| ErrUnbalancedConditional
| ErrWitnessHasNoAnnex
| ErrInvalidTaprootSigLen
| ErrTaprootPubkeyIsEmpty
| ErrDiscourageUpgradeablePubKeyType
| ErrTaprootMaxSigOps
| ErrMalformedPush
| ErrUnsupportedScriptVersion
| ErrNotPushOnly
| ErrScriptTooBig
| ErrWitnessMalleated
| ErrWitnessUnexpected.

#[global] Instance ErrorCode_eq_dec : EqDecision ErrorCode.
Proof. solve_decision. Defined.

(** A Go [error] value: a [txscript.Error] built by [scriptError], an error
    built by [fmt.Errorf], an error returned by a library of [Btcd], or a
    run-time panic (nil dereference, index out of range). *)
Inductive error : Type :=
| ScriptError (c : ErrorCode) (description : string)
| PlainError (msg : string)
| RuntimePanic (msg : string).

Definition scriptError (c : ErrorCode) (desc : string) : error :=
  ScriptError c desc.

Definition error_code (e : error) : option ErrorCode :=
  match e with
  | ScriptError c _ => Some c
  | _ => None
  end.

(** [%d] of [fmt.Sprintf]. *)
Definition fmt_d (n : Z) : string := pretty n.

(** [%x] of [fmt.Sprintf] on a byte slice: two lower-case hexadecimal
    digits per byte. *)
Definition hex_digit (n : Z) : ascii :=
  nth (Z.to_nat n) (list_ascii_of_string "0123456789abcdef") "0"%char.

Definition fmt_x (b : bytes) : string :=
  fold_right
    (fun x acc => String (hex_digit (x / 16)) (String (hex_digit (x mod 16)) acc))
    EmptyString b.

Inductive result (A : Type) : Type :=
| Ok (a : A)
| Fail (e : error).
Arguments Ok {A} a.
Arguments Fail {A} e.

(** ** Script numbers ([scriptnum.go])

    [scriptnum.go] is not among the source files; its functions are
    modelled from section 3.3 of the specification: script integers are
    little-endian sign-magnitude, at most 4 bytes when read from the
    stack, minimally encoded. *)

Definition scriptNum := Z.

(** Modelled from the spec: the constant [maxScriptNumLen] of the missing
    [scriptnum.go]; script numbers read from the stack have at most 4
    bytes (section 3.3). *)
Definition maxScriptNumLen : Z := 4.

(** Modelled from the spec: the magnitude loop of [scriptNum.Bytes] in the
    missing [scriptnum.go], little-endian (section 3.3):
    [for n > 0 { result = append(result, byte(n & 0xff)); n >>= 8 }];
    an [int64] has at most 8 non-zero bytes. *)
Fixpoint magnitude_bytes (fuel : nat) (n : Z) : bytes :=
  match fuel with
  | O => []
  | S f =>
      if 0 <? n then Z.land n 255 :: magnitude_bytes f (Z.shiftr n 8) else []
  end.

(** Modelled from the spec: the sign of [scriptNum.Bytes] in the missing
    [scriptnum.go], sign-magnitude (section 3.3):
    [result[len(result)-1] |= 0x80]. *)
Fixpoint set_sign_bit (b : bytes) : bytes :=
  match b with
  | [] => []
  | [x] => [Z.lor x 128]
  | x :: r => x :: set_sign_bit r
  end.

(** Modelled from the spec: [scriptNum.Bytes] of the missing
    [scriptnum.go]: the minimal little-endian sign-magnitude encoding
    (section 3.3); zero is the empty byte string, and a byte is added when
    the top bit of the magnitude is taken. *)
Definition scriptNum_Bytes (n : scriptNum) : bytes :=
  if n =? 0 then []
  else
    let isNegative := n <? 0 in
    let m := if isNegative then - n else n in
    let result := magnitude_bytes 9 m in
    if negb (Z.land (List.last result 0) 128 =? 0) then
      result ++ [if isNegative then 128 else 0]
    else if isNegative then set_sign_bit result
    else result.

(** Modelled from the spec: [checkMinimalDataEncoding] of the missing
    [scriptnum.go]: the minimal-encoding rule of sections 3.3 and 4.2; the
    top byte may be a bare sign byte only if the byte below needs it. *)
Definition checkMinimalDataEncoding (v : bytes) : option error :=
  match rev v with
  | [] => None
  | top :: rest =>
      if Z.land top 127 =? 0 then
        match rest with
        | [] =>
            Some (scriptError ErrMinimalData
                    "numeric value encoded with unnecessary bytes")
        | below :: _ =>
            if Z.land below 128 =? 0 then
              Some (scriptError ErrMinimalData
                      "numeric value encoded with unnecessary bytes")
            else None
        end
      else None
  end.

(** Modelled from the spec: the decoding loop of [MakeScriptNum] in the
    missing [scriptnum.go], little-endian (section 3.3):
    [result |= int64(val) << uint8(8*i)] over the bytes of [v]. *)
Fixpoint or_bytes (i : Z) (v : bytes) (acc : Z) : Z :=
  match v with
  | [] => acc
  | val :: r => or_bytes (i + 1) r (Z.lor acc (Z.shiftl val (8 * i)))
  end.

(** Modelled from the spec: [MakeScriptNum] of the missing
    [scriptnum.go]: at most [scriptNumLen] bytes, minimal encoding when
    required, little-endian sign-magnitude (sections 3.3 and 4.2). *)
Definition MakeScriptNum (v : bytes) (requireMinimal : bool)
    (scriptNumLen : Z) : result scriptNum :=
  if scriptNumLen <? len v then
    Fail (scriptError ErrNumberTooBig
            ("numeric value encoded as more than " +:+ fmt_d scriptNumLen
               +:+ " bytes"))
  else
    match (if requireMinimal then checkMinimalDataEncoding v else None) with
    | Some e => Fail e
    | None =>
        if len v =? 0 then Ok 0
        else
          let result := or_bytes 0 v 0 in
          if negb (Z.land (List.last v 0) 128 =? 0) then
            Ok (- Z.land result
                    (Z.lnot (Z.shiftl 128 (8 * (len v - 1)))))
          else Ok result
    end.

(** ** The stack ([stack.go]) *)

(** Modelled from the spec: the type [stack] of the missing [stack.go].
    Section 4.2: a stack of byte strings with typed views; the engine
    reads the fields [stk] and [verifyMinimalData] directly.  The top of
    the stack is the last element of [stk], as [GetStack] and [SetStack]
    document. *)
Record stack : Type := mkStack {
  stk : list bytes;
  verifyMinimalData : bool
}.

(** Modelled from the spec: [Depth] of the missing [stack.go]
    (section 4.2, "depth"). *)
Definition stack_Depth (s : stack) : Z := len (stk s).

(** Modelled from the spec: [PushByteArray] of the missing [stack.go]
    (section 4.2, "push bytes"). *)
Definition stack_PushByteArray (so : bytes) (s : stack) : stack :=
  mkStack (stk s ++ [so]) (verifyMinimalData s).

(** Modelled from the spec: [PushInt] of the missing [stack.go]
    (section 4.2, "push-int (script-number)"). *)
Definition stack_PushInt (val : scriptNum) (s : stack) : stack :=
  stack_PushByteArray (scriptNum_Bytes val) s.

(** Modelled from the spec: [PopByteArray] of the missing [stack.go]
    (section 4.2, "pop bytes"), that is [nipN(0)]: the top element,
    removed; an empty stack is an invalid stack operation. *)
Definition stack_PopByteArray (s : stack) : result bytes * stack :=
  match rev (stk s) with
  | [] =>
      (Fail (scriptError ErrInvalidStackOperation
               ("index 0 is invalid for stack size " +:+ fmt_d 0)), s)
  | so :: below => (Ok so, mkStack (rev below) (verifyMinimalData s))
  end.

(** Modelled from the spec: [PopInt] of the missing [stack.go]
    (section 4.2: "pop-int (script-number, enforcing minimal encoding when
    the minimal-data flag is set)"). *)
Definition stack_PopInt (s : stack) : result scriptNum * stack :=
  match stack_PopByteArray s with
  | (Fail e, s') => (Fail e, s')
  | (Ok so, s') => (MakeScriptNum so (verifyMinimalData s) maxScriptNumLen, s')
  end.

(** Modelled from the spec: [asBool] of the missing [stack.go]
    (section 4.2: "any non-zero byte except negative-zero encoding is
    true"). *)
Fixpoint asBool (t : bytes) : bool :=
  match t with
  | [] => false
  | [x] => negb (x =? 0) && negb (x =? 128)
  | x :: r => if x =? 0 then asBool r else true
  end.

(** Modelled from the spec: [PopBool] of the missing [stack.go]
    (section 4.2, "pop-bool"). *)
Definition stack_PopBool (s : stack) : result bool * stack :=
  match stack_PopByteArray s with
  | (Fail e, s') => (Fail e, s')
  | (Ok so, s') => (Ok (asBool so), s')
  end.

(** Modelled from the spec: [PeekByteArray] of the missing [stack.go]
    (section 4.2): the element [idx] below the top. *)
Definition stack_PeekByteArray (idx : Z) (s : stack) : result bytes :=
  let sz := stack_Depth s in
  if (idx <? 0) || (sz - 1 <? idx) then
    Fail (scriptError ErrInvalidStackOperation
            ("index " +:+ fmt_d idx +:+ " is invalid for stack size "
               +:+ fmt_d sz))
  else Ok (index [] (stk s) (sz - idx - 1)).

(** Modelled from the spec: the loop of [DropN] in the missing
    [stack.go]: [n] pops. *)
Fixpoint drop_loop (n : nat) (s : stack) : option error * stack :=
  match n with
  | O => (None, s)
  | S n' =>
      match stack_PopByteArray s with
      | (Fail e, s') => (Some e, s')
      | (Ok _, s') => drop_loop n' s'
      end
  end.

(** Modelled from the spec: [DropN] of the missing [stack.go]
    (section 4.2, "dropN"): pops [n] elements; [n < 1] is an error and
    pops nothing. *)
Definition stack_DropN (n : Z) (s : stack) : option error * stack :=
  if n <? 1 then
    (Some (scriptError ErrInvalidStackOperation
             "attempt to drop less than one item from stack"), s)
  else drop_loop (Z.to_nat n) s.

(** ** Transactions ([btcd/wire]) *)

Record OutPoint : Type := mkOutPoint {
  Hash : bytes;
  Index : Z
}.

Record wire_TxIn : Type := mkTxIn {
  PreviousOutPoint : OutPoint;
  SignatureScript : bytes;
  Witness : list bytes;
  Sequence : Z
}.

Record wire_TxOut : Type := mkTxOut {
  Value : Z;
  PkScript : bytes
}.

Record MsgTx : Type := mkMsgTx {
  Version : Z;
  TxIn : list wire_TxIn;
  TxOut : list wire_TxOut;
  LockTime : Z
}.

(** [wire.VarIntSerializeSize] and [wire.TxWitness.SerializeSize]. *)
Definition VarIntSerializeSize (val : Z) : Z :=
  if val <? 253 then 1
  else if val <=? 65535 then 3
  else if val <=? 4294967295 then 5
  else 9.

Definition TxWitness_SerializeSize (t : list bytes) : Z :=
  fold_left (fun n witItem => n + VarIntSerializeSize (len witItem) + len witItem)
            t (VarIntSerializeSize (len t)).

(** ** The signature cache ([txscript.SigCache])

    A map from sighash to the signature and public key that verified
    against it, bounded by [maxEntries].  When the bound is reached [Add]
    removes one binding chosen by Go's map iteration; the model removes
    the first binding of the map. *)

Record SigCache : Type := mkSigCache {
  validSigs : gmap bytes (bytes * bytes);
  maxEntries : Z
}.

Definition bytes_eqb (a b : bytes) : bool := bool_decide (a = b).

Definition SigCache_Exists (s : SigCache) (sigHash sig pubKey : bytes) : bool :=
  match validSigs s !! sigHash with
  | Some (entrySig, entryPubKey) =>
      bytes_eqb entryPubKey pubKey && bytes_eqb entrySig sig
  | None => false
  end.

Definition SigCache_Add (s : SigCache) (sigHash sig pubKey : bytes) : SigCache :=
  if maxEntries s <=? 0 then s
  else
    let kept :=
      if maxEntries s <? Z.of_nat (size (validSigs s)) + 1 then
        match map_to_list (validSigs s) with
        | (sigEntry, _) :: _ => delete sigEntry (validSigs s)
        | [] => validSigs s
        end
      else validSigs s in
    mkSigCache (<[sigHash := (sig, pubKey)]> kept) (maxEntries s).

(** ** The btcd libraries the engine calls

    Cryptography and taproot commitments are not respecified: they are the
    fields of this class, with the signatures of the Go functions.
    [VerifyTaprootKeySpend] receives the signature cache and may add to
    it, so it returns the cache it leaves. *)

Class Btcd : Type := {
  PublicKey : Type;
  Signature : Type;
  TxSigHashes : Type;
  PrevOutputFetcher : Type;
  ControlBlock : Type;
  schnorr_ParsePubKey : bytes -> result PublicKey;
  schnorr_ParseSignature : bytes -> result Signature;
  Signature_Verify : Signature -> bytes -> PublicKey -> bool;
  CalcTaprootSignatureHash :
    TxSigHashes -> Z -> MsgTx -> Z -> PrevOutputFetcher -> result bytes;
  VerifyTaprootKeySpend :
    bytes -> bytes -> MsgTx -> Z -> PrevOutputFetcher -> TxSigHashes ->
    option SigCache -> option error * option SigCache;
  ParseControlBlock : bytes -> result ControlBlock;
  LeafVersion : ControlBlock -> Z;
  VerifyTaprootLeafCommitment : ControlBlock -> bytes -> bytes -> option error;
  TapHash : bytes -> bytes;
  IsPushOnlyScript : bytes -> bool;
  IsWitnessProgram : bytes -> bool;
  ExtractWitnessProgramInfo : bytes -> result (Z * bytes)
}.

Definition TaprootWitnessVersion : Z := 1.
Definition BaseLeafVersion : Z := 192.
Definition TaprootAnnexTag : Z := 80.
Definition MaxStackSize : Z := 1000.
Definition MaxScriptElementSize : Z := 520.
Definition MaxScriptSize : Z := 10000.
Definition OpCondTrue : Z := 1.
Definition SigHashDefault : Z := 0.
Definition schnorr_SignatureSize : Z := 64.
Definition payToTaprootDataSize : Z := 32.
Definition chainhash_HashSize : Z := 32.

(** ** The asset packet ([asset_types.go]) *)

Definition AssetInputTypeLocal : Z := 1.
Definition AssetInputTypeIntent : Z := 2.
Definition AssetOutputTypeLocal : Z := 1.
Definition AssetOutputTypeIntent : Z := 2.

Record AssetID : Type := mkAssetID {
  Txid : bytes;
  Gidx : Z
}.

Record AssetInput : Type := mkAssetInput {
  in_Type : Z;
  InputIndex : Z;
  in_Txid : bytes;
  in_OutputIndex : Z;
  in_Amount : Z
}.

Record AssetOutput : Type := mkAssetOutput {
  out_Type : Z;
  out_OutputIndex : Z;
  out_Amount : Z
}.

Record AssetGroup : Type := mkAssetGroup {
  group_AssetID : AssetID;
  Control : option AssetID;
  MetadataHash : bytes;
  Inputs : list AssetInput;
  Outputs : list AssetOutput
}.

(** [InputAssetEntry] and [OutputAssetEntry] have the same two fields. *)
Record AssetEntry : Type := mkAssetEntry {
  entry_AssetID : AssetID;
  entry_Amount : Z
}.

Record AssetPacket : Type := mkAssetPacket {
  Groups : list AssetGroup;
  InputAssets : gmap Z (list AssetEntry);
  OutputAssets : gmap Z (list AssetEntry)
}.

(** The Go types bound these fields: [Txid] is a [[32]byte], [Gidx] a
    [uint16], amounts are [uint64]. *)
Definition wf_AssetID (id : AssetID) : Prop :=
  length (Txid id) = 32%nat /\ is_uint16 (Gidx id).

Definition wf_AssetInput (i : AssetInput) : Prop :=
  is_uint32 (InputIndex i) /\ length (in_Txid i) = 32%nat /\
  is_uint32 (in_OutputIndex i) /\ is_uint64 (in_Amount i).

Definition wf_AssetOutput (o : AssetOutput) : Prop :=
  is_uint32 (out_OutputIndex o) /\ is_uint64 (out_Amount o).

Definition wf_AssetGroup (g : AssetGroup) : Prop :=
  wf_AssetID (group_AssetID g) /\
  Forall wf_AssetInput (Inputs g) /\ Forall wf_AssetOutput (Outputs g).

Definition wf_AssetPacket (p : AssetPacket) : Prop :=
  Forall wf_AssetGroup (Groups p).

(** A read of a Go map: the zero value (a nil slice) for a missing key. *)
Definition map_index (m : gmap Z (list AssetEntry)) (k : Z) : list AssetEntry :=
  default [] (m !! k).

(** ** The taproot execution context *)

Definition blankCodeSepValue : Z := 4294967295.

Record taprootExecutionCtx : Type := mkTaprootCtx {
  annex : option bytes;
  codeSepPos : Z;
  tapLeafHash : bytes;
  sigOpsBudget : Z;
  mustSucceed : bool
}.

Definition sigOpsDelta : Z := 50.

(** [tallysigOp]: the budget is decreased first, then tested. *)
Definition tallysigOp (t : taprootExecutionCtx)
    : option error * taprootExecutionCtx :=
  let t' := mkTaprootCtx (annex t) (codeSepPos t) (tapLeafHash t)
              (int32 (sigOpsBudget t - sigOpsDelta)) (mustSucceed t) in
  if sigOpsBudget t' <? 0 then
    (Some (scriptError ErrTaprootMaxSigOps ""), t')
  else (None, t').

(** [chainhash.Hash{}]: the zero value of the [tapLeafHash] field. *)
Definition zeroHash : bytes := repeat 0 32.

Definition newTaprootExecutionCtx (inputWitnessSize : Z) : taprootExecutionCtx :=
  mkTaprootCtx None blankCodeSepValue zeroHash
    (int32 (sigOpsDelta + inputWitnessSize)) false.

(** ** The tokenizer state ([tokenizer.go]) *)

(** Modelled from the spec: the type [ScriptTokenizer] of the missing
    [tokenizer.go].  Section 4.1: the tokenizer walks a script and yields
    the opcode byte and its immediate data; push opcodes carry 1, 2 or 4
    length bytes.  [tk_op] is the opcode byte last parsed. *)
Record ScriptTokenizer : Type := mkTokenizer {
  tk_script : bytes;
  tk_version : Z;
  tk_offset : Z;
  tk_op : Z;
  tk_data : bytes;
  tk_err : option error
}.

Record StepInfo : Type := mkStepInfo {
  ScriptIndex : Z;
  OpcodeIndex : Z;
  Stack : list bytes;
  AltStack : list bytes
}.

(** ** The engine *)

Section EngineModel.
Context `{L : Btcd}.

(** [assetPacket] is a pointer to the packet ([nil] when none was set);
    [witnessProgram] and the taproot context are [nil] until set;
    [sigCache] holds the contents of the cache object the engine shares
    with its signature verifiers. *)
Record Engine : Type := mkEngine {
  tx : MsgTx;
  txIdx : Z;
  version : Z;
  sigCache : option SigCache;
  hashCache : TxSigHashes;
  prevOutFetcher : PrevOutputFetcher;
  assetPacket : option AssetPacket;
  scripts : list bytes;
  scriptIdx : Z;
  opcodeIdx : Z;
  lastCodeSep : Z;
  tokenizer : ScriptTokenizer;
  dstack : stack;
  astack : stack;
  condStack : list Z;
  witnessVersion : Z;
  witnessProgram : option bytes;
  inputAmount : Z;
  taprootCtx : option taprootExecutionCtx;
  stepCallback : option (StepInfo -> option error)
}.

Definition set_dstack (s : stack) (vm : Engine) : Engine :=
  mkEngine (tx vm) (txIdx vm) (version vm) (sigCache vm) (hashCache vm)
    (prevOutFetcher vm) (assetPacket vm) (scripts vm) (scriptIdx vm)
    (opcodeIdx vm) (lastCodeSep vm) (tokenizer vm) s (astack vm)
    (condStack vm) (witnessVersion vm) (witnessProgram vm) (inputAmount vm)
    (taprootCtx vm) (stepCallback vm).

Definition set_astack (s : stack) (vm : Engine) : Engine :=
  mkEngine (tx vm) (txIdx vm) (version vm) (sigCache vm) (hashCache vm)
    (prevOutFetcher vm) (assetPacket vm) (scripts vm) (scriptIdx vm)
    (opcodeIdx vm) (lastCodeSep vm) (tokenizer vm) (dstack vm) s
    (condStack vm) (witnessVersion vm) (witnessProgram vm) (inputAmount vm)
    (taprootCtx vm) (stepCallback vm).

Definition set_taprootCtx (c : option taprootExecutionCtx) (vm : Engine)
    : Engine :=
  mkEngine (tx vm) (txIdx vm) (version vm) (sigCache vm) (hashCache vm)
    (prevOutFetcher vm) (assetPacket vm) (scripts vm) (scriptIdx vm)
    (opcodeIdx vm) (lastCodeSep vm) (tokenizer vm) (dstack vm) (astack vm)
    (condStack vm) (witnessVersion vm) (witnessProgram vm) (inputAmount vm)
    c (stepCallback vm).

Definition set_sigCache (c : option SigCache) (vm : Engine) : Engine :=
  mkEngine (tx vm) (txIdx vm) (version vm) c (hashCache vm)
    (prevOutFetcher vm) (assetPacket vm) (scripts vm) (scriptIdx vm)
    (opcodeIdx vm) (lastCodeSep vm) (tokenizer vm) (dstack vm) (astack vm)
    (condStack vm) (witnessVersion vm) (witnessProgram vm) (inputAmount vm)
    (taprootCtx vm) (stepCallback vm).

Definition set_scripts (s : list bytes) (vm : Engine) : Engine :=
  mkEngine (tx vm) (txIdx vm) (version vm) (sigCache vm) (hashCache vm)
    (prevOutFetcher vm) (assetPacket vm) s (scriptIdx vm)
    (opcodeIdx vm) (lastCodeSep vm) (tokenizer vm) (dstack vm) (astack vm)
    (condStack vm) (witnessVersion vm) (witnessProgram vm) (inputAmount vm)
    (taprootCtx vm) (stepCallback vm).

Definition set_scriptIdx (i : Z) (vm : Engine) : Engine :=
  mkEngine (tx vm) (txIdx vm) (version vm) (sigCache vm) (hashCache vm)
    (prevOutFetcher vm) (assetPacket vm) (scripts vm) i
    (opcodeIdx vm) (lastCodeSep vm) (tokenizer vm) (dstack vm) (astack vm)
    (condStack vm) (witnessVersion vm) (witnessProgram vm) (inputAmount vm)
    (taprootCtx vm) (stepCallback vm).

Definition set_opcodeIdx (i : Z) (vm : Engine) : Engine :=
  mkEngine (tx vm) (txIdx vm) (version vm) (sigCache vm) (hashCache vm)
    (prevOutFetcher vm) (assetPacket vm) (scripts vm) (scriptIdx vm)
    i (lastCodeSep vm) (tokenizer vm) (dstack vm) (astack vm)
    (condStack vm) (witnessVersion vm) (witnessProgram vm) (inputAmount vm)
    (taprootCtx vm) (stepCallback vm).

Definition set_lastCodeSep (i : Z) (vm : Engine) : Engine :=
  mkEngine (tx vm) (txIdx vm) (version vm) (sigCache vm) (hashCache vm)
    (prevOutFetcher vm) (assetPacket vm) (scripts vm) (scriptIdx vm)
    (opcodeIdx vm) i (tokenizer vm) (dstack vm) (astack vm)
    (condStack vm) (witnessVersion vm) (witnessProgram vm) (inputAmount vm)
    (taprootCtx vm) (stepCallback vm).

Definition set_tokenizer (t : ScriptTokenizer) (vm : Engine) : Engine :=
  mkEngine (tx vm) (txIdx vm) (version vm) (sigCache vm) (hashCache vm)
    (prevOutFetcher vm) (assetPacket vm) (scripts vm) (scriptIdx vm)
    (opcodeIdx vm) (lastCodeSep vm) t (dstack vm) (astack vm)
    (condStack vm) (witnessVersion vm) (witnessProgram vm) (inputAmount vm)
    (taprootCtx vm) (stepCallback vm).

(** [SetAssetPacket]. *)
Definition SetAssetPacket (packet : option AssetPacket) (vm : Engine) : Engine :=
  mkEngine (tx vm) (txIdx vm) (version vm) (sigCache vm) (hashCache vm)
    (prevOutFetcher vm) packet (scripts vm) (scriptIdx vm)
    (opcodeIdx vm) (lastCodeSep vm) (tokenizer vm) (dstack vm) (astack vm)
    (condStack vm) (witnessVersion vm) (witnessProgram vm) (inputAmount vm)
    (taprootCtx vm) (stepCallback vm).

(** ** Engine computations: state and error *)

Definition M (A : Type) : Type := Engine -> result A * Engine.

Definition ret {A : Type} (a : A) : M A := fun vm => (Ok a, vm).

Definition raise {A : Type} (e : error) : M A := fun vm => (Fail e, vm).

Definition bind {A B : Type} (m : M A) (k : A -> M B) : M B :=
  fun vm =>
    match m vm with
    | (Ok a, vm') => k a vm'
    | (Fail e, vm') => (Fail e, vm')
    end.

Notation "'let*' x ':=' m 'in' k" := (bind m (fun x => k))
  (at level 10, x name, m at level 100, k at level 200).
Notation "m ';;' k" := (bind m (fun _ => k))
  (at level 100, k at level 200, right associativity).

(** The Go [error] a handler returns: [nil] or the failure. *)
Definition as_error {A : Type} (r : result A * Engine) : option error * Engine :=
  match r with
  | (Ok _, vm) => (None, vm)
  | (Fail e, vm) => (Some e, vm)
  end.

Definition dstack_PushByteArray (so : bytes) : M unit :=
  fun vm => (Ok tt, set_dstack (stack_PushByteArray so (dstack vm)) vm).

Definition dstack_PushInt (val : scriptNum) : M unit :=
  fun vm => (Ok tt, set_dstack (stack_PushInt val (dstack vm)) vm).

Definition dstack_PopByteArray : M bytes :=
  fun vm =>
    let '(r, s) := stack_PopByteArray (dstack vm) in (r, set_dstack s vm).

Definition dstack_PopInt : M scriptNum :=
  fun vm => let '(r, s) := stack_PopInt (dstack vm) in (r, set_dstack s vm).

Definition dstack_PopBool : M bool :=
  fun vm => let '(r, s) := stack_PopBool (dstack vm) in (r, set_dstack s vm).

(** [s[i]] on a slice: a run-time panic outside the bounds. *)
Definition at_index {A : Type} (l : list A) (i : Z) : M A :=
  match (if i <? 0 then None else l !! Z.to_nat i) with
  | Some x => ret x
  | None => raise (RuntimePanic "index out of range")
  end.

(** ** Asset introspection opcodes ([asset_opcodes.go]) *)

Definition checkAssetPacket : M unit :=
  fun vm =>
    match assetPacket vm with
    | None => (Fail (scriptError ErrInvalidIndex "asset packet not set"), vm)
    | Some _ => (Ok tt, vm)
    end.

(** [vm.assetPacket.] : the dereference of the packet pointer. *)
Definition deref_assetPacket : M AssetPacket :=
  fun vm =>
    match assetPacket vm with
    | Some p => (Ok p, vm)
    | None => (Fail (RuntimePanic "nil pointer dereference"), vm)
    end.

Definition checkGroupIndex (k : Z) : M unit :=
  let* p := deref_assetPacket in
  if (k <? 0) || (len (Groups p) <=? k) then
    raise (scriptError ErrInvalidIndex "asset group index out of range")
  else ret tt.

Definition pushAssetID (id : AssetID) : M unit :=
  dstack_PushByteArray (copy_into 32 (Txid id)) ;;
  dstack_PushInt (Gidx id).

Definition pushLE64 (v : Z) : M unit :=
  dstack_PushByteArray (le_bytes 8 v).

Definition popAssetID : M AssetID :=
  let* gidx := dstack_PopInt in
  let* txidBytes := dstack_PopByteArray in
  if negb (len txidBytes =? 32) then
    raise (scriptError ErrInvalidStackOperation "asset ID txid must be 32 bytes")
  else ret (mkAssetID (copy_into 32 txidBytes) (uint16 gidx)).

(** [vm.assetPacket.Groups[k]]. *)
Definition group_at (k : Z) : M AssetGroup :=
  let* p := deref_assetPacket in at_index (Groups p) k.

Definition AssetID_eqb (a b : AssetID) : bool :=
  bytes_eqb (Txid a) (Txid b) && (Gidx a =? Gidx b).

Definition opcodeInspectNumAssetGroups : M unit :=
  checkAssetPacket ;;
  let* p := deref_assetPacket in
  dstack_PushInt (len (Groups p)).

Definition opcodeInspectAssetGroupAssetID : M unit :=
  checkAssetPacket ;;
  let* k := dstack_PopInt in
  checkGroupIndex k ;;
  let* g := group_at k in
  pushAssetID (group_AssetID g).

Definition opcodeInspectAssetGroupCtrl : M unit :=
  checkAssetPacket ;;
  let* k := dstack_PopInt in
  checkGroupIndex k ;;
  let* g := group_at k in
  match Control g with
  | None => dstack_PushInt (-1)
  | Some ctrl => pushAssetID ctrl
  end.

(** [for i, g := range vm.assetPacket.Groups]: the index of the first
    group whose asset id equals [id]. *)
Fixpoint find_group (gs : list AssetGroup) (i : Z) (id : AssetID) : option Z :=
  match gs with
  | [] => None
  | g :: rest =>
      if AssetID_eqb (group_AssetID g) id then Some i
      else find_group rest (i + 1) id
  end.

Definition opcodeFindAssetGroupByAssetID : M unit :=
  checkAssetPacket ;;
  let* id := popAssetID in
  let* p := deref_assetPacket in
  match find_group (Groups p) 0 id with
  | Some i => dstack_PushInt i
  | None => dstack_PushInt (-1)
  end.

Definition opcodeInspectAssetGroupMetadataHash : M unit :=
  checkAssetPacket ;;
  let* k := dstack_PopInt in
  checkGroupIndex k ;;
  let* g := group_at k in
  dstack_PushByteArray (copy_into 32 (MetadataHash g)).

Definition opcodeInspectAssetGroupNum : M unit :=
  checkAssetPacket ;;
  let* source := dstack_PopInt in
  let* k := dstack_PopInt in
  checkGroupIndex k ;;
  let* group := group_at k in
  if source =? 0 then dstack_PushInt (len (Inputs group))
  else if source =? 1 then dstack_PushInt (len (Outputs group))
  else if source =? 2 then
    dstack_PushInt (len (Inputs group)) ;;
    dstack_PushInt (len (Outputs group))
  else
    raise (scriptError ErrInvalidIndex
             "invalid source for OP_INSPECTASSETGROUPNUM").

Definition opcodeInspectAssetGroup : M unit :=
  checkAssetPacket ;;
  let* source := dstack_PopInt in
  let* j := dstack_PopInt in
  let* k := dstack_PopInt in
  checkGroupIndex k ;;
  let* group := group_at k in
  if source =? 0 then
    if (j <? 0) || (len (Inputs group) <=? j) then
      raise (scriptError ErrInvalidIndex
               "asset group input index out of range")
    else
      let* inp := at_index (Inputs group) j in
      dstack_PushInt (in_Type inp) ;;
      (if in_Type inp =? AssetInputTypeLocal then
         dstack_PushInt (InputIndex inp)
       else
         dstack_PushByteArray (copy_into 32 (in_Txid inp)) ;;
         dstack_PushInt (in_OutputIndex inp)) ;;
      pushLE64 (in_Amount inp)
  else if source =? 1 then
    if (j <? 0) || (len (Outputs group) <=? j) then
      raise (scriptError ErrInvalidIndex
               "asset group output index out of range")
    else
      let* out := at_index (Outputs group) j in
      dstack_PushInt (out_Type out) ;;
      dstack_PushInt (out_OutputIndex out) ;;
      pushLE64 (out_Amount out)
  else
    raise (scriptError ErrInvalidIndex "invalid source for OP_INSPECTASSETGROUP").

(** [var inSum uint64; for _, inp := range group.Inputs { inSum += inp.Amount }]:
    an addition of [uint64] values wraps around. *)
Definition sum_inputs (inputs : list AssetInput) : Z :=
  fold_left (fun inSum inp => uint64 (inSum + in_Amount inp)) inputs 0.

Definition sum_outputs (outputs : list AssetOutput) : Z :=
  fold_left (fun outSum out => uint64 (outSum + out_Amount out)) outputs 0.

Definition opcodeInspectAssetGroupSum : M unit :=
  checkAssetPacket ;;
  let* source := dstack_PopInt in
  let* k := dstack_PopInt in
  checkGroupIndex k ;;
  let* group := group_at k in
  let inSum := sum_inputs (Inputs group) in
  let outSum := sum_outputs (Outputs group) in
  if source =? 0 then pushLE64 inSum
  else if source =? 1 then pushLE64 outSum
  else if source =? 2 then pushLE64 inSum ;; pushLE64 outSum
  else
    raise (scriptError ErrInvalidIndex
             "invalid source for OP_INSPECTASSETGROUPSUM").

Definition opcodeInspectOutAssetCount : M unit :=
  checkAssetPacket ;;
  let* o := dstack_PopInt in
  let* p := deref_assetPacket in
  let entries := map_index (OutputAssets p) (uint32 o) in
  dstack_PushInt (len entries).

Definition opcodeInspectOutAssetAt : M unit :=
  checkAssetPacket ;;
  let* t := dstack_PopInt in
  let* o := dstack_PopInt in
  let* p := deref_assetPacket in
  let entries := map_index (OutputAssets p) (uint32 o) in
  if (t <? 0) || (len entries <=? t) then
    raise (scriptError ErrInvalidIndex "output asset index out of range")
  else
    let* entry := at_index entries t in
    pushAssetID (entry_AssetID entry) ;;
    pushLE64 (entry_Amount entry).

(** [for _, entry := range entries]: the first entry with the asset id. *)
Definition lookup_entry (entries : list AssetEntry) (id : AssetID)
    : option AssetEntry :=
  List.find (fun entry => AssetID_eqb (entry_AssetID entry) id) entries.

Definition opcodeInspectOutAssetLookup : M unit :=
  checkAssetPacket ;;
  let* id := popAssetID in
  let* o := dstack_PopInt in
  let* p := deref_assetPacket in
  let entries := map_index (OutputAssets p) (uint32 o) in
  match lookup_entry entries id with
  | Some entry => pushLE64 (entry_Amount entry)
  | None => dstack_PushInt (-1)
  end.

Definition opcodeInspectInAssetCount : M unit :=
  checkAssetPacket ;;
  let* i := dstack_PopInt in
  let* p := deref_assetPacket in
  let entries := map_index (InputAssets p) (uint32 i) in
  dstack_PushInt (len entries).

Definition opcodeInspectInAssetAt : M unit :=
  checkAssetPacket ;;
  let* t := dstack_PopInt in
  let* i := dstack_PopInt in
  let* p := deref_assetPacket in
  let entries := map_index (InputAssets p) (uint32 i) in
  if (t <? 0) || (len entries <=? t) then
    raise (scriptError ErrInvalidIndex "input asset index out of range")
  else
    let* entry := at_index entries t in
    pushAssetID (entry_AssetID entry) ;;
    pushLE64 (entry_Amount entry).

Definition opcodeInspectInAssetLookup : M unit :=
  checkAssetPacket ;;
  let* id := popAssetID in
  let* i := dstack_PopInt in
  let* p := deref_assetPacket in
  let entries := map_index (InputAssets p) (uint32 i) in
  match lookup_entry entries id with
  | Some entry => pushLE64 (entry_Amount entry)
  | None => dstack_PushInt (-1)
  end.

Definition count_intent_outputs (outs : list AssetOutput) : Z :=
  fold_left
    (fun count out =>
       if out_Type out =? AssetOutputTypeIntent then count + 1 else count)
    outs 0.

Definition count_intent_inputs (ins : list AssetInput) : Z :=
  fold_left
    (fun count inp =>
       if in_Type inp =? AssetInputTypeIntent then count + 1 else count)
    ins 0.

(** The loop of [opcodeInspectGroupIntentOut]: [idx] counts the intent
    outputs passed; the one at which [idx == j] is returned. *)
Fixpoint intent_output_at (outs : list AssetOutput) (idx j : Z)
    : option AssetOutput :=
  match outs with
  | [] => None
  | out :: rest =>
      if out_Type out =? AssetOutputTypeIntent then
        if idx =? j then Some out else intent_output_at rest (idx + 1) j
      else intent_output_at rest idx j
  end.

Fixpoint intent_input_at (ins : list AssetInput) (idx j : Z)
    : option AssetInput :=
  match ins with
  | [] => None
  | inp :: rest =>
      if in_Type inp =? AssetInputTypeIntent then
        if idx =? j then Some inp else intent_input_at rest (idx + 1) j
      else intent_input_at rest idx j
  end.

Definition opcodeInspectGroupIntentOutCount : M unit :=
  checkAssetPacket ;;
  let* k := dstack_PopInt in
  checkGroupIndex k ;;
  let* g := group_at k in
  dstack_PushInt (count_intent_outputs (Outputs g)).

Definition opcodeInspectGroupIntentOut : M unit :=
  checkAssetPacket ;;
  let* j := dstack_PopInt in
  let* k := dstack_PopInt in
  checkGroupIndex k ;;
  let* g := group_at k in
  match intent_output_at (Outputs g) 0 j with
  | Some out =>
      dstack_PushInt (out_OutputIndex out) ;;
      pushLE64 (out_Amount out)
  | None =>
      raise (scriptError ErrInvalidIndex "intent output index out of range")
  end.

Definition opcodeInspectGroupIntentInCount : M unit :=
  checkAssetPacket ;;
  let* k := dstack_PopInt in
  checkGroupIndex k ;;
  let* g := group_at k in
  dstack_PushInt (count_intent_inputs (Inputs g)).

Definition opcodeInspectGroupIntentIn : M unit :=
  checkAssetPacket ;;
  let* j := dstack_PopInt in
  let* k := dstack_PopInt in
  checkGroupIndex k ;;
  let* g := group_at k in
  match intent_input_at (Inputs g) 0 j with
  | Some inp =>
      dstack_PushByteArray (copy_into 32 (in_Txid inp)) ;;
      dstack_PushInt (in_OutputIndex inp) ;;
      pushLE64 (in_Amount inp)
  | None =>
      raise (scriptError ErrInvalidIndex "intent input index out of range")
  end.

(** The asset family in the order of the opcode table, from
    [OP_INSPECTNUMASSETGROUPS] to [OP_INSPECTGROUPINTENTIN]. *)
Definition asset_opcodes : list (M unit) :=
  [ opcodeInspectNumAssetGroups;
    opcodeInspectAssetGroupAssetID;
    opcodeInspectAssetGroupCtrl;
    opcodeFindAssetGroupByAssetID;
    opcodeInspectAssetGroupMetadataHash;
    opcodeInspectAssetGroupNum;
    opcodeInspectAssetGroup;
    opcodeInspectAssetGroupSum;
    opcodeInspectOutAssetCount;
    opcodeInspectOutAssetAt;
    opcodeInspectOutAssetLookup;
    opcodeInspectInAssetCount;
    opcodeInspectInAssetAt;
    opcodeInspectInAssetLookup;
    opcodeInspectGroupIntentOutCount;
    opcodeInspectGroupIntentOut;
    opcodeInspectGroupIntentInCount;
    opcodeInspectGroupIntentIn ].

(** ** The opcode table

    An entry of [opcodeArray].  In Go the handler also receives the entry
    itself; a handler of the table is already the handler of its opcode,
    so [opfunc] takes the data and the engine.  The table lives in
    [opcode.go], which is not among the source files: it is a parameter
    of the dispatch loop. *)

Record opcode : Type := mkOpcode {
  op_value : Z;
  op_name : string;
  op_length : Z;
  opfunc : bytes -> Engine -> option error * Engine
}.

Definition OP_0 : Z := 0.
Definition OP_DATA_32 : Z := 32.
Definition OP_PUSHDATA1 : Z := 76.
Definition OP_PUSHDATA2 : Z := 77.
Definition OP_PUSHDATA4 : Z := 78.
Definition OP_1NEGATE : Z := 79.
Definition OP_1 : Z := 81.
Definition OP_IF : Z := 99.
Definition OP_NOTIF : Z := 100.
Definition OP_VERIF : Z := 101.
Definition OP_VERNOTIF : Z := 102.
Definition OP_ELSE : Z := 103.
Definition OP_ENDIF : Z := 104.
Definition OP_INSPECTNUMASSETGROUPS : Z := 229.

(** Modelled from the spec: the bytes of [OP_CHECKSIG] and
    [OP_CHECKSIGVERIFY] in the missing [opcode.go]: base Bitcoin opcodes
    (section 4.7), whose bytes are stable (section 6.3). *)
Definition OP_CHECKSIG : Z := 172.
Definition OP_CHECKSIGVERIFY : Z := 173.

Variable opcodeArray : Z -> opcode.

(** ** Tokenizer operations ([tokenizer.go]) *)

(** Modelled from the spec: [MakeScriptTokenizer] of the missing
    [tokenizer.go]: a fresh tokenizer at the start of a script
    (section 4.1, "restartable"); only script version 0 is supported. *)
Definition MakeScriptTokenizer (scriptVersion : Z) (script : bytes)
    : ScriptTokenizer :=
  mkTokenizer script scriptVersion 0 0 []
    (if negb (scriptVersion =? 0) then
       Some (scriptError ErrUnsupportedScriptVersion
               ("script version " +:+ fmt_d scriptVersion
                  +:+ " is not supported"))
     else None).

(** Modelled from the spec: [Done] of the missing [tokenizer.go]: the
    script is consumed or a parse error was met (section 4.1). *)
Definition tk_Done (t : ScriptTokenizer) : bool :=
  match tk_err t with
  | Some _ => true
  | None => len (tk_script t) <=? tk_offset t
  end.

(** Modelled from the spec: the failing exit of [Next] in the missing
    [tokenizer.go]: the error is recorded (section 4.1, "truncated push,
    malformed length"). *)
Definition tk_fail (t : ScriptTokenizer) (e : error) : bool * ScriptTokenizer :=
  (false,
   mkTokenizer (tk_script t) (tk_version t) (tk_offset t) (tk_op t)
     (tk_data t) (Some e)).

(** Modelled from the spec: the successful exit of [Next] in the missing
    [tokenizer.go]: the opcode and its data are recorded and the offset
    moves past them (section 4.1). *)
Definition tk_advance (t : ScriptTokenizer) (offset' : Z) (op : Z)
    (data : bytes) : bool * ScriptTokenizer :=
  (true, mkTokenizer (tk_script t) (tk_version t) offset' op data (tk_err t)).

(** Modelled from the spec: [Next] of the missing [tokenizer.go]
    (section 4.1).  It parses one opcode at [tk_offset]; the length rule
    of the opcode (1: no data; [n > 1]: [n - 1] bytes of data; [-1], [-2],
    [-4]: a little-endian length prefix of that many bytes) comes from
    the opcode table. *)
Definition tk_Next (t : ScriptTokenizer) : bool * ScriptTokenizer :=
  if tk_Done t then (false, t)
  else
    let opb := index 0 (tk_script t) (tk_offset t) in
    let l := op_length (opcodeArray opb) in
    if l =? 1 then tk_advance t (tk_offset t + 1) opb []
    else if 1 <? l then
      let script := skipn (Z.to_nat (tk_offset t)) (tk_script t) in
      if len script <? l then
        tk_fail t (scriptError ErrMalformedPush
                     ("opcode " +:+ op_name (opcodeArray opb) +:+ " requires "
                        +:+ fmt_d l +:+ " bytes, but script only has "
                        +:+ fmt_d (len script) +:+ " remaining"))
      else
        tk_advance t (tk_offset t + l) opb
          (firstn (Z.to_nat (l - 1)) (skipn 1 script))
    else if l <? 0 then
      let script := skipn (Z.to_nat (tk_offset t + 1)) (tk_script t) in
      if len script <? - l then
        tk_fail t (scriptError ErrMalformedPush
                     ("opcode " +:+ op_name (opcodeArray opb) +:+ " requires "
                        +:+ fmt_d (- l) +:+ " bytes, but script only has "
                        +:+ fmt_d (len script) +:+ " remaining"))
      else if negb ((l =? -1) || (l =? -2) || (l =? -4)) then
        tk_fail t (scriptError ErrMalformedPush
                     ("invalid opcode length " +:+ fmt_d l))
      else
        let dataLen := int32 (le_value (firstn (Z.to_nat (- l)) script)) in
        let script' := skipn (Z.to_nat (- l)) script in
        if (len script' <? dataLen) || (dataLen <? 0) then
          tk_fail t (scriptError ErrMalformedPush
                       ("opcode " +:+ op_name (opcodeArray opb)
                          +:+ " pushes " +:+ fmt_d dataLen
                          +:+ " bytes, but script only has "
                          +:+ fmt_d (len script') +:+ " remaining"))
        else
          tk_advance t (tk_offset t + 1 + (- l) + dataLen) opb
            (firstn (Z.to_nat dataLen) script')
    else
      tk_fail t (RuntimePanic "unreachable").

(** The loop [for tokenizer.Next() {}] of [checkScriptParses]: every
    successful [Next] consumes at least one byte of the script, so the
    length of the script bounds the iterations. *)
Fixpoint tokenize_all (fuel : nat) (t : ScriptTokenizer) : ScriptTokenizer :=
  match fuel with
  | O => t
  | S f =>
      match tk_Next t with
      | (true, t') => tokenize_all f t'
      | (false, t') => t'
      end
  end.

(** [checkScriptParses]: the tokenizer walks the script to its end; the
    error it met, if any. *)
Definition checkScriptParses (scriptVersion : Z) (script : bytes)
    : option error :=
  tk_err (tokenize_all (S (length script))
            (MakeScriptTokenizer scriptVersion script)).

(** ** Dispatch ([engine.go]) *)

Definition isBranchExecuting (vm : Engine) : bool :=
  match rev (condStack vm) with
  | [] => true
  | top :: _ => top =? OpCondTrue
  end.

Definition isOpcodeAlwaysIllegal (opcode : Z) : bool :=
  (opcode =? OP_VERIF) || (opcode =? OP_VERNOTIF).

Definition isOpcodeConditional (opcode : Z) : bool :=
  (opcode =? OP_IF) || (opcode =? OP_NOTIF) || (opcode =? OP_ELSE)
  || (opcode =? OP_ENDIF).

Definition minimal_push_error (dataLen : Z) (op : opcode) (instead : string)
    : option error :=
  Some (scriptError ErrMinimalData
          ("data push of " +:+ fmt_d dataLen +:+ " bytes encoded with opcode "
             +:+ op_name op +:+ " instead of " +:+ instead)).

Definition checkMinimalDataPush (op : opcode) (data : bytes) : option error :=
  let opcodeVal := op_value op in
  let dataLen := len data in
  let data0 := index 0 data 0 in
  if (dataLen =? 0) && negb (opcodeVal =? OP_0) then
    Some (scriptError ErrMinimalData
            ("zero length data push is encoded with opcode " +:+ op_name op
               +:+ " instead of OP_0"))
  else if (dataLen =? 1) && (1 <=? data0) && (data0 <=? 16) then
    if negb (opcodeVal =? uint8 (OP_1 + data0 - 1)) then
      Some (scriptError ErrMinimalData
              ("data push of the value " +:+ fmt_d data0
                 +:+ " encoded with opcode " +:+ op_name op
                 +:+ " instead of OP_" +:+ fmt_d data0))
    else None
  else if (dataLen =? 1) && (data0 =? 129) then
    if negb (opcodeVal =? OP_1NEGATE) then
      Some (scriptError ErrMinimalData
              ("data push of the value -1 encoded with opcode "
                 +:+ op_name op +:+ " instead of OP_1NEGATE"))
    else None
  else if dataLen <=? 75 then
    if negb (opcodeVal =? dataLen) then
      minimal_push_error dataLen op ("OP_DATA_" +:+ fmt_d dataLen)
    else None
  else if dataLen <=? 255 then
    if negb (opcodeVal =? OP_PUSHDATA1) then
      minimal_push_error dataLen op "OP_PUSHDATA1"
    else None
  else if dataLen <=? 65535 then
    if negb (opcodeVal =? OP_PUSHDATA2) then
      minimal_push_error dataLen op "OP_PUSHDATA2"
    else None
  else None.

Definition executeOpcode (op : opcode) (data : bytes) (vm : Engine)
    : option error * Engine :=
  if isOpcodeAlwaysIllegal (op_value op) then
    (Some (scriptError ErrReservedOpcode
             ("attempt to execute reserved opcode " +:+ op_name op)), vm)
  else if MaxScriptElementSize <? len data then
    (Some (scriptError ErrElementTooBig
             ("element size " +:+ fmt_d (len data)
                +:+ " exceeds max allowed size "
                +:+ fmt_d MaxScriptElementSize)), vm)
  else if negb (isBranchExecuting vm) && negb (isOpcodeConditional (op_value op))
  then (None, vm)
  else
    match
      (if verifyMinimalData (dstack vm) && isBranchExecuting vm
          && (op_value op <=? OP_PUSHDATA4)
       then checkMinimalDataPush op data else None)
    with
    | Some e => (Some e, vm)
    | None => opfunc op data vm
    end.

Definition checkValidPC (vm : Engine) : option error :=
  if len (scripts vm) <=? scriptIdx vm then
    Some (scriptError ErrInvalidProgramCounter
            ("script index " +:+ fmt_d (scriptIdx vm)
               +:+ " beyond total scripts " +:+ fmt_d (len (scripts vm))))
  else None.

Definition isWitnessVersionActive (vm : Engine) (version : Z) : bool :=
  match witnessProgram vm with
  | None => false
  | Some _ => uint64 (witnessVersion vm) =? version
  end.

(** [len(vm.witnessProgram)]: a nil slice has length 0. *)
Definition witnessProgram_bytes (vm : Engine) : bytes :=
  default [] (witnessProgram vm).

Definition isAnnexedWitness (witness : list bytes) : bool :=
  if len witness <? 2 then false
  else
    let lastElement := List.last witness [] in
    (0 <? len lastElement) && (index 0 lastElement 0 =? TaprootAnnexTag).

Definition extractAnnex (witness : list bytes) : result bytes :=
  if negb (isAnnexedWitness witness) then
    Fail (scriptError ErrWitnessHasNoAnnex "")
  else Ok (List.last witness []).

(** [getStack] and [setStack]. *)
Definition getStack (s : stack) : list bytes :=
  rev (map (fun i =>
              match stack_PeekByteArray (Z.of_nat i) s with
              | Ok so => so
              | Fail _ => []
              end)
           (seq 0 (length (stk s)))).

Definition setStack (s : stack) (data : list bytes) : stack :=
  fold_left (fun st d => stack_PushByteArray d st) data
    (snd (stack_DropN (stack_Depth s) s)).

Definition GetStack (vm : Engine) : list bytes := getStack (dstack vm).

Definition SetStack (data : list bytes) (vm : Engine) : Engine :=
  set_dstack (setStack (dstack vm) data) vm.

Definition GetAltStack (vm : Engine) : list bytes := getStack (astack vm).

Definition SetAltStack (data : list bytes) (vm : Engine) : Engine :=
  set_astack (setStack (astack vm) data) vm.

(** ** Witness program verification *)

Definition ctx_set_annex (a : option bytes) (c : taprootExecutionCtx)
    : taprootExecutionCtx :=
  mkTaprootCtx a (codeSepPos c) (tapLeafHash c) (sigOpsBudget c) (mustSucceed c).

Definition ctx_set_tapLeafHash (h : bytes) (c : taprootExecutionCtx)
    : taprootExecutionCtx :=
  mkTaprootCtx (annex c) (codeSepPos c) h (sigOpsBudget c) (mustSucceed c).

Definition ctx_set_mustSucceed (b : bool) (c : taprootExecutionCtx)
    : taprootExecutionCtx :=
  mkTaprootCtx (annex c) (codeSepPos c) (tapLeafHash c) (sigOpsBudget c) b.

Definition verifyWitnessProgram (witness : list bytes) (vm : Engine)
    : option error * Engine :=
  if negb (isWitnessVersionActive vm TaprootWitnessVersion)
     || negb (len (witnessProgram_bytes vm) =? payToTaprootDataSize)
  then (Some (PlainError "arkscript engine only supports taproot"), vm)
  else if len witness =? 0 then
    (Some (scriptError ErrWitnessProgramEmpty
             "witness program empty passed empty witness"), vm)
  else
    let ctx0 := newTaprootExecutionCtx (int32 (TxWitness_SerializeSize witness)) in
    let annexed := isAnnexedWitness witness in
    let ctx :=
      if annexed then
        ctx_set_annex
          (match extractAnnex witness with Ok a => Some a | Fail _ => None end)
          ctx0
      else ctx0 in
    let witness := if annexed then removelast witness else witness in
    let vm := set_taprootCtx (Some ctx) vm in
    if len witness =? 1 then
      let rawSig := index [] witness 0 in
      let '(err, cache) :=
        VerifyTaprootKeySpend (witnessProgram_bytes vm) rawSig (tx vm)
          (txIdx vm) (prevOutFetcher vm) (hashCache vm) (sigCache vm) in
      let vm := set_sigCache cache vm in
      match err with
      | Some e => (Some e, vm)
      | None => (None, set_taprootCtx (Some (ctx_set_mustSucceed true ctx)) vm)
      end
    else
      match ParseControlBlock (index [] witness (len witness - 1)) with
      | Fail e => (Some e, vm)
      | Ok controlBlock =>
          let witnessScript := index [] witness (len witness - 2) in
          match VerifyTaprootLeafCommitment controlBlock
                  (witnessProgram_bytes vm) witnessScript with
          | Some e => (Some e, vm)
          | None =>
              if negb (LeafVersion controlBlock =? BaseLeafVersion) then
                (Some (scriptError ErrDiscourageUpgradeableTaprootVersion
                         ("tapscript is attempting to use version: "
                            +:+ fmt_d (LeafVersion controlBlock))), vm)
              else
                match checkScriptParses (version vm) witnessScript with
                | Some e => (Some e, vm)
                | None =>
                    let vm :=
                      set_taprootCtx
                        (Some (ctx_set_tapLeafHash (TapHash witnessScript) ctx))
                        vm in
                    let vm := set_scripts (scripts vm ++ [witnessScript]) vm in
                    let vm :=
                      SetStack (firstn (Z.to_nat (len witness - 2)) witness) vm in
                    if MaxStackSize <? stack_Depth (dstack vm) then
                      (Some (scriptError ErrStackOverflow
                               ("tapscript stack size "
                                  +:+ fmt_d (stack_Depth (dstack vm))
                                  +:+ " > max allowed " +:+ fmt_d MaxStackSize)),
                       vm)
                    else
                      match
                        List.find
                          (fun witElement => MaxScriptElementSize <? len witElement)
                          (GetStack vm)
                      with
                      | Some witElement =>
                          (Some (scriptError ErrElementTooBig
                                   ("element size " +:+ fmt_d (len witElement)
                                      +:+ " exceeds max allowed size "
                                      +:+ fmt_d MaxScriptElementSize)), vm)
                      | None => (None, vm)
                      end
                end
          end
      end.

Definition CheckErrorCondition (finalScript : bool) (vm : Engine)
    : option error * Engine :=
  if match taprootCtx vm with Some c => mustSucceed c | None => false end then
    (None, vm)
  else if scriptIdx vm <? len (scripts vm) then
    (Some (scriptError ErrScriptUnfinished "error check when script unfinished"),
     vm)
  else if finalScript && negb (stack_Depth (dstack vm) =? 1) then
    (Some (scriptError ErrCleanStack
             ("stack must contain exactly one item (contains "
                +:+ fmt_d (stack_Depth (dstack vm)) +:+ ")")), vm)
  else if stack_Depth (dstack vm) <? 1 then
    (Some (scriptError ErrEmptyStack "stack empty at end of script execution"),
     vm)
  else
    match dstack_PopBool vm with
    | (Fail e, vm') => (Some e, vm')
    | (Ok v, vm') =>
        if negb v then
          (Some (scriptError ErrEvalFalse
                   "false stack entry at end of script execution"), vm')
        else (None, vm')
    end.

(** ** [Step]

    [nextScript] is the block of [Step] under [if vm.tokenizer.Done()]:
    the transition to the next script once the current one is consumed. *)

Definition nextScript (vm : Engine) : (bool * option error) * Engine :=
  if negb (len (condStack vm) =? 0) then
    ((false,
      Some (scriptError ErrUnbalancedConditional
              "end of script reached in conditional execution")), vm)
  else
    let vm := set_astack (snd (stack_DropN (stack_Depth (astack vm)) (astack vm))) vm in
    let vm := set_opcodeIdx 0 vm in
    let '(err, vm) :=
      if (scriptIdx vm =? 1) && bool_decide (witnessProgram vm <> None) then
        let vm := set_scriptIdx (scriptIdx vm + 1) vm in
        match at_index (TxIn (tx vm)) (txIdx vm) vm with
        | (Ok txin, vm) => verifyWitnessProgram (Witness txin) vm
        | (Fail e, vm) => (Some e, vm)
        end
      else (None, set_scriptIdx (scriptIdx vm + 1) vm) in
    match err with
    | Some e => ((false, Some e), vm)
    | None =>
        let vm :=
          if (scriptIdx vm <? len (scripts vm))
             && (len (index [] (scripts vm) (scriptIdx vm)) =? 0)
          then set_scriptIdx (scriptIdx vm + 1) vm
          else vm in
        let vm := set_lastCodeSep 0 vm in
        if len (scripts vm) <=? scriptIdx vm then ((true, None), vm)
        else
          ((false, None),
           set_tokenizer
             (MakeScriptTokenizer (version vm)
                (index [] (scripts vm) (scriptIdx vm))) vm)
    end.

Definition Step (vm : Engine) : (bool * option error) * Engine :=
  match checkValidPC vm with
  | Some e => ((true, Some e), vm)
  | None =>
      let '(ok, tk) := tk_Next (tokenizer vm) in
      let vm := set_tokenizer tk vm in
      if negb ok then
        match tk_err tk with
        | Some e => ((false, Some e), vm)
        | None =>
            ((true,
              Some (scriptError ErrInvalidProgramCounter
                      ("attempt to step beyond script index "
                         +:+ fmt_d (scriptIdx vm) +:+ " (bytes "
                         +:+ fmt_x (index [] (scripts vm) (scriptIdx vm))
                         +:+ ")"))), vm)
        end
      else
        match executeOpcode (opcodeArray (tk_op tk)) (tk_data tk) vm with
        | (Some e, vm) => ((true, Some e), vm)
        | (None, vm) =>
            let combinedStackSize :=
              stack_Depth (dstack vm) + stack_Depth (astack vm) in
            if MaxStackSize <? combinedStackSize then
              ((false,
                Some (scriptError ErrStackOverflow
                        ("combined stack size " +:+ fmt_d combinedStackSize
                           +:+ " > max allowed " +:+ fmt_d MaxStackSize))), vm)
            else
              let vm := set_opcodeIdx (opcodeIdx vm + 1) vm in
              if tk_Done (tokenizer vm) then nextScript vm
              else ((false, None), vm)
        end
  end.

(** ** [Execute]

    The loop [for !done { done, err = vm.Step() ... }] runs on fuel: each
    iteration is one [Step].  [None] is an exhausted fuel, never a result
    of the engine.  [stepInfo] is the pointer of the same name: it is
    read only once the execution is done, and is [nil] only if the
    callback was set after [Execute] began. *)

Definition copyStack (stk : list bytes) : list bytes := map (fun e => e) stk.

Definition stepInfo_of (si oi : Z) (vm : Engine) : StepInfo :=
  mkStepInfo si oi (copyStack (stk (dstack vm))) (copyStack (stk (astack vm))).

Fixpoint Execute_loop (fuel : nat) (stepInfo : option StepInfo) (vm : Engine)
    : option (option error * Engine) :=
  match fuel with
  | O => None
  | S f =>
      match Step vm with
      | ((_, Some e), vm) => Some (Some e, vm)
      | ((done, None), vm) =>
          match stepCallback vm with
          | None =>
              if done then Some (CheckErrorCondition true vm)
              else Execute_loop f stepInfo vm
          | Some callback =>
              match
                (if done then
                   match stepInfo with
                   | None => None
                   | Some prev =>
                       Some (stepInfo_of (ScriptIndex prev)
                               (OpcodeIndex prev + 1) vm)
                   end
                 else Some (stepInfo_of (scriptIdx vm) (opcodeIdx vm) vm))
              with
              | None => Some (Some (RuntimePanic "nil pointer dereference"), vm)
              | Some info =>
                  match callback info with
                  | Some e => Some (Some e, vm)
                  | None =>
                      if done then Some (CheckErrorCondition true vm)
                      else Execute_loop f (Some info) vm
                  end
              end
          end
      end
  end.

Definition Execute (fuel : nat) (vm : Engine) : option (option error * Engine) :=
  if negb (version vm =? 0) then Some (None, vm)
  else
    match stepCallback vm with
    | None => Execute_loop fuel None vm
    | Some callback =>
        let info := stepInfo_of (scriptIdx vm) (opcodeIdx vm) vm in
        match callback info with
        | Some e => Some (Some e, vm)
        | None => Execute_loop fuel (Some info) vm
        end
    end.

(** ** [NewEngine] *)

Definition NewEngine (scriptPubKey : bytes) (tx : MsgTx) (txIdx : Z)
    (sigCache : option SigCache) (hashCache : TxSigHashes) (inputAmount : Z)
    (prevOutFetcher : PrevOutputFetcher) : result Engine :=
  let scriptVersion := 0 in
  if (txIdx <? 0) || (len (TxIn tx) <=? txIdx) then
    Fail (scriptError ErrInvalidIndex
            ("transaction input index " +:+ fmt_d txIdx
               +:+ " is negative or >= " +:+ fmt_d (len (TxIn tx))))
  else
    match TxIn tx !! Z.to_nat txIdx with
    | None => Fail (RuntimePanic "index out of range")
    | Some txin =>
        let scriptSig := SignatureScript txin in
        if (len scriptSig =? 0) && (len scriptPubKey =? 0) then
          Fail (scriptError ErrEvalFalse
                  "false stack entry at end of script execution")
        else if negb (IsPushOnlyScript scriptSig) then
          Fail (scriptError ErrNotPushOnly "signature script is not push only")
        else
          let scripts := [scriptSig; scriptPubKey] in
          match
            List.find
              (fun scr =>
                 (MaxScriptSize <? len scr)
                 || bool_decide (checkScriptParses scriptVersion scr <> None))
              scripts
          with
          | Some scr =>
              if MaxScriptSize <? len scr then
                Fail (scriptError ErrScriptTooBig
                        ("script size " +:+ fmt_d (len scr)
                           +:+ " is larger than max allowed size "
                           +:+ fmt_d MaxScriptSize))
              else
                match checkScriptParses scriptVersion scr with
                | Some e => Fail e
                | None => Fail (RuntimePanic "unreachable")
                end
          | None =>
              let scriptIdx := if len scriptSig =? 0 then 1 else 0 in
              let build (witnessVersion : Z) (witnessProgram : option bytes) :=
                mkEngine tx txIdx 0 sigCache hashCache prevOutFetcher None
                  scripts scriptIdx 0 0
                  (MakeScriptTokenizer scriptVersion
                     (index [] scripts scriptIdx))
                  (mkStack [] true) (mkStack [] true) []
                  witnessVersion witnessProgram inputAmount None None in
              if IsWitnessProgram scriptPubKey then
                if negb (len scriptSig =? 0) then
                  Fail (scriptError ErrWitnessMalleated
                          "native witness program cannot also have a signature script")
                else
                  match ExtractWitnessProgramInfo scriptPubKey with
                  | Fail e => Fail e
                  | Ok (witnessVersion, witnessProgram) =>
                      Ok (build witnessVersion (Some witnessProgram))
                  end
              else if negb (len (Witness txin) =? 0) then
                Fail (scriptError ErrWitnessUnexpected
                        "non-witness inputs cannot have a witness")
              else Ok (build 0 None)
          end
    end.

(** ** Signature verification ([sigvalidate.go]) *)

Record verifyResult : Type := mkVerifyResult { sigValid : bool }.

(** [sigCache] holds the contents of the shared cache object when the
    verifier is built; [verifySig] returns the contents it leaves. *)
Record taprootSigVerifier : Type := mkTaprootSigVerifier {
  pubKey : PublicKey;
  pkBytes : bytes;
  fullSigBytes : bytes;
  sig : Signature;
  hashType : Z;
  v_sigCache : option SigCache;
  v_hashCache : TxSigHashes;
  v_tx : MsgTx;
  inputIndex : Z;
  v_annex : option bytes;
  prevOuts : PrevOutputFetcher
}.

Definition parseTaprootSigAndPubKey (pkBytes rawSig : bytes)
    : result (PublicKey * Signature * Z) :=
  match schnorr_ParsePubKey pkBytes with
  | Fail e => Fail e
  | Ok pubKey =>
      if len rawSig =? schnorr_SignatureSize then
        match schnorr_ParseSignature rawSig with
        | Fail e => Fail e
        | Ok sig => Ok (pubKey, sig, SigHashDefault)
        end
      else if (len rawSig =? schnorr_SignatureSize + 1)
              && negb (index 0 rawSig 64 =? 0) then
        let sigHashType := index 0 rawSig schnorr_SignatureSize in
        let rawSig := firstn (Z.to_nat schnorr_SignatureSize) rawSig in
        match schnorr_ParseSignature rawSig with
        | Fail e => Fail e
        | Ok sig => Ok (pubKey, sig, sigHashType)
        end
      else
        Fail (scriptError ErrInvalidTaprootSigLen
                ("invalid sig len: " +:+ fmt_d (len rawSig)))
  end.

Definition newTaprootSigVerifier (pkBytes fullSigBytes : bytes) (tx : MsgTx)
    (inputIndex : Z) (prevOuts : PrevOutputFetcher)
    (sigCache : option SigCache) (hashCache : TxSigHashes)
    (annex : option bytes) : result taprootSigVerifier :=
  match parseTaprootSigAndPubKey pkBytes fullSigBytes with
  | Fail e => Fail e
  | Ok (pubKey, sig, sigHashType) =>
      Ok (mkTaprootSigVerifier pubKey pkBytes fullSigBytes sig sigHashType
            sigCache hashCache tx inputIndex annex prevOuts)
  end.

(** [chainhash.NewHash]: a hash is exactly [HashSize] bytes. *)
Definition chainhash_NewHash (b : bytes) : option bytes :=
  if len b =? chainhash_HashSize then Some b else None.

(** [verifySig]: the verdict and the contents of the cache afterwards.
    [*cacheKey] is a nil dereference when [sigHash] is not a hash. *)
Definition verifySig (t : taprootSigVerifier) (sigHash : bytes)
    : result bool * option SigCache :=
  let cacheKey := chainhash_NewHash sigHash in
  let miss :=
    let valid := Signature_Verify (sig t) sigHash (pubKey t) in
    if valid then
      match v_sigCache t, cacheKey with
      | Some c, Some key =>
          (Ok true, Some (SigCache_Add c key (fullSigBytes t) (pkBytes t)))
      | Some c, None => (Fail (RuntimePanic "nil pointer dereference"), Some c)
      | None, _ => (Ok true, None)
      end
    else (Ok false, v_sigCache t) in
  match v_sigCache t with
  | Some c =>
      match cacheKey with
      | None => (Fail (RuntimePanic "nil pointer dereference"), Some c)
      | Some key =>
          if SigCache_Exists c key (fullSigBytes t) (pkBytes t) then
            (Ok true, Some c)
          else miss
      end
  | None => miss
  end.

(** The digest [taprootSigVerifier.Verify] hands to [verifySig]. *)
Definition taproot_sigHash (t : taprootSigVerifier) : result bytes :=
  CalcTaprootSignatureHash (v_hashCache t) (hashType t) (v_tx t)
    (inputIndex t) (prevOuts t).

Definition taprootSigVerifier_Verify (t : taprootSigVerifier)
    : result verifyResult * option SigCache :=
  match taproot_sigHash t with
  | Fail _ => (Ok (mkVerifyResult false), v_sigCache t)
  | Ok sigHash =>
      match verifySig t sigHash with
      | (Ok v, c) => (Ok (mkVerifyResult v), c)
      | (Fail e, c) => (Fail e, c)
      end
  end.

Record baseTapscriptSigVerifier : Type := mkBaseTapscriptSigVerifier {
  base : taprootSigVerifier;
  b_vm : Engine
}.

Definition newBaseTapscriptSigVerifier (pkBytes rawSig : bytes) (vm : Engine)
    : result baseTapscriptSigVerifier :=
  if len pkBytes =? 0 then Fail (scriptError ErrTaprootPubkeyIsEmpty "")
  else if len pkBytes =? 32 then
    match taprootCtx vm with
    | None => Fail (RuntimePanic "nil pointer dereference")
    | Some ctx =>
        match
          newTaprootSigVerifier pkBytes rawSig (tx vm) (txIdx vm)
            (prevOutFetcher vm) (sigCache vm) (hashCache vm) (annex ctx)
        with
        | Fail e => Fail e
        | Ok baseTaprootVerifier =>
            Ok (mkBaseTapscriptSigVerifier baseTaprootVerifier vm)
        end
    end
  else
    Fail (scriptError ErrDiscourageUpgradeablePubKeyType
            ("pubkey of length " +:+ fmt_d (len pkBytes) +:+ " was used")).

(** The digest [baseTapscriptSigVerifier.Verify] hands to [verifySig]:
    the call of [txscript.CalcTaprootSignatureHash] with the arguments
    the source passes. *)
Definition baseTapscript_sigHash (b : baseTapscriptSigVerifier) : result bytes :=
  CalcTaprootSignatureHash (v_hashCache (base b)) (hashType (base b))
    (v_tx (base b)) (inputIndex (base b)) (prevOuts (base b)).

Definition baseTapscriptSigVerifier_Verify (b : baseTapscriptSigVerifier)
    : result verifyResult * option SigCache :=
  match baseTapscript_sigHash b with
  | Fail _ => (Ok (mkVerifyResult false), v_sigCache (base b))
  | Ok sigHash =>
      match verifySig (base b) sigHash with
      | (Ok v, c) => (Ok (mkVerifyResult v), c)
      | (Fail e, c) => (Fail e, c)
      end
  end.

(** ** The signature opcodes ([opcode.go])

    [opcode.go] is not among the source files.  The opcodes that check a
    signature are modelled from the specification; the budget they count
    against is [tallysigOp], and the verifier CHECKSIG builds and runs is
    [newBaseTapscriptSigVerifier] with [baseTapscriptSigVerifier.Verify],
    of the sources above. *)

(** A library call that returns a value or an error. *)
Definition of_result {A : Type} (r : result A) : M A := fun vm => (r, vm).

(** Modelled from the spec: [PushBool] of the missing [stack.go]
    (section 4.7: "pushes 1 on success, 0 on failure"): the script
    numbers 1 and 0. *)
Definition dstack_PushBool (val : bool) : M unit :=
  dstack_PushInt (if val then 1 else 0).

(** Modelled from the spec: the budget accounting of the signature
    opcodes in the missing [opcode.go].  Section 3.1: "In leaf execution,
    each opcode that verifies a signature decrements sig_ops_budget by 50;
    reaching <0 = error"; section 4.6: "Every signature check decrements
    the sig-ops budget by 50".  Leaf execution is the execution with a
    taproot context; the decrement is [tallysigOp] on that context. *)
Definition tally_sigop : M unit :=
  fun vm =>
    match taprootCtx vm with
    | None => (Ok tt, vm)
    | Some ctx =>
        let '(err, ctx) := tallysigOp ctx in
        let vm := set_taprootCtx (Some ctx) vm in
        match err with
        | Some e => (Fail e, vm)
        | None => (Ok tt, vm)
        end
    end.

(** Modelled from the spec: the signature check of the CHECKSIG family
    in the missing [opcode.go] (section 4.6): the tapscript verifier is
    built for the key and the signature, whose rules are those of
    [newBaseTapscriptSigVerifier], and run.  The verifier works on the
    cache object of the engine: the cache it leaves is the cache of the
    engine. *)
Definition tapscript_verdict (pkBytes fullSigBytes : bytes) : M bool :=
  let* verifier :=
    (fun vm => (newBaseTapscriptSigVerifier pkBytes fullSigBytes vm, vm)) in
  let* verdict :=
    (fun vm =>
       let '(r, cache) := baseTapscriptSigVerifier_Verify verifier in
       (r, set_sigCache cache vm)) in
  ret (sigValid verdict).

(** Modelled from the spec: [opcodeCheckSig] of the missing [opcode.go].
    The opcode takes the public key, on top, and the signature; it counts
    against the sig-ops budget, checks the signature and pushes the
    verdict (section 7: "Signature-check opcodes do not raise on invalid
    signature in the CHECKSIG family (except in VERIFY form); they push
    boolean 0"). *)
Definition opcodeCheckSig : M unit :=
  let* pkBytes := dstack_PopByteArray in
  let* fullSigBytes := dstack_PopByteArray in
  tally_sigop ;;
  let* valid := tapscript_verdict pkBytes fullSigBytes in
  dstack_PushBool valid.

(** Modelled from the spec: [opcodeCheckSigVerify] of the missing
    [opcode.go]: CHECKSIG followed by the test of its verdict (section 7:
    "A VERIFY-suffixed variant that finds its predicate false raises
    EvalFalse"). *)
Definition opcodeCheckSigVerify : M unit :=
  opcodeCheckSig ;;
  let* verified := dstack_PopBool in
  if negb verified then
    raise (scriptError ErrEvalFalse "OP_CHECKSIGVERIFY failed")
  else ret tt.

(** Modelled from the spec: [opcodeCheckSigFromStack] of the missing
    [opcode.go].  Section 4.7: "CHECKSIGFROMSTACK takes (sig, msg, pubkey)
    and performs BIP-340 verify against msg as the digest directly (not a
    tx sighash); pushes 1 on success, 0 on failure; consumes sig-ops
    budget".  The public key is on top, as the test of the opcode in
    [engine_test.go] pushes it; a key or a signature the library does not
    parse is the error of the library. *)
Definition opcodeCheckSigFromStack : M unit :=
  let* pkBytes := dstack_PopByteArray in
  let* msg := dstack_PopByteArray in
  let* sigBytes := dstack_PopByteArray in
  tally_sigop ;;
  let* pubKey := of_result (schnorr_ParsePubKey pkBytes) in
  let* sig := of_result (schnorr_ParseSignature sigBytes) in
  dstack_PushBool (Signature_Verify sig msg pubKey).

End EngineModel.

Arguments Engine {L}.
Arguments opcode {L}.

(** ** Names of the error kinds

    The specification names an error kind by the name of its
    [txscript.ErrorCode] without the [Err] prefix ([StackOverflow],
    [TaprootMaxSigOps], ...). *)

Definition kind_name (c : ErrorCode) : string :=
  match c with
  | ErrInvalidIndex => "InvalidIndex"
  | ErrInvalidStackOperation => "InvalidStackOperation"
  | ErrNumberTooBig => "NumberTooBig"
  | ErrMinimalData => "MinimalData"
  | ErrReservedOpcode => "ReservedOpcode"
  | ErrElementTooBig => "ElementTooBig"
  | ErrInvalidProgramCounter => "InvalidProgramCounter"
  | ErrWitnessProgramEmpty => "WitnessProgramEmpty"
  | ErrDiscourageUpgradeableTaprootVersion => "DiscourageUpgradeableTaprootVersion"
  | ErrStackOverflow => "StackOverflow"
  | ErrScriptUnfinished => "ScriptUnfinished"
  | ErrCleanStack => "CleanStack"
  | ErrEmptyStack => "EmptyStack"
  | ErrEvalFalse => "EvalFalse"
  | ErrUnbalancedConditional => "UnbalancedConditional"
  | ErrWitnessHasNoAnnex => "WitnessHasNoAnnex"
  | ErrInvalidTaprootSigLen => "InvalidTaprootSigLen"
  | ErrTaprootPubkeyIsEmpty => "TaprootPubkeyIsEmpty"
  | ErrDiscourageUpgradeablePubKeyType => "DiscourageUpgradeablePubKeyType"
  | ErrTaprootMaxSigOps => "TaprootMaxSigOps"
  | ErrMalformedPush => "MalformedPush"
  | ErrUnsupportedScriptVersion => "UnsupportedScriptVersion"
  | ErrNotPushOnly => "NotPushOnly"
  | ErrScriptTooBig => "ScriptTooBig"
  | ErrWitnessMalleated => "WitnessMalleated"
  | ErrWitnessUnexpected => "WitnessUnexpected"
  end.

(** The kind of the error a call returned, if it returned a
    [txscript.Error]. *)
Definition error_kind (e : option error) : option string :=
  match e with
  | Some (ScriptError c _) => Some (kind_name c)
  | _ => None
  end.

(** ** An executable instance of the libraries

    The examples run the engine on concrete transactions.  For them the
    btcd functions are replaced by small stand-ins with the same
    signatures: a public key is any 32 bytes, a signature any 64 bytes,
    a signature verifies when it is the digest followed by the key, and
    the sighash midstate of a transaction is the total of its output
    values.  No general theorem below depends on this instance. *)

Module Demo.

Definition ParsePubKey (b : bytes) : result bytes :=
  if len b =? 32 then Ok b else Fail (PlainError "malformed public key").

Definition ParseSignature (b : bytes) : result bytes :=
  if len b =? 64 then Ok b else Fail (PlainError "malformed signature").

Definition Verify (sig hash pk : bytes) : bool := bytes_eqb sig (hash ++ pk).

(** [txscript.NewTxSigHashes]: the midstate computed from a transaction,
    which commits to its outputs. *)
Definition NewTxSigHashes (tx : MsgTx) : bytes :=
  le_bytes 8 (fold_right Z.add 0 (map Value (TxOut tx))).

(** The digest commits to the version of the transaction, the midstate of
    the hash cache, the lock time, the sighash type and the input index. *)
Definition SignatureHash (hashCache : bytes) (hashType : Z) (tx : MsgTx)
    (idx : Z) (_ : unit) : result bytes :=
  Ok (le_bytes 8 (Version tx) ++ copy_into 8 hashCache
        ++ le_bytes 8 (LockTime tx) ++ le_bytes 4 hashType ++ le_bytes 4 idx).

Definition KeySpend (prog rawSig : bytes) (tx : MsgTx) (idx : Z)
    (prevOuts : unit) (hashCache : bytes) (cache : option SigCache)
    : option error * option SigCache :=
  match SignatureHash hashCache SigHashDefault tx idx prevOuts with
  | Ok h =>
      if Verify rawSig h prog then (None, cache)
      else (Some (PlainError "invalid key spend signature"), cache)
  | Fail e => (Some e, cache)
  end.

Definition ParseControl (b : bytes) : result bytes :=
  if len b <? 33 then Fail (PlainError "control block too small") else Ok b.

Definition Leaf (script : bytes) : bytes := copy_into 32 script.

Definition LeafCommitment (cb prog script : bytes) : option error :=
  if bytes_eqb (Leaf script) prog then None
  else Some (PlainError "leaf is not committed").

#[global] Instance lib : Btcd := {|
  PublicKey := bytes;
  Signature := bytes;
  TxSigHashes := bytes;
  PrevOutputFetcher := unit;
  ControlBlock := bytes;
  schnorr_ParsePubKey := ParsePubKey;
  schnorr_ParseSignature := ParseSignature;
  Signature_Verify := Verify;
  CalcTaprootSignatureHash := SignatureHash;
  VerifyTaprootKeySpend := KeySpend;
  ParseControlBlock := ParseControl;
  LeafVersion := fun cb => Z.land (index 0 cb 0) 254;
  VerifyTaprootLeafCommitment := LeafCommitment;
  TapHash := Leaf;
  IsPushOnlyScript := forallb (fun b => b <=? 96);
  IsWitnessProgram :=
    fun s => (len s =? 34) && (index 0 s 0 =? OP_1) && (index 0 s 1 =? OP_DATA_32);
  ExtractWitnessProgramInfo := fun s => Ok (1, skipn 2 s)
|}.

(** A handler of the table from an engine computation. *)
Definition handler_of (m : M unit) : bytes -> @Engine lib -> option error * Engine :=
  fun _ vm => as_error (m vm).

(** Modelled from the spec: [opcodePushData] of the missing [opcode.go]: a
    data push puts its immediate data on the stack (section 4.1). *)
Definition opcodePushData : bytes -> @Engine lib -> option error * Engine :=
  fun data vm => as_error (dstack_PushByteArray data vm).

(** Modelled from the spec: [opcodeN] of the missing [opcode.go]: [OP_1]
    to [OP_16] push their number. *)
Definition opcodeN (value : Z) : bytes -> @Engine lib -> option error * Engine :=
  fun _ vm => as_error (dstack_PushByteArray [uint8 (value - (OP_1 - 1))] vm).

(** The handler of the entries that are not modelled. *)
Definition opcodeMissing : bytes -> @Engine lib -> option error * Engine :=
  fun _ vm => (Some (PlainError "opcode outside the modelled table"), vm).

(** Modelled from the spec: the entries of [opcodeArray], of the missing
    [opcode.go], that the examples execute: the data pushes with their
    length rules (section 4.1), [OP_1NEGATE], [OP_1] to [OP_16],
    [OP_CHECKSIG] and [OP_CHECKSIGVERIFY], and the asset family,
    contiguous from [0xe5] in the order of section 4.9 (section 6.3).
    Every other entry fails. *)
Definition opcodeArray (b : Z) : @opcode lib :=
  if b =? OP_0 then mkOpcode b "OP_0" 1 opcodePushData
  else if (1 <=? b) && (b <=? 75) then mkOpcode b "OP_DATA" (b + 1) opcodePushData
  else if b =? OP_PUSHDATA1 then mkOpcode b "OP_PUSHDATA1" (-1) opcodePushData
  else if b =? OP_PUSHDATA2 then mkOpcode b "OP_PUSHDATA2" (-2) opcodePushData
  else if b =? OP_PUSHDATA4 then mkOpcode b "OP_PUSHDATA4" (-4) opcodePushData
  else if b =? OP_1NEGATE then
    mkOpcode b "OP_1NEGATE" 1 (handler_of (dstack_PushInt (-1)))
  else if (OP_1 <=? b) && (b <=? 96) then mkOpcode b "OP_N" 1 (opcodeN b)
  else if b =? OP_CHECKSIG then
    mkOpcode b "OP_CHECKSIG" 1 (handler_of opcodeCheckSig)
  else if b =? OP_CHECKSIGVERIFY then
    mkOpcode b "OP_CHECKSIGVERIFY" 1 (handler_of opcodeCheckSigVerify)
  else
    match
      (if b <? OP_INSPECTNUMASSETGROUPS then None
       else asset_opcodes !! Z.to_nat (b - OP_INSPECTNUMASSETGROUPS))
    with
    | Some m => mkOpcode b "OP_ASSET" 1 (handler_of m)
    | None => mkOpcode b "OP_UNKNOWN" 1 opcodeMissing
    end.

(** The fixtures of [asset_opcodes_test.go]. *)

Definition testAssetTxid : bytes := map Z.of_nat (seq 1 32).
Definition testControlTxid : bytes := map Z.of_nat (seq 161 32).
Definition testIntentTxid : bytes := map (fun n => Z.of_nat n mod 256) (seq 241 32).
Definition testMetadataHash : bytes :=
  concat (repeat [222; 173; 190; 239] 8).

Definition makeTestAssetPacket : AssetPacket :=
  let controlID := mkAssetID testControlTxid 1 in
  mkAssetPacket
    [ mkAssetGroup (mkAssetID testAssetTxid 0) (Some controlID) testMetadataHash
        [ mkAssetInput AssetInputTypeLocal 0 zeroHash 0 1000;
          mkAssetInput AssetInputTypeIntent 0 testIntentTxid 2 500 ]
        [ mkAssetOutput AssetOutputTypeLocal 0 800;
          mkAssetOutput AssetOutputTypeIntent 1 700 ];
      mkAssetGroup (mkAssetID testControlTxid 1) None zeroHash
        [ mkAssetInput AssetInputTypeLocal 1 zeroHash 0 200 ]
        [ mkAssetOutput AssetOutputTypeLocal 2 200 ] ]
    (list_to_map
       [ (0, [mkAssetEntry (mkAssetID testAssetTxid 0) 1000]);
         (1, [mkAssetEntry (mkAssetID testControlTxid 1) 200]) ])
    (list_to_map
       [ (0, [mkAssetEntry (mkAssetID testAssetTxid 0) 800]);
         (1, [mkAssetEntry (mkAssetID testAssetTxid 0) 700]);
         (2, [mkAssetEntry (mkAssetID testControlTxid 1) 200]) ]).

(** [makeTestTx], with the witness of its input and its version. *)
Definition txOf (version : Z) (witness : list bytes) : MsgTx :=
  mkMsgTx version [mkTxIn (mkOutPoint zeroHash 0) [] witness 0]
    [mkTxOut 1000000 []; mkTxOut 500000 []; mkTxOut 200000 []] 0.

Definition makeTestTx (witness : list bytes) : MsgTx := txOf 1 witness.

(** An engine on a bare script (no witness program), as the opcode tests
    build it, with a packet and an initial stack. *)
Definition scriptEngine (script : bytes) (packet : option AssetPacket)
    (initialStack : list bytes) : result (@Engine lib) :=
  match
    NewEngine opcodeArray script (makeTestTx []) 0 None
      (NewTxSigHashes (makeTestTx [])) 0 tt
  with
  | Ok vm => Ok (SetStack initialStack (SetAssetPacket packet vm))
  | Fail e => Fail e
  end.

(** An engine on a taproot output with program [prog]. *)
Definition taprootEngine (prog : bytes) (witness : list bytes)
    : result (@Engine lib) :=
  NewEngine opcodeArray (OP_1 :: OP_DATA_32 :: prog) (makeTestTx witness) 0
    (Some (mkSigCache ∅ 100)) (NewTxSigHashes (makeTestTx witness)) 0 tt.

(** The engine [NewEngine] builds for a bare script, written out. *)
Definition bareEngine (script : bytes) (packet : option AssetPacket)
    (initialStack : list bytes) : @Engine lib :=
  mkEngine (makeTestTx []) 0 0 None (NewTxSigHashes (makeTestTx [])) tt packet
    [[]; script] 1 0 0 (MakeScriptTokenizer 0 script)
    (mkStack initialStack true) (mkStack [] true) [] 0 None 0 None None.

(** A packet whose only group has two inputs of [2^64 - 1] and [1]. *)
Definition overflowPacket : AssetPacket :=
  mkAssetPacket
    [ mkAssetGroup (mkAssetID testAssetTxid 0) None zeroHash
        [ mkAssetInput AssetInputTypeLocal 0 zeroHash 0 18446744073709551615;
          mkAssetInput AssetInputTypeLocal 1 zeroHash 0 1 ]
        [ mkAssetOutput AssetOutputTypeLocal 0 1 ] ]
    ∅ ∅.

(** The engine [NewEngine] builds on a taproot output of program [prog]
    for the input of [tx], written out, with a given hash cache,
    signature cache and taproot context. *)
Definition taprootVmOn (tx : MsgTx) (hashCache : bytes) (prog : bytes)
    (cache : option SigCache) (ctx : option taprootExecutionCtx)
    : @Engine lib :=
  mkEngine tx 0 0 cache hashCache tt None
    [[]; OP_1 :: OP_DATA_32 :: prog] 1 0 0
    (MakeScriptTokenizer 0 (OP_1 :: OP_DATA_32 :: prog))
    (mkStack [] true) (mkStack [] true) [] 1 (Some prog) 0 ctx None.

Definition taprootVm (prog : bytes) (witness : list bytes)
    (cache : option SigCache) (ctx : option taprootExecutionCtx)
    : @Engine lib :=
  taprootVmOn (makeTestTx witness) (NewTxSigHashes (makeTestTx witness)) prog
    cache ctx.

(** The digest of input 0 of the test transaction of the given version
    under the default sighash type, and the stand-in signature of a key
    on it. *)
Definition digestOf (version : Z) : bytes :=
  le_bytes 8 version ++ le_bytes 8 1700000 ++ le_bytes 8 0 ++ le_bytes 4 0
    ++ le_bytes 4 0.

Definition testDigest : bytes := digestOf 1.

Definition signatureOf (pk : bytes) : bytes := testDigest ++ pk.

(** The verifier [newBaseTapscriptSigVerifier] builds on an engine, for a
    key and a signature it accepts. *)
Definition verifierOn (pk rawSig : bytes) (vm : @Engine lib)
    : baseTapscriptSigVerifier :=
  match newBaseTapscriptSigVerifier pk rawSig vm with
  | Ok b => b
  | Fail _ =>
      mkBaseTapscriptSigVerifier
        (mkTaprootSigVerifier pk pk rawSig rawSig 0 (sigCache vm)
           (hashCache vm) (tx vm) (txIdx vm) None tt) vm
  end.

(** A key spend with an annex, and the engines around the last opcode of
    its public key script: before [Step] parses it, the token parsed, and
    the engine its handler leaves. *)
Definition keyspendWitness : list bytes := [signatureOf zeroHash; [80; 9]].

Definition atLastOpcode : @Engine lib :=
  snd (Step opcodeArray
         (taprootVm zeroHash keyspendWitness (Some (mkSigCache ∅ 100)) None)).

Definition lastToken : ScriptTokenizer :=
  snd (tk_Next opcodeArray (tokenizer atLastOpcode)).

Definition afterLastOpcode : @Engine lib :=
  snd (executeOpcode (opcodeArray (tk_op lastToken)) (tk_data lastToken)
         (set_tokenizer lastToken atLastOpcode)).

(** A transaction of version 80: the stand-in signature of its input
    starts with the byte 0x50, the annex tag. *)
Definition taggedSignature : bytes := digestOf 80 ++ zeroHash.

Definition taggedVm : @Engine lib :=
  taprootVmOn (txOf 80 [taggedSignature])
    (NewTxSigHashes (txOf 80 [taggedSignature])) zeroHash None None.

(** A script-path spend.  The leaf script is a single [OP_CHECKSIG]; the
    witness carries the signature and the key it checks, the leaf script
    and a control block of the base leaf version. *)
Definition checksigScript : bytes := [OP_CHECKSIG].

Definition testKey : bytes := repeat 3 32.

Definition controlBlock : bytes := BaseLeafVersion :: repeat 0 32.

Definition scriptPathWitness (rawSig : bytes) : list bytes :=
  [rawSig; testKey; checksigScript; controlBlock].

(** The engine of that spend, with a given signature, signature cache and
    hash cache. *)
Definition scriptPathVm (rawSig : bytes) (cache : option SigCache)
    (hashCache : bytes) : @Engine lib :=
  taprootVmOn (makeTestTx (scriptPathWitness rawSig)) hashCache
    (Leaf checksigScript) cache None.

(** The same engine in leaf execution, at the [OP_CHECKSIG]: two steps
    run the public key script and verify the witness program. *)
Definition leafVm (cache : option SigCache) : @Engine lib :=
  snd (Step opcodeArray
         (snd (Step opcodeArray
                 (scriptPathVm (signatureOf testKey) cache
                    (NewTxSigHashes (makeTestTx [])))))).

(** A signature cache that holds the entry of the signature of that
    spend, as a verification of it leaves it. *)
Definition warmCache : SigCache :=
  mkSigCache {[ testDigest := (signatureOf testKey, testKey) ]} 100.

(** The hash cache of a transaction with other outputs. *)
Definition staleHashes : bytes :=
  NewTxSigHashes
    (mkMsgTx 1 [mkTxIn (mkOutPoint zeroHash 0) [] [] 0] [mkTxOut 7 []] 0).

(** The outcome of a handler on the test packet: its error and the data
    stack it leaves. *)
Definition outcome (m : M unit) (initialStack : list bytes)
    : option error * list bytes :=
  let r := m (bareEngine [] (Some makeTestAssetPacket) initialStack) in
  (fst (as_error r), stk (dstack (snd r))).

(** The error [Execute] returns on an engine ([None]: fuel exhausted). *)
Definition run (fuel : nat) (vm : result (@Engine lib)) : option (option error) :=
  match vm with
  | Ok vm => fst <$> Execute opcodeArray fuel vm
  | Fail e => Some (Some e)
  end.

End Demo.

(** ** Reference quantities

    The sum of the amounts of a group as an integer, without the
    wrap-around of [uint64]. *)

Definition total_inputs (inputs : list AssetInput) : Z :=
  fold_right Z.add 0 (map in_Amount inputs).

Definition total_outputs (outputs : list AssetOutput) : Z :=
  fold_right Z.add 0 (map out_Amount outputs).

(** ** Reachable engines

    The engines an execution goes through: the one [NewEngine] returns,
    with or without an asset packet attached, and every engine a [Step]
    that returns no error leaves. *)

Inductive reachable `{L : Btcd} (opcodeArray : Z -> opcode) : Engine -> Prop :=
| reach_new scriptPubKey tx txIdx sigCache hashCache inputAmount prevOuts vm :
    NewEngine opcodeArray scriptPubKey tx txIdx sigCache hashCache inputAmount
      prevOuts = Ok vm ->
    reachable opcodeArray vm
| reach_packet vm packet :
    reachable opcodeArray vm ->
    reachable opcodeArray (SetAssetPacket packet vm)
| reach_step vm done vm' :
    reachable opcodeArray vm ->
    Step opcodeArray vm = ((done, None), vm') ->
    reachable opcodeArray vm'.

(** ** Sound signature caches

    A cache is sound when each of its entries is a (sighash, signature,
    public key) triple that parses and passes BIP-340 verification: the
    only entries [verifySig] itself adds. *)

Definition cache_sound `{L : Btcd} (cache : option SigCache) : Prop :=
  forall (c : SigCache) (key fullSig pk : bytes),
    cache = Some c ->
    SigCache_Exists c key fullSig pk = true ->
    exists pubKey sig hashType,
      parseTaprootSigAndPubKey pk fullSig = Ok (pubKey, sig, hashType)
      /\ Signature_Verify sig key pubKey = true.

(** Every digest the sighash function returns is a 32-byte hash. *)
Definition digests_are_hashes `{L : Btcd} : Prop :=
  forall hashCache hashType tx idx prevOuts h,
    CalcTaprootSignatureHash hashCache hashType tx idx prevOuts = Ok h ->
    len h = chainhash_HashSize.

(** ** Statements

    Functions the statements below are written with. *)

(** The encoding of a [uint16] as a script number reads back as the same
    number, with or without the minimal-encoding check: every value of
    the type is tried. *)
Definition reads_back (requireMinimal : bool) (n : Z) : bool :=
  match MakeScriptNum (scriptNum_Bytes n) requireMinimal maxScriptNumLen with
  | Ok m => m =? n
  | Fail _ => false
  end.

(** [check_from f fuel k]: [f] holds on [k], [k + 1], ..., [k + fuel - 1]. *)
Fixpoint check_from (f : Z -> bool) (fuel : nat) (k : Z) : bool :=
  match fuel with
  | O => true
  | S fuel' => f k && check_from f fuel' (k + 1)
  end.

(** What INSPECTASSETGROUPSUM pushes for a source in {0, 1, 2}. *)
Definition pushed_sums (g : AssetGroup) (source : Z) : list bytes :=
  let inSum := le_bytes 8 (uint64 (total_inputs (Inputs g))) in
  let outSum := le_bytes 8 (uint64 (total_outputs (Outputs g))) in
  if source =? 0 then [inSum]
  else if source =? 1 then [outSum]
  else [inSum; outSum].

(** The engine [verifyWitnessProgram] leaves when the witness, once the
    annex is snipped off, is the single element [rawSig]. *)
Definition keyspend_outcome `{L : Btcd} (witness : list bytes)
    (rawSig : bytes) (vm : Engine) : option error * Engine :=
  let ctx0 := newTaprootExecutionCtx (int32 (TxWitness_SerializeSize witness)) in
  let ctx :=
    if isAnnexedWitness witness then
      ctx_set_annex (Some (List.last witness [])) ctx0
    else ctx0 in
  let vm1 := set_taprootCtx (Some ctx) vm in
  let '(err, cache) :=
    VerifyTaprootKeySpend (witnessProgram_bytes vm) rawSig (tx vm) (txIdx vm)
      (prevOutFetcher vm) (hashCache vm) (sigCache vm) in
  match err with
  | Some e => (Some e, set_sigCache cache vm1)
  | None =>
      (None,
       set_taprootCtx (Some (ctx_set_mustSucceed true ctx))
         (set_sigCache cache vm1))
  end.

(** A verifier is well built when its parsed key, signature and sighash
    type are those of its raw bytes, as [newTaprootSigVerifier] builds it. *)
Definition well_built `{L : Btcd} (t : taprootSigVerifier) : Prop :=
  parseTaprootSigAndPubKey (pkBytes t) (fullSigBytes t)
  = Ok (pubKey t, sig t, hashType t).

(** The engine [vm'] differs from [vm] in the contents of the data stack
    at most: every other field, and the minimal-data flag of the stack,
    are those of [vm]. *)
Definition only_dstack `{L : Btcd} (vm vm' : Engine) : Prop :=
  vm' = set_dstack (dstack vm') vm
  /\ verifyMinimalData (dstack vm') = verifyMinimalData (dstack vm).

Definition frames `{L : Btcd} {A : Type} (m : M A) : Prop :=
  forall vm, only_dstack vm (snd (m vm)).

(** The opcodes that take a group index [k] from the stack, each with the
    number of operands it pops before [k]. *)
Definition group_index_opcodes `{L : Btcd} : list (M unit * nat) :=
  [ (opcodeInspectAssetGroupAssetID, 0%nat);
    (opcodeInspectAssetGroupCtrl, 0%nat);
    (opcodeInspectAssetGroupMetadataHash, 0%nat);
    (opcodeInspectAssetGroupNum, 1%nat);
    (opcodeInspectAssetGroup, 2%nat);
    (opcodeInspectAssetGroupSum, 1%nat);
    (opcodeInspectGroupIntentOutCount, 0%nat);
    (opcodeInspectGroupIntentOut, 1%nat);
    (opcodeInspectGroupIntentInCount, 0%nat);
    (opcodeInspectGroupIntentIn, 1%nat) ].

(** A stack element reads as a script number under the flag [minimal]. *)
Definition is_scriptNum (minimal : bool) (b : bytes) : Prop :=
  exists v, MakeScriptNum b minimal maxScriptNumLen = Ok v.

(** The engine [vm] with the data stack [s], under the minimal-data flag
    of its stack. *)
Definition with_stack `{L : Btcd} (s : list bytes) (vm : Engine) : Engine :=
  set_dstack (mkStack s (verifyMinimalData (dstack vm))) vm.

(** The elements INSPECTASSETGROUP pushes for an input and for an output
    of a group, bottom first. *)
Definition pushed_input (inp : AssetInput) : list bytes :=
  scriptNum_Bytes (in_Type inp)
  :: (if in_Type inp =? AssetInputTypeLocal then
        [scriptNum_Bytes (InputIndex inp)]
      else [copy_into 32 (in_Txid inp); scriptNum_Bytes (in_OutputIndex inp)])
  ++ [le_bytes 8 (in_Amount inp)].

Definition pushed_output (out : AssetOutput) : list bytes :=
  [ scriptNum_Bytes (out_Type out);
    scriptNum_Bytes (out_OutputIndex out);
    le_bytes 8 (out_Amount out) ].

(** The intent outputs and the intent inputs of a group, in the order of
    the group. *)
Definition intent_outputs (outs : list AssetOutput) : list AssetOutput :=
  List.filter (fun out => out_Type out =? AssetOutputTypeIntent) outs.

Definition intent_inputs (ins : list AssetInput) : list AssetInput :=
  List.filter (fun inp => in_Type inp =? AssetInputTypeIntent) ins.

(** The one opcode that pushes [data], of at most 65535 bytes, in the
    fewest bytes: [OP_0] for the empty string, [OP_1] to [OP_16] and
    [OP_1NEGATE] for the one-byte numbers they stand for, a direct push up
    to 75 bytes, [OP_PUSHDATA1] up to 255 bytes, [OP_PUSHDATA2] beyond. *)
Definition minimal_push_opcode (data : bytes) : Z :=
  let n := len data in
  let b := index 0 data 0 in
  if n =? 0 then OP_0
  else if (n =? 1) && (1 <=? b) && (b <=? 16) then OP_1 + b - 1
  else if (n =? 1) && (b =? 129) then OP_1NEGATE
  else if n <=? 75 then n
  else if n <=? 255 then OP_PUSHDATA1
  else OP_PUSHDATA2.

(** The engine [vm] with the condition stack [c]: the state the
    conditional opcodes leave. *)
Definition set_condStack `{L : Btcd} (c : list Z) (vm : Engine) : Engine :=
  mkEngine (tx vm) (txIdx vm) (version vm) (sigCache vm) (hashCache vm)
    (prevOutFetcher vm) (assetPacket vm) (scripts vm) (scriptIdx vm)
    (opcodeIdx vm) (lastCodeSep vm) (tokenizer vm) (dstack vm) (astack vm)
    c (witnessVersion vm) (witnessProgram vm) (inputAmount vm)
    (taprootCtx vm) (stepCallback vm).

(** [n] calls of [tallysigOp] in a row on the same context, as [n]
    signature opcodes make them, up to the first that fails. *)
Fixpoint tally_n (n : nat) (t : taprootExecutionCtx)
    : option error * taprootExecutionCtx :=
  match n with
  | O => (None, t)
  | S n' =>
      match tallysigOp t with
      | (Some e, t') => (Some e, t')
      | (None, t') => tally_n n' t'
      end
  end.

(** The verifier [t] holding the signature cache [c]. *)
Definition with_sigCache `{L : Btcd} (c : option SigCache)
    (t : taprootSigVerifier) : taprootSigVerifier :=
  mkTaprootSigVerifier (pubKey t) (pkBytes t) (fullSigBytes t) (sig t)
    (hashType t) c (v_hashCache t) (v_tx t) (inputIndex t) (v_annex t)
    (prevOuts t).

(** The opcodes that check a signature, each with the number of operands
    it pops. *)
Definition signature_opcodes `{L : Btcd} : list (M unit * nat) :=
  [ (opcodeCheckSig, 2%nat);
    (opcodeCheckSigVerify, 2%nat);
    (opcodeCheckSigFromStack, 3%nat) ].

(** The sig-ops budget of an engine: that of its taproot context. *)
Definition budget_of `{L : Btcd} (vm : Engine) : option Z :=
  sigOpsBudget <$> taprootCtx vm.

(** The taproot context [t] with the budget [b]. *)
Definition ctx_set_budget (b : Z) (t : taprootExecutionCtx)
    : taprootExecutionCtx :=
  mkTaprootCtx (annex t) (codeSepPos t) (tapLeafHash t) b (mustSucceed t).

(** The parsers of the library return errors of their own, never a
    [txscript.Error]. *)
Definition library_errors_are_foreign `{L : Btcd} : Prop :=
  forall (b : bytes) (e : error),
    schnorr_ParsePubKey b = Fail e \/ schnorr_ParseSignature b = Fail e ->
    error_code e = None.

(** The computation [m] touches the data stack and the signature cache
    at most. *)
Definition quiet `{L : Btcd} {A : Type} (m : M A) : Prop :=
  forall vm,
    snd (m vm)
    = set_sigCache (sigCache (snd (m vm))) (set_dstack (dstack (snd (m vm))) vm).

(** The engine [vm] holding the signature cache [c] and the hash cache
    [h]. *)
Definition with_caches `{L : Btcd} (c : option SigCache) (h : TxSigHashes)
    (vm : Engine) : Engine :=
  mkEngine (tx vm) (txIdx vm) (version vm) c h
    (prevOutFetcher vm) (assetPacket vm) (scripts vm) (scriptIdx vm)
    (opcodeIdx vm) (lastCodeSep vm) (tokenizer vm) (dstack vm) (astack vm)
    (condStack vm) (witnessVersion vm) (witnessProgram vm) (inputAmount vm)
    (taprootCtx vm) (stepCallback vm).

(** Two hash caches give the same digests of a transaction: the midstate
    computed from the transaction, however it is held. *)
Definition same_digests `{L : Btcd} (tx : MsgTx) (prevOuts : PrevOutputFetcher)
    (h1 h2 : TxSigHashes) : Prop :=
  forall hashType idx,
    CalcTaprootSignatureHash h1 hashType tx idx prevOuts
    = CalcTaprootSignatureHash h2 hashType tx idx prevOuts.

(** [vm2] is [vm1] with other contents of the two caches: both signature
    caches are sound, and both hash caches give the digests of the
    transaction. *)
Definition cache_variant `{L : Btcd} (vm1 vm2 : Engine) : Prop :=
  vm2 = with_caches (sigCache vm2) (hashCache vm2) vm1
  /\ cache_sound (sigCache vm1)
  /\ cache_sound (sigCache vm2)
  /\ same_digests (tx vm1) (prevOutFetcher vm1) (hashCache vm1) (hashCache vm2).

(** The function [f] of the engine returns the same value on engines that
    differ in their caches, and leaves engines that differ in their caches
    only. *)
Definition respects_caches `{L : Btcd} {X : Type} (f : Engine -> X * Engine)
    : Prop :=
  forall vm1 vm2,
    cache_variant vm1 vm2 ->
    fst (f vm1) = fst (f vm2) /\ cache_variant (snd (f vm1)) (snd (f vm2)).

(** The function [f] neither reads nor writes the caches. *)
Definition oblivious `{L : Btcd} {X : Type} (f : Engine -> X * Engine)
    : Prop :=
  forall c h vm,
    f (with_caches c h vm) = (fst (f vm), with_caches c h (snd (f vm))).

(** The function [f] leaves the transaction and its previous outputs. *)
Definition keeps_tx `{L : Btcd} {X : Type} (f : Engine -> X * Engine) : Prop :=
  forall vm,
    tx (snd (f vm)) = tx vm /\ prevOutFetcher (snd (f vm)) = prevOutFetcher vm.

(** The key-spend verification of the library gives the same verdict
    under sound signature caches and hash caches of the transaction, and
    leaves sound caches. *)
Definition keyspend_respects_caches `{L : Btcd} : Prop :=
  forall prog rawSig tx idx prevOuts h1 h2 c1 c2,
    cache_sound c1 -> cache_sound c2 ->
    same_digests tx prevOuts h1 h2 ->
    fst (VerifyTaprootKeySpend prog rawSig tx idx prevOuts h1 c1)
    = fst (VerifyTaprootKeySpend prog rawSig tx idx prevOuts h2 c2)
    /\ cache_sound (snd (VerifyTaprootKeySpend prog rawSig tx idx prevOuts h1 c1))
    /\ cache_sound (snd (VerifyTaprootKeySpend prog rawSig tx idx prevOuts h2 c2)).

(** Two runs of [Execute] have the same outcome: both run out of fuel, or
    both return, with the same error or both with none, and leave engines
    that differ in their caches only. *)
Definition same_outcome `{L : Btcd}
    (r1 r2 : option (option error * Engine)) : Prop :=
  match r1, r2 with
  | Some (e1, vm1), Some (e2, vm2) => e1 = e2 /\ cache_variant vm1 vm2
  | None, None => True
  | _, _ => False
  end.

(** The result of [NewEngine] on two pairs of caches: the same error, or
    engines that differ in their caches only. *)
Definition same_engine `{L : Btcd} (r1 r2 : result Engine) : Prop :=
  match r1, r2 with
  | Ok vm1, Ok vm2 => cache_variant vm1 vm2
  | Fail e1, Fail e2 => e1 = e2
  | _, _ => False
  end.

(** The computation [m] changes the depth of the data stack by at most
    [d] when it returns a value and by at most [f] when it fails. *)
Definition grows `{L : Btcd} {A : Type} (d f : Z) (m : M A) : Prop :=
  forall vm,
    match m vm with
    | (Ok _, vm') => stack_Depth (dstack vm') <= stack_Depth (dstack vm) + d
    | (Fail _, vm') => stack_Depth (dstack vm') <= stack_Depth (dstack vm) + f
    end.

(** * Properties *)

(** ** Lists, bytes and script numbers *)

Lemma len_nonneg {A : Type} (l : list A) : 0 <= len l.
Proof. unfold len. lia. Qed.

Lemma len_app {A : Type} (l1 l2 : list A) : len (l1 ++ l2) = len l1 + len l2.
Proof. unfold len. rewrite length_app. lia. Qed.

Lemma copy_into_exact (n : nat) (src : bytes) :
  length src = n -> copy_into n src = src.
Proof.
  intros Hn. unfold copy_into.
  rewrite firstn_app, Hn, Nat.sub_diag. simpl.
  rewrite app_nil_r. rewrite <- Hn. apply firstn_all.
Qed.

Lemma copy_into_length (n : nat) (src : bytes) : length (copy_into n src) = n.
Proof.
  unfold copy_into. rewrite length_firstn, length_app, repeat_length. lia.
Qed.

Lemma uint16_small (x : Z) : is_uint16 x -> uint16 x = x.
Proof. unfold is_uint16, uint16. intros H. apply Z.mod_small. lia. Qed.

Lemma uint64_small (x : Z) : is_uint64 x -> uint64 x = x.
Proof. unfold is_uint64, uint64. intros H. apply Z.mod_small. lia. Qed.

Lemma int32_small (x : Z) : is_int32 x -> int32 x = x.
Proof.
  unfold is_int32, int32. intros H.
  rewrite Z.mod_small by lia. lia.
Qed.

Lemma bytes_eqb_eq (a b : bytes) : bytes_eqb a b = true <-> a = b.
Proof. unfold bytes_eqb. apply bool_decide_eq_true. Qed.

Lemma bytes_eqb_refl (a : bytes) : bytes_eqb a a = true.
Proof. apply bytes_eqb_eq. reflexivity. Qed.

Lemma AssetID_eqb_eq (a b : AssetID) : AssetID_eqb a b = true <-> a = b.
Proof.
  unfold AssetID_eqb. rewrite andb_true_iff, bytes_eqb_eq, Z.eqb_eq.
  destruct a, b; simpl. split.
  - intros [-> ->]. reflexivity.
  - intros [= -> ->]. auto.
Qed.

Lemma check_from_spec (f : Z -> bool) (fuel : nat) (k : Z) :
  check_from f fuel k = true ->
  forall n, k <= n < k + Z.of_nat fuel -> f n = true.
Proof.
  revert k. induction fuel as [|fuel IH]; intros k Hc n Hn.
  - simpl in Hn. lia.
  - simpl in Hc. apply andb_true_iff in Hc as [Hk Hrest].
    destruct (Z.eq_dec n k) as [->|Hne]; [exact Hk|].
    apply (IH (k + 1) Hrest). lia.
Qed.

Lemma reads_back_all_uint16 :
  check_from (fun n => reads_back true n && reads_back false n)
             (Z.to_nat 65536) 0 = true.
Proof. vm_compute. reflexivity. Qed.

Lemma scriptNum_roundtrip_uint16 (n : Z) (requireMinimal : bool) :
  is_uint16 n ->
  MakeScriptNum (scriptNum_Bytes n) requireMinimal maxScriptNumLen = Ok n.
Proof.
  intros Hn.
  pose proof (check_from_spec _ _ _ reads_back_all_uint16 n) as Hall.
  assert (Hr : 0 <= n < 0 + Z.of_nat (Z.to_nat 65536)).
  { unfold is_uint16 in Hn. rewrite Z2Nat.id by lia. lia. }
  specialize (Hall Hr). apply andb_true_iff in Hall as [Ht Hf].
  unfold reads_back in Ht, Hf.
  destruct requireMinimal.
  - destruct (MakeScriptNum _ true _); [|discriminate].
    apply Z.eqb_eq in Ht. rewrite Ht. reflexivity.
  - destruct (MakeScriptNum _ false _); [|discriminate].
    apply Z.eqb_eq in Hf. rewrite Hf. reflexivity.
Qed.

(** ** The stack *)

Lemma stack_PopByteArray_top (st : stack) (s : list bytes) (x : bytes) :
  stk st = s ++ [x] ->
  stack_PopByteArray st = (Ok x, mkStack s (verifyMinimalData st)).
Proof.
  intros Hs. unfold stack_PopByteArray.
  rewrite Hs, rev_app_distr. simpl. rewrite rev_involutive. reflexivity.
Qed.

Lemma stack_PopByteArray_empty (st : stack) :
  stk st = [] ->
  exists e, stack_PopByteArray st = (Fail e, st)
            /\ error_code e = Some ErrInvalidStackOperation.
Proof.
  intros Hs. unfold stack_PopByteArray. rewrite Hs. simpl. eauto.
Qed.

Lemma stack_PopInt_top (st : stack) (s : list bytes) (x : bytes) :
  stk st = s ++ [x] ->
  stack_PopInt st =
    (MakeScriptNum x (verifyMinimalData st) maxScriptNumLen,
     mkStack s (verifyMinimalData st)).
Proof.
  intros Hs. unfold stack_PopInt.
  rewrite (stack_PopByteArray_top st s x Hs). reflexivity.
Qed.

Lemma drop_loop_all (s : list bytes) (b : bool) :
  drop_loop (length s) (mkStack s b) = (None, mkStack [] b).
Proof.
  induction s as [|x s IH] using rev_ind; [reflexivity|].
  rewrite length_app. simpl. rewrite Nat.add_1_r. simpl.
  rewrite (stack_PopByteArray_top _ s x) by reflexivity. simpl. apply IH.
Qed.

(** [DropN(Depth())] leaves the stack empty, also when it was empty (the
    call then fails and its error is dropped). *)
Lemma stack_DropN_all (st : stack) :
  snd (stack_DropN (stack_Depth st) st) = mkStack [] (verifyMinimalData st).
Proof.
  unfold stack_DropN, stack_Depth, len. destruct st as [s b]. simpl.
  destruct s as [|x s].
  - reflexivity.
  - replace (Z.of_nat (length (x :: s)) <? 1) with false
      by (symmetry; apply Z.ltb_ge; simpl; lia).
    rewrite Nat2Z.id. rewrite drop_loop_all. reflexivity.
Qed.

Lemma fold_push_stk (data : list bytes) (st : stack) :
  stk (fold_left (fun st d => stack_PushByteArray d st) data st) = stk st ++ data.
Proof.
  revert st. induction data as [|d data IH]; intros st; simpl.
  - rewrite app_nil_r. reflexivity.
  - rewrite IH. simpl. rewrite <- app_assoc. reflexivity.
Qed.

Lemma setStack_stk (st : stack) (data : list bytes) :
  stk (setStack st data) = data.
Proof.
  unfold setStack. rewrite fold_push_stk, stack_DropN_all. reflexivity.
Qed.

Example bareEngine_is_NewEngine (packet : option AssetPacket) :
  Demo.scriptEngine [236] packet [[]; []]
  = Ok (Demo.bareEngine [236] packet [[]; []]).
Proof. reflexivity. Qed.

Example taprootVm_is_NewEngine (witness : list bytes) :
  Demo.taprootEngine zeroHash witness
  = Ok (Demo.taprootVm zeroHash witness (Some (mkSigCache ∅ 100)) None).
Proof. reflexivity. Qed.

(** The cases of [TestAssetOpcodes], with the indices in their minimal
    encoding (the engine always verifies minimal data). *)

Example test_num_groups :
  Demo.outcome opcodeInspectNumAssetGroups [] = (None, [[2]]).
Proof. reflexivity. Qed.

Example test_asset_id_out_of_range :
  error_kind (fst (Demo.outcome opcodeInspectAssetGroupAssetID [[5]]))
  = Some "InvalidIndex"%string.
Proof. reflexivity. Qed.

Example test_ctrl_present :
  Demo.outcome opcodeInspectAssetGroupCtrl [[]]
  = (None, [Demo.testControlTxid; [1]]).
Proof. reflexivity. Qed.

Example test_ctrl_absent :
  Demo.outcome opcodeInspectAssetGroupCtrl [[1]] = (None, [[129]]).
Proof. reflexivity. Qed.

Example test_find_found :
  Demo.outcome opcodeFindAssetGroupByAssetID [Demo.testAssetTxid; []]
  = (None, [[]]).
Proof. reflexivity. Qed.

Example test_find_not_found :
  Demo.outcome opcodeFindAssetGroupByAssetID [zeroHash; []] = (None, [[129]]).
Proof. reflexivity. Qed.

Example test_metadata_hash :
  Demo.outcome opcodeInspectAssetGroupMetadataHash [[]]
  = (None, [Demo.testMetadataHash]).
Proof. reflexivity. Qed.

Example test_group_num_both :
  Demo.outcome opcodeInspectAssetGroupNum [[]; [2]] = (None, [[2]; [2]]).
Proof. reflexivity. Qed.

Example test_group_intent_input :
  Demo.outcome opcodeInspectAssetGroup [[]; [1]; []]
  = (None, [[2]; Demo.testIntentTxid; [2]; le_bytes 8 500]).
Proof. reflexivity. Qed.

Example test_group_local_output :
  Demo.outcome opcodeInspectAssetGroup [[]; []; [1]]
  = (None, [[1]; []; le_bytes 8 800]).
Proof. reflexivity. Qed.

Example test_group_sum_both :
  Demo.outcome opcodeInspectAssetGroupSum [[]; [2]]
  = (None, [le_bytes 8 1500; le_bytes 8 1500]).
Proof. reflexivity. Qed.

Example test_out_asset_at :
  Demo.outcome opcodeInspectOutAssetAt [[]; []]
  = (None, [Demo.testAssetTxid; []; le_bytes 8 800]).
Proof. reflexivity. Qed.

Example test_out_asset_lookup_not_found :
  Demo.outcome opcodeInspectOutAssetLookup [[]; zeroHash; [9]]
  = (None, [[129]]).
Proof. reflexivity. Qed.

Example test_in_asset_lookup_found :
  Demo.outcome opcodeInspectInAssetLookup [[]; Demo.testAssetTxid; []]
  = (None, [le_bytes 8 1000]).
Proof. reflexivity. Qed.

Example test_intent_out :
  Demo.outcome opcodeInspectGroupIntentOut [[]; []]
  = (None, [[1]; le_bytes 8 700]).
Proof. reflexivity. Qed.

Example test_intent_in_out_of_range :
  error_kind (fst (Demo.outcome opcodeInspectGroupIntentIn [[]; [5]]))
  = Some "InvalidIndex"%string.
Proof. reflexivity. Qed.

Example test_missing_packet_execute :
  error_kind <$> Demo.run 3 (Demo.scriptEngine [229] None [])
  = Some (Some "InvalidIndex"%string).
Proof. reflexivity. Qed.

(** ** Asset opcodes *)

Section AssetProperties.
Context `{L : Btcd}.

Lemma checkAssetPacket_present (vm : Engine) (p : AssetPacket) :
  assetPacket vm = Some p -> checkAssetPacket vm = (Ok tt, vm).
Proof. intros H. unfold checkAssetPacket. rewrite H. reflexivity. Qed.

Lemma checkAssetPacket_absent (vm : Engine) :
  assetPacket vm = None ->
  checkAssetPacket vm
  = (Fail (scriptError ErrInvalidIndex "asset packet not set"), vm).
Proof. intros H. unfold checkAssetPacket. rewrite H. reflexivity. Qed.

Lemma deref_assetPacket_present (vm : Engine) (p : AssetPacket) :
  assetPacket vm = Some p -> deref_assetPacket vm = (Ok p, vm).
Proof. intros H. unfold deref_assetPacket. rewrite H. reflexivity. Qed.

Lemma dstack_PopInt_top (vm : Engine) (s : list bytes) (x : bytes) (n : Z) :
  stk (dstack vm) = s ++ [x] ->
  MakeScriptNum x (verifyMinimalData (dstack vm)) maxScriptNumLen = Ok n ->
  dstack_PopInt vm
  = (Ok n, set_dstack (mkStack s (verifyMinimalData (dstack vm))) vm).
Proof.
  intros Hs Hn. unfold dstack_PopInt.
  rewrite (stack_PopInt_top _ s x Hs), Hn. reflexivity.
Qed.

Lemma dstack_PopByteArray_top (vm : Engine) (s : list bytes) (x : bytes) :
  stk (dstack vm) = s ++ [x] ->
  dstack_PopByteArray vm
  = (Ok x, set_dstack (mkStack s (verifyMinimalData (dstack vm))) vm).
Proof.
  intros Hs. unfold dstack_PopByteArray.
  rewrite (stack_PopByteArray_top _ s x Hs). reflexivity.
Qed.

Lemma checkGroupIndex_in_range (vm : Engine) (p : AssetPacket) (k : Z) :
  assetPacket vm = Some p -> 0 <= k < len (Groups p) ->
  checkGroupIndex k vm = (Ok tt, vm).
Proof.
  intros Hp Hk. unfold checkGroupIndex, bind.
  rewrite (deref_assetPacket_present vm p Hp).
  replace (k <? 0) with false by (symmetry; apply Z.ltb_ge; lia).
  replace (len (Groups p) <=? k) with false by (symmetry; apply Z.leb_gt; lia).
  reflexivity.
Qed.

Lemma checkGroupIndex_out_of_range (vm : Engine) (p : AssetPacket) (k : Z) :
  assetPacket vm = Some p -> ~ (0 <= k < len (Groups p)) ->
  checkGroupIndex k vm
  = (Fail (scriptError ErrInvalidIndex "asset group index out of range"), vm).
Proof.
  intros Hp Hk. unfold checkGroupIndex, bind.
  rewrite (deref_assetPacket_present vm p Hp).
  destruct (k <? 0) eqn:E1; [reflexivity|].
  destruct (len (Groups p) <=? k) eqn:E2; [reflexivity|].
  apply Z.ltb_ge in E1. apply Z.leb_gt in E2. lia.
Qed.

Lemma lookup_in_range {A : Type} (l : list A) (k : Z) (x : A) :
  0 <= k -> l !! Z.to_nat k = Some x -> 0 <= k < len l.
Proof.
  intros Hk Hl. apply lookup_lt_Some in Hl. unfold len. lia.
Qed.

Lemma at_index_lookup {A : Type} (l : list A) (k : Z) (x : A) (vm : Engine) :
  0 <= k -> l !! Z.to_nat k = Some x -> at_index l k vm = (Ok x, vm).
Proof.
  intros Hk Hl. unfold at_index.
  replace (k <? 0) with false by (symmetry; apply Z.ltb_ge; lia).
  rewrite Hl. reflexivity.
Qed.

Lemma group_at_lookup (vm : Engine) (p : AssetPacket) (k : Z) (g : AssetGroup) :
  assetPacket vm = Some p -> 0 <= k -> Groups p !! Z.to_nat k = Some g ->
  group_at k vm = (Ok g, vm).
Proof.
  intros Hp Hk Hg. unfold group_at, bind.
  rewrite (deref_assetPacket_present vm p Hp).
  apply at_index_lookup; assumption.
Qed.

(** C3 (as amended).  Each opcode of the asset family, from
    INSPECTNUMASSETGROUPS to INSPECTGROUPINTENTIN, run on an engine with
    no asset packet attached, fails with the error
    [scriptError(ErrInvalidIndex, "asset packet not set")] - the engine's
    InvalidIndex kind - and returns the engine unchanged: no stack
    operand has been consumed. *)
Theorem asset_opcode_without_packet (h : M unit) (vm : Engine) :
  In h asset_opcodes ->
  assetPacket vm = None ->
  h vm = (Fail (scriptError ErrInvalidIndex "asset packet not set"), vm)
  /\ error_kind (fst (as_error (h vm))) = Some "InvalidIndex"%string.
Proof.
  intros Hin Hnone.
  assert (Hrun :
    h vm = (Fail (scriptError ErrInvalidIndex "asset packet not set"), vm)).
  { unfold asset_opcodes in Hin. simpl in Hin.
    repeat (destruct Hin as [<- | Hin];
            [ unfold opcodeInspectNumAssetGroups,
                opcodeInspectAssetGroupAssetID, opcodeInspectAssetGroupCtrl,
                opcodeFindAssetGroupByAssetID,
                opcodeInspectAssetGroupMetadataHash,
                opcodeInspectAssetGroupNum, opcodeInspectAssetGroup,
                opcodeInspectAssetGroupSum, opcodeInspectOutAssetCount,
                opcodeInspectOutAssetAt, opcodeInspectOutAssetLookup,
                opcodeInspectInAssetCount, opcodeInspectInAssetAt,
                opcodeInspectInAssetLookup, opcodeInspectGroupIntentOutCount,
                opcodeInspectGroupIntentOut, opcodeInspectGroupIntentInCount,
                opcodeInspectGroupIntentIn;
              unfold bind at 1;
              rewrite (checkAssetPacket_absent vm Hnone); reflexivity
            | ]).
    contradiction. }
  split; [exact Hrun|]. rewrite Hrun. reflexivity.
Qed.

End AssetProperties.

(** One step of a handler: the first computation of the sequence is
    replaced by its result. *)
Ltac run_checkAssetPacket p Hp :=
  unfold bind at 1;
  match goal with
  | |- context [checkAssetPacket ?v] =>
      rewrite (checkAssetPacket_present v p Hp)
  end.

Ltac run_deref p Hp :=
  unfold bind at 1;
  match goal with
  | |- context [deref_assetPacket ?v] =>
      rewrite (deref_assetPacket_present v p Hp)
  end.

Ltac run_PopInt s x n Hs Hn :=
  unfold bind at 1;
  match goal with
  | |- context [dstack_PopInt ?v] => rewrite (dstack_PopInt_top v s x n Hs Hn)
  end.

Ltac run_PopByteArray s x Hs :=
  unfold bind at 1;
  match goal with
  | |- context [dstack_PopByteArray ?v] =>
      rewrite (dstack_PopByteArray_top v s x Hs)
  end.

Ltac run_checkGroupIndex p k Hp Hk :=
  unfold bind at 1;
  match goal with
  | |- context [checkGroupIndex k ?v] =>
      rewrite (checkGroupIndex_in_range v p k Hp Hk)
  end.

Ltac run_group_at p k g Hp Hk Hg :=
  unfold bind at 1;
  match goal with
  | |- context [group_at k ?v] => rewrite (group_at_lookup v p k g Hp Hk Hg)
  end.

Lemma asset_opcode_without_packet_witness :
  let vm := Demo.bareEngine [229] None [[1]] in
  In opcodeInspectNumAssetGroups asset_opcodes
  /\ assetPacket vm = None
  /\ opcodeInspectNumAssetGroups vm
     = (Fail (scriptError ErrInvalidIndex "asset packet not set"), vm)
  /\ error_kind (fst (as_error (opcodeInspectNumAssetGroups vm)))
     = Some "InvalidIndex"%string.
Proof.
  intros vm.
  assert (Hin : In (@opcodeInspectNumAssetGroups Demo.lib) asset_opcodes)
    by (left; reflexivity).
  assert (Hnone : assetPacket vm = None) by reflexivity.
  split; [exact Hin|]. split; [exact Hnone|].
  exact (asset_opcode_without_packet opcodeInspectNumAssetGroups vm Hin Hnone).
Defined.

(** C3 (as stated) fails on the kind of the error: INSPECTNUMASSETGROUPS
    on an engine without a packet fails with the kind InvalidIndex, the
    kind the family also uses for an index out of range, not with a kind
    AssetPacketMissing. *)
Lemma missing_packet_kind_is_InvalidIndex :
  let vm := Demo.bareEngine [229] None [] in
  let vm' := Demo.bareEngine [230] (Some Demo.makeTestAssetPacket) [[5]] in
  error_kind (fst (as_error (opcodeInspectNumAssetGroups vm)))
  = Some "InvalidIndex"%string
  /\ error_kind (fst (as_error (opcodeInspectNumAssetGroups vm)))
     <> Some "AssetPacketMissing"%string
  /\ error_kind (fst (as_error (opcodeInspectAssetGroupAssetID vm')))
     = error_kind (fst (as_error (opcodeInspectNumAssetGroups vm))).
Proof.
  split; [reflexivity|]. split; [discriminate|]. vm_compute. reflexivity.
Qed.

(** ** INSPECTASSETGROUPSUM *)

Lemma sum_inputs_from (inputs : list AssetInput) (acc : Z) :
  is_uint64 acc ->
  fold_left (fun inSum inp => uint64 (inSum + in_Amount inp)) inputs acc
  = uint64 (acc + total_inputs inputs).
Proof.
  revert acc. induction inputs as [|a inputs IH]; intros acc Hacc.
  - unfold total_inputs. simpl. rewrite Z.add_0_r.
    symmetry. apply uint64_small. exact Hacc.
  - simpl. rewrite IH.
    + unfold uint64, total_inputs. simpl.
      rewrite Zplus_mod_idemp_l. f_equal. lia.
    + unfold is_uint64, uint64. apply Z.mod_pos_bound. lia.
Qed.

Lemma sum_inputs_modular (inputs : list AssetInput) :
  sum_inputs inputs = uint64 (total_inputs inputs).
Proof.
  unfold sum_inputs. rewrite sum_inputs_from.
  - reflexivity.
  - unfold is_uint64. lia.
Qed.

Lemma sum_outputs_from (outputs : list AssetOutput) (acc : Z) :
  is_uint64 acc ->
  fold_left (fun outSum out => uint64 (outSum + out_Amount out)) outputs acc
  = uint64 (acc + total_outputs outputs).
Proof.
  revert acc. induction outputs as [|a outputs IH]; intros acc Hacc.
  - unfold total_outputs. simpl. rewrite Z.add_0_r.
    symmetry. apply uint64_small. exact Hacc.
  - simpl. rewrite IH.
    + unfold uint64, total_outputs. simpl.
      rewrite Zplus_mod_idemp_l. f_equal. lia.
    + unfold is_uint64, uint64. apply Z.mod_pos_bound. lia.
Qed.

Lemma sum_outputs_modular (outputs : list AssetOutput) :
  sum_outputs outputs = uint64 (total_outputs outputs).
Proof.
  unfold sum_outputs. rewrite sum_outputs_from.
  - reflexivity.
  - unfold is_uint64. lia.
Qed.

(** When the amounts of a group add up to a [uint64], the values pushed
    are the exact sums. *)
Lemma pushed_sums_exact (g : AssetGroup) :
  is_uint64 (total_inputs (Inputs g)) ->
  is_uint64 (total_outputs (Outputs g)) ->
  pushed_sums g 0 = [le_bytes 8 (total_inputs (Inputs g))]
  /\ pushed_sums g 1 = [le_bytes 8 (total_outputs (Outputs g))]
  /\ pushed_sums g 2 = [le_bytes 8 (total_inputs (Inputs g));
                        le_bytes 8 (total_outputs (Outputs g))].
Proof.
  intros Hin Hout. unfold pushed_sums.
  rewrite (uint64_small _ Hin), (uint64_small _ Hout).
  repeat split; reflexivity.
Qed.

Section GroupSum.
Context `{L : Btcd}.

(** On a packet, an in-range group index and a source in {0, 1, 2},
    INSPECTASSETGROUPSUM never fails: it pushes the sums reduced modulo
    [2^64], which are the exact sums when these fit in 64 bits. *)
Lemma group_sum_is_modular (vm : Engine) (p : AssetPacket) (g : AssetGroup)
    (s : list bytes) (kb sb : bytes) (K source : Z) :
  assetPacket vm = Some p ->
  stk (dstack vm) = s ++ [kb; sb] ->
  MakeScriptNum sb (verifyMinimalData (dstack vm)) maxScriptNumLen = Ok source ->
  MakeScriptNum kb (verifyMinimalData (dstack vm)) maxScriptNumLen = Ok K ->
  0 <= K ->
  Groups p !! Z.to_nat K = Some g ->
  0 <= source <= 2 ->
  exists vm',
    opcodeInspectAssetGroupSum vm = (Ok tt, vm')
    /\ stk (dstack vm') = s ++ pushed_sums g source.
Proof.
  intros Hp Hs Hsrc Hk HK Hg Hrange.
  unfold opcodeInspectAssetGroupSum.
  run_checkAssetPacket p Hp.
  assert (Hs1 : stk (dstack vm) = (s ++ [kb]) ++ [sb])
    by (rewrite Hs, <- app_assoc; reflexivity).
  run_PopInt (s ++ [kb]) sb source Hs1 Hsrc.
  run_PopInt s kb K (eq_refl (s ++ [kb])) Hk.
  run_checkGroupIndex p K Hp (lookup_in_range _ _ _ HK Hg).
  run_group_at p K g Hp HK Hg.
  rewrite sum_inputs_modular, sum_outputs_modular.
  unfold pushed_sums.
  destruct (source =? 0) eqn:E0.
  { eexists. split; reflexivity. }
  destruct (source =? 1) eqn:E1.
  { eexists. split; reflexivity. }
  destruct (source =? 2) eqn:E2.
  { eexists. split; [reflexivity|]. simpl. rewrite <- app_assoc. reflexivity. }
  apply Z.eqb_neq in E0, E1, E2. lia.
Qed.

End GroupSum.

Lemma group_sum_is_modular_witness :
  let vm := Demo.bareEngine [236] (Some Demo.makeTestAssetPacket) [[]; [1]] in
  exists vm',
    opcodeInspectAssetGroupSum vm = (Ok tt, vm')
    /\ stk (dstack vm') = [le_bytes 8 1500].
Proof.
  intros vm.
  destruct (group_sum_is_modular vm Demo.makeTestAssetPacket
              (mkAssetGroup (mkAssetID Demo.testAssetTxid 0)
                 (Some (mkAssetID Demo.testControlTxid 1))
                 Demo.testMetadataHash
                 [ mkAssetInput AssetInputTypeLocal 0 zeroHash 0 1000;
                   mkAssetInput AssetInputTypeIntent 0 Demo.testIntentTxid 2 500 ]
                 [ mkAssetOutput AssetOutputTypeLocal 0 800;
                   mkAssetOutput AssetOutputTypeIntent 1 700 ])
              [] [] [1] 0 1
              eq_refl eq_refl eq_refl eq_refl (Z.le_refl 0) eq_refl
              (conj (Z.le_0_1) (Z.lt_le_incl 1 2 eq_refl)))
    as [vm' [Hrun Hstk]].
  exists vm'. split; [exact Hrun|exact Hstk].
Defined.

(** C1.  At the packet whose group 0 has the two inputs [2^64 - 1] and
    [1], the amounts add up to [2^64], which no [uint64] holds; yet
    INSPECTASSETGROUPSUM with source 0 returns no error and pushes eight
    zero bytes, the wrapped-around sum. *)
Theorem group_sum_overflow_wraps :
  let vm := Demo.bareEngine [236] (Some Demo.overflowPacket) [[]; []] in
  total_inputs
    [ mkAssetInput AssetInputTypeLocal 0 zeroHash 0 18446744073709551615;
      mkAssetInput AssetInputTypeLocal 1 zeroHash 0 1 ] = 2 ^ 64
  /\ fst (opcodeInspectAssetGroupSum vm) = Ok tt
  /\ stk (dstack (snd (opcodeInspectAssetGroupSum vm))) = [[0; 0; 0; 0; 0; 0; 0; 0]]
  /\ Demo.run 10 (Ok vm)
     = Some (Some (scriptError ErrEvalFalse
                     "false stack entry at end of script execution")).
Proof.
  repeat split; vm_compute; reflexivity.
Qed.

(** ** FINDASSETGROUPBYASSETID after INSPECTASSETGROUPASSETID *)

Lemma find_group_first (gs : list AssetGroup) (i : Z) (id : AssetID)
    (k : nat) (g : AssetGroup) :
  gs !! k = Some g ->
  group_AssetID g = id ->
  (forall j g', gs !! j = Some g' -> group_AssetID g' = id -> j = k) ->
  find_group gs i id = Some (i + Z.of_nat k).
Proof.
  revert i k. induction gs as [|a gs IH]; intros i k Hk Hid Huniq.
  - rewrite lookup_nil in Hk. discriminate.
  - simpl. destruct (AssetID_eqb (group_AssetID a) id) eqn:E.
    + apply AssetID_eqb_eq in E.
      specialize (Huniq 0%nat a eq_refl E). subst k.
      f_equal. lia.
    + destruct k as [|k].
      * simpl in Hk. injection Hk as ->.
        apply AssetID_eqb_eq in Hid. congruence.
      * simpl in Hk. rewrite (IH (i + 1) k Hk Hid).
        -- f_equal. lia.
        -- intros j g' Hj Hg'. specialize (Huniq (S j) g' Hj Hg'). lia.
Qed.

Lemma find_group_none (gs : list AssetGroup) (i : Z) (id : AssetID) :
  (forall g, In g gs -> group_AssetID g <> id) ->
  find_group gs i id = None.
Proof.
  revert i. induction gs as [|a gs IH]; intros i Hno; [reflexivity|].
  simpl. destruct (AssetID_eqb (group_AssetID a) id) eqn:E.
  - apply AssetID_eqb_eq in E. exfalso. apply (Hno a); [left; reflexivity|exact E].
  - apply IH. intros g Hg. apply Hno. right. exact Hg.
Qed.

Section FindAssetGroup.
Context `{L : Btcd}.

Lemma popAssetID_run (vm : Engine) (s : list bytes) (txid gb : bytes) (gidx : Z) :
  stk (dstack vm) = s ++ [txid; gb] ->
  MakeScriptNum gb (verifyMinimalData (dstack vm)) maxScriptNumLen = Ok gidx ->
  length txid = 32%nat ->
  popAssetID vm
  = (Ok (mkAssetID txid (uint16 gidx)),
     set_dstack (mkStack s (verifyMinimalData (dstack vm))) vm).
Proof.
  intros Hs Hg Hlen. unfold popAssetID.
  assert (Hs1 : stk (dstack vm) = (s ++ [txid]) ++ [gb])
    by (rewrite Hs, <- app_assoc; reflexivity).
  run_PopInt (s ++ [txid]) gb gidx Hs1 Hg.
  run_PopByteArray s txid (eq_refl (s ++ [txid])).
  unfold len. rewrite Hlen. simpl.
  rewrite copy_into_exact by exact Hlen. reflexivity.
Qed.

Lemma inspect_asset_id_run (vm : Engine) (p : AssetPacket) (g : AssetGroup)
    (s : list bytes) (kb : bytes) (K : Z) :
  assetPacket vm = Some p ->
  stk (dstack vm) = s ++ [kb] ->
  MakeScriptNum kb (verifyMinimalData (dstack vm)) maxScriptNumLen = Ok K ->
  0 <= K ->
  Groups p !! Z.to_nat K = Some g ->
  wf_AssetID (group_AssetID g) ->
  opcodeInspectAssetGroupAssetID vm
  = (Ok tt,
     set_dstack
       (mkStack (s ++ [Txid (group_AssetID g);
                       scriptNum_Bytes (Gidx (group_AssetID g))])
                (verifyMinimalData (dstack vm))) vm).
Proof.
  intros Hp Hs Hk HK Hg [Hlen _].
  unfold opcodeInspectAssetGroupAssetID.
  run_checkAssetPacket p Hp.
  run_PopInt s kb K Hs Hk.
  run_checkGroupIndex p K Hp (lookup_in_range _ _ _ HK Hg).
  run_group_at p K g Hp HK Hg.
  unfold pushAssetID, bind, dstack_PushByteArray, dstack_PushInt,
    stack_PushInt, stack_PushByteArray, set_dstack. simpl.
  rewrite copy_into_exact by exact Hlen.
  rewrite <- app_assoc. reflexivity.
Qed.

Lemma find_asset_group_run (vm : Engine) (p : AssetPacket) (s : list bytes)
    (txid gb : bytes) (gidx : Z) :
  assetPacket vm = Some p ->
  stk (dstack vm) = s ++ [txid; gb] ->
  MakeScriptNum gb (verifyMinimalData (dstack vm)) maxScriptNumLen = Ok gidx ->
  length txid = 32%nat ->
  opcodeFindAssetGroupByAssetID vm
  = (Ok tt,
     set_dstack
       (mkStack
          (s ++ [scriptNum_Bytes
                   (default (-1)
                      (find_group (Groups p) 0 (mkAssetID txid (uint16 gidx))))])
          (verifyMinimalData (dstack vm))) vm).
Proof.
  intros Hp Hs Hg Hlen.
  unfold opcodeFindAssetGroupByAssetID.
  run_checkAssetPacket p Hp.
  unfold bind at 1. rewrite (popAssetID_run vm s txid gb gidx Hs Hg Hlen).
  run_deref p Hp.
  destruct (find_group (Groups p) 0 (mkAssetID txid (uint16 gidx)));
    reflexivity.
Qed.

(** C8.  On an engine with a packet attached, let [K] be a group index
    on top of the stack whose asset id is unique within the packet.
    INSPECTASSETGROUPASSETID replaces [K] by the txid and the group index
    of the asset id, and FINDASSETGROUPBYASSETID run on that pair replaces
    it by the script number [K].  And for a well-formed (txid, gidx) pair
    that is the asset id of no group, FINDASSETGROUPBYASSETID pushes the
    single script number -1. *)
Theorem find_inverts_asset_id :
  (forall (vm : Engine) (p : AssetPacket) (g : AssetGroup) (s : list bytes)
          (kb : bytes) (K : Z),
      assetPacket vm = Some p ->
      stk (dstack vm) = s ++ [kb] ->
      MakeScriptNum kb (verifyMinimalData (dstack vm)) maxScriptNumLen = Ok K ->
      0 <= K ->
      Groups p !! Z.to_nat K = Some g ->
      wf_AssetID (group_AssetID g) ->
      (forall j g', Groups p !! j = Some g' ->
                    group_AssetID g' = group_AssetID g -> j = Z.to_nat K) ->
      exists vm1 vm2,
        opcodeInspectAssetGroupAssetID vm = (Ok tt, vm1)
        /\ stk (dstack vm1)
           = s ++ [Txid (group_AssetID g);
                   scriptNum_Bytes (Gidx (group_AssetID g))]
        /\ opcodeFindAssetGroupByAssetID vm1 = (Ok tt, vm2)
        /\ stk (dstack vm2) = s ++ [scriptNum_Bytes K])
  /\
  (forall (vm : Engine) (p : AssetPacket) (s : list bytes) (txid gb : bytes)
          (gidx : Z),
      assetPacket vm = Some p ->
      stk (dstack vm) = s ++ [txid; gb] ->
      MakeScriptNum gb (verifyMinimalData (dstack vm)) maxScriptNumLen = Ok gidx ->
      length txid = 32%nat ->
      (forall g, In g (Groups p) ->
                 group_AssetID g <> mkAssetID txid (uint16 gidx)) ->
      exists vm',
        opcodeFindAssetGroupByAssetID vm = (Ok tt, vm')
        /\ stk (dstack vm') = s ++ [scriptNum_Bytes (-1)]).
Proof.
  split.
  - intros vm p g s kb K Hp Hs Hk HK Hg Hwf Huniq.
    pose proof Hwf as [Hlen Hgidx].
    set (pair := [Txid (group_AssetID g);
                  scriptNum_Bytes (Gidx (group_AssetID g))]).
    set (vm1 := set_dstack
                  (mkStack (s ++ pair) (verifyMinimalData (dstack vm))) vm).
    exists vm1. eexists.
    split; [apply (inspect_asset_id_run vm p g s kb K); assumption|].
    split; [reflexivity|].
    rewrite (find_asset_group_run vm1 p s (Txid (group_AssetID g))
               (scriptNum_Bytes (Gidx (group_AssetID g)))
               (Gidx (group_AssetID g)) Hp eq_refl
               (scriptNum_roundtrip_uint16 _ _ Hgidx) Hlen).
    rewrite (uint16_small _ Hgidx).
    replace (mkAssetID (Txid (group_AssetID g)) (Gidx (group_AssetID g)))
      with (group_AssetID g) by (destruct (group_AssetID g); reflexivity).
    rewrite (find_group_first (Groups p) 0 (group_AssetID g) (Z.to_nat K) g
               Hg eq_refl Huniq).
    rewrite Z2Nat.id by exact HK. split; reflexivity.
  - intros vm p s txid gb gidx Hp Hs Hg Hlen Hno.
    eexists. split.
    + apply (find_asset_group_run vm p s txid gb gidx); assumption.
    + rewrite (find_group_none _ _ _ Hno). reflexivity.
Qed.

End FindAssetGroup.

Lemma find_inverts_asset_id_witness :
  let vm := Demo.bareEngine [230; 232] (Some Demo.makeTestAssetPacket) [[1]] in
  let vm0 := Demo.bareEngine [232] (Some Demo.makeTestAssetPacket) [zeroHash; []] in
  (exists vm1 vm2,
      opcodeInspectAssetGroupAssetID vm = (Ok tt, vm1)
      /\ stk (dstack vm1) = [] ++ [Demo.testControlTxid; scriptNum_Bytes 1]
      /\ opcodeFindAssetGroupByAssetID vm1 = (Ok tt, vm2)
      /\ stk (dstack vm2) = [] ++ [scriptNum_Bytes 1])
  /\ (exists vm',
         opcodeFindAssetGroupByAssetID vm0 = (Ok tt, vm')
         /\ stk (dstack vm') = [] ++ [scriptNum_Bytes (-1)]).
Proof.
  intros vm vm0. split.
  - apply (proj1 find_inverts_asset_id vm Demo.makeTestAssetPacket
             (mkAssetGroup (mkAssetID Demo.testControlTxid 1) None zeroHash
                [ mkAssetInput AssetInputTypeLocal 1 zeroHash 0 200 ]
                [ mkAssetOutput AssetOutputTypeLocal 2 200 ])
             [] [1] 1).
    + reflexivity.
    + reflexivity.
    + reflexivity.
    + lia.
    + reflexivity.
    + split; [reflexivity | unfold is_uint16; simpl; lia].
    + intros j g' Hj Hid.
      destruct j as [|[|j]]; simpl in Hj.
      * injection Hj as <-. simpl in Hid. discriminate Hid.
      * reflexivity.
      * discriminate Hj.
  - apply (proj2 find_inverts_asset_id vm0 Demo.makeTestAssetPacket []
             zeroHash [] 0).
    + reflexivity.
    + reflexivity.
    + reflexivity.
    + reflexivity.
    + intros g [<- | [<- | []]]; simpl; discriminate.
Defined.

(** ** Witness programs: key spend, annex, sig-ops budget *)

Lemma isAnnexedWitness_single (e : bytes) : isAnnexedWitness [e] = false.
Proof. reflexivity. Qed.

Lemma VarIntSerializeSize_pos (n : Z) : 0 < VarIntSerializeSize n.
Proof.
  unfold VarIntSerializeSize.
  destruct (n <? 253); [lia|].
  destruct (n <=? 65535); [lia|].
  destruct (n <=? 4294967295); lia.
Qed.

Lemma TxWitness_SerializeSize_pos (w : list bytes) :
  0 < TxWitness_SerializeSize w.
Proof.
  unfold TxWitness_SerializeSize.
  generalize (VarIntSerializeSize_pos (len w)).
  generalize (VarIntSerializeSize (len w)) as acc.
  induction w as [|x w IH]; intros acc Hacc; simpl; [exact Hacc|].
  apply IH.
  pose proof (VarIntSerializeSize_pos (len x)).
  pose proof (len_nonneg x). lia.
Qed.

Section WitnessProperties.
Context `{L : Btcd}.
Variable opcodeArray : Z -> opcode.

Lemma verifyWitnessProgram_keyspend (vm : Engine) (witness : list bytes)
    (rawSig : bytes) :
  isWitnessVersionActive vm TaprootWitnessVersion = true ->
  len (witnessProgram_bytes vm) = payToTaprootDataSize ->
  witness <> [] ->
  (if isAnnexedWitness witness then removelast witness else witness) = [rawSig] ->
  verifyWitnessProgram opcodeArray witness vm = keyspend_outcome witness rawSig vm.
Proof.
  intros Hactive Hlen Hne Hone.
  unfold verifyWitnessProgram, keyspend_outcome.
  rewrite Hactive, Hlen. simpl negb. simpl orb.
  replace (payToTaprootDataSize =? payToTaprootDataSize) with true by reflexivity.
  simpl negb.
  replace (len witness =? 0) with false.
  2:{ symmetry. apply Z.eqb_neq. unfold len.
      destruct witness; [contradiction|]. simpl. lia. }
  rewrite Hone.
  replace (len [rawSig] =? 1) with true by reflexivity.
  unfold extractAnnex.
  destruct (isAnnexedWitness witness) eqn:Hannex; simpl negb; cbv iota;
    reflexivity.
Qed.

(** C10.  A witness of exactly one element is never annexed, also when
    the element starts with the annex tag 0x50: [isAnnexedWitness] is
    false on it, and [verifyWitnessProgram] on a taproot program hands
    the element whole to [VerifyTaprootKeySpend] and records no annex in
    the taproot context. *)
Theorem single_element_witness_has_no_annex (vm : Engine) (e : bytes) :
  isAnnexedWitness [e] = false
  /\ isAnnexedWitness [TaprootAnnexTag :: e] = false
  /\ (isWitnessVersionActive vm TaprootWitnessVersion = true ->
      len (witnessProgram_bytes vm) = payToTaprootDataSize ->
      verifyWitnessProgram opcodeArray [e] vm
      = (let '(err, cache) :=
           VerifyTaprootKeySpend (witnessProgram_bytes vm) e (tx vm) (txIdx vm)
             (prevOutFetcher vm) (hashCache vm) (sigCache vm) in
         let ctx := newTaprootExecutionCtx (int32 (TxWitness_SerializeSize [e])) in
         let vm1 := set_sigCache cache (set_taprootCtx (Some ctx) vm) in
         match err with
         | Some err => (Some err, vm1)
         | None =>
             (None, set_taprootCtx (Some (ctx_set_mustSucceed true ctx)) vm1)
         end)
      /\ (annex <$> taprootCtx (snd (verifyWitnessProgram opcodeArray [e] vm)))
         = Some None).
Proof.
  split; [reflexivity|]. split; [reflexivity|].
  intros Hactive Hlen.
  rewrite (verifyWitnessProgram_keyspend vm [e] e Hactive Hlen)
    by (discriminate || reflexivity).
  unfold keyspend_outcome. rewrite isAnnexedWitness_single.
  destruct (VerifyTaprootKeySpend _ _ _ _ _ _ _) as [[err|] cache];
    split; reflexivity.
Qed.

(** The terminal check of an engine whose taproot context has the
    must-succeed flag passes, whatever the engine holds otherwise. *)
Lemma CheckErrorCondition_mustSucceed (vm : Engine) (finalScript : bool) :
  (mustSucceed <$> taprootCtx vm) = Some true ->
  CheckErrorCondition finalScript vm = (None, vm).
Proof.
  intros H. unfold CheckErrorCondition.
  destruct (taprootCtx vm) as [c|]; [|discriminate].
  simpl in H. injection H as ->. reflexivity.
Qed.

Lemma nextScript_keyspend (vm : Engine) (txin : wire_TxIn) (rawSig : bytes)
    (cache' : option SigCache) :
  isWitnessVersionActive vm TaprootWitnessVersion = true ->
  len (witnessProgram_bytes vm) = payToTaprootDataSize ->
  Witness txin <> [] ->
  (if isAnnexedWitness (Witness txin) then removelast (Witness txin)
   else Witness txin) = [rawSig] ->
  VerifyTaprootKeySpend (witnessProgram_bytes vm) rawSig (tx vm) (txIdx vm)
    (prevOutFetcher vm) (hashCache vm) (sigCache vm) = (None, cache') ->
  len (condStack vm) = 0 ->
  scriptIdx vm = 1 ->
  len (scripts vm) = 2 ->
  0 <= txIdx vm ->
  TxIn (tx vm) !! Z.to_nat (txIdx vm) = Some txin ->
  exists vm',
    nextScript opcodeArray vm = ((true, None), vm')
    /\ (mustSucceed <$> taprootCtx vm') = Some true
    /\ scripts vm' = scripts vm
    /\ dstack vm' = dstack vm
    /\ stepCallback vm' = stepCallback vm.
Proof.
  intros Hactive Hlen Hne Hone Hspend Hcond Hidx Hscripts Htx Hin.
  assert (Hprog : witnessProgram vm <> None).
  { unfold isWitnessVersionActive in Hactive.
    destruct (witnessProgram vm); [discriminate|discriminate Hactive]. }
  unfold nextScript. rewrite Hcond. simpl negb. cbv iota.
  set (vm0 := set_opcodeIdx 0 (set_astack _ vm)).
  assert (Hidx0 : scriptIdx vm0 = 1) by exact Hidx.
  rewrite Hidx0. simpl (1 =? 1).
  replace (bool_decide (witnessProgram vm0 <> None)) with true
    by (symmetry; apply bool_decide_eq_true; exact Hprog).
  simpl andb. cbv iota.
  set (vm1 := set_scriptIdx (1 + 1) vm0).
  rewrite (at_index_lookup (TxIn (tx vm1)) (txIdx vm1) txin vm1 Htx Hin).
  rewrite (verifyWitnessProgram_keyspend vm1 (Witness txin) rawSig
             Hactive Hlen Hne Hone).
  unfold keyspend_outcome.
  change (VerifyTaprootKeySpend (witnessProgram_bytes vm1) rawSig (tx vm1)
            (txIdx vm1) (prevOutFetcher vm1) (hashCache vm1) (sigCache vm1))
    with (VerifyTaprootKeySpend (witnessProgram_bytes vm) rawSig (tx vm)
            (txIdx vm) (prevOutFetcher vm) (hashCache vm) (sigCache vm)).
  rewrite Hspend. cbv iota. cbv beta.
  match goal with
  | |- context [set_taprootCtx (Some (ctx_set_mustSucceed true ?c))
                  (set_sigCache cache' (set_taprootCtx ?c0 vm1))] =>
      set (vm2 := set_taprootCtx (Some (ctx_set_mustSucceed true c))
                    (set_sigCache cache' (set_taprootCtx c0 vm1)))
  end.
  assert (Hs2 : scripts vm2 = scripts vm) by reflexivity.
  assert (Hi2 : scriptIdx vm2 = 2) by reflexivity.
  rewrite Hi2, Hs2, Hscripts. simpl (2 <? 2). simpl andb. cbv iota.
  assert (Hs3 : scripts (set_lastCodeSep 0 vm2) = scripts vm) by reflexivity.
  assert (Hi3 : scriptIdx (set_lastCodeSep 0 vm2) = 2) by reflexivity.
  rewrite Hs3, Hi3, Hscripts. simpl (2 <=? 2). cbv iota.
  eexists. split; [reflexivity|].
  split; [reflexivity|]. split; [reflexivity|]. split; reflexivity.
Qed.

(** A [Step] whose handler returns no error, within the stack limit, at
    the end of the current script, is the transition [nextScript]. *)
Lemma Step_at_script_end (vm0 vm : Engine) (tk : ScriptTokenizer) :
  checkValidPC vm0 = None ->
  tk_Next opcodeArray (tokenizer vm0) = (true, tk) ->
  executeOpcode (opcodeArray (tk_op tk)) (tk_data tk) (set_tokenizer tk vm0)
  = (None, vm) ->
  stack_Depth (dstack vm) + stack_Depth (astack vm) <= MaxStackSize ->
  tk_Done (tokenizer vm) = true ->
  Step opcodeArray vm0
  = nextScript opcodeArray (set_opcodeIdx (opcodeIdx vm + 1) vm).
Proof.
  intros Hpc Htk Hexec Hsize Hdone.
  unfold Step. rewrite Hpc, Htk. simpl negb. cbv iota. rewrite Hexec.
  replace (MaxStackSize <? _) with false
    by (symmetry; apply Z.ltb_ge; exact Hsize).
  cbv zeta.
  change (tokenizer (set_opcodeIdx (opcodeIdx vm + 1) vm)) with (tokenizer vm).
  rewrite Hdone. reflexivity.
Qed.

(** [Execute] on an engine with no step callback whose first [Step]
    reports the execution done: the terminal check decides. *)
Lemma Execute_done (vm0 vm' : Engine) (fuel : nat) :
  version vm0 = 0 ->
  stepCallback vm0 = None ->
  Step opcodeArray vm0 = ((true, None), vm') ->
  stepCallback vm' = None ->
  Execute opcodeArray (S fuel) vm0 = Some (CheckErrorCondition true vm').
Proof.
  intros Hver Hcb Hstep Hcb'.
  unfold Execute. rewrite Hver, Hcb. simpl. rewrite Hstep, Hcb'. reflexivity.
Qed.

(** C4.  Let the witness of the input, after the removal of an annex,
    consist of exactly one element [rawSig], on a 32-byte version-1
    program, and let BIP-340 key-spend verification of [rawSig] succeed.
    Then [verifyWitnessProgram] returns no error, sets the must-succeed
    flag and appends no script, and [CheckErrorCondition] accepts with any
    data stack in place of the current one.  At the end of the public key
    script the transition [nextScript] of [Step] reports the execution
    done without error, so no further script runs.  And [Execute], from
    the engine before the last opcode of the public key script, once the
    handler of that opcode has returned, returns no error. *)
Theorem keyspend_bypass (vm : Engine) (txin : wire_TxIn) (rawSig : bytes)
    (cache' : option SigCache) :
  isWitnessVersionActive vm TaprootWitnessVersion = true ->
  len (witnessProgram_bytes vm) = payToTaprootDataSize ->
  Witness txin <> [] ->
  (if isAnnexedWitness (Witness txin) then removelast (Witness txin)
   else Witness txin) = [rawSig] ->
  VerifyTaprootKeySpend (witnessProgram_bytes vm) rawSig (tx vm) (txIdx vm)
    (prevOutFetcher vm) (hashCache vm) (sigCache vm) = (None, cache') ->
  (exists vm',
      verifyWitnessProgram opcodeArray (Witness txin) vm = (None, vm')
      /\ (mustSucceed <$> taprootCtx vm') = Some true
      /\ scripts vm' = scripts vm
      /\ dstack vm' = dstack vm
      /\ forall (finalScript : bool) (st : stack),
           CheckErrorCondition finalScript (set_dstack st vm')
           = (None, set_dstack st vm'))
  /\ (len (condStack vm) = 0 ->
      scriptIdx vm = 1 ->
      len (scripts vm) = 2 ->
      0 <= txIdx vm ->
      TxIn (tx vm) !! Z.to_nat (txIdx vm) = Some txin ->
      (exists vm',
          nextScript opcodeArray vm = ((true, None), vm')
          /\ (mustSucceed <$> taprootCtx vm') = Some true
          /\ scripts vm' = scripts vm
          /\ dstack vm' = dstack vm
          /\ CheckErrorCondition true vm' = (None, vm'))
      /\ forall (vm0 : Engine) (tk : ScriptTokenizer) (fuel : nat),
           version vm0 = 0 ->
           stepCallback vm0 = None ->
           stepCallback vm = None ->
           checkValidPC vm0 = None ->
           tk_Next opcodeArray (tokenizer vm0) = (true, tk) ->
           executeOpcode (opcodeArray (tk_op tk)) (tk_data tk)
             (set_tokenizer tk vm0) = (None, vm) ->
           stack_Depth (dstack vm) + stack_Depth (astack vm) <= MaxStackSize ->
           tk_Done (tokenizer vm) = true ->
           exists vm',
             Execute opcodeArray (S fuel) vm0 = Some (None, vm')
             /\ scripts vm' = scripts vm
             /\ dstack vm' = dstack vm).
Proof.
  intros Hactive Hlen Hne Hone Hspend.
  split.
  - rewrite (verifyWitnessProgram_keyspend vm (Witness txin) rawSig
               Hactive Hlen Hne Hone).
    unfold keyspend_outcome. rewrite Hspend.
    eexists. split; [reflexivity|].
    split; [reflexivity|]. split; [reflexivity|]. split; [reflexivity|].
    intros finalScript st. apply CheckErrorCondition_mustSucceed. reflexivity.
  - intros Hcond Hidx Hscripts Htx Hin. split.
    + destruct (nextScript_keyspend vm txin rawSig cache' Hactive Hlen Hne Hone
                  Hspend Hcond Hidx Hscripts Htx Hin)
        as (vm' & Hnext & Hmust & Hs & Hd & _).
      exists vm'. repeat (split; [assumption|]).
      apply CheckErrorCondition_mustSucceed. exact Hmust.
    + intros vm0 tk fuel Hver Hcb0 Hcb Hpc Htk Hexec Hsize Hdone.
      destruct (nextScript_keyspend (set_opcodeIdx (opcodeIdx vm + 1) vm)
                  txin rawSig cache' Hactive Hlen Hne Hone Hspend Hcond Hidx
                  Hscripts Htx Hin)
        as (vm' & Hnext & Hmust & Hs & Hd & Hcb').
      exists vm'. split; [|split; [exact Hs|exact Hd]].
      rewrite (Execute_done vm0 vm' fuel Hver Hcb0).
      * rewrite (CheckErrorCondition_mustSucceed vm' true Hmust). reflexivity.
      * rewrite (Step_at_script_end vm0 vm tk Hpc Htk Hexec Hsize Hdone).
        exact Hnext.
      * rewrite Hcb'. exact Hcb.
Qed.

End WitnessProperties.

Section StepProperties.
Context `{L : Btcd}.
Variable opcodeArray : Z -> opcode.

(** What a successful [verifyWitnessProgram] leaves: the alternate stack
    untouched, the data stack either untouched (key spend) or within the
    limit (script path), and the budget of the fresh taproot context. *)
Lemma verifyWitnessProgram_success (witness : list bytes) (vm vm' : Engine) :
  verifyWitnessProgram opcodeArray witness vm = (None, vm') ->
  astack vm' = astack vm
  /\ (dstack vm' = dstack vm \/ stack_Depth (dstack vm') <= MaxStackSize)
  /\ (sigOpsBudget <$> taprootCtx vm')
     = Some (int32 (sigOpsDelta + int32 (TxWitness_SerializeSize witness))).
Proof.
  unfold verifyWitnessProgram. cbv zeta.
  destruct (negb (isWitnessVersionActive vm TaprootWitnessVersion)
            || negb (len (witnessProgram_bytes vm) =? payToTaprootDataSize));
    [discriminate|].
  destruct (len witness =? 0); [discriminate|].
  destruct (len (if isAnnexedWitness witness then removelast witness
                 else witness) =? 1).
  - destruct (VerifyTaprootKeySpend _ _ _ _ _ _ _) as [[e|] cache];
      [discriminate|].
    intros [= <-].
    split; [reflexivity|]. split; [left; reflexivity|].
    destruct (isAnnexedWitness witness); reflexivity.
  - destruct (ParseControlBlock _) as [cb|e]; [|discriminate].
    destruct (VerifyTaprootLeafCommitment _ _ _); [discriminate|].
    destruct (negb (LeafVersion cb =? BaseLeafVersion)); [discriminate|].
    destruct (checkScriptParses _ _ _); [discriminate|].
    destruct (MaxStackSize <? stack_Depth (dstack _)) eqn:Hdepth;
      [discriminate|].
    destruct (List.find _ _); [discriminate|].
    intros [= <-].
    split; [reflexivity|].
    split; [right; apply Z.ltb_ge; exact Hdepth|].
    destruct (isAnnexedWitness witness); reflexivity.
Qed.

Lemma nextScript_success (vm vm' : Engine) (done : bool) :
  nextScript opcodeArray vm = ((done, None), vm') ->
  stack_Depth (astack vm') = 0
  /\ (dstack vm' = dstack vm \/ stack_Depth (dstack vm') <= MaxStackSize).
Proof.
  unfold nextScript.
  destruct (negb (len (condStack vm) =? 0)); [discriminate|].
  set (vm0 := set_opcodeIdx 0 (set_astack _ vm)).
  assert (Ha0 : stack_Depth (astack vm0) = 0).
  { unfold vm0. simpl. rewrite stack_DropN_all. reflexivity. }
  assert (Hd0 : dstack vm0 = dstack vm) by reflexivity.
  clearbody vm0.
  destruct ((scriptIdx vm0 =? 1) && bool_decide (witnessProgram vm0 <> None)).
  - destruct (at_index _ _ _) as [[txin|e] vm1] eqn:Hat.
    + assert (Hvm1 : vm1 = set_scriptIdx (scriptIdx vm0 + 1) vm0).
      { unfold at_index in Hat.
        destruct (if txIdx _ <? 0 then None else _);
          unfold ret, raise in Hat; congruence. }
      destruct (verifyWitnessProgram _ _ _) as [[e|] vm2] eqn:Hv;
        [discriminate|].
      apply verifyWitnessProgram_success in Hv as (Ha & Hd & _).
      assert (Ha2 : stack_Depth (astack vm2) = 0).
      { rewrite Ha, Hvm1. exact Ha0. }
      assert (Hd2 : dstack vm2 = dstack vm
                    \/ stack_Depth (dstack vm2) <= MaxStackSize).
      { destruct Hd as [Hd|Hd]; [left|right; exact Hd].
        rewrite Hd, Hvm1. exact Hd0. }
      clear Hat Hvm1 Ha Hd.
      destruct ((scriptIdx vm2 <? len (scripts vm2)) && _);
        destruct (len (scripts _) <=? scriptIdx _);
        intros [= _ <-]; split; solve [exact Ha2 | exact Hd2].
    + discriminate.
  - set (vm2 := set_scriptIdx (scriptIdx vm0 + 1) vm0).
    assert (Ha2 : stack_Depth (astack vm2) = 0) by exact Ha0.
    assert (Hd2 : dstack vm2 = dstack vm) by exact Hd0.
    clearbody vm2.
    destruct ((scriptIdx vm2 <? len (scripts vm2)) && _);
      destruct (len (scripts _) <=? scriptIdx _);
      intros [= _ <-]; split; solve [exact Ha2 | left; exact Hd2].
Qed.

(** C7.  After every [Step] that returns no error, the data stack and the
    alternate stack together hold at most [MaxStackSize] = 1000 elements;
    a step whose handler leaves more than that fails with the error kind
    StackOverflow; hence the bound holds in every engine reachable from
    [NewEngine] by steps without error. *)
Theorem combined_stack_bound :
  MaxStackSize = 1000
  /\ (forall (vm vm' : Engine) (done : bool),
         Step opcodeArray vm = ((done, None), vm') ->
         stack_Depth (dstack vm') + stack_Depth (astack vm') <= MaxStackSize)
  /\ (forall (vm vmh : Engine) (tk : ScriptTokenizer),
         checkValidPC vm = None ->
         tk_Next opcodeArray (tokenizer vm) = (true, tk) ->
         executeOpcode (opcodeArray (tk_op tk)) (tk_data tk)
           (set_tokenizer tk vm) = (None, vmh) ->
         MaxStackSize < stack_Depth (dstack vmh) + stack_Depth (astack vmh) ->
         exists e,
           Step opcodeArray vm = ((false, Some e), vmh)
           /\ error_kind (Some e) = Some "StackOverflow"%string)
  /\ (forall vm : Engine,
         reachable opcodeArray vm ->
         stack_Depth (dstack vm) + stack_Depth (astack vm) <= MaxStackSize).
Proof.
  assert (Hstep : forall (vm vm' : Engine) (done : bool),
             Step opcodeArray vm = ((done, None), vm') ->
             stack_Depth (dstack vm') + stack_Depth (astack vm')
             <= MaxStackSize).
  { intros vm vm' done. unfold Step.
    destruct (checkValidPC vm); [discriminate|].
    destruct (tk_Next opcodeArray (tokenizer vm)) as [ok tk].
    destruct ok; simpl negb; cbv iota.
    2:{ destruct (tk_err tk); discriminate. }
    destruct (executeOpcode _ _ _) as [[e|] vmh]; [discriminate|].
    destruct (MaxStackSize <? _) eqn:Hsize; [discriminate|].
    apply Z.ltb_ge in Hsize.
    destruct (tk_Done _).
    - intros Hnext. apply nextScript_success in Hnext as [Ha Hd].
      rewrite Ha. destruct Hd as [Hd|Hd].
      + rewrite Hd. simpl.
        pose proof (len_nonneg (stk (astack vmh))).
        unfold stack_Depth in *. lia.
      + lia.
    - intros [= _ <-]. exact Hsize. }
  split; [reflexivity|]. split; [exact Hstep|]. split.
  - intros vm vmh tk Hpc Htk Hexec Hover.
    unfold Step. rewrite Hpc, Htk. simpl negb. cbv iota. rewrite Hexec.
    replace (MaxStackSize <? _) with true
      by (symmetry; apply Z.ltb_lt; exact Hover).
    eexists. split; reflexivity.
  - intros vm Hreach. induction Hreach as [pk t i sc hc amt pf vm Hnew
                                          | vm packet _ IH
                                          | vm done vm' _ _ Hs].
    + unfold NewEngine in Hnew.
      repeat
        match type of Hnew with
        | (if ?c then _ else _) = _ => destruct c
        | match ?x with _ => _ end = _ => destruct x
        end;
        try discriminate; injection Hnew as <-;
        unfold MaxStackSize, stack_Depth, len; simpl; lia.
    + exact IH.
    + exact (Hstep vm vm' done Hs).
Qed.

End StepProperties.

(** ** Signature verification *)

Lemma SigCache_Add_Exists (c : SigCache) (key sig pk key' sig' pk' : bytes) :
  SigCache_Exists (SigCache_Add c key sig pk) key' sig' pk' = true ->
  (key' = key /\ sig' = sig /\ pk' = pk)
  \/ SigCache_Exists c key' sig' pk' = true.
Proof.
  unfold SigCache_Add.
  destruct (maxEntries c <=? 0); [intros H; right; exact H|].
  unfold SigCache_Exists. simpl.
  destruct (decide (key = key')) as [->|Hne].
  - rewrite lookup_insert_eq. intros H.
    apply andb_true_iff in H as [Hpk Hsig].
    apply bytes_eqb_eq in Hpk, Hsig. left. auto.
  - rewrite lookup_insert_ne by exact Hne.
    destruct (maxEntries c <? Z.of_nat (size (validSigs c)) + 1);
      [|intros H; right; exact H].
    destruct (map_to_list (validSigs c)) as [|[sigEntry e] rest];
      [intros H; right; exact H|].
    destruct (decide (sigEntry = key')) as [->|Hne'].
    + rewrite lookup_delete_eq. discriminate.
    + rewrite lookup_delete_ne by exact Hne'. intros H. right. exact H.
Qed.

Section SignatureProperties.
Context `{L : Btcd}.

Lemma cache_sound_None : cache_sound None.
Proof. intros c key fullSig pk H. discriminate. Qed.

Lemma cache_sound_empty (n : Z) : cache_sound (Some (mkSigCache ∅ n)).
Proof.
  intros c key fullSig pk [= <-]. unfold SigCache_Exists. simpl.
  rewrite lookup_empty. discriminate.
Qed.

Lemma newTaprootSigVerifier_fields (pk fullSig : bytes) (tx : MsgTx) (idx : Z)
    (po : PrevOutputFetcher) (cache : option SigCache) (hc : TxSigHashes)
    (anx : option bytes) (t : taprootSigVerifier) :
  newTaprootSigVerifier pk fullSig tx idx po cache hc anx = Ok t ->
  well_built t /\ pkBytes t = pk /\ fullSigBytes t = fullSig
  /\ v_sigCache t = cache /\ v_hashCache t = hc /\ v_tx t = tx
  /\ inputIndex t = idx /\ prevOuts t = po /\ v_annex t = anx.
Proof.
  unfold newTaprootSigVerifier, well_built.
  destruct (parseTaprootSigAndPubKey pk fullSig) as [[[k s] h]|e] eqn:Hp;
    [|discriminate].
  intros [= <-]. simpl. rewrite Hp. repeat split; reflexivity.
Qed.

(** With a sound cache, [verifySig] returns what BIP-340 verification of
    the signature returns, hit or miss, and leaves a sound cache. *)
Lemma verifySig_sound (t : taprootSigVerifier) (sigHash : bytes) :
  well_built t ->
  cache_sound (v_sigCache t) ->
  len sigHash = chainhash_HashSize ->
  fst (verifySig t sigHash) = Ok (Signature_Verify (sig t) sigHash (pubKey t))
  /\ cache_sound (snd (verifySig t sigHash)).
Proof.
  intros Hwb Hsound Hlen.
  unfold verifySig, chainhash_NewHash. rewrite Hlen. simpl (_ =? _).
  cbv iota zeta.
  destruct (v_sigCache t) as [c|] eqn:Hc.
  - destruct (SigCache_Exists c sigHash (fullSigBytes t) (pkBytes t)) eqn:Hex.
    + destruct (Hsound c sigHash (fullSigBytes t) (pkBytes t) eq_refl Hex)
        as (k & s & h & Hparse & Hver).
      unfold well_built in Hwb. rewrite Hwb in Hparse.
      injection Hparse as <- <- <-. rewrite Hver.
      split; [reflexivity|exact Hsound].
    + destruct (Signature_Verify (sig t) sigHash (pubKey t)) eqn:Hver.
      * split; [reflexivity|]. simpl.
        intros c' key' sig' pk' [= <-] Hex'.
        apply SigCache_Add_Exists in Hex' as [(-> & -> & ->)|Hex'].
        -- exists (pubKey t), (sig t), (hashType t). split; assumption.
        -- exact (Hsound c key' sig' pk' eq_refl Hex').
      * split; [reflexivity|exact Hsound].
  - destruct (Signature_Verify (sig t) sigHash (pubKey t));
      (split; [reflexivity|apply cache_sound_None]).
Qed.

Lemma newBaseTapscriptSigVerifier_fields (pk rawSig : bytes) (vm : Engine)
    (b : baseTapscriptSigVerifier) :
  newBaseTapscriptSigVerifier pk rawSig vm = Ok b ->
  exists ctx,
    taprootCtx vm = Some ctx
    /\ newTaprootSigVerifier pk rawSig (tx vm) (txIdx vm) (prevOutFetcher vm)
         (sigCache vm) (hashCache vm) (annex ctx) = Ok (base b)
    /\ b_vm b = vm /\ len pk = 32.
Proof.
  unfold newBaseTapscriptSigVerifier.
  destruct (len pk =? 0); [discriminate|].
  destruct (len pk =? 32) eqn:E32; [|discriminate].
  destruct (taprootCtx vm) as [ctx|]; [|discriminate].
  destruct (newTaprootSigVerifier _ _ _ _ _ _ _ _) as [t|e] eqn:Ht;
    [|discriminate].
  intros [= <-]. exists ctx. simpl.
  apply Z.eqb_eq in E32. auto.
Qed.

(** C5 (as amended).  In [newBaseTapscriptSigVerifier] the length of the
    public key decides: 0 bytes is the error TaprootPubkeyIsEmpty; 32
    bytes is parsed as a BIP-340 x-only key by [schnorr.ParsePubKey] and
    the verifier is the one [newTaprootSigVerifier] builds; any other
    length is always the error DiscourageUpgradeablePubKeyType - no
    engine lets an unknown key type through as a success. *)
Theorem pubkey_length_rules (pkBytes rawSig : bytes) (vm : Engine) :
  (len pkBytes = 0 ->
   newBaseTapscriptSigVerifier pkBytes rawSig vm
   = Fail (scriptError ErrTaprootPubkeyIsEmpty ""))
  /\ (len pkBytes = 32 ->
      forall ctx, taprootCtx vm = Some ctx ->
        newBaseTapscriptSigVerifier pkBytes rawSig vm
        = match
            newTaprootSigVerifier pkBytes rawSig (tx vm) (txIdx vm)
              (prevOutFetcher vm) (sigCache vm) (hashCache vm) (annex ctx)
          with
          | Ok t => Ok (mkBaseTapscriptSigVerifier t vm)
          | Fail e => Fail e
          end
        /\ forall b, newBaseTapscriptSigVerifier pkBytes rawSig vm = Ok b ->
                     schnorr_ParsePubKey pkBytes = Ok (pubKey (base b)))
  /\ (len pkBytes <> 0 -> len pkBytes <> 32 ->
      newBaseTapscriptSigVerifier pkBytes rawSig vm
      = Fail (scriptError ErrDiscourageUpgradeablePubKeyType
                ("pubkey of length " +:+ fmt_d (len pkBytes) +:+ " was used"))
      /\ error_kind
           (match newBaseTapscriptSigVerifier pkBytes rawSig vm with
            | Ok _ => None
            | Fail e => Some e
            end)
         = Some "DiscourageUpgradeablePubKeyType"%string).
Proof.
  split; [|split].
  - intros H0. unfold newBaseTapscriptSigVerifier. rewrite H0. reflexivity.
  - intros H32 ctx Hctx. split.
    + unfold newBaseTapscriptSigVerifier. rewrite H32, Hctx. reflexivity.
    + intros b Hb.
      apply newBaseTapscriptSigVerifier_fields in Hb
        as (ctx' & _ & Ht & _ & _).
      apply newTaprootSigVerifier_fields in Ht as (Hwb & Hpk & _).
      unfold well_built, parseTaprootSigAndPubKey in Hwb. rewrite Hpk in Hwb.
      destruct (schnorr_ParsePubKey pkBytes) as [k|e]; [|discriminate].
      repeat
        match type of Hwb with
        | (if ?c then _ else _) = _ => destruct c
        | match ?x with _ => _ end = _ => destruct x
        end;
        try discriminate; injection Hwb as <- _ _; reflexivity.
  - intros H0 H32. unfold newBaseTapscriptSigVerifier.
    apply Z.eqb_neq in H0, H32. rewrite H0, H32. split; reflexivity.
Qed.

(** C2.  The digest [baseTapscriptSigVerifier.Verify] checks the
    signature against is [CalcTaprootSignatureHash] of the hash cache,
    the sighash type, the transaction, the input index and the previous
    outputs.  Two verifiers built for the same key and signature on
    engines that differ only in the taproot context - leaf hash, code
    separator position, annex - check against the same digest and return
    the same verdict. *)
Theorem tapscript_digest_ignores_leaf (vm : Engine) (pk rawSig : bytes)
    (ctx1 ctx2 : taprootExecutionCtx) (b1 b2 : baseTapscriptSigVerifier) :
  newBaseTapscriptSigVerifier pk rawSig (set_taprootCtx (Some ctx1) vm) = Ok b1 ->
  newBaseTapscriptSigVerifier pk rawSig (set_taprootCtx (Some ctx2) vm) = Ok b2 ->
  baseTapscript_sigHash b1
  = CalcTaprootSignatureHash (hashCache vm) (hashType (base b1)) (tx vm)
      (txIdx vm) (prevOutFetcher vm)
  /\ baseTapscript_sigHash b1 = baseTapscript_sigHash b2
  /\ baseTapscriptSigVerifier_Verify b1 = baseTapscriptSigVerifier_Verify b2.
Proof.
  intros H1 H2.
  apply newBaseTapscriptSigVerifier_fields in H1 as (c1 & Hc1 & Ht1 & _ & _).
  apply newBaseTapscriptSigVerifier_fields in H2 as (c2 & Hc2 & Ht2 & _ & _).
  simpl in Hc1, Hc2, Ht1, Ht2.
  unfold newTaprootSigVerifier in Ht1, Ht2.
  destruct (parseTaprootSigAndPubKey pk rawSig) as [[[k s] h]|e];
    [|discriminate].
  injection Ht1 as Hb1. injection Ht2 as Hb2.
  unfold baseTapscriptSigVerifier_Verify, baseTapscript_sigHash, verifySig.
  rewrite <- Hb1, <- Hb2. simpl. repeat split; reflexivity.
Qed.

End SignatureProperties.

(** ** The theorems on concrete engines *)

Lemma pair_of_fst {A B : Type} (p : A * B) (a : A) :
  fst p = a -> p = (a, snd p).
Proof. destruct p as [x y]. simpl. intros ->. reflexivity. Defined.

Lemma single_element_witness_has_no_annex_witness :
  index 0 Demo.taggedSignature 0 = TaprootAnnexTag
  /\ isWitnessVersionActive Demo.taggedVm TaprootWitnessVersion = true
  /\ len (witnessProgram_bytes Demo.taggedVm) = payToTaprootDataSize
  /\ fst (verifyWitnessProgram Demo.opcodeArray [Demo.taggedSignature]
            Demo.taggedVm) = None
  /\ (mustSucceed <$> taprootCtx
         (snd (verifyWitnessProgram Demo.opcodeArray [Demo.taggedSignature]
                 Demo.taggedVm))) = Some true
  /\ (annex <$> taprootCtx
         (snd (verifyWitnessProgram Demo.opcodeArray [Demo.taggedSignature]
                 Demo.taggedVm))) = Some None.
Proof.
  assert (Hactive :
    isWitnessVersionActive Demo.taggedVm TaprootWitnessVersion = true)
    by (vm_compute; reflexivity).
  assert (Hlen : len (witnessProgram_bytes Demo.taggedVm) = payToTaprootDataSize)
    by (vm_compute; reflexivity).
  split; [vm_compute; reflexivity|].
  split; [exact Hactive|]. split; [exact Hlen|].
  split; [vm_compute; reflexivity|]. split; [vm_compute; reflexivity|].
  exact (proj2
           (proj2 (proj2 (single_element_witness_has_no_annex
                            Demo.opcodeArray Demo.taggedVm
                            Demo.taggedSignature))
              Hactive Hlen)).
Defined.

Lemma keyspend_bypass_witness :
  let cache := Some (mkSigCache ∅ 100) in
  let vm := Demo.afterLastOpcode in
  (if isAnnexedWitness Demo.keyspendWitness
   then removelast Demo.keyspendWitness else Demo.keyspendWitness)
  = [Demo.signatureOf zeroHash]
  /\ VerifyTaprootKeySpend (witnessProgram_bytes vm) (Demo.signatureOf zeroHash)
       (tx vm) (txIdx vm) (prevOutFetcher vm) (hashCache vm) (sigCache vm)
     = (None, cache)
  /\ (exists vm',
         nextScript Demo.opcodeArray vm = ((true, None), vm')
         /\ (mustSucceed <$> taprootCtx vm') = Some true
         /\ scripts vm' = scripts vm
         /\ dstack vm' = dstack vm
         /\ CheckErrorCondition true vm' = (None, vm'))
  /\ (exists vm',
         Execute Demo.opcodeArray 1 Demo.atLastOpcode = Some (None, vm')
         /\ scripts vm' = scripts vm
         /\ dstack vm' = dstack vm)
  /\ stk (dstack vm) = [[1]; zeroHash]
  /\ Demo.run 3 (Demo.taprootEngine zeroHash Demo.keyspendWitness) = Some None.
Proof.
  intros cache vm.
  assert (Hone : (if isAnnexedWitness Demo.keyspendWitness
                  then removelast Demo.keyspendWitness
                  else Demo.keyspendWitness) = [Demo.signatureOf zeroHash])
    by reflexivity.
  assert (Hspend :
    VerifyTaprootKeySpend (witnessProgram_bytes vm) (Demo.signatureOf zeroHash)
      (tx vm) (txIdx vm) (prevOutFetcher vm) (hashCache vm) (sigCache vm)
    = (None, cache)) by (vm_compute; reflexivity).
  assert (Hactive : isWitnessVersionActive vm TaprootWitnessVersion = true)
    by (vm_compute; reflexivity).
  assert (Hlen : len (witnessProgram_bytes vm) = payToTaprootDataSize)
    by (vm_compute; reflexivity).
  destruct (proj2 (keyspend_bypass Demo.opcodeArray vm
                     (mkTxIn (mkOutPoint zeroHash 0) [] Demo.keyspendWitness 0)
                     (Demo.signatureOf zeroHash) cache Hactive Hlen
                     (fun H : Demo.keyspendWitness = [] =>
                        eq_ind Demo.keyspendWitness
                          (fun l => match l with [] => False | _ => True end)
                          I [] H)
                     Hone Hspend))
    as [Hnext Hexec].
  - vm_compute. reflexivity.
  - vm_compute. reflexivity.
  - vm_compute. reflexivity.
  - vm_compute. discriminate.
  - vm_compute. reflexivity.
  - split; [exact Hone|]. split; [exact Hspend|]. split; [exact Hnext|].
    split.
    + apply (Hexec Demo.atLastOpcode Demo.lastToken 0%nat).
      * vm_compute. reflexivity.
      * vm_compute. reflexivity.
      * vm_compute. reflexivity.
      * vm_compute. reflexivity.
      * apply pair_of_fst. vm_compute. reflexivity.
      * apply pair_of_fst. vm_compute. reflexivity.
      * vm_compute. discriminate.
      * vm_compute. reflexivity.
    + split; vm_compute; reflexivity.
Defined.

Lemma combined_stack_bound_witness :
  let vm := Demo.bareEngine [81] None [] in
  let full := Demo.bareEngine [81] None (repeat [] 1000) in
  (fst (Step Demo.opcodeArray vm) = (true, None)
   /\ stk (dstack (snd (Step Demo.opcodeArray vm))) = [[1]]
   /\ stack_Depth (dstack (snd (Step Demo.opcodeArray vm)))
      + stack_Depth (astack (snd (Step Demo.opcodeArray vm))) <= MaxStackSize)
  /\ (exists e,
         fst (Step Demo.opcodeArray full) = (false, Some e)
         /\ stack_Depth (dstack (snd (Step Demo.opcodeArray full))) = 1001
         /\ error_kind (Some e) = Some "StackOverflow"%string).
Proof.
  intros vm full.
  pose proof (combined_stack_bound Demo.opcodeArray) as (_ & Hstep & Hover & _).
  split.
  - split; [vm_compute; reflexivity|]. split; [vm_compute; reflexivity|].
    apply (Hstep vm (snd (Step Demo.opcodeArray vm)) true).
    apply pair_of_fst. vm_compute. reflexivity.
  - destruct (Hover full
                (snd (executeOpcode (Demo.opcodeArray 81) []
                        (set_tokenizer
                           (snd (tk_Next Demo.opcodeArray (tokenizer full)))
                           full)))
                (snd (tk_Next Demo.opcodeArray (tokenizer full))))
      as (e & Hs & Hk).
    + vm_compute. reflexivity.
    + apply pair_of_fst. vm_compute. reflexivity.
    + apply pair_of_fst. vm_compute. reflexivity.
    + vm_compute. reflexivity.
    + exists e. rewrite Hs. split; [reflexivity|]. split; [|exact Hk].
      vm_compute. reflexivity.
Defined.

Lemma pubkey_length_rules_witness :
  let vm := Demo.taprootVm zeroHash [] None (Some (newTaprootExecutionCtx 0)) in
  let sig := Demo.signatureOf zeroHash in
  newBaseTapscriptSigVerifier [] sig vm
  = Fail (scriptError ErrTaprootPubkeyIsEmpty "")
  /\ (forall b, newBaseTapscriptSigVerifier zeroHash sig vm = Ok b ->
                schnorr_ParsePubKey zeroHash = Ok (pubKey (base b)))
  /\ error_kind
       (match newBaseTapscriptSigVerifier (repeat 2 33) sig vm with
        | Ok _ => None
        | Fail e => Some e
        end)
     = Some "DiscourageUpgradeablePubKeyType"%string.
Proof.
  intros vm sig. split; [|split].
  - apply (proj1 (pubkey_length_rules [] sig vm)). reflexivity.
  - apply (proj1 (proj2 (pubkey_length_rules zeroHash sig vm)) eq_refl
             (newTaprootExecutionCtx 0) eq_refl).
  - apply (proj2 (proj2 (pubkey_length_rules (repeat 2 33) sig vm)));
      vm_compute; discriminate.
Defined.

(** C5 (as stated) fails on its last clause: a public key of 33 bytes is
    rejected on every engine, with every signature; there is no setting
    in which an unknown key type passes as a success. *)
Lemma unknown_pubkey_type_never_succeeds :
  ~ exists (vm : @Engine Demo.lib) (rawSig : bytes) b,
      newBaseTapscriptSigVerifier (repeat 2 33) rawSig vm = Ok b.
Proof.
  intros (vm & rawSig & b & H).
  unfold newBaseTapscriptSigVerifier in H. simpl in H. discriminate H.
Qed.

Lemma tapscript_digest_ignores_leaf_witness :
  let vm := Demo.taprootVm zeroHash [] None None in
  let ctx1 :=
    mkTaprootCtx None blankCodeSepValue (Demo.Leaf [81]) 100 false in
  let ctx2 := mkTaprootCtx (Some [80; 7]) 3 (Demo.Leaf [82; 81]) 100 false in
  let sig := Demo.signatureOf zeroHash in
  let b1 := Demo.verifierOn zeroHash sig (set_taprootCtx (Some ctx1) vm) in
  let b2 := Demo.verifierOn zeroHash sig (set_taprootCtx (Some ctx2) vm) in
  tapLeafHash ctx1 <> tapLeafHash ctx2
  /\ codeSepPos ctx1 <> codeSepPos ctx2
  /\ newBaseTapscriptSigVerifier zeroHash sig (set_taprootCtx (Some ctx1) vm)
     = Ok b1
  /\ newBaseTapscriptSigVerifier zeroHash sig (set_taprootCtx (Some ctx2) vm)
     = Ok b2
  /\ baseTapscript_sigHash b1 = baseTapscript_sigHash b2
  /\ baseTapscriptSigVerifier_Verify b1 = baseTapscriptSigVerifier_Verify b2
  /\ fst (baseTapscriptSigVerifier_Verify b1) = Ok (mkVerifyResult true).
Proof.
  intros vm ctx1 ctx2 sig b1 b2.
  assert (H1 : newBaseTapscriptSigVerifier zeroHash sig
                 (set_taprootCtx (Some ctx1) vm) = Ok b1)
    by reflexivity.
  assert (H2 : newBaseTapscriptSigVerifier zeroHash sig
                 (set_taprootCtx (Some ctx2) vm) = Ok b2)
    by reflexivity.
  split; [vm_compute; discriminate|]. split; [vm_compute; discriminate|].
  split; [exact H1|]. split; [exact H2|].
  pose proof (tapscript_digest_ignores_leaf vm zeroHash sig ctx1 ctx2 b1 b2
                H1 H2) as (_ & Hd & Hv).
  split; [exact Hd|]. split; [exact Hv|]. vm_compute. reflexivity.
Defined.

Lemma demo_digests_are_hashes : @digests_are_hashes Demo.lib.
Proof.
  intros hashCache hashType tx idx prevOuts h H.
  change (Demo.SignatureHash hashCache hashType tx idx prevOuts = Ok h) in H.
  unfold Demo.SignatureHash in H. injection H as <-.
  unfold len, chainhash_HashSize.
  cbn [length]. rewrite length_app, copy_into_length. reflexivity.
Defined.

(** * Further properties of the code *)

(** ** The asset opcodes and the rest of the engine *)

Section AssetFrame.
Context `{L : Btcd}.

Lemma only_dstack_refl (vm : Engine) : only_dstack vm vm.
Proof. split; [destruct vm; reflexivity|reflexivity]. Qed.

Lemma only_dstack_trans (vm vm' vm'' : Engine) :
  only_dstack vm vm' -> only_dstack vm' vm'' -> only_dstack vm vm''.
Proof.
  intros [H1 F1] [H2 F2]. split; [|congruence].
  rewrite H2. simpl. rewrite H1. reflexivity.
Qed.

Lemma only_dstack_set (vm : Engine) (st : stack) :
  verifyMinimalData st = verifyMinimalData (dstack vm) ->
  only_dstack vm (set_dstack st vm).
Proof. intros H. split; [reflexivity|exact H]. Qed.

Lemma frames_ret {A : Type} (a : A) : frames (ret a).
Proof. intros vm. apply only_dstack_refl. Qed.

Lemma frames_raise {A : Type} (e : error) : frames (@raise L A e).
Proof. intros vm. apply only_dstack_refl. Qed.

Lemma frames_bind {A B : Type} (m : M A) (k : A -> M B) :
  frames m -> (forall a, frames (k a)) -> frames (bind m k).
Proof.
  intros Hm Hk vm. unfold bind. specialize (Hm vm).
  destruct (m vm) as [[a|e] vm']; simpl in *; [|exact Hm].
  exact (only_dstack_trans _ _ _ Hm (Hk a vm')).
Qed.

Lemma frames_PushByteArray (so : bytes) : frames (dstack_PushByteArray so).
Proof. intros vm. apply only_dstack_set. reflexivity. Qed.

Lemma frames_PushInt (n : scriptNum) : frames (dstack_PushInt n).
Proof. intros vm. apply only_dstack_set. reflexivity. Qed.

Lemma stack_PopByteArray_flag (st : stack) :
  verifyMinimalData (snd (stack_PopByteArray st)) = verifyMinimalData st.
Proof. unfold stack_PopByteArray. destruct (rev (stk st)); reflexivity. Qed.

Lemma frames_PopByteArray : frames dstack_PopByteArray.
Proof.
  intros vm. unfold dstack_PopByteArray.
  pose proof (stack_PopByteArray_flag (dstack vm)) as H.
  destruct (stack_PopByteArray (dstack vm)) as [r st]. simpl in *.
  apply only_dstack_set. exact H.
Qed.

Lemma frames_PopInt : frames dstack_PopInt.
Proof.
  intros vm. unfold dstack_PopInt, stack_PopInt.
  pose proof (stack_PopByteArray_flag (dstack vm)) as H.
  destruct (stack_PopByteArray (dstack vm)) as [[so|e] st]; simpl in *;
    apply only_dstack_set; exact H.
Qed.

Lemma frames_checkAssetPacket : frames checkAssetPacket.
Proof.
  intros vm. unfold checkAssetPacket.
  destruct (assetPacket vm); apply only_dstack_refl.
Qed.

Lemma frames_deref : frames deref_assetPacket.
Proof.
  intros vm. unfold deref_assetPacket.
  destruct (assetPacket vm); apply only_dstack_refl.
Qed.

Lemma frames_at_index {A : Type} (l : list A) (i : Z) : frames (at_index l i).
Proof.
  unfold at_index.
  destruct (if i <? 0 then None else l !! Z.to_nat i);
    [apply frames_ret|apply frames_raise].
Qed.

End AssetFrame.

(** A handler is a sequence of framed computations, branching on the
    values it read. *)
Ltac frames_step :=
  first
    [ apply frames_bind; [|intros ?]
    | apply frames_ret
    | apply frames_raise
    | apply frames_PushByteArray
    | apply frames_PushInt
    | apply frames_PopByteArray
    | apply frames_PopInt
    | apply frames_checkAssetPacket
    | apply frames_deref
    | apply frames_at_index
    | match goal with
      | |- frames (if ?c then _ else _) => destruct c
      | |- frames (match ?x with _ => _ end) => destruct x
      end ].

Section AssetFrameTheorem.
Context `{L : Btcd}.

Lemma asset_opcodes_frames (h : M unit) : In h asset_opcodes -> frames h.
Proof.
  intros Hin. unfold asset_opcodes in Hin. simpl in Hin.
  repeat (destruct Hin as [<- | Hin];
          [ unfold opcodeInspectNumAssetGroups,
              opcodeInspectAssetGroupAssetID, opcodeInspectAssetGroupCtrl,
              opcodeFindAssetGroupByAssetID,
              opcodeInspectAssetGroupMetadataHash,
              opcodeInspectAssetGroupNum, opcodeInspectAssetGroup,
              opcodeInspectAssetGroupSum, opcodeInspectOutAssetCount,
              opcodeInspectOutAssetAt, opcodeInspectOutAssetLookup,
              opcodeInspectInAssetCount, opcodeInspectInAssetAt,
              opcodeInspectInAssetLookup, opcodeInspectGroupIntentOutCount,
              opcodeInspectGroupIntentOut, opcodeInspectGroupIntentInCount,
              opcodeInspectGroupIntentIn, checkGroupIndex, group_at,
              pushAssetID, pushLE64, popAssetID;
            repeat frames_step
          | ]).
  contradiction.
Qed.

(** X1.  An opcode of the asset family reads and writes the data stack
    and nothing else.  Whether it returns an error or not, the engine it
    leaves is the engine it was run on with another data stack: the
    alternate stack, the condition stack, the scripts and the program
    counter, the taproot context, the signature cache, the attached packet
    and the minimal-data flag of the stack are unchanged. *)
Theorem asset_opcodes_touch_only_data_stack (h : M unit) (vm : Engine) :
  In h asset_opcodes ->
  snd (h vm) = set_dstack (dstack (snd (h vm))) vm
  /\ verifyMinimalData (dstack (snd (h vm))) = verifyMinimalData (dstack vm)
  /\ astack (snd (h vm)) = astack vm
  /\ condStack (snd (h vm)) = condStack vm
  /\ assetPacket (snd (h vm)) = assetPacket vm
  /\ taprootCtx (snd (h vm)) = taprootCtx vm
  /\ sigCache (snd (h vm)) = sigCache vm
  /\ scripts (snd (h vm)) = scripts vm
  /\ scriptIdx (snd (h vm)) = scriptIdx vm
  /\ tokenizer (snd (h vm)) = tokenizer vm.
Proof.
  intros Hin. destruct (asset_opcodes_frames h Hin vm) as [Heq Hflag].
  split; [exact Heq|]. split; [exact Hflag|].
  repeat split; rewrite Heq; reflexivity.
Qed.

End AssetFrameTheorem.

Lemma asset_opcodes_touch_only_data_stack_witness :
  let vm :=
    SetAltStack [[7]]
      (Demo.bareEngine [236] (Some Demo.makeTestAssetPacket) [[]; [2]]) in
  In opcodeInspectAssetGroupSum asset_opcodes
  /\ stk (dstack (snd (opcodeInspectAssetGroupSum vm)))
     = [le_bytes 8 1500; le_bytes 8 1500]
  /\ snd (opcodeInspectAssetGroupSum vm)
     = set_dstack (dstack (snd (opcodeInspectAssetGroupSum vm))) vm
  /\ stk (astack (snd (opcodeInspectAssetGroupSum vm))) = [[7]].
Proof.
  intros vm.
  assert (Hin : In (@opcodeInspectAssetGroupSum Demo.lib) asset_opcodes)
    by (do 7 right; left; reflexivity).
  pose proof (asset_opcodes_touch_only_data_stack opcodeInspectAssetGroupSum vm
                Hin) as (Heq & _ & Ha & _).
  split; [exact Hin|]. split; [reflexivity|]. split; [exact Heq|].
  rewrite Ha. reflexivity.
Defined.

(** ** Validation of the group index *)

Section GroupIndexValidation.
Context `{L : Btcd}.

Lemma checkGroupIndex_fails (vm : Engine) (p : AssetPacket) (k : Z)
    {A : Type} (rest : unit -> M A) :
  assetPacket vm = Some p -> ~ (0 <= k < len (Groups p)) ->
  bind (checkGroupIndex k) rest vm
  = (Fail (scriptError ErrInvalidIndex "asset group index out of range"), vm).
Proof.
  intros Hp Hk. unfold bind at 1.
  rewrite (checkGroupIndex_out_of_range vm p k Hp Hk). reflexivity.
Qed.

(** X2.  Each opcode that takes a group index rejects an index that is
    negative or not below the number of groups, with the error
    [scriptError(ErrInvalidIndex, "asset group index out of range")].  The
    index and the operands above it have been popped by then, and the
    check of the index comes before any check of those operands' values:
    an invalid source or item index does not mask it. *)
Theorem group_index_out_of_range (h : M unit) (n : nat) (vm : Engine)
    (p : AssetPacket) (s : list bytes) (kb : bytes) (above : list bytes)
    (K : Z) :
  In (h, n) group_index_opcodes ->
  assetPacket vm = Some p ->
  stk (dstack vm) = s ++ kb :: above ->
  length above = n ->
  Forall (is_scriptNum (verifyMinimalData (dstack vm))) above ->
  MakeScriptNum kb (verifyMinimalData (dstack vm)) maxScriptNumLen = Ok K ->
  ~ (0 <= K < len (Groups p)) ->
  h vm
  = (Fail (scriptError ErrInvalidIndex "asset group index out of range"),
     set_dstack (mkStack s (verifyMinimalData (dstack vm))) vm).
Proof.
  intros Hin Hp Hs Hn Habove Hk Hrange.
  unfold group_index_opcodes in Hin. simpl in Hin.
  repeat (destruct Hin as [[= <- <-] | Hin];
          [ destruct above as [|a1 [|a2 [|a3 above]]]; try discriminate Hn;
            repeat match goal with
                   | H : Forall _ (_ :: _) |- _ =>
                       apply Forall_cons_1 in H as [[? ?] H]
                   end
          | ]);
    try contradiction.
  all: unfold opcodeInspectAssetGroupAssetID, opcodeInspectAssetGroupCtrl,
         opcodeInspectAssetGroupMetadataHash, opcodeInspectAssetGroupNum,
         opcodeInspectAssetGroup, opcodeInspectAssetGroupSum,
         opcodeInspectGroupIntentOutCount, opcodeInspectGroupIntentOut,
         opcodeInspectGroupIntentInCount, opcodeInspectGroupIntentIn.
  all: run_checkAssetPacket p Hp.
  all: repeat
         match goal with
         | H : MakeScriptNum ?a _ _ = Ok ?v,
           Hstk : stk ?d = ?s0 ++ [?x; ?y; ?a] |- _ =>
             let Hs' := fresh "Hs" in
             assert (Hs' : stk d = (s0 ++ [x; y]) ++ [a])
               by (rewrite Hstk, <- app_assoc; reflexivity);
             run_PopInt (s0 ++ [x; y]) a v Hs' H;
             clear Hs' Hstk H;
             assert (Hstk : s0 ++ [x; y] = (s0 ++ [x]) ++ [y])
               by (rewrite <- app_assoc; reflexivity)
         | H : MakeScriptNum ?y _ _ = Ok ?v,
           Hstk : ?s0 ++ [?x; ?y] = (?s0 ++ [?x]) ++ [?y] |- _ =>
             run_PopInt (s0 ++ [x]) y v Hstk H; clear Hstk H
         | H : MakeScriptNum ?y _ _ = Ok ?v,
           Hstk : stk ?d = ?s0 ++ [?x; ?y] |- _ =>
             let Hs' := fresh "Hs" in
             assert (Hs' : stk d = (s0 ++ [x]) ++ [y])
               by (rewrite Hstk, <- app_assoc; reflexivity);
             run_PopInt (s0 ++ [x]) y v Hs' H; clear Hs' Hstk H
         end.
  all: first [ run_PopInt s kb K Hs Hk
             | run_PopInt s kb K (eq_refl (s ++ [kb])) Hk ].
  all: apply checkGroupIndex_fails with (p := p); assumption.
Qed.

End GroupIndexValidation.

Lemma group_index_out_of_range_witness :
  let vm :=
    Demo.bareEngine [236] (Some Demo.makeTestAssetPacket) [[99]; [7]] in
  opcodeInspectAssetGroupSum vm
  = (Fail (scriptError ErrInvalidIndex "asset group index out of range"),
     set_dstack (mkStack [] true) vm).
Proof.
  intros vm.
  apply (group_index_out_of_range opcodeInspectAssetGroupSum 1 vm
           Demo.makeTestAssetPacket [] [99] [[7]] 99).
  - do 5 right. left. reflexivity.
  - reflexivity.
  - reflexivity.
  - reflexivity.
  - constructor; [exists 7; reflexivity|constructor].
  - reflexivity.
  - vm_compute. intros [_ H]. discriminate H.
Defined.

(** ** INSPECTASSETGROUPNUM and INSPECTASSETGROUP *)

Section GroupItems.
Context `{L : Btcd}.

(** X3.  On a packet and an in-range group index, INSPECTASSETGROUPNUM
    replaces its two operands by the number of inputs of the group
    (source 0), by the number of outputs (source 1) or by both, inputs
    first (source 2); any other source is the error InvalidIndex, raised
    once both operands are popped. *)
Theorem inspect_asset_group_num (vm : Engine) (p : AssetPacket)
    (g : AssetGroup) (s : list bytes) (kb sb : bytes) (K source : Z) :
  assetPacket vm = Some p ->
  stk (dstack vm) = s ++ [kb; sb] ->
  MakeScriptNum sb (verifyMinimalData (dstack vm)) maxScriptNumLen = Ok source ->
  MakeScriptNum kb (verifyMinimalData (dstack vm)) maxScriptNumLen = Ok K ->
  0 <= K ->
  Groups p !! Z.to_nat K = Some g ->
  (source = 0 ->
   opcodeInspectAssetGroupNum vm
   = (Ok tt, with_stack (s ++ [scriptNum_Bytes (len (Inputs g))]) vm))
  /\ (source = 1 ->
      opcodeInspectAssetGroupNum vm
      = (Ok tt, with_stack (s ++ [scriptNum_Bytes (len (Outputs g))]) vm))
  /\ (source = 2 ->
      opcodeInspectAssetGroupNum vm
      = (Ok tt,
         with_stack (s ++ [scriptNum_Bytes (len (Inputs g));
                           scriptNum_Bytes (len (Outputs g))]) vm))
  /\ (source <> 0 -> source <> 1 -> source <> 2 ->
      opcodeInspectAssetGroupNum vm
      = (Fail (scriptError ErrInvalidIndex
                 "invalid source for OP_INSPECTASSETGROUPNUM"),
         with_stack s vm)).
Proof.
  intros Hp Hs Hsrc Hk HK Hg.
  assert (Hrun :
    opcodeInspectAssetGroupNum vm
    = (if source =? 0 then dstack_PushInt (len (Inputs g))
       else if source =? 1 then dstack_PushInt (len (Outputs g))
       else if source =? 2 then
         bind (dstack_PushInt (len (Inputs g)))
           (fun _ => dstack_PushInt (len (Outputs g)))
       else raise (scriptError ErrInvalidIndex
                     "invalid source for OP_INSPECTASSETGROUPNUM"))
        (with_stack s vm)).
  { unfold opcodeInspectAssetGroupNum.
    run_checkAssetPacket p Hp.
    assert (Hs1 : stk (dstack vm) = (s ++ [kb]) ++ [sb])
      by (rewrite Hs, <- app_assoc; reflexivity).
    run_PopInt (s ++ [kb]) sb source Hs1 Hsrc.
    run_PopInt s kb K (eq_refl (s ++ [kb])) Hk.
    run_checkGroupIndex p K Hp (lookup_in_range _ _ _ HK Hg).
    run_group_at p K g Hp HK Hg.
    reflexivity. }
  rewrite Hrun. repeat split.
  - intros ->. reflexivity.
  - intros ->. reflexivity.
  - intros ->. unfold with_stack, bind, dstack_PushInt, stack_PushInt,
      stack_PushByteArray. simpl. rewrite <- app_assoc. reflexivity.
  - intros H0 H1 H2. apply Z.eqb_neq in H0, H1, H2.
    rewrite H0, H1, H2. reflexivity.
Qed.

(** X4.  On a packet and an in-range group index, INSPECTASSETGROUP
    replaces its three operands by the description of input [J] of the
    group (source 0) or of output [J] (source 1).  A local input is
    described by three elements (type, input index, amount), any other
    input by four (type, txid, output index, amount), an output by three
    (type, output index, amount); the amount is eight little-endian bytes.
    An index [J] outside the list, and a source other than 0 and 1, are
    the error InvalidIndex. *)
Theorem inspect_asset_group_item (vm : Engine) (p : AssetPacket)
    (g : AssetGroup) (s : list bytes) (kb jb sb : bytes) (K J source : Z) :
  assetPacket vm = Some p ->
  stk (dstack vm) = s ++ [kb; jb; sb] ->
  MakeScriptNum sb (verifyMinimalData (dstack vm)) maxScriptNumLen = Ok source ->
  MakeScriptNum jb (verifyMinimalData (dstack vm)) maxScriptNumLen = Ok J ->
  MakeScriptNum kb (verifyMinimalData (dstack vm)) maxScriptNumLen = Ok K ->
  0 <= K ->
  Groups p !! Z.to_nat K = Some g ->
  (forall inp, source = 0 -> 0 <= J -> Inputs g !! Z.to_nat J = Some inp ->
     opcodeInspectAssetGroup vm
     = (Ok tt, with_stack (s ++ pushed_input inp) vm))
  /\ (source = 0 -> ~ (0 <= J < len (Inputs g)) ->
      opcodeInspectAssetGroup vm
      = (Fail (scriptError ErrInvalidIndex
                 "asset group input index out of range"), with_stack s vm))
  /\ (forall out, source = 1 -> 0 <= J -> Outputs g !! Z.to_nat J = Some out ->
       opcodeInspectAssetGroup vm
       = (Ok tt, with_stack (s ++ pushed_output out) vm))
  /\ (source = 1 -> ~ (0 <= J < len (Outputs g)) ->
      opcodeInspectAssetGroup vm
      = (Fail (scriptError ErrInvalidIndex
                 "asset group output index out of range"), with_stack s vm))
  /\ (source <> 0 -> source <> 1 ->
      opcodeInspectAssetGroup vm
      = (Fail (scriptError ErrInvalidIndex
                 "invalid source for OP_INSPECTASSETGROUP"), with_stack s vm)).
Proof.
  intros Hp Hs Hsrc Hj Hk HK Hg.
  assert (Hrun :
    opcodeInspectAssetGroup vm
    = (if source =? 0 then
         if (J <? 0) || (len (Inputs g) <=? J) then
           raise (scriptError ErrInvalidIndex
                    "asset group input index out of range")
         else
           bind (at_index (Inputs g) J)
             (fun inp =>
                bind (dstack_PushInt (in_Type inp))
                  (fun _ =>
                     bind
                       (if in_Type inp =? AssetInputTypeLocal then
                          dstack_PushInt (InputIndex inp)
                        else
                          bind (dstack_PushByteArray (copy_into 32 (in_Txid inp)))
                            (fun _ => dstack_PushInt (in_OutputIndex inp)))
                       (fun _ => pushLE64 (in_Amount inp))))
       else if source =? 1 then
         if (J <? 0) || (len (Outputs g) <=? J) then
           raise (scriptError ErrInvalidIndex
                    "asset group output index out of range")
         else
           bind (at_index (Outputs g) J)
             (fun out =>
                bind (dstack_PushInt (out_Type out))
                  (fun _ =>
                     bind (dstack_PushInt (out_OutputIndex out))
                       (fun _ => pushLE64 (out_Amount out))))
       else raise (scriptError ErrInvalidIndex
                     "invalid source for OP_INSPECTASSETGROUP"))
        (with_stack s vm)).
  { unfold opcodeInspectAssetGroup.
    run_checkAssetPacket p Hp.
    assert (Hs2 : stk (dstack vm) = (s ++ [kb; jb]) ++ [sb])
      by (rewrite Hs, <- app_assoc; reflexivity).
    run_PopInt (s ++ [kb; jb]) sb source Hs2 Hsrc.
    assert (Hs1 : s ++ [kb; jb] = (s ++ [kb]) ++ [jb])
      by (rewrite <- app_assoc; reflexivity).
    run_PopInt (s ++ [kb]) jb J Hs1 Hj.
    run_PopInt s kb K (eq_refl (s ++ [kb])) Hk.
    run_checkGroupIndex p K Hp (lookup_in_range _ _ _ HK Hg).
    run_group_at p K g Hp HK Hg.
    reflexivity. }
  rewrite Hrun. repeat split.
  - intros inp -> HJ Hin. simpl (0 =? 0).
    pose proof (lookup_in_range _ _ _ HJ Hin) as Hr.
    replace (J <? 0) with false by (symmetry; apply Z.ltb_ge; lia).
    replace (len (Inputs g) <=? J) with false
      by (symmetry; apply Z.leb_gt; lia).
    cbn [orb]. unfold bind at 1.
    rewrite (at_index_lookup _ _ _ _ HJ Hin).
    unfold pushed_input, with_stack, bind, pushLE64, dstack_PushByteArray,
      dstack_PushInt, stack_PushInt, stack_PushByteArray.
    destruct (in_Type inp =? AssetInputTypeLocal); simpl;
      repeat rewrite <- app_assoc; reflexivity.
  - intros -> HJ. simpl (0 =? 0).
    replace ((J <? 0) || (len (Inputs g) <=? J)) with true; [reflexivity|].
    symmetry. apply orb_true_iff.
    destruct (Z.ltb_spec J 0); [left; reflexivity|right].
    apply Z.leb_le. lia.
  - intros out -> HJ Hin. simpl (1 =? 0). simpl (1 =? 1).
    pose proof (lookup_in_range _ _ _ HJ Hin) as Hr.
    replace (J <? 0) with false by (symmetry; apply Z.ltb_ge; lia).
    replace (len (Outputs g) <=? J) with false
      by (symmetry; apply Z.leb_gt; lia).
    cbn [orb]. unfold bind at 1.
    rewrite (at_index_lookup _ _ _ _ HJ Hin).
    unfold pushed_output, with_stack, bind, pushLE64, dstack_PushByteArray,
      dstack_PushInt, stack_PushInt, stack_PushByteArray.
    simpl. repeat rewrite <- app_assoc. reflexivity.
  - intros -> HJ. simpl (1 =? 0). simpl (1 =? 1).
    replace ((J <? 0) || (len (Outputs g) <=? J)) with true; [reflexivity|].
    symmetry. apply orb_true_iff.
    destruct (Z.ltb_spec J 0); [left; reflexivity|right].
    apply Z.leb_le. lia.
  - intros H0 H1. apply Z.eqb_neq in H0, H1. rewrite H0, H1. reflexivity.
Qed.

End GroupItems.

Lemma inspect_asset_group_num_witness :
  let vm := Demo.bareEngine [234] (Some Demo.makeTestAssetPacket) [[]; [2]] in
  let vm' := Demo.bareEngine [234] (Some Demo.makeTestAssetPacket) [[]; [3]] in
  opcodeInspectAssetGroupNum vm = (Ok tt, with_stack [[2]; [2]] vm)
  /\ opcodeInspectAssetGroupNum vm'
     = (Fail (scriptError ErrInvalidIndex
                "invalid source for OP_INSPECTASSETGROUPNUM"),
        with_stack [] vm').
Proof.
  intros vm vm'.
  set (g := mkAssetGroup (mkAssetID Demo.testAssetTxid 0)
              (Some (mkAssetID Demo.testControlTxid 1)) Demo.testMetadataHash
              [ mkAssetInput AssetInputTypeLocal 0 zeroHash 0 1000;
                mkAssetInput AssetInputTypeIntent 0 Demo.testIntentTxid 2 500 ]
              [ mkAssetOutput AssetOutputTypeLocal 0 800;
                mkAssetOutput AssetOutputTypeIntent 1 700 ]).
  split.
  - exact (proj1 (proj2 (proj2
             (inspect_asset_group_num vm Demo.makeTestAssetPacket g [] [] [2]
                0 2 eq_refl eq_refl eq_refl eq_refl (Z.le_refl 0) eq_refl)))
             eq_refl).
  - apply (proj2 (proj2 (proj2
             (inspect_asset_group_num vm' Demo.makeTestAssetPacket g [] [] [3]
                0 3 eq_refl eq_refl eq_refl eq_refl (Z.le_refl 0) eq_refl))));
      discriminate.
Defined.

Lemma inspect_asset_group_item_witness :
  let vm :=
    Demo.bareEngine [235] (Some Demo.makeTestAssetPacket) [[]; [1]; []] in
  opcodeInspectAssetGroup vm
  = (Ok tt, with_stack [[2]; Demo.testIntentTxid; [2]; le_bytes 8 500] vm).
Proof.
  intros vm.
  exact (proj1
           (inspect_asset_group_item vm Demo.makeTestAssetPacket
              (mkAssetGroup (mkAssetID Demo.testAssetTxid 0)
                 (Some (mkAssetID Demo.testControlTxid 1))
                 Demo.testMetadataHash
                 [ mkAssetInput AssetInputTypeLocal 0 zeroHash 0 1000;
                   mkAssetInput AssetInputTypeIntent 0 Demo.testIntentTxid 2 500 ]
                 [ mkAssetOutput AssetOutputTypeLocal 0 800;
                   mkAssetOutput AssetOutputTypeIntent 1 700 ])
              [] [] [1] [] 0 1 0 eq_refl eq_refl eq_refl eq_refl eq_refl
              (Z.le_refl 0) eq_refl)
           (mkAssetInput AssetInputTypeIntent 0 Demo.testIntentTxid 2 500)
           eq_refl Z.le_0_1 eq_refl).
Defined.

(** ** Assets per input and per output *)

Lemma lookup_entry_first (entries : list AssetEntry) (t : nat) (e : AssetEntry) :
  entries !! t = Some e ->
  (forall t' e', (t' < t)%nat -> entries !! t' = Some e' ->
                 entry_AssetID e' <> entry_AssetID e) ->
  lookup_entry entries (entry_AssetID e) = Some e.
Proof.
  revert t. induction entries as [|a entries IH]; intros t Ht Hfirst.
  - rewrite lookup_nil in Ht. discriminate.
  - unfold lookup_entry. simpl.
    destruct (AssetID_eqb (entry_AssetID a) (entry_AssetID e)) eqn:E.
    + apply AssetID_eqb_eq in E. destruct t as [|t].
      * simpl in Ht. injection Ht as ->. reflexivity.
      * exfalso. apply (Hfirst 0%nat a); [lia|reflexivity|exact E].
    + destruct t as [|t].
      * simpl in Ht. injection Ht as ->.
        rewrite (proj2 (AssetID_eqb_eq _ _) eq_refl) in E. discriminate.
      * simpl in Ht. apply (IH t Ht).
        intros t' e' Hlt Hl. apply (Hfirst (S t') e'); [lia|exact Hl].
Qed.

Lemma lookup_entry_none (entries : list AssetEntry) (id : AssetID) :
  (forall e, In e entries -> entry_AssetID e <> id) ->
  lookup_entry entries id = None.
Proof.
  intros Hno. unfold lookup_entry.
  destruct (List.find _ entries) as [e|] eqn:Hf; [|reflexivity].
  apply List.find_some in Hf as [Hin He].
  apply AssetID_eqb_eq in He. exfalso. exact (Hno e Hin He).
Qed.

Section AssetEntries.
Context `{L : Btcd}.

(** X5.  INSPECTOUTASSETCOUNT and INSPECTINASSETCOUNT never reject their
    index: the operand is converted to [uint32] and looked up in the map
    of the packet, and an index with no entry counts zero assets (the
    empty element), as does any index beyond the transaction.  A negative
    operand [i] reads the entry of [i + 2^32]. *)
Theorem asset_count_accepts_any_index (vm : Engine) (p : AssetPacket)
    (s : list bytes) (ib : bytes) (i : Z) :
  assetPacket vm = Some p ->
  stk (dstack vm) = s ++ [ib] ->
  MakeScriptNum ib (verifyMinimalData (dstack vm)) maxScriptNumLen = Ok i ->
  opcodeInspectOutAssetCount vm
  = (Ok tt,
     with_stack
       (s ++ [scriptNum_Bytes (len (default [] (OutputAssets p !! uint32 i)))])
       vm)
  /\ opcodeInspectInAssetCount vm
     = (Ok tt,
        with_stack
          (s ++ [scriptNum_Bytes (len (default [] (InputAssets p !! uint32 i)))])
          vm)
  /\ (OutputAssets p !! uint32 i = None ->
      opcodeInspectOutAssetCount vm = (Ok tt, with_stack (s ++ [[]]) vm))
  /\ (InputAssets p !! uint32 i = None ->
      opcodeInspectInAssetCount vm = (Ok tt, with_stack (s ++ [[]]) vm))
  /\ (i < 0 -> - 2 ^ 32 <= i -> uint32 i = i + 2 ^ 32).
Proof.
  intros Hp Hs Hi.
  assert (Hout :
    opcodeInspectOutAssetCount vm
    = (Ok tt,
       with_stack
         (s ++ [scriptNum_Bytes (len (default [] (OutputAssets p !! uint32 i)))])
         vm)).
  { unfold opcodeInspectOutAssetCount.
    run_checkAssetPacket p Hp. run_PopInt s ib i Hs Hi. run_deref p Hp.
    reflexivity. }
  assert (Hin :
    opcodeInspectInAssetCount vm
    = (Ok tt,
       with_stack
         (s ++ [scriptNum_Bytes (len (default [] (InputAssets p !! uint32 i)))])
         vm)).
  { unfold opcodeInspectInAssetCount.
    run_checkAssetPacket p Hp. run_PopInt s ib i Hs Hi. run_deref p Hp.
    reflexivity. }
  split; [exact Hout|]. split; [exact Hin|].
  split; [intros Hnone; rewrite Hout, Hnone; reflexivity|].
  split; [intros Hnone; rewrite Hin, Hnone; reflexivity|].
  intros Hneg Hlow. unfold uint32.
  rewrite <- (Z.mod_add i 1 (2 ^ 32)) by lia.
  apply Z.mod_small. lia.
Qed.

End AssetEntries.

Lemma asset_count_accepts_any_index_witness :
  let packet :=
    mkAssetPacket []
      ∅ {[ 4294967295 := [mkAssetEntry (mkAssetID Demo.testAssetTxid 0) 5] ]} in
  let vm := Demo.bareEngine [237] (Some packet) [[129]] in
  let vm' := Demo.bareEngine [237] (Some Demo.makeTestAssetPacket) [[7]] in
  MakeScriptNum [129] true maxScriptNumLen = Ok (-1)
  /\ opcodeInspectOutAssetCount vm = (Ok tt, with_stack [[1]] vm)
  /\ opcodeInspectOutAssetCount vm' = (Ok tt, with_stack [[]] vm').
Proof.
  intros packet vm vm'.
  split; [reflexivity|]. split.
  - exact (proj1 (asset_count_accepts_any_index vm packet [] [129] (-1)
                    eq_refl eq_refl eq_refl)).
  - exact (proj1 (proj2 (proj2
             (asset_count_accepts_any_index vm' Demo.makeTestAssetPacket []
                [7] 7 eq_refl eq_refl eq_refl))) eq_refl).
Defined.

Section AssetEntryLookup.
Context `{L : Btcd}.

Lemma pushAssetID_run (vm : Engine) (s : list bytes) (id : AssetID) :
  stk (dstack vm) = s ->
  length (Txid id) = 32%nat ->
  pushAssetID id vm
  = (Ok tt, with_stack (s ++ [Txid id; scriptNum_Bytes (Gidx id)]) vm).
Proof.
  intros Hs Hlen.
  unfold pushAssetID, bind, dstack_PushByteArray, dstack_PushInt,
    stack_PushInt, stack_PushByteArray, with_stack, set_dstack. simpl.
  rewrite copy_into_exact by exact Hlen.
  rewrite Hs, <- app_assoc. reflexivity.
Qed.

(** The asset id read back from the pair [pushAssetID] pushes. *)
Lemma popAssetID_pushed (vm : Engine) (s : list bytes) (id : AssetID) :
  stk (dstack vm) = s ++ [Txid id; scriptNum_Bytes (Gidx id)] ->
  wf_AssetID id ->
  popAssetID vm = (Ok id, with_stack s vm).
Proof.
  intros Hs [Hlen Hgidx].
  rewrite (popAssetID_run vm s (Txid id) (scriptNum_Bytes (Gidx id)) (Gidx id)
             Hs (scriptNum_roundtrip_uint16 _ _ Hgidx) Hlen).
  rewrite (uint16_small _ Hgidx). destruct id; reflexivity.
Qed.

(** X6.  INSPECTOUTASSETAT and INSPECTOUTASSETLOOKUP agree.  For an
    output [o] and an index [t] into its assets, INSPECTOUTASSETAT
    replaces the operands by the txid, the group index and the amount of
    entry [t].  When [t] is the first entry of that output with its asset
    id, INSPECTOUTASSETLOOKUP on [o] and the pair pushed leaves the same
    amount; on an asset id that no entry of the output has, it leaves the
    script number -1. *)
Theorem out_asset_lookup_agrees_with_at (vm : Engine) (p : AssetPacket)
    (ob : bytes) (o : Z) (id : AssetID) :
  assetPacket vm = Some p ->
  MakeScriptNum ob (verifyMinimalData (dstack vm)) maxScriptNumLen = Ok o ->
  wf_AssetID id ->
  let entries := default [] (OutputAssets p !! uint32 o) in
  (forall (s : list bytes) (tb : bytes) (t : Z) (e : AssetEntry),
     stk (dstack vm) = s ++ [ob; tb] ->
     MakeScriptNum tb (verifyMinimalData (dstack vm)) maxScriptNumLen = Ok t ->
     0 <= t ->
     entries !! Z.to_nat t = Some e ->
     entry_AssetID e = id ->
     opcodeInspectOutAssetAt vm
     = (Ok tt,
        with_stack (s ++ [Txid id; scriptNum_Bytes (Gidx id);
                          le_bytes 8 (entry_Amount e)]) vm))
  /\ (forall (s : list bytes) (t : nat) (e : AssetEntry),
        stk (dstack vm) = s ++ [ob; Txid id; scriptNum_Bytes (Gidx id)] ->
        entries !! t = Some e ->
        entry_AssetID e = id ->
        (forall t' e', (t' < t)%nat -> entries !! t' = Some e' ->
                       entry_AssetID e' <> id) ->
        opcodeInspectOutAssetLookup vm
        = (Ok tt, with_stack (s ++ [le_bytes 8 (entry_Amount e)]) vm))
  /\ (forall (s : list bytes),
        stk (dstack vm) = s ++ [ob; Txid id; scriptNum_Bytes (Gidx id)] ->
        (forall e, In e entries -> entry_AssetID e <> id) ->
        opcodeInspectOutAssetLookup vm
        = (Ok tt, with_stack (s ++ [scriptNum_Bytes (-1)]) vm)).
Proof.
  intros Hp Ho Hwf entries. split; [|split].
  - intros s tb t e Hs Ht Ht0 He Hid.
    unfold opcodeInspectOutAssetAt.
    run_checkAssetPacket p Hp.
    assert (Hs1 : stk (dstack vm) = (s ++ [ob]) ++ [tb])
      by (rewrite Hs, <- app_assoc; reflexivity).
    run_PopInt (s ++ [ob]) tb t Hs1 Ht.
    run_PopInt s ob o (eq_refl (s ++ [ob])) Ho.
    run_deref p Hp.
    change (map_index (OutputAssets p) (uint32 o)) with entries.
    pose proof (lookup_in_range _ _ _ Ht0 He) as Hr.
    replace (t <? 0) with false by (symmetry; apply Z.ltb_ge; lia).
    replace (len entries <=? t) with false by (symmetry; apply Z.leb_gt; lia).
    cbn [orb]. unfold bind at 1.
    rewrite (at_index_lookup _ _ _ _ Ht0 He). rewrite Hid.
    unfold bind at 1.
    match goal with
    | |- context [pushAssetID id ?v] =>
        rewrite (pushAssetID_run v s id eq_refl (proj1 Hwf))
    end.
    unfold pushLE64, dstack_PushByteArray, stack_PushByteArray, with_stack.
    simpl. rewrite <- app_assoc. reflexivity.
  - intros s t e Hs He Hid Hfirst.
    unfold opcodeInspectOutAssetLookup.
    run_checkAssetPacket p Hp.
    assert (Hs1 : stk (dstack vm)
                  = (s ++ [ob]) ++ [Txid id; scriptNum_Bytes (Gidx id)])
      by (rewrite Hs, <- app_assoc; reflexivity).
    unfold bind at 1. rewrite (popAssetID_pushed vm (s ++ [ob]) id Hs1 Hwf).
    run_PopInt s ob o (eq_refl (s ++ [ob])) Ho.
    run_deref p Hp.
    change (map_index (OutputAssets p) (uint32 o)) with entries.
    subst id. rewrite (lookup_entry_first entries t e He Hfirst).
    reflexivity.
  - intros s Hs Hno.
    unfold opcodeInspectOutAssetLookup.
    run_checkAssetPacket p Hp.
    assert (Hs1 : stk (dstack vm)
                  = (s ++ [ob]) ++ [Txid id; scriptNum_Bytes (Gidx id)])
      by (rewrite Hs, <- app_assoc; reflexivity).
    unfold bind at 1. rewrite (popAssetID_pushed vm (s ++ [ob]) id Hs1 Hwf).
    run_PopInt s ob o (eq_refl (s ++ [ob])) Ho.
    run_deref p Hp.
    change (map_index (OutputAssets p) (uint32 o)) with entries.
    rewrite (lookup_entry_none entries id Hno). reflexivity.
Qed.

(** X7.  INSPECTINASSETAT and INSPECTINASSETLOOKUP agree.  For an
    input [o] and an index [t] into its assets, INSPECTINASSETAT
    replaces the operands by the txid, the group index and the amount of
    entry [t].  When [t] is the first entry of that input with its asset
    id, INSPECTINASSETLOOKUP on [o] and the pair pushed leaves the same
    amount; on an asset id that no entry of the input has, it leaves the
    script number -1. *)
Theorem in_asset_lookup_agrees_with_at (vm : Engine) (p : AssetPacket)
    (ob : bytes) (o : Z) (id : AssetID) :
  assetPacket vm = Some p ->
  MakeScriptNum ob (verifyMinimalData (dstack vm)) maxScriptNumLen = Ok o ->
  wf_AssetID id ->
  let entries := default [] (InputAssets p !! uint32 o) in
  (forall (s : list bytes) (tb : bytes) (t : Z) (e : AssetEntry),
     stk (dstack vm) = s ++ [ob; tb] ->
     MakeScriptNum tb (verifyMinimalData (dstack vm)) maxScriptNumLen = Ok t ->
     0 <= t ->
     entries !! Z.to_nat t = Some e ->
     entry_AssetID e = id ->
     opcodeInspectInAssetAt vm
     = (Ok tt,
        with_stack (s ++ [Txid id; scriptNum_Bytes (Gidx id);
                          le_bytes 8 (entry_Amount e)]) vm))
  /\ (forall (s : list bytes) (t : nat) (e : AssetEntry),
        stk (dstack vm) = s ++ [ob; Txid id; scriptNum_Bytes (Gidx id)] ->
        entries !! t = Some e ->
        entry_AssetID e = id ->
        (forall t' e', (t' < t)%nat -> entries !! t' = Some e' ->
                       entry_AssetID e' <> id) ->
        opcodeInspectInAssetLookup vm
        = (Ok tt, with_stack (s ++ [le_bytes 8 (entry_Amount e)]) vm))
  /\ (forall (s : list bytes),
        stk (dstack vm) = s ++ [ob; Txid id; scriptNum_Bytes (Gidx id)] ->
        (forall e, In e entries -> entry_AssetID e <> id) ->
        opcodeInspectInAssetLookup vm
        = (Ok tt, with_stack (s ++ [scriptNum_Bytes (-1)]) vm)).
Proof.
  intros Hp Ho Hwf entries. split; [|split].
  - intros s tb t e Hs Ht Ht0 He Hid.
    unfold opcodeInspectInAssetAt.
    run_checkAssetPacket p Hp.
    assert (Hs1 : stk (dstack vm) = (s ++ [ob]) ++ [tb])
      by (rewrite Hs, <- app_assoc; reflexivity).
    run_PopInt (s ++ [ob]) tb t Hs1 Ht.
    run_PopInt s ob o (eq_refl (s ++ [ob])) Ho.
    run_deref p Hp.
    change (map_index (InputAssets p) (uint32 o)) with entries.
    pose proof (lookup_in_range _ _ _ Ht0 He) as Hr.
    replace (t <? 0) with false by (symmetry; apply Z.ltb_ge; lia).
    replace (len entries <=? t) with false by (symmetry; apply Z.leb_gt; lia).
    cbn [orb]. unfold bind at 1.
    rewrite (at_index_lookup _ _ _ _ Ht0 He). rewrite Hid.
    unfold bind at 1.
    match goal with
    | |- context [pushAssetID id ?v] =>
        rewrite (pushAssetID_run v s id eq_refl (proj1 Hwf))
    end.
    unfold pushLE64, dstack_PushByteArray, stack_PushByteArray, with_stack.
    simpl. rewrite <- app_assoc. reflexivity.
  - intros s t e Hs He Hid Hfirst.
    unfold opcodeInspectInAssetLookup.
    run_checkAssetPacket p Hp.
    assert (Hs1 : stk (dstack vm)
                  = (s ++ [ob]) ++ [Txid id; scriptNum_Bytes (Gidx id)])
      by (rewrite Hs, <- app_assoc; reflexivity).
    unfold bind at 1. rewrite (popAssetID_pushed vm (s ++ [ob]) id Hs1 Hwf).
    run_PopInt s ob o (eq_refl (s ++ [ob])) Ho.
    run_deref p Hp.
    change (map_index (InputAssets p) (uint32 o)) with entries.
    subst id. rewrite (lookup_entry_first entries t e He Hfirst).
    reflexivity.
  - intros s Hs Hno.
    unfold opcodeInspectInAssetLookup.
    run_checkAssetPacket p Hp.
    assert (Hs1 : stk (dstack vm)
                  = (s ++ [ob]) ++ [Txid id; scriptNum_Bytes (Gidx id)])
      by (rewrite Hs, <- app_assoc; reflexivity).
    unfold bind at 1. rewrite (popAssetID_pushed vm (s ++ [ob]) id Hs1 Hwf).
    run_PopInt s ob o (eq_refl (s ++ [ob])) Ho.
    run_deref p Hp.
    change (map_index (InputAssets p) (uint32 o)) with entries.
    rewrite (lookup_entry_none entries id Hno). reflexivity.
Qed.

End AssetEntryLookup.

Lemma out_asset_lookup_agrees_with_at_witness :
  let id := mkAssetID Demo.testAssetTxid 0 in
  let vm := Demo.bareEngine [238] (Some Demo.makeTestAssetPacket) [[1]; []] in
  let vm' :=
    Demo.bareEngine [239] (Some Demo.makeTestAssetPacket)
      [[1]; Demo.testAssetTxid; []] in
  opcodeInspectOutAssetAt vm
  = (Ok tt, with_stack [Demo.testAssetTxid; []; le_bytes 8 700] vm)
  /\ opcodeInspectOutAssetLookup vm'
     = (Ok tt, with_stack [le_bytes 8 700] vm').
Proof.
  intros id vm vm'.
  assert (Hwf : wf_AssetID id)
    by (split; [reflexivity|unfold is_uint16; simpl; lia]).
  split.
  - exact (proj1
             (out_asset_lookup_agrees_with_at vm Demo.makeTestAssetPacket [1] 1
                id eq_refl eq_refl Hwf)
             [] [] 0 (mkAssetEntry id 700) eq_refl eq_refl (Z.le_refl 0)
             eq_refl eq_refl).
  - apply (proj1 (proj2
             (out_asset_lookup_agrees_with_at vm' Demo.makeTestAssetPacket [1]
                1 id eq_refl eq_refl Hwf))
             [] 0%nat (mkAssetEntry id 700) eq_refl eq_refl eq_refl).
    intros t' e' Hlt. lia.
Defined.

Lemma in_asset_lookup_agrees_with_at_witness :
  let id := mkAssetID Demo.testControlTxid 1 in
  let vm := Demo.bareEngine [241] (Some Demo.makeTestAssetPacket) [[1]; []] in
  let vm' :=
    Demo.bareEngine [242] (Some Demo.makeTestAssetPacket)
      [[1]; Demo.testControlTxid; [1]] in
  opcodeInspectInAssetAt vm
  = (Ok tt, with_stack [Demo.testControlTxid; [1]; le_bytes 8 200] vm)
  /\ opcodeInspectInAssetLookup vm'
     = (Ok tt, with_stack [le_bytes 8 200] vm').
Proof.
  intros id vm vm'.
  assert (Hwf : wf_AssetID id)
    by (split; [reflexivity|unfold is_uint16; simpl; lia]).
  split.
  - exact (proj1
             (in_asset_lookup_agrees_with_at vm Demo.makeTestAssetPacket [1] 1
                id eq_refl eq_refl Hwf)
             [] [] 0 (mkAssetEntry id 200) eq_refl eq_refl (Z.le_refl 0)
             eq_refl eq_refl).
  - apply (proj1 (proj2
             (in_asset_lookup_agrees_with_at vm' Demo.makeTestAssetPacket [1]
                1 id eq_refl eq_refl Hwf))
             [] 0%nat (mkAssetEntry id 200) eq_refl eq_refl eq_refl).
    intros t' e' Hlt. lia.
Defined.

(** ** Intent inputs and outputs of a group *)

Lemma count_intent_outputs_from (outs : list AssetOutput) (acc : Z) :
  fold_left
    (fun count out =>
       if out_Type out =? AssetOutputTypeIntent then count + 1 else count)
    outs acc
  = acc + len (intent_outputs outs).
Proof.
  revert acc. induction outs as [|out outs IH]; intros acc.
  - unfold len. simpl. lia.
  - simpl. rewrite IH.
    destruct (out_Type out =? AssetOutputTypeIntent); unfold len; simpl; lia.
Qed.

Lemma intent_output_at_spec (outs : list AssetOutput) (idx j : Z) :
  intent_output_at outs idx j
  = if j <? idx then None else intent_outputs outs !! Z.to_nat (j - idx).
Proof.
  revert idx. induction outs as [|out outs IH]; intros idx.
  - simpl. destruct (j <? idx); reflexivity.
  - simpl. destruct (out_Type out =? AssetOutputTypeIntent).
    + destruct (Z.eqb_spec idx j) as [->|Hne].
      * rewrite Z.ltb_irrefl, Z.sub_diag. reflexivity.
      * rewrite IH.
        destruct (Z.ltb_spec j idx) as [Hlt|Hge].
        -- replace (j <? idx + 1) with true
             by (symmetry; apply Z.ltb_lt; lia).
           reflexivity.
        -- replace (j <? idx + 1) with false
             by (symmetry; apply Z.ltb_ge; lia).
           replace (Z.to_nat (j - idx)) with (S (Z.to_nat (j - (idx + 1))))
             by lia.
           reflexivity.
    + apply IH.
Qed.

Lemma count_intent_inputs_from (ins : list AssetInput) (acc : Z) :
  fold_left
    (fun count inp =>
       if in_Type inp =? AssetInputTypeIntent then count + 1 else count)
    ins acc
  = acc + len (intent_inputs ins).
Proof.
  revert acc. induction ins as [|inp ins IH]; intros acc.
  - unfold len. simpl. lia.
  - simpl. rewrite IH.
    destruct (in_Type inp =? AssetInputTypeIntent); unfold len; simpl; lia.
Qed.

Lemma intent_input_at_spec (ins : list AssetInput) (idx j : Z) :
  intent_input_at ins idx j
  = if j <? idx then None else intent_inputs ins !! Z.to_nat (j - idx).
Proof.
  revert idx. induction ins as [|inp ins IH]; intros idx.
  - simpl. destruct (j <? idx); reflexivity.
  - simpl. destruct (in_Type inp =? AssetInputTypeIntent).
    + destruct (Z.eqb_spec idx j) as [->|Hne].
      * rewrite Z.ltb_irrefl, Z.sub_diag. reflexivity.
      * rewrite IH.
        destruct (Z.ltb_spec j idx) as [Hlt|Hge].
        -- replace (j <? idx + 1) with true
             by (symmetry; apply Z.ltb_lt; lia).
           reflexivity.
        -- replace (j <? idx + 1) with false
             by (symmetry; apply Z.ltb_ge; lia).
           replace (Z.to_nat (j - idx)) with (S (Z.to_nat (j - (idx + 1))))
             by lia.
           reflexivity.
    + apply IH.
Qed.

Section Intents.
Context `{L : Btcd}.

(** X8.  INSPECTGROUPINTENTOUTCOUNT and INSPECTGROUPINTENTOUT are
    consistent.  The count is the number of outputs of the group whose
    type is intent; INSPECTGROUPINTENTOUT succeeds exactly on the indices
    below that count, [J] selecting the [J]-th intent output in the order
    of the group (outputs of other types are skipped, not counted), whose
    output index and amount it pushes; any other index is the error
    InvalidIndex. *)
Theorem intent_out_count_and_item (vm : Engine) (p : AssetPacket)
    (g : AssetGroup) (kb : bytes) (K : Z) :
  assetPacket vm = Some p ->
  MakeScriptNum kb (verifyMinimalData (dstack vm)) maxScriptNumLen = Ok K ->
  0 <= K ->
  Groups p !! Z.to_nat K = Some g ->
  (forall s, stk (dstack vm) = s ++ [kb] ->
     opcodeInspectGroupIntentOutCount vm
     = (Ok tt,
        with_stack (s ++ [scriptNum_Bytes (len (intent_outputs (Outputs g)))])
          vm))
  /\ (forall s jb J out,
        stk (dstack vm) = s ++ [kb; jb] ->
        MakeScriptNum jb (verifyMinimalData (dstack vm)) maxScriptNumLen = Ok J ->
        0 <= J ->
        intent_outputs (Outputs g) !! Z.to_nat J = Some out ->
        opcodeInspectGroupIntentOut vm
        = (Ok tt,
           with_stack (s ++ [scriptNum_Bytes (out_OutputIndex out);
                             le_bytes 8 (out_Amount out)]) vm))
  /\ (forall s jb J,
        stk (dstack vm) = s ++ [kb; jb] ->
        MakeScriptNum jb (verifyMinimalData (dstack vm)) maxScriptNumLen = Ok J ->
        ~ (0 <= J < len (intent_outputs (Outputs g))) ->
        opcodeInspectGroupIntentOut vm
        = (Fail (scriptError ErrInvalidIndex "intent output index out of range"),
           with_stack s vm)).
Proof.
  intros Hp Hk HK Hg.
  assert (Hitem : forall s jb J,
    stk (dstack vm) = s ++ [kb; jb] ->
    MakeScriptNum jb (verifyMinimalData (dstack vm)) maxScriptNumLen = Ok J ->
    opcodeInspectGroupIntentOut vm
    = match intent_output_at (Outputs g) 0 J with
      | Some out =>
          bind (dstack_PushInt (out_OutputIndex out))
            (fun _ => pushLE64 (out_Amount out))
      | None =>
          raise (scriptError ErrInvalidIndex "intent output index out of range")
      end (with_stack s vm)).
  { intros s jb J Hs Hj. unfold opcodeInspectGroupIntentOut.
    run_checkAssetPacket p Hp.
    assert (Hs1 : stk (dstack vm) = (s ++ [kb]) ++ [jb])
      by (rewrite Hs, <- app_assoc; reflexivity).
    run_PopInt (s ++ [kb]) jb J Hs1 Hj.
    run_PopInt s kb K (eq_refl (s ++ [kb])) Hk.
    run_checkGroupIndex p K Hp (lookup_in_range _ _ _ HK Hg).
    run_group_at p K g Hp HK Hg.
    reflexivity. }
  split; [|split].
  - intros s Hs. unfold opcodeInspectGroupIntentOutCount.
    run_checkAssetPacket p Hp.
    run_PopInt s kb K Hs Hk.
    run_checkGroupIndex p K Hp (lookup_in_range _ _ _ HK Hg).
    run_group_at p K g Hp HK Hg.
    unfold count_intent_outputs. rewrite count_intent_outputs_from.
    reflexivity.
  - intros s jb J out Hs Hj HJ Hout.
    rewrite (Hitem s jb J Hs Hj), intent_output_at_spec.
    replace (J <? 0) with false by (symmetry; apply Z.ltb_ge; lia).
    rewrite Z.sub_0_r, Hout.
    unfold bind, pushLE64, dstack_PushInt, dstack_PushByteArray,
      stack_PushInt, stack_PushByteArray, with_stack. simpl.
    rewrite <- app_assoc. reflexivity.
  - intros s jb J Hs Hj HJ.
    rewrite (Hitem s jb J Hs Hj), intent_output_at_spec.
    destruct (Z.ltb_spec J 0) as [Hneg|Hpos]; [reflexivity|].
    rewrite Z.sub_0_r.
    destruct (intent_outputs (Outputs g) !! Z.to_nat J) as [out|] eqn:Hl;
      [|reflexivity].
    exfalso. apply HJ. apply (lookup_in_range _ _ _ Hpos Hl).
Qed.

(** X9.  INSPECTGROUPINTENTINCOUNT and INSPECTGROUPINTENTIN are consistent
    in the same way: the count is the number of inputs of the group whose
    type is intent, and INSPECTGROUPINTENTIN succeeds exactly on the
    indices below it, pushing the txid, the output index and the amount of
    the [J]-th intent input; any other index is the error InvalidIndex. *)
Theorem intent_in_count_and_item (vm : Engine) (p : AssetPacket)
    (g : AssetGroup) (kb : bytes) (K : Z) :
  assetPacket vm = Some p ->
  MakeScriptNum kb (verifyMinimalData (dstack vm)) maxScriptNumLen = Ok K ->
  0 <= K ->
  Groups p !! Z.to_nat K = Some g ->
  (forall s, stk (dstack vm) = s ++ [kb] ->
     opcodeInspectGroupIntentInCount vm
     = (Ok tt,
        with_stack (s ++ [scriptNum_Bytes (len (intent_inputs (Inputs g)))])
          vm))
  /\ (forall s jb J inp,
        stk (dstack vm) = s ++ [kb; jb] ->
        MakeScriptNum jb (verifyMinimalData (dstack vm)) maxScriptNumLen = Ok J ->
        0 <= J ->
        intent_inputs (Inputs g) !! Z.to_nat J = Some inp ->
        opcodeInspectGroupIntentIn vm
        = (Ok tt,
           with_stack (s ++ [copy_into 32 (in_Txid inp);
                             scriptNum_Bytes (in_OutputIndex inp);
                             le_bytes 8 (in_Amount inp)]) vm))
  /\ (forall s jb J,
        stk (dstack vm) = s ++ [kb; jb] ->
        MakeScriptNum jb (verifyMinimalData (dstack vm)) maxScriptNumLen = Ok J ->
        ~ (0 <= J < len (intent_inputs (Inputs g))) ->
        opcodeInspectGroupIntentIn vm
        = (Fail (scriptError ErrInvalidIndex "intent input index out of range"),
           with_stack s vm)).
Proof.
  intros Hp Hk HK Hg.
  assert (Hitem : forall s jb J,
    stk (dstack vm) = s ++ [kb; jb] ->
    MakeScriptNum jb (verifyMinimalData (dstack vm)) maxScriptNumLen = Ok J ->
    opcodeInspectGroupIntentIn vm
    = match intent_input_at (Inputs g) 0 J with
      | Some inp =>
          bind (dstack_PushByteArray (copy_into 32 (in_Txid inp)))
            (fun _ =>
               bind (dstack_PushInt (in_OutputIndex inp))
                 (fun _ => pushLE64 (in_Amount inp)))
      | None =>
          raise (scriptError ErrInvalidIndex "intent input index out of range")
      end (with_stack s vm)).
  { intros s jb J Hs Hj. unfold opcodeInspectGroupIntentIn.
    run_checkAssetPacket p Hp.
    assert (Hs1 : stk (dstack vm) = (s ++ [kb]) ++ [jb])
      by (rewrite Hs, <- app_assoc; reflexivity).
    run_PopInt (s ++ [kb]) jb J Hs1 Hj.
    run_PopInt s kb K (eq_refl (s ++ [kb])) Hk.
    run_checkGroupIndex p K Hp (lookup_in_range _ _ _ HK Hg).
    run_group_at p K g Hp HK Hg.
    reflexivity. }
  split; [|split].
  - intros s Hs. unfold opcodeInspectGroupIntentInCount.
    run_checkAssetPacket p Hp.
    run_PopInt s kb K Hs Hk.
    run_checkGroupIndex p K Hp (lookup_in_range _ _ _ HK Hg).
    run_group_at p K g Hp HK Hg.
    unfold count_intent_inputs. rewrite count_intent_inputs_from.
    reflexivity.
  - intros s jb J inp Hs Hj HJ Hinp.
    rewrite (Hitem s jb J Hs Hj), intent_input_at_spec.
    replace (J <? 0) with false by (symmetry; apply Z.ltb_ge; lia).
    rewrite Z.sub_0_r, Hinp.
    unfold bind, pushLE64, dstack_PushInt, dstack_PushByteArray,
      stack_PushInt, stack_PushByteArray, with_stack. simpl.
    repeat rewrite <- app_assoc. reflexivity.
  - intros s jb J Hs Hj HJ.
    rewrite (Hitem s jb J Hs Hj), intent_input_at_spec.
    destruct (Z.ltb_spec J 0) as [Hneg|Hpos]; [reflexivity|].
    rewrite Z.sub_0_r.
    destruct (intent_inputs (Inputs g) !! Z.to_nat J) as [inp|] eqn:Hl;
      [|reflexivity].
    exfalso. apply HJ. apply (lookup_in_range _ _ _ Hpos Hl).
Qed.

End Intents.

Lemma intent_out_count_and_item_witness :
  let vm := Demo.bareEngine [243] (Some Demo.makeTestAssetPacket) [[]] in
  let vm' := Demo.bareEngine [244] (Some Demo.makeTestAssetPacket) [[]; []] in
  let vm'' := Demo.bareEngine [244] (Some Demo.makeTestAssetPacket) [[]; [1]] in
  opcodeInspectGroupIntentOutCount vm = (Ok tt, with_stack [[1]] vm)
  /\ opcodeInspectGroupIntentOut vm'
     = (Ok tt, with_stack [[1]; le_bytes 8 700] vm')
  /\ opcodeInspectGroupIntentOut vm''
     = (Fail (scriptError ErrInvalidIndex "intent output index out of range"),
        with_stack [] vm'').
Proof.
  intros vm vm' vm''.
  set (g := mkAssetGroup (mkAssetID Demo.testAssetTxid 0)
              (Some (mkAssetID Demo.testControlTxid 1)) Demo.testMetadataHash
              [ mkAssetInput AssetInputTypeLocal 0 zeroHash 0 1000;
                mkAssetInput AssetInputTypeIntent 0 Demo.testIntentTxid 2 500 ]
              [ mkAssetOutput AssetOutputTypeLocal 0 800;
                mkAssetOutput AssetOutputTypeIntent 1 700 ]).
  split; [|split].
  - exact (proj1
             (intent_out_count_and_item vm Demo.makeTestAssetPacket g [] 0
                eq_refl eq_refl (Z.le_refl 0) eq_refl) [] eq_refl).
  - exact (proj1 (proj2
             (intent_out_count_and_item vm' Demo.makeTestAssetPacket g [] 0
                eq_refl eq_refl (Z.le_refl 0) eq_refl))
             [] [] 0 (mkAssetOutput AssetOutputTypeIntent 1 700)
             eq_refl eq_refl (Z.le_refl 0) eq_refl).
  - apply (proj2 (proj2
             (intent_out_count_and_item vm'' Demo.makeTestAssetPacket g [] 0
                eq_refl eq_refl (Z.le_refl 0) eq_refl)) [] [1] 1 eq_refl eq_refl).
    vm_compute. intros [_ H]. discriminate H.
Defined.

Lemma intent_in_count_and_item_witness :
  let vm := Demo.bareEngine [245] (Some Demo.makeTestAssetPacket) [[]] in
  let vm' := Demo.bareEngine [246] (Some Demo.makeTestAssetPacket) [[]; []] in
  opcodeInspectGroupIntentInCount vm = (Ok tt, with_stack [[1]] vm)
  /\ opcodeInspectGroupIntentIn vm'
     = (Ok tt, with_stack [Demo.testIntentTxid; [2]; le_bytes 8 500] vm').
Proof.
  intros vm vm'.
  set (g := mkAssetGroup (mkAssetID Demo.testAssetTxid 0)
              (Some (mkAssetID Demo.testControlTxid 1)) Demo.testMetadataHash
              [ mkAssetInput AssetInputTypeLocal 0 zeroHash 0 1000;
                mkAssetInput AssetInputTypeIntent 0 Demo.testIntentTxid 2 500 ]
              [ mkAssetOutput AssetOutputTypeLocal 0 800;
                mkAssetOutput AssetOutputTypeIntent 1 700 ]).
  split.
  - exact (proj1
             (intent_in_count_and_item vm Demo.makeTestAssetPacket g [] 0
                eq_refl eq_refl (Z.le_refl 0) eq_refl) [] eq_refl).
  - exact (proj1 (proj2
             (intent_in_count_and_item vm' Demo.makeTestAssetPacket g [] 0
                eq_refl eq_refl (Z.le_refl 0) eq_refl))
             [] [] 0 (mkAssetInput AssetInputTypeIntent 0 Demo.testIntentTxid 2 500)
             eq_refl eq_refl (Z.le_refl 0) eq_refl).
Defined.

(** ** Asset ids on the stack *)

Lemma find_group_Some (gs : list AssetGroup) (i : Z) (id : AssetID) (k : Z) :
  find_group gs i id = Some k ->
  exists (n : nat) (g : AssetGroup),
    k = i + Z.of_nat n /\ gs !! n = Some g /\ group_AssetID g = id
    /\ forall n' g', (n' < n)%nat -> gs !! n' = Some g' ->
                     group_AssetID g' <> id.
Proof.
  revert i. induction gs as [|a gs IH]; intros i; [discriminate|].
  simpl. destruct (AssetID_eqb (group_AssetID a) id) eqn:E.
  - intros [= <-]. exists 0%nat, a. apply AssetID_eqb_eq in E.
    repeat split; [lia|exact E|]. intros n' g' Hlt. lia.
  - intros Hf. destruct (IH (i + 1) Hf) as (n & g & Hk & Hg & Hid & Hfirst).
    exists (S n), g. repeat split; [lia|exact Hg|exact Hid|].
    intros [|n'] g' Hlt Hg'.
    + simpl in Hg'. injection Hg' as <-. intros Heq.
      apply AssetID_eqb_eq in Heq. congruence.
    + apply (Hfirst n' g'); [lia|exact Hg'].
Qed.

Lemma find_group_None (gs : list AssetGroup) (i : Z) (id : AssetID) :
  find_group gs i id = None ->
  forall g, In g gs -> group_AssetID g <> id.
Proof.
  revert i. induction gs as [|a gs IH]; intros i Hf g Hin; [contradiction|].
  simpl in Hf. destruct (AssetID_eqb (group_AssetID a) id) eqn:E;
    [discriminate|].
  destruct Hin as [<-|Hin].
  - intros Heq. apply AssetID_eqb_eq in Heq. congruence.
  - exact (IH (i + 1) Hf g Hin).
Qed.

Lemma le_value_le_bytes (n : nat) (v : Z) :
  0 <= v < 256 ^ Z.of_nat n -> le_value (le_bytes n v) = v.
Proof.
  revert v. induction n as [|n IH]; intros v Hv.
  - simpl in *. lia.
  - simpl le_bytes. simpl le_value.
    rewrite Nat2Z.inj_succ, Z.pow_succ_r in Hv by lia.
    rewrite IH.
    + pose proof (Z.div_mod v 256). lia.
    + split; [apply Z.div_pos; lia|apply Z.div_lt_upper_bound; lia].
Qed.

Lemma le_bytes_length (n : nat) (v : Z) : length (le_bytes n v) = n.
Proof. revert v. induction n as [|n IH]; intros v; simpl; [|rewrite IH]; reflexivity. Qed.

Lemma le_bytes_are_bytes (n : nat) (v : Z) : Forall is_byte (le_bytes n v).
Proof.
  revert v. induction n as [|n IH]; intros v; simpl; constructor.
  - unfold is_byte. apply Z.mod_pos_bound. lia.
  - apply IH.
Qed.

Section AssetIDs.
Context `{L : Btcd}.

Lemma with_stack_with_stack (s s' : list bytes) (vm : Engine) :
  with_stack s (with_stack s' vm) = with_stack s vm.
Proof. reflexivity. Qed.

Lemma with_stack_same (vm : Engine) : with_stack (stk (dstack vm)) vm = vm.
Proof. destruct vm as [? ? ? ? ? ? ? ? ? ? ? ? [? ?] ? ? ? ? ? ? ?]. reflexivity. Qed.

(** X10.  On a packet and a 32-byte txid, FINDASSETGROUPBYASSETID never
    fails.  It replaces the pair by -1, and then no group of the packet
    has the asset id, or by an index [r] of the packet, and then group
    [r] has the asset id and no group before it has: with duplicate asset
    ids the first group wins.  The result is always below the number
    INSPECTNUMASSETGROUPS pushes. *)
Theorem find_asset_group_returns_first_match (vm : Engine) (p : AssetPacket)
    (s : list bytes) (txid gb : bytes) (gidx : Z) :
  assetPacket vm = Some p ->
  stk (dstack vm) = s ++ [txid; gb] ->
  MakeScriptNum gb (verifyMinimalData (dstack vm)) maxScriptNumLen = Ok gidx ->
  length txid = 32%nat ->
  let id := mkAssetID txid (uint16 gidx) in
  exists r : Z,
    opcodeFindAssetGroupByAssetID vm
    = (Ok tt, with_stack (s ++ [scriptNum_Bytes r]) vm)
    /\ ((r = -1 /\ forall g, In g (Groups p) -> group_AssetID g <> id)
        \/ (0 <= r < len (Groups p)
            /\ exists g, Groups p !! Z.to_nat r = Some g
                         /\ group_AssetID g = id
                         /\ forall n' g', (n' < Z.to_nat r)%nat ->
                                          Groups p !! n' = Some g' ->
                                          group_AssetID g' <> id)).
Proof.
  intros Hp Hs Hg Hlen id.
  exists (default (-1) (find_group (Groups p) 0 id)).
  split; [exact (find_asset_group_run vm p s txid gb gidx Hp Hs Hg Hlen)|].
  destruct (find_group (Groups p) 0 id) as [k|] eqn:Hf; simpl.
  - right. destruct (find_group_Some _ _ _ _ Hf) as (n & g & -> & Hn & Hid & Hfirst).
    rewrite Z.add_0_l, Nat2Z.id.
    split; [apply lookup_lt_Some in Hn; unfold len; lia|].
    exists g. auto.
  - left. split; [reflexivity|exact (find_group_None _ _ _ Hf)].
Qed.

(** X11.  The group index of an asset id read from the stack is converted
    to [uint16] without a range check: operands that are congruent modulo
    65536 name the same asset.  FINDASSETGROUPBYASSETID run with the one or
    with the other returns the same result and leaves the same engine. *)
Theorem asset_id_group_index_wraps (vm : Engine) (p : AssetPacket)
    (s : list bytes) (txid gb gb' : bytes) (gidx gidx' : Z) :
  assetPacket vm = Some p ->
  stk (dstack vm) = s ++ [txid; gb] ->
  MakeScriptNum gb (verifyMinimalData (dstack vm)) maxScriptNumLen = Ok gidx ->
  MakeScriptNum gb' (verifyMinimalData (dstack vm)) maxScriptNumLen = Ok gidx' ->
  length txid = 32%nat ->
  gidx mod 2 ^ 16 = gidx' mod 2 ^ 16 ->
  popAssetID (with_stack (s ++ [txid; gb']) vm) = popAssetID vm
  /\ opcodeFindAssetGroupByAssetID (with_stack (s ++ [txid; gb']) vm)
     = opcodeFindAssetGroupByAssetID vm.
Proof.
  intros Hp Hs Hg Hg' Hlen Hmod. split.
  - rewrite (popAssetID_run vm s txid gb gidx Hs Hg Hlen).
    rewrite (popAssetID_run (with_stack (s ++ [txid; gb']) vm) s txid gb' gidx'
               eq_refl Hg' Hlen).
    unfold uint16. rewrite Hmod. reflexivity.
  - rewrite (find_asset_group_run vm p s txid gb gidx Hp Hs Hg Hlen).
    rewrite (find_asset_group_run (with_stack (s ++ [txid; gb']) vm) p s txid
               gb' gidx' Hp eq_refl Hg' Hlen).
    unfold uint16. rewrite Hmod. reflexivity.
Qed.

(** X12.  [popAssetID] inverts [pushAssetID]: for an asset id as the Go
    types have it (a 32-byte txid, a [uint16] group index), pushing the
    id and popping it again returns the id and the engine as it was. *)
Theorem pop_asset_id_inverts_push (vm : Engine) (id : AssetID) :
  wf_AssetID id ->
  bind (pushAssetID id) (fun _ => popAssetID) vm = (Ok id, vm).
Proof.
  intros Hwf. unfold bind at 1.
  rewrite (pushAssetID_run vm (stk (dstack vm)) id eq_refl (proj1 Hwf)).
  rewrite (popAssetID_pushed
             (with_stack (stk (dstack vm) ++ [Txid id; scriptNum_Bytes (Gidx id)])
                vm)
             (stk (dstack vm)) id eq_refl Hwf).
  rewrite with_stack_with_stack, with_stack_same. reflexivity.
Qed.

(** X13.  [pushLE64] pushes one element of exactly eight bytes, the
    little-endian encoding of the amount: read back as a little-endian
    number it is the amount, so different amounts are different
    elements. *)
Theorem pushLE64_encodes_amount (vm : Engine) (v : Z) :
  is_uint64 v ->
  exists b : bytes,
    pushLE64 v vm = (Ok tt, with_stack (stk (dstack vm) ++ [b]) vm)
    /\ length b = 8%nat
    /\ Forall is_byte b
    /\ le_value b = v
    /\ forall v', is_uint64 v' -> le_bytes 8 v' = b -> v' = v.
Proof.
  intros Hv. exists (le_bytes 8 v).
  split; [reflexivity|]. split; [apply le_bytes_length|].
  split; [apply le_bytes_are_bytes|].
  assert (Hval : forall x, is_uint64 x -> le_value (le_bytes 8 x) = x).
  { intros x Hx. apply le_value_le_bytes. unfold is_uint64 in Hx.
    change (256 ^ Z.of_nat 8) with (2 ^ 64). exact Hx. }
  split; [exact (Hval v Hv)|].
  intros v' Hv' Heq. rewrite <- (Hval v' Hv'), Heq. exact (Hval v Hv).
Qed.

End AssetIDs.

Lemma find_asset_group_returns_first_match_witness :
  let vm :=
    Demo.bareEngine [232] (Some Demo.makeTestAssetPacket)
      [Demo.testControlTxid; [1]] in
  exists r : Z,
    opcodeFindAssetGroupByAssetID vm
    = (Ok tt, with_stack ([] ++ [scriptNum_Bytes r]) vm)
    /\ ((r = -1
         /\ forall g, In g (Groups Demo.makeTestAssetPacket) ->
                      group_AssetID g <> mkAssetID Demo.testControlTxid (uint16 1))
        \/ (0 <= r < len (Groups Demo.makeTestAssetPacket)
            /\ exists g,
                 Groups Demo.makeTestAssetPacket !! Z.to_nat r = Some g
                 /\ group_AssetID g = mkAssetID Demo.testControlTxid (uint16 1)
                 /\ forall n' g', (n' < Z.to_nat r)%nat ->
                                  Groups Demo.makeTestAssetPacket !! n' = Some g' ->
                                  group_AssetID g'
                                  <> mkAssetID Demo.testControlTxid (uint16 1))).
Proof.
  intros vm.
  exact (find_asset_group_returns_first_match vm Demo.makeTestAssetPacket []
           Demo.testControlTxid [1] 1 eq_refl eq_refl eq_refl eq_refl).
Defined.

Lemma asset_id_group_index_wraps_witness :
  let vm :=
    Demo.bareEngine [232] (Some Demo.makeTestAssetPacket)
      [Demo.testAssetTxid; []] in
  MakeScriptNum [0; 0; 1] true maxScriptNumLen = Ok 65536
  /\ opcodeFindAssetGroupByAssetID
       (with_stack ([] ++ [Demo.testAssetTxid; [0; 0; 1]]) vm)
     = opcodeFindAssetGroupByAssetID vm
  /\ stk (dstack (snd (opcodeFindAssetGroupByAssetID vm))) = [[]].
Proof.
  intros vm. split; [reflexivity|]. split; [|reflexivity].
  exact (proj2
           (asset_id_group_index_wraps vm Demo.makeTestAssetPacket []
              Demo.testAssetTxid [] [0; 0; 1] 0 65536 eq_refl eq_refl eq_refl
              eq_refl eq_refl eq_refl)).
Defined.

Lemma pop_asset_id_inverts_push_witness :
  let vm := Demo.bareEngine [] None [[5]] in
  let id := mkAssetID Demo.testControlTxid 513 in
  stk (dstack (snd (pushAssetID id vm))) = [[5]; Demo.testControlTxid; [1; 2]]
  /\ bind (pushAssetID id) (fun _ => popAssetID) vm = (Ok id, vm).
Proof.
  intros vm id. split; [reflexivity|].
  apply pop_asset_id_inverts_push.
  split; [reflexivity|unfold is_uint16; simpl; lia].
Defined.

Lemma pushLE64_encodes_amount_witness :
  let vm := Demo.bareEngine [] None [] in
  exists b : bytes,
    pushLE64 1500 vm = (Ok tt, with_stack (stk (dstack vm) ++ [b]) vm)
    /\ length b = 8%nat
    /\ Forall is_byte b
    /\ le_value b = 1500
    /\ forall v', is_uint64 v' -> le_bytes 8 v' = b -> v' = 1500.
Proof.
  intros vm. apply pushLE64_encodes_amount. unfold is_uint64. lia.
Defined.

(** ** Dispatch of an opcode *)

Section Dispatch.
Context `{L : Btcd}.

Lemma checkMinimalDataPush_spec (op : opcode) (data : bytes) :
  (len data <= 65535 ->
   (checkMinimalDataPush op data = None
    <-> op_value op = minimal_push_opcode data))
  /\ (65535 < len data -> checkMinimalDataPush op data = None)
  /\ (forall e, checkMinimalDataPush op data = Some e ->
                error_code e = Some ErrMinimalData).
Proof.
  unfold checkMinimalDataPush, minimal_push_opcode, minimal_push_error,
    uint8, OP_0, OP_1, OP_1NEGATE, OP_PUSHDATA1, OP_PUSHDATA2.
  cbv zeta.
  generalize (len_nonneg data).
  generalize (len data) as n. generalize (index 0 data 0) as b.
  generalize (op_value op) as v. generalize (op_name op) as name.
  intros name v b n Hn.
  assert (Hu : 1 <= b <= 16 -> (81 + b - 1) mod 2 ^ 8 = 81 + b - 1)
    by (intros Hb; apply Z.mod_small; lia).
  repeat
    (match goal with
     | |- context [?x =? ?y] => destruct (Z.eqb_spec x y)
     | |- context [?x <=? ?y] => destruct (Z.leb_spec x y)
     end; try (exfalso; lia); cbn [negb andb]; cbv iota).
  all: try rewrite Hu by lia.
  all: repeat split; intros; try lia; try discriminate;
         try (exfalso; lia);
         try match goal with
             | H : Some _ = Some ?e |- error_code ?e = _ =>
                 injection H as <-; reflexivity
             end.
Qed.

(** X14.  For data of at most 65535 bytes, [checkMinimalDataPush] accepts
    exactly one opcode value, the shortest push of the data; whatever it
    rejects it rejects with the error code ErrMinimalData.  Data of more
    than 65535 bytes is accepted with any opcode. *)
Theorem minimal_push_opcode_is_unique (op : opcode) (data : bytes) :
  (len data <= 65535 ->
   (checkMinimalDataPush op data = None
    <-> op_value op = minimal_push_opcode data))
  /\ (65535 < len data -> checkMinimalDataPush op data = None)
  /\ (forall e, checkMinimalDataPush op data = Some e ->
                error_code e = Some ErrMinimalData).
Proof. exact (checkMinimalDataPush_spec op data). Qed.

(** X15.  What [executeOpcode] decides before the handler of the opcode
    runs.  OP_VERIF and OP_VERNOTIF fail with ErrReservedOpcode, and data
    of more than 520 bytes fails with ErrElementTooBig, in a branch that
    executes or not.  Otherwise, in a branch that does not execute, an
    opcode that is not a conditional is skipped: no error, the engine
    unchanged.  In a branch that executes, a push opcode whose encoding is
    not minimal fails with ErrMinimalData when the stack verifies minimal
    data, and every other opcode is handed to its handler. *)
Theorem executeOpcode_guards (op : opcode) (data : bytes) (vm : Engine) :
  (op_value op = OP_VERIF \/ op_value op = OP_VERNOTIF ->
   exists e, executeOpcode op data vm = (Some e, vm)
             /\ error_code e = Some ErrReservedOpcode)
  /\ (op_value op <> OP_VERIF -> op_value op <> OP_VERNOTIF ->
      (MaxScriptElementSize < len data ->
       exists e, executeOpcode op data vm = (Some e, vm)
                 /\ error_code e = Some ErrElementTooBig)
      /\ (len data <= MaxScriptElementSize ->
          (isBranchExecuting vm = false ->
           isOpcodeConditional (op_value op) = false ->
           executeOpcode op data vm = (None, vm))
          /\ (isBranchExecuting vm = false ->
              isOpcodeConditional (op_value op) = true ->
              executeOpcode op data vm = opfunc op data vm)
          /\ (isBranchExecuting vm = true ->
              OP_PUSHDATA4 < op_value op ->
              executeOpcode op data vm = opfunc op data vm)
          /\ (isBranchExecuting vm = true ->
              verifyMinimalData (dstack vm) = true ->
              op_value op <= OP_PUSHDATA4 ->
              len data <= 65535 ->
              op_value op <> minimal_push_opcode data ->
              exists e, executeOpcode op data vm = (Some e, vm)
                        /\ error_code e = Some ErrMinimalData)
          /\ (isBranchExecuting vm = true ->
              op_value op = minimal_push_opcode data ->
              len data <= 65535 ->
              executeOpcode op data vm = opfunc op data vm))).
Proof.
  unfold executeOpcode, isOpcodeAlwaysIllegal. split.
  - intros [-> | ->]; eexists; split; reflexivity.
  - intros Hv1 Hv2. apply Z.eqb_neq in Hv1, Hv2. rewrite Hv1, Hv2.
    simpl orb. cbv iota. split.
    + intros Hbig. apply Z.ltb_lt in Hbig. rewrite Hbig.
      eexists. split; reflexivity.
    + intros Hsmall.
      replace (MaxScriptElementSize <? len data) with false
        by (symmetry; apply Z.ltb_ge; exact Hsmall).
      repeat split.
      * intros -> ->. reflexivity.
      * intros -> ->. cbn [negb andb]. rewrite andb_false_r. reflexivity.
      * intros -> Hop.
        replace (op_value op <=? OP_PUSHDATA4) with false
          by (symmetry; apply Z.leb_gt; exact Hop).
        cbn [negb andb]. rewrite andb_false_r. reflexivity.
      * intros -> -> Hop Hlen Hne.
        replace (op_value op <=? OP_PUSHDATA4) with true
          by (symmetry; apply Z.leb_le; exact Hop).
        cbn [negb andb].
        destruct (checkMinimalDataPush op data) as [e|] eqn:Hc.
        -- exists e. split; [reflexivity|].
           exact (proj2 (proj2 (checkMinimalDataPush_spec op data)) e Hc).
        -- exfalso. apply Hne.
           exact (proj1 (proj1 (checkMinimalDataPush_spec op data) Hlen) Hc).
      * intros -> Hop Hlen. cbn [negb andb].
        rewrite (proj2 (proj1 (checkMinimalDataPush_spec op data) Hlen) Hop).
        destruct (verifyMinimalData (dstack vm) && true
                  && (op_value op <=? OP_PUSHDATA4));
          reflexivity.
Qed.

End Dispatch.

Lemma minimal_push_opcode_is_unique_witness :
  minimal_push_opcode [5] = 85
  /\ checkMinimalDataPush (Demo.opcodeArray 85) [5] = None
  /\ (forall e, checkMinimalDataPush (Demo.opcodeArray 1) [5] = Some e ->
                error_code e = Some ErrMinimalData)
  /\ checkMinimalDataPush (Demo.opcodeArray 1) [5] <> None.
Proof.
  split; [reflexivity|]. split; [|split].
  - apply (proj1 (minimal_push_opcode_is_unique (Demo.opcodeArray 85) [5])).
    + vm_compute. discriminate.
    + reflexivity.
  - exact (proj2 (proj2
             (minimal_push_opcode_is_unique (Demo.opcodeArray 1) [5]))).
  - vm_compute. discriminate.
Defined.

Lemma executeOpcode_guards_witness :
  let vm := set_condStack [0] (Demo.bareEngine [229; 101] None []) in
  isBranchExecuting vm = false
  /\ executeOpcode (Demo.opcodeArray 229) [] vm = (None, vm)
  /\ (exists e, executeOpcode (Demo.opcodeArray 101) [] vm = (Some e, vm)
                /\ error_code e = Some ErrReservedOpcode).
Proof.
  intros vm.
  pose proof (executeOpcode_guards (Demo.opcodeArray 229) [] vm)
    as (_ & Hlegal).
  pose proof (executeOpcode_guards (Demo.opcodeArray 101) [] vm)
    as (Hreserved & _).
  split; [reflexivity|]. split.
  - destruct Hlegal as (_ & Hsmall); [vm_compute; discriminate ..|].
    destruct Hsmall as (Hskip & _); [vm_compute; discriminate|].
    apply Hskip; reflexivity.
  - apply Hreserved. left. reflexivity.
Defined.

(** ** The annex *)

Lemma last_app_singleton {A : Type} (l : list A) (x d : A) :
  List.last (l ++ [x]) d = x.
Proof. apply last_last. Qed.

(** X16.  A witness carries an annex exactly when it has at least two
    elements and its last element starts with the byte 0x50.
    [extractAnnex] then returns that last element, and fails with
    ErrWitnessHasNoAnnex on every other witness. *)
Theorem annex_detection (witness : list bytes) :
  (isAnnexedWitness witness = true
   <-> exists (init : list bytes) (rest : bytes),
         init <> [] /\ witness = init ++ [TaprootAnnexTag :: rest])
  /\ (isAnnexedWitness witness = true ->
      extractAnnex witness = Ok (List.last witness []))
  /\ (isAnnexedWitness witness = false ->
      extractAnnex witness = Fail (scriptError ErrWitnessHasNoAnnex "")).
Proof.
  split; [|split].
  - unfold isAnnexedWitness. split.
    + destruct (Z.ltb_spec (len witness) 2) as [Hshort|Hlong];
        [intros H; discriminate H|].
      intros H. apply andb_true_iff in H as [Hpos Htag].
      induction witness as [|lastElement init _] using rev_ind;
        [unfold len in Hlong; simpl in Hlong; lia|].
      rewrite last_app_singleton in Hpos, Htag.
      destruct lastElement as [|x rest].
      * unfold len in Hpos. simpl in Hpos. discriminate Hpos.
      * unfold index in Htag. simpl in Htag. apply Z.eqb_eq in Htag. subst x.
        exists init, rest. split; [|reflexivity].
        intros ->. unfold len in Hlong. simpl in Hlong. lia.
    + intros (init & rest & Hne & ->).
      replace (len (init ++ [TaprootAnnexTag :: rest]) <? 2) with false.
      * rewrite last_app_singleton. reflexivity.
      * symmetry. apply Z.ltb_ge. rewrite len_app. unfold len.
        destruct init; [contradiction|]. simpl. lia.
  - intros H. unfold extractAnnex. rewrite H. reflexivity.
  - intros H. unfold extractAnnex. rewrite H. reflexivity.
Qed.

Lemma annex_detection_witness :
  isAnnexedWitness [[1; 2]; [80; 9]] = true
  /\ extractAnnex [[1; 2]; [80; 9]] = Ok [80; 9]
  /\ isAnnexedWitness [[80; 9]] = false
  /\ extractAnnex [[80; 9]] = Fail (scriptError ErrWitnessHasNoAnnex "").
Proof.
  split.
  - apply (proj1 (annex_detection [[1; 2]; [80; 9]])).
    exists [[1; 2]], [9]. split; [discriminate|reflexivity].
  - split; [apply (proj1 (proj2 (annex_detection [[1; 2]; [80; 9]])));
            reflexivity|].
    split; [reflexivity|].
    apply (proj2 (proj2 (annex_detection [[80; 9]]))). reflexivity.
Defined.

(** ** Reading and writing the stacks *)

Lemma map_nth_seq {A : Type} (l : list A) (d : A) :
  map (fun i => nth i l d) (seq 0 (length l)) = l.
Proof.
  induction l as [|x l IH]; [reflexivity|].
  simpl. f_equal. rewrite <- seq_shift, map_map. exact IH.
Qed.

Lemma getStack_stk (st : stack) : getStack st = stk st.
Proof.
  unfold getStack. rewrite <- (rev_involutive (stk st)) at 2. f_equal.
  rewrite <- (map_nth_seq (rev (stk st)) []) at 1.
  rewrite length_rev. apply map_ext_in. intros i Hi.
  apply in_seq in Hi. unfold stack_PeekByteArray, stack_Depth, len.
  replace (Z.of_nat i <? 0) with false by (symmetry; apply Z.ltb_ge; lia).
  replace (Z.of_nat (length (stk st)) - 1 <? Z.of_nat i) with false
    by (symmetry; apply Z.ltb_ge; lia).
  simpl. unfold index.
  replace (Z.to_nat (Z.of_nat (length (stk st)) - Z.of_nat i - 1))
    with (length (stk st) - S i)%nat by lia.
  symmetry. apply rev_nth. lia.
Qed.

Lemma fold_push (data : list bytes) (st : stack) :
  fold_left (fun st d => stack_PushByteArray d st) data st
  = mkStack (stk st ++ data) (verifyMinimalData st).
Proof.
  revert st. induction data as [|d data IH]; intros st; simpl.
  - rewrite app_nil_r. destruct st; reflexivity.
  - rewrite IH. simpl. rewrite <- app_assoc. reflexivity.
Qed.

Lemma setStack_eq (st : stack) (data : list bytes) :
  setStack st data = mkStack data (verifyMinimalData st).
Proof.
  unfold setStack. rewrite fold_push, stack_DropN_all. reflexivity.
Qed.

Section StackAccess.
Context `{L : Btcd}.

(** X17.  [getStack] returns the elements of a stack bottom first, the
    top of the stack last, and [setStack] replaces the elements by those
    of the array, keeping the minimal-data flag: reading a stack that was
    set returns the array, and setting a stack to what was read from it
    changes nothing.  [SetStack] does not touch the alternate stack, nor
    [SetAltStack] the data stack. *)
Theorem stack_get_set_round_trip (st : stack) (data : list bytes)
    (vm : Engine) :
  getStack (setStack st data) = data
  /\ setStack st (getStack st) = st
  /\ verifyMinimalData (setStack st data) = verifyMinimalData st
  /\ GetStack (SetStack data vm) = data
  /\ GetAltStack (SetAltStack data vm) = data
  /\ GetAltStack (SetStack data vm) = GetAltStack vm
  /\ GetStack (SetAltStack data vm) = GetStack vm.
Proof.
  split; [rewrite getStack_stk; apply setStack_stk|].
  split; [rewrite setStack_eq, getStack_stk; destruct st; reflexivity|].
  split; [rewrite setStack_eq; reflexivity|].
  split; [unfold GetStack, SetStack; simpl;
          rewrite getStack_stk; apply setStack_stk|].
  split; [unfold GetAltStack, SetAltStack; simpl;
          rewrite getStack_stk; apply setStack_stk|].
  split; reflexivity.
Qed.

End StackAccess.

(** ** The terminal check *)

Section TerminalCheck.
Context `{L : Btcd}.

(** X18.  [CheckErrorCondition] on an engine whose must-succeed flag is
    not set.  While a script is left to run it fails with
    ErrScriptUnfinished.  After the last script, the check of the final
    script demands exactly one element (ErrCleanStack otherwise), the
    check of another script at least one (ErrEmptyStack otherwise); the
    top element is then popped, and the check passes when it is true and
    fails with ErrEvalFalse when it is false.  Because the element is
    popped, the check of the final script does not pass twice: repeated
    on the engine it accepted, it fails with ErrCleanStack. *)
Theorem check_error_condition_cases (vm : Engine) (finalScript : bool) :
  (mustSucceed <$> taprootCtx vm) <> Some true ->
  (scriptIdx vm < len (scripts vm) ->
   CheckErrorCondition finalScript vm
   = (Some (scriptError ErrScriptUnfinished "error check when script unfinished"),
      vm))
  /\ (len (scripts vm) <= scriptIdx vm ->
      (finalScript = true -> stack_Depth (dstack vm) <> 1 ->
       exists e, CheckErrorCondition finalScript vm = (Some e, vm)
                 /\ error_code e = Some ErrCleanStack)
      /\ (finalScript = false -> stk (dstack vm) = [] ->
          exists e, CheckErrorCondition finalScript vm = (Some e, vm)
                    /\ error_code e = Some ErrEmptyStack)
      /\ (forall s x,
            stk (dstack vm) = s ++ [x] ->
            (finalScript = true -> s = []) ->
            CheckErrorCondition finalScript vm
            = (if asBool x then None
               else Some (scriptError ErrEvalFalse
                            "false stack entry at end of script execution"),
               with_stack s vm))
      /\ (forall x,
            finalScript = true ->
            stk (dstack vm) = [x] -> asBool x = true ->
            fst (CheckErrorCondition finalScript vm) = None
            /\ exists e,
                 fst (CheckErrorCondition finalScript
                        (snd (CheckErrorCondition finalScript vm)))
                 = Some e
                 /\ error_code e = Some ErrCleanStack)).
Proof.
  intros Hmust.
  assert (Hflag :
    match taprootCtx vm with Some c => mustSucceed c | None => false end = false).
  { destruct (taprootCtx vm) as [c|]; [|reflexivity].
    destruct (mustSucceed c) eqn:E; [|reflexivity].
    exfalso. apply Hmust. simpl. rewrite E. reflexivity. }
  assert (Hpop : forall s x,
    stk (dstack vm) = s ++ [x] ->
    (finalScript = true -> s = []) ->
    len (scripts vm) <= scriptIdx vm ->
    CheckErrorCondition finalScript vm
    = (if asBool x then None
       else Some (scriptError ErrEvalFalse
                    "false stack entry at end of script execution"),
       with_stack s vm)).
  { intros s x Hs Hfinal Hdone.
    unfold CheckErrorCondition. rewrite Hflag.
    replace (scriptIdx vm <? len (scripts vm)) with false
      by (symmetry; apply Z.ltb_ge; exact Hdone).
    unfold stack_Depth. rewrite Hs, len_app.
    replace (len [x]) with 1 by reflexivity.
    pose proof (len_nonneg s) as Hlen.
    replace (len s + 1 <? 1) with false by (symmetry; apply Z.ltb_ge; lia).
    assert (Hclean : finalScript && negb (len s + 1 =? 1) = false).
    { destruct finalScript; [|reflexivity].
      rewrite (Hfinal eq_refl). reflexivity. }
    rewrite Hclean.
    unfold dstack_PopBool, stack_PopBool.
    rewrite (stack_PopByteArray_top (dstack vm) s x Hs).
    destruct (asBool x); reflexivity. }
  split.
  - intros Hidx. unfold CheckErrorCondition. rewrite Hflag.
    replace (scriptIdx vm <? len (scripts vm)) with true
      by (symmetry; apply Z.ltb_lt; exact Hidx).
    reflexivity.
  - intros Hdone.
    assert (Hnotless : (scriptIdx vm <? len (scripts vm)) = false)
      by (apply Z.ltb_ge; exact Hdone).
    split; [|split; [|split]].
    + intros -> Hdepth. unfold CheckErrorCondition.
      rewrite Hflag, Hnotless.
      apply Z.eqb_neq in Hdepth. rewrite Hdepth.
      eexists. split; reflexivity.
    + intros -> Hempty. unfold CheckErrorCondition.
      rewrite Hflag, Hnotless. unfold stack_Depth. rewrite Hempty.
      eexists. split; reflexivity.
    + intros s x Hs Hfinal. exact (Hpop s x Hs Hfinal Hdone).
    + intros x Hfinal Hs Htrue.
      pose proof (Hpop [] x Hs (fun _ => eq_refl) Hdone) as Hfirst.
      rewrite Htrue in Hfirst. rewrite Hfirst. subst finalScript.
      split; [reflexivity|].
      unfold CheckErrorCondition. simpl taprootCtx. rewrite Hflag.
      simpl scriptIdx. simpl scripts. rewrite Hnotless.
      eexists. split; reflexivity.
Qed.

End TerminalCheck.

Lemma check_error_condition_cases_witness :
  let running := Demo.bareEngine [81] None [[1]] in
  let vm := set_scriptIdx 2 running in
  CheckErrorCondition true running
  = (Some (scriptError ErrScriptUnfinished "error check when script unfinished"),
     running)
  /\ fst (CheckErrorCondition true vm) = None
  /\ exists e,
       fst (CheckErrorCondition true (snd (CheckErrorCondition true vm))) = Some e
       /\ error_code e = Some ErrCleanStack.
Proof.
  intros running vm. split.
  - apply (proj1 (check_error_condition_cases running true
                    (fun H => eq_ind None
                                (fun o => match o with
                                          | Some _ => False
                                          | None => True
                                          end) I _ H))).
    reflexivity.
  - apply (proj2 (proj2 (proj2
             (proj2 (check_error_condition_cases vm true
                       (fun H => eq_ind None
                                   (fun o => match o with
                                             | Some _ => False
                                             | None => True
                                             end) I _ H))
                (Z.le_refl 2)))) [1] eq_refl eq_refl eq_refl).
Defined.

(** ** [NewEngine] *)

Lemma len_zero_nil {A : Type} (l : list A) : len l = 0 -> l = [].
Proof. destruct l; [reflexivity|]. unfold len. simpl. lia. Qed.

Lemma find_none_of {A : Type} (f : A -> bool) (l : list A) :
  (forall x, In x l -> f x = false) -> List.find f l = None.
Proof.
  induction l as [|a l IH]; intros H; [reflexivity|].
  simpl. rewrite (H a (or_introl eq_refl)).
  apply IH. intros x Hx. apply H. right. exact Hx.
Qed.

Section NewEngineProperties.
Context `{L : Btcd}.
Variable opcodeArray : Z -> opcode.

Lemma NewEngine_inv (pk : bytes) (t : MsgTx) (idx : Z)
    (sc : option SigCache) (hc : TxSigHashes) (amt : Z)
    (pf : PrevOutputFetcher) (vm : Engine) :
  NewEngine opcodeArray pk t idx sc hc amt pf = Ok vm ->
  exists (txin : wire_TxIn) (wv : Z) (wp : option bytes),
    0 <= idx < len (TxIn t)
    /\ TxIn t !! Z.to_nat idx = Some txin
    /\ (len (SignatureScript txin) =? 0) && (len pk =? 0) = false
    /\ IsPushOnlyScript (SignatureScript txin) = true
    /\ List.find
         (fun scr =>
            (MaxScriptSize <? len scr)
            || bool_decide (checkScriptParses opcodeArray 0 scr <> None))
         [SignatureScript txin; pk] = None
    /\ vm = mkEngine t idx 0 sc hc pf None [SignatureScript txin; pk]
              (if len (SignatureScript txin) =? 0 then 1 else 0) 0 0
              (MakeScriptTokenizer 0
                 (index [] [SignatureScript txin; pk]
                    (if len (SignatureScript txin) =? 0 then 1 else 0)))
              (mkStack [] true) (mkStack [] true) [] wv wp amt None None
    /\ (IsWitnessProgram pk = true ->
        len (SignatureScript txin) = 0
        /\ exists prog, wp = Some prog
                        /\ ExtractWitnessProgramInfo pk = Ok (wv, prog))
    /\ (IsWitnessProgram pk = false -> wp = None /\ len (Witness txin) = 0).
Proof.
  unfold NewEngine. cbv zeta.
  destruct ((idx <? 0) || (len (TxIn t) <=? idx)) eqn:Hrange; [discriminate|].
  destruct (TxIn t !! Z.to_nat idx) as [txin|] eqn:Htxin; [|discriminate].
  destruct ((len (SignatureScript txin) =? 0) && (len pk =? 0)) eqn:Hempty;
    [discriminate|].
  destruct (IsPushOnlyScript (SignatureScript txin)) eqn:Hpush;
    [|discriminate].
  simpl negb. cbv iota.
  match goal with
  | |- context [List.find ?f ?l] =>
      destruct (List.find f l) as [scr|] eqn:Hfind
  end.
  { destruct (MaxScriptSize <? len scr); [discriminate|].
    destruct (checkScriptParses opcodeArray 0 scr); discriminate. }
  apply orb_false_iff in Hrange as [Hneg Hbig].
  apply Z.ltb_ge in Hneg. apply Z.leb_gt in Hbig.
  destruct (IsWitnessProgram pk) eqn:Hwit.
  - destruct (len (SignatureScript txin) =? 0) eqn:Hsig;
      [|discriminate].
    simpl negb. cbv iota.
    destruct (ExtractWitnessProgramInfo pk) as [[wv prog]|e] eqn:Hext;
      [|discriminate].
    intros [= <-]. exists txin, wv, (Some prog). rewrite Hsig.
    split; [lia|]. split; [reflexivity|]. split; [exact Hempty|].
    split; [exact Hpush|]. split; [exact Hfind|]. split; [reflexivity|].
    split.
    + intros _. split; [apply Z.eqb_eq; exact Hsig|].
      exists prog. split; reflexivity.
    + discriminate.
  - destruct (len (Witness txin) =? 0) eqn:Hw; [|discriminate].
    simpl negb. cbv iota.
    intros [= <-]. exists txin, 0, None.
    split; [lia|]. split; [reflexivity|]. split; [exact Hempty|].
    split; [exact Hpush|]. split; [exact Hfind|]. split; [reflexivity|].
    split; [discriminate|].
    intros _. split; [reflexivity|apply Z.eqb_eq; exact Hw].
Qed.

(** X19.  What an engine returned by [NewEngine] is.  The input index is
    an input of the transaction; the scripts are the signature script of
    that input and the public key script, not both empty, each of at most
    10000 bytes and parsing to its end, the signature script push-only;
    the program counter is at the first script that is not empty; both
    stacks are empty and verify minimal data; no condition is open, no
    asset packet, taproot context or step callback is set, and the script
    version is 0.  A witness program comes with an empty signature script;
    without a witness program the input has no witness. *)
Theorem NewEngine_postconditions (pk : bytes) (t : MsgTx) (idx : Z)
    (sc : option SigCache) (hc : TxSigHashes) (amt : Z)
    (pf : PrevOutputFetcher) (vm : Engine) :
  NewEngine opcodeArray pk t idx sc hc amt pf = Ok vm ->
  exists txin : wire_TxIn,
    0 <= idx < len (TxIn t)
    /\ TxIn t !! Z.to_nat idx = Some txin
    /\ scripts vm = [SignatureScript txin; pk]
    /\ (SignatureScript txin <> [] \/ pk <> [])
    /\ IsPushOnlyScript (SignatureScript txin) = true
    /\ Forall (fun scr => len scr <= MaxScriptSize
                          /\ checkScriptParses opcodeArray 0 scr = None)
              (scripts vm)
    /\ scriptIdx vm = (if len (SignatureScript txin) =? 0 then 1 else 0)
    /\ tokenizer vm
       = MakeScriptTokenizer 0 (index [] (scripts vm) (scriptIdx vm))
    /\ dstack vm = mkStack [] true
    /\ astack vm = mkStack [] true
    /\ condStack vm = []
    /\ version vm = 0
    /\ assetPacket vm = None
    /\ taprootCtx vm = None
    /\ stepCallback vm = None
    /\ (tx vm = t /\ txIdx vm = idx /\ sigCache vm = sc /\ hashCache vm = hc
        /\ inputAmount vm = amt /\ prevOutFetcher vm = pf)
    /\ (IsWitnessProgram pk = true ->
        SignatureScript txin = []
        /\ scriptIdx vm = 1
        /\ exists prog, witnessProgram vm = Some prog
                        /\ ExtractWitnessProgramInfo pk
                           = Ok (witnessVersion vm, prog))
    /\ (IsWitnessProgram pk = false ->
        witnessProgram vm = None /\ Witness txin = []).
Proof.
  intros Hnew.
  destruct (NewEngine_inv pk t idx sc hc amt pf vm Hnew)
    as (txin & wv & wp & Hidx & Htxin & Hempty & Hpush & Hfind & -> & Hwit
        & Hnowit).
  exists txin. simpl.
  split; [exact Hidx|]. split; [exact Htxin|]. split; [reflexivity|].
  split.
  { apply andb_false_iff in Hempty as [H|H]; apply Z.eqb_neq in H.
    - left. intros Heq. apply H. rewrite Heq. reflexivity.
    - right. intros Heq. apply H. rewrite Heq. reflexivity. }
  split; [exact Hpush|]. split.
  { apply List.Forall_forall. intros scr Hin.
    pose proof (List.find_none _ _ Hfind scr Hin) as Hok. simpl in Hok.
    apply orb_false_iff in Hok as [Hsize Hparse].
    apply Z.ltb_ge in Hsize. split; [exact Hsize|].
    apply bool_decide_eq_false in Hparse.
    destruct (checkScriptParses opcodeArray 0 scr); [|reflexivity].
    exfalso. apply Hparse. discriminate. }
  do 9 (split; [reflexivity|]).
  split; [repeat split|]. split.
  - intros Hw. destruct (Hwit Hw) as (Hsig & prog & -> & Hext).
    split; [apply len_zero_nil; exact Hsig|].
    split; [rewrite Hsig; reflexivity|].
    exists prog. split; [reflexivity|exact Hext].
  - intros Hw. destruct (Hnowit Hw) as (-> & Hlen).
    split; [reflexivity|apply len_zero_nil; exact Hlen].
Qed.

(** X20.  What [NewEngine] rejects, in the order it checks.  An input
    index outside the transaction is ErrInvalidIndex.  For an input of
    the transaction: an empty signature script with an empty public key
    script is ErrEvalFalse; a signature script that is not push-only is
    ErrNotPushOnly; and, the scripts being within the size limit and
    parsing, a witness program with a signature script that is not empty
    is ErrWitnessMalleated, and a script that is no witness program on an
    input that has a witness is ErrWitnessUnexpected. *)
Theorem NewEngine_rejections (pk : bytes) (t : MsgTx) (idx : Z)
    (sc : option SigCache) (hc : TxSigHashes) (amt : Z)
    (pf : PrevOutputFetcher) :
  (~ (0 <= idx < len (TxIn t)) ->
   exists e, NewEngine opcodeArray pk t idx sc hc amt pf = Fail e
             /\ error_code e = Some ErrInvalidIndex)
  /\ (forall txin,
        0 <= idx ->
        TxIn t !! Z.to_nat idx = Some txin ->
        (SignatureScript txin = [] -> pk = [] ->
         exists e, NewEngine opcodeArray pk t idx sc hc amt pf = Fail e
                   /\ error_code e = Some ErrEvalFalse)
        /\ (SignatureScript txin <> [] ->
            IsPushOnlyScript (SignatureScript txin) = false ->
            exists e, NewEngine opcodeArray pk t idx sc hc amt pf = Fail e
                      /\ error_code e = Some ErrNotPushOnly)
        /\ (IsPushOnlyScript (SignatureScript txin) = true ->
            Forall (fun scr => len scr <= MaxScriptSize
                               /\ checkScriptParses opcodeArray 0 scr = None)
                   [SignatureScript txin; pk] ->
            (SignatureScript txin <> [] ->
             IsWitnessProgram pk = true ->
             exists e, NewEngine opcodeArray pk t idx sc hc amt pf = Fail e
                       /\ error_code e = Some ErrWitnessMalleated)
            /\ (SignatureScript txin <> [] \/ pk <> [] ->
                IsWitnessProgram pk = false ->
                Witness txin <> [] ->
                exists e, NewEngine opcodeArray pk t idx sc hc amt pf = Fail e
                          /\ error_code e = Some ErrWitnessUnexpected))).
Proof.
  split.
  - intros Hout. unfold NewEngine. cbv zeta.
    replace ((idx <? 0) || (len (TxIn t) <=? idx)) with true.
    + eexists. split; reflexivity.
    + symmetry. apply orb_true_iff.
      destruct (Z.ltb_spec idx 0); [left; reflexivity|right].
      apply Z.leb_le. lia.
  - intros txin Hidx Htxin.
    pose proof (lookup_in_range _ _ _ Hidx Htxin) as Hr.
    assert (Hnonnil : forall (A : Type) (l : list A),
              l <> [] -> (len l =? 0) = false).
    { intros A l Hl. apply Z.eqb_neq. intros H. apply Hl.
      apply len_zero_nil. exact H. }
    assert (Hstart : forall X : wire_TxIn -> result Engine,
      (if (idx <? 0) || (len (TxIn t) <=? idx) then
         Fail (scriptError ErrInvalidIndex
                 ("transaction input index " +:+ fmt_d idx
                    +:+ " is negative or >= " +:+ fmt_d (len (TxIn t))))
       else match TxIn t !! Z.to_nat idx with
            | Some txin0 => X txin0
            | None => Fail (RuntimePanic "index out of range")
            end) = X txin).
    { intros X.
      replace (idx <? 0) with false by (symmetry; apply Z.ltb_ge; lia).
      replace (len (TxIn t) <=? idx) with false
        by (symmetry; apply Z.leb_gt; lia).
      rewrite Htxin. reflexivity. }
    unfold NewEngine. cbv zeta. rewrite Hstart.
    split; [|split].
    + intros -> ->. eexists. split; reflexivity.
    + intros Hsig Hpush. rewrite (Hnonnil _ _ Hsig), Hpush.
      eexists. split; reflexivity.
    + intros Hpush Hok. rewrite Hpush. simpl negb.
      assert (Hfind :
        List.find
          (fun scr =>
             (MaxScriptSize <? len scr)
             || bool_decide (checkScriptParses opcodeArray 0 scr <> None))
          [SignatureScript txin; pk] = None).
      { apply find_none_of. intros scr Hin.
        rewrite List.Forall_forall in Hok.
        destruct (Hok scr Hin) as [Hsize Hparse].
        apply orb_false_iff. split; [apply Z.ltb_ge; exact Hsize|].
        apply bool_decide_eq_false. rewrite Hparse. intros H. apply H.
        reflexivity. }
      split.
      * intros Hsig Hwit. rewrite (Hnonnil _ _ Hsig). simpl andb. cbv iota.
        rewrite Hfind, Hwit. eexists. split; reflexivity.
      * intros Hsome Hwit Hwitness.
        assert (Hempty :
          (len (SignatureScript txin) =? 0) && (len pk =? 0) = false).
        { destruct Hsome as [H|H]; rewrite (Hnonnil _ _ H);
            [reflexivity|apply andb_false_r]. }
        rewrite Hempty, Hfind, Hwit, (Hnonnil _ _ Hwitness).
        eexists. split; reflexivity.
Qed.

End NewEngineProperties.

Lemma NewEngine_postconditions_witness :
  let pk := OP_1 :: OP_DATA_32 :: zeroHash in
  let witness := [Demo.signatureOf zeroHash] in
  let vm := Demo.taprootVm zeroHash witness (Some (mkSigCache ∅ 100)) None in
  Demo.taprootEngine zeroHash witness = Ok vm
  /\ exists txin : wire_TxIn,
       TxIn (Demo.makeTestTx witness) !! 0%nat = Some txin
       /\ scripts vm = [SignatureScript txin; pk]
       /\ scriptIdx vm = 1
       /\ dstack vm = mkStack [] true
       /\ assetPacket vm = None
       /\ witnessProgram vm = Some zeroHash.
Proof.
  intros pk witness vm.
  assert (Hnew : Demo.taprootEngine zeroHash witness = Ok vm) by reflexivity.
  split; [exact Hnew|].
  destruct (NewEngine_postconditions Demo.opcodeArray pk
              (Demo.makeTestTx witness) 0 (Some (mkSigCache ∅ 100))
              (Demo.NewTxSigHashes (Demo.makeTestTx witness)) 0 tt vm Hnew)
    as (txin & _ & Htxin & Hscripts & _ & _ & _ & _ & _ & Hd & _ & _ & _ & Hp
        & _).
  exists txin.
  split; [exact Htxin|]. split; [exact Hscripts|]. split; [reflexivity|].
  split; [exact Hd|]. split; [exact Hp|reflexivity].
Defined.

Lemma NewEngine_rejections_witness :
  (exists e,
      NewEngine Demo.opcodeArray [81] (Demo.makeTestTx []) 5 None
        (Demo.NewTxSigHashes (Demo.makeTestTx [])) 0 tt = Fail e
      /\ error_code e = Some ErrInvalidIndex)
  /\ (exists e,
         NewEngine Demo.opcodeArray [81] (Demo.makeTestTx [[1]]) 0 None
           (Demo.NewTxSigHashes (Demo.makeTestTx [[1]])) 0 tt = Fail e
         /\ error_code e = Some ErrWitnessUnexpected).
Proof.
  split.
  - apply (proj1 (NewEngine_rejections Demo.opcodeArray [81]
                    (Demo.makeTestTx []) 5 None
                    (Demo.NewTxSigHashes (Demo.makeTestTx [])) 0 tt)).
    vm_compute. intros [_ H]. discriminate H.
  - destruct (proj2 (NewEngine_rejections Demo.opcodeArray [81]
                       (Demo.makeTestTx [[1]]) 0 None
                       (Demo.NewTxSigHashes (Demo.makeTestTx [[1]])) 0 tt)
                (mkTxIn (mkOutPoint zeroHash 0) [] [[1]] 0)
                (Z.le_refl 0) eq_refl)
      as (_ & _ & Hlate).
    destruct Hlate as (_ & Hunexpected).
    + reflexivity.
    + repeat constructor; vm_compute; discriminate.
    + apply Hunexpected; [right; discriminate|reflexivity|discriminate].
Defined.

(** ** [verifyWitnessProgram] *)

Section WitnessProgram.
Context `{L : Btcd}.
Variable opcodeArray : Z -> opcode.

(** X21.  [verifyWitnessProgram] runs taproot programs only.  Without a
    witness program, with a witness version other than 1 (a segwit v0
    program, say) or with a program that is not 32 bytes long, it returns
    the plain error "arkscript engine only supports taproot" - an error
    that carries no script error code - and leaves the engine as it was.
    On a taproot program an empty witness is ErrWitnessProgramEmpty. *)
Theorem verifyWitnessProgram_rejections (witness : list bytes) (vm : Engine) :
  (witnessProgram vm = None
   \/ uint64 (witnessVersion vm) <> TaprootWitnessVersion
   \/ len (witnessProgram_bytes vm) <> payToTaprootDataSize ->
   verifyWitnessProgram opcodeArray witness vm
   = (Some (PlainError "arkscript engine only supports taproot"), vm)
   /\ error_kind (fst (verifyWitnessProgram opcodeArray witness vm)) = None)
  /\ (isWitnessVersionActive vm TaprootWitnessVersion = true ->
      len (witnessProgram_bytes vm) = payToTaprootDataSize ->
      verifyWitnessProgram opcodeArray [] vm
      = (Some (scriptError ErrWitnessProgramEmpty
                 "witness program empty passed empty witness"), vm)).
Proof.
  split.
  - intros Hcase.
    assert (Hguard :
      negb (isWitnessVersionActive vm TaprootWitnessVersion)
      || negb (len (witnessProgram_bytes vm) =? payToTaprootDataSize) = true).
    { apply orb_true_iff. unfold isWitnessVersionActive.
      destruct Hcase as [Hnone | [Hver | Hlen]].
      - left. rewrite Hnone. reflexivity.
      - left. destruct (witnessProgram vm); [|reflexivity].
        apply Z.eqb_neq in Hver. rewrite Hver. reflexivity.
      - right. apply Z.eqb_neq in Hlen. rewrite Hlen. reflexivity. }
    unfold verifyWitnessProgram. rewrite Hguard. split; reflexivity.
  - intros Hactive Hlen. unfold verifyWitnessProgram.
    rewrite Hactive, Hlen. reflexivity.
Qed.

(** X22.  What a successful [verifyWitnessProgram] guarantees on the
    script path, that is when the witness without its annex has more than
    one element.  Its last element parsed as a control block of leaf
    version 0xc0, the element before it is the leaf script, committed to
    by the program and parsing to its end.  The engine has that script
    appended to its scripts and the remaining elements as its data stack,
    at most 1000 of them, none above 520 bytes; the taproot context holds
    the leaf hash of the script and the annex, if any, its code separator
    position is blank and its must-succeed flag is not set; the alternate
    stack and the signature cache are untouched. *)
Theorem script_path_postconditions (witness : list bytes) (vm vm' : Engine) :
  verifyWitnessProgram opcodeArray witness vm = (None, vm') ->
  let stripped :=
    if isAnnexedWitness witness then removelast witness else witness in
  len stripped <> 1 ->
  let witnessScript := index [] stripped (len stripped - 2) in
  exists (cb : ControlBlock) (ctx : taprootExecutionCtx),
    ParseControlBlock (index [] stripped (len stripped - 1)) = Ok cb
    /\ VerifyTaprootLeafCommitment cb (witnessProgram_bytes vm) witnessScript
       = None
    /\ LeafVersion cb = BaseLeafVersion
    /\ checkScriptParses opcodeArray (version vm) witnessScript = None
    /\ scripts vm' = scripts vm ++ [witnessScript]
    /\ stk (dstack vm') = firstn (Z.to_nat (len stripped - 2)) stripped
    /\ stack_Depth (dstack vm') <= MaxStackSize
    /\ Forall (fun e => len e <= MaxScriptElementSize) (stk (dstack vm'))
    /\ taprootCtx vm' = Some ctx
    /\ tapLeafHash ctx = TapHash witnessScript
    /\ annex ctx = (if isAnnexedWitness witness
                    then Some (List.last witness []) else None)
    /\ codeSepPos ctx = blankCodeSepValue
    /\ mustSucceed ctx = false
    /\ astack vm' = astack vm
    /\ sigCache vm' = sigCache vm.
Proof.
  intros Hrun stripped Hlen witnessScript.
  unfold verifyWitnessProgram in Hrun. cbv zeta in Hrun.
  fold stripped in Hrun.
  destruct (negb (isWitnessVersionActive vm TaprootWitnessVersion)
            || negb (len (witnessProgram_bytes vm) =? payToTaprootDataSize));
    [discriminate|].
  destruct (len witness =? 0); [discriminate|].
  apply Z.eqb_neq in Hlen. rewrite Hlen in Hrun.
  destruct (ParseControlBlock _) as [cb|e] eqn:Hcb; [|discriminate].
  fold witnessScript in Hrun.
  destruct (VerifyTaprootLeafCommitment _ _ _) eqn:Hcommit; [discriminate|].
  destruct (negb (LeafVersion cb =? BaseLeafVersion)) eqn:Hleaf;
    [discriminate|].
  destruct (checkScriptParses _ _ _) eqn:Hparse; [discriminate|].
  destruct (MaxStackSize <? stack_Depth (dstack _)) eqn:Hdepth;
    [discriminate|].
  destruct (List.find _ _) eqn:Hfind; [discriminate|].
  injection Hrun as <-.
  apply negb_false_iff, Z.eqb_eq in Hleaf. apply Z.ltb_ge in Hdepth.
  eexists cb, _.
  split; [first [exact Hcb|reflexivity]|].
  split; [first [exact Hcommit|reflexivity]|]. split; [exact Hleaf|].
  split; [first [exact Hparse|reflexivity]|]. split; [reflexivity|].
  split; [simpl; apply setStack_stk|]. split; [exact Hdepth|].
  split.
  { apply List.Forall_forall. intros e He.
    pose proof (List.find_none _ _ Hfind e) as Hnone.
    unfold GetStack in Hnone. rewrite getStack_stk in Hnone.
    apply Z.ltb_ge. apply Hnone. exact He. }
  split; [reflexivity|]. split; [reflexivity|].
  split.
  { unfold extractAnnex.
    destruct (isAnnexedWitness witness); reflexivity. }
  split; [destruct (isAnnexedWitness witness); reflexivity|].
  split; [destruct (isAnnexedWitness witness); reflexivity|].
  split; reflexivity.
Qed.

End WitnessProgram.

Lemma verifyWitnessProgram_rejections_witness :
  let vm := Demo.bareEngine [81] None [] in
  verifyWitnessProgram Demo.opcodeArray [[1]] vm
  = (Some (PlainError "arkscript engine only supports taproot"), vm)
  /\ error_kind (fst (verifyWitnessProgram Demo.opcodeArray [[1]] vm)) = None.
Proof.
  intros vm.
  apply (proj1 (verifyWitnessProgram_rejections Demo.opcodeArray [[1]] vm)).
  left. reflexivity.
Defined.

Lemma script_path_postconditions_witness :
  let prog := copy_into 32 [81] in
  let witness := [[7]; [81]; 192 :: repeat 0 32] in
  let vm := Demo.taprootVm prog witness None None in
  let vm' := snd (verifyWitnessProgram Demo.opcodeArray witness vm) in
  fst (verifyWitnessProgram Demo.opcodeArray witness vm) = None
  /\ scripts vm' = scripts vm ++ [[81]]
  /\ stk (dstack vm') = [[7]]
  /\ (tapLeafHash <$> taprootCtx vm') = Some prog
  /\ Demo.run 5 (Demo.taprootEngine prog [[81]; 192 :: repeat 0 32]) = Some None.
Proof.
  intros prog witness vm vm'.
  assert (Hfst : fst (verifyWitnessProgram Demo.opcodeArray witness vm) = None)
    by (vm_compute; reflexivity).
  assert (Hrun : verifyWitnessProgram Demo.opcodeArray witness vm = (None, vm'))
    by (apply pair_of_fst; exact Hfst).
  destruct (script_path_postconditions Demo.opcodeArray witness vm vm' Hrun)
    as (cb & ctx & _ & _ & _ & _ & Hscripts & Hstk & _ & _ & Hctx & Hleaf & _).
  { vm_compute. discriminate. }
  split; [exact Hfst|]. split; [exact Hscripts|]. split; [exact Hstk|].
  split; [rewrite Hctx; simpl; rewrite Hleaf; reflexivity|].
  vm_compute. reflexivity.
Defined.

(** ** Script boundaries and the end of the execution *)

Section ScriptBoundary.
Context `{L : Btcd}.
Variable opcodeArray : Z -> opcode.

(** [verifyWitnessProgram] writes the taproot context, the signature
    cache, the scripts and the data stack, and nothing else. *)
Lemma verifyWitnessProgram_frame (witness : list bytes) (vm : Engine) :
  let vm' := snd (verifyWitnessProgram opcodeArray witness vm) in
  scriptIdx vm' = scriptIdx vm
  /\ opcodeIdx vm' = opcodeIdx vm
  /\ lastCodeSep vm' = lastCodeSep vm
  /\ condStack vm' = condStack vm
  /\ astack vm' = astack vm
  /\ version vm' = version vm
  /\ (exists extra, scripts vm' = scripts vm ++ extra).
Proof.
  unfold verifyWitnessProgram. cbv zeta.
  assert (Hnil : exists extra : list bytes, scripts vm = scripts vm ++ extra)
    by (exists []; rewrite app_nil_r; reflexivity).
  repeat
    match goal with
    | |- context [if ?c then _ else _] => destruct c
    | |- context [match ?x with _ => _ end] => destruct x
    end;
    simpl; repeat split; try reflexivity; try exact Hnil;
    eexists; reflexivity.
Qed.

Lemma Step_done (vm vm' : Engine) :
  Step opcodeArray vm = ((true, None), vm') ->
  len (scripts vm') <= scriptIdx vm'.
Proof.
  unfold Step.
  destruct (checkValidPC vm); [discriminate|].
  destruct (tk_Next opcodeArray (tokenizer vm)) as [ok tk].
  destruct ok; simpl negb; cbv iota.
  2:{ destruct (tk_err tk); discriminate. }
  destruct (executeOpcode _ _ _) as [[e|] vmh]; [discriminate|].
  destruct (MaxStackSize <? _); [discriminate|].
  destruct (tk_Done _); [|discriminate].
  unfold nextScript.
  destruct (negb (len (condStack _) =? 0)); [discriminate|].
  cbv zeta.
  match goal with
  | |- context [let '(err, vm0) := ?X in _] => destruct X as [[e|] vm1]
  end; [discriminate|].
  match goal with
  | |- context [len (scripts ?v) <=? scriptIdx ?v] =>
      destruct (Z.leb_spec (len (scripts v)) (scriptIdx v)) as [Hdone|Hmore]
  end; [|discriminate].
  intros [= <-]. exact Hdone.
Qed.

(** X23.  An engine runs once.  When a [Step] reports the execution done
    without error, every script of the engine has been run; a further
    [Step], and [Execute] on that engine, fail with
    ErrInvalidProgramCounter and leave it unchanged.  An engine whose
    script version is not 0 is not run at all: [Execute] returns no
    error without a step. *)
Theorem engine_runs_once (vm vm' : Engine) (fuel : nat) :
  (Step opcodeArray vm = ((true, None), vm') ->
   len (scripts vm') <= scriptIdx vm'
   /\ (exists e, Step opcodeArray vm' = ((true, Some e), vm')
                 /\ error_code e = Some ErrInvalidProgramCounter)
   /\ (version vm' = 0 -> stepCallback vm' = None ->
       exists e, Execute opcodeArray (S fuel) vm' = Some (Some e, vm')
                 /\ error_code e = Some ErrInvalidProgramCounter))
  /\ (version vm <> 0 -> Execute opcodeArray fuel vm = Some (None, vm)).
Proof.
  split.
  - intros Hstep. pose proof (Step_done vm vm' Hstep) as Hdone.
    assert (Hagain :
      exists e, Step opcodeArray vm' = ((true, Some e), vm')
                /\ error_code e = Some ErrInvalidProgramCounter).
    { unfold Step, checkValidPC.
      replace (len (scripts vm') <=? scriptIdx vm') with true
        by (symmetry; apply Z.leb_le; exact Hdone).
      eexists. split; reflexivity. }
    split; [exact Hdone|]. split; [exact Hagain|].
    intros Hver Hcb. destruct Hagain as (e & Hs & He).
    exists e. split; [|exact He].
    unfold Execute. rewrite Hver, Hcb. simpl. rewrite Hs. reflexivity.
  - intros Hver. unfold Execute. apply Z.eqb_neq in Hver. rewrite Hver.
    reflexivity.
Qed.

(** X24.  The end of a script.  A condition still open when the script
    ends is ErrUnbalancedConditional: a conditional cannot reach into the
    next script.  Otherwise, whenever the transition to the next script
    returns no error, the alternate stack is empty - it does not carry
    over between scripts -, the opcode index and the position of the last
    code separator are 0, the script index has advanced by one or by two
    (one empty script is skipped), and the execution is reported done
    exactly when no script is left; if one is left, the tokenizer is at
    its start. *)
Theorem script_boundary (vm : Engine) :
  (condStack vm <> [] ->
   nextScript opcodeArray vm
   = ((false,
       Some (scriptError ErrUnbalancedConditional
               "end of script reached in conditional execution")), vm))
  /\ (forall (done : bool) (vm' : Engine),
        nextScript opcodeArray vm = ((done, None), vm') ->
        stk (astack vm') = []
        /\ condStack vm' = []
        /\ opcodeIdx vm' = 0
        /\ lastCodeSep vm' = 0
        /\ (scriptIdx vm' = scriptIdx vm + 1 \/ scriptIdx vm' = scriptIdx vm + 2)
        /\ (done = true <-> len (scripts vm') <= scriptIdx vm')
        /\ (done = false ->
            tokenizer vm'
            = MakeScriptTokenizer (version vm')
                (index [] (scripts vm') (scriptIdx vm')))).
Proof.
  split.
  - intros Hcond. unfold nextScript.
    replace (len (condStack vm) =? 0) with false; [reflexivity|].
    symmetry. apply Z.eqb_neq. intros H. apply Hcond. apply len_zero_nil.
    exact H.
  - intros done vm'. unfold nextScript.
    destruct (len (condStack vm) =? 0) eqn:Hc; [|discriminate].
    apply Z.eqb_eq, len_zero_nil in Hc.
    simpl negb. cbv iota. cbv zeta.
    set (vm0 := set_opcodeIdx 0 (set_astack _ vm)).
    assert (H0 : stk (astack vm0) = [] /\ condStack vm0 = []
                 /\ opcodeIdx vm0 = 0 /\ scriptIdx vm0 = scriptIdx vm).
    { unfold vm0. simpl. rewrite stack_DropN_all. auto. }
    clearbody vm0.
    assert (Hnext : forall vm1 : Engine,
      stk (astack vm1) = [] -> condStack vm1 = [] -> opcodeIdx vm1 = 0 ->
      scriptIdx vm1 = scriptIdx vm + 1 ->
      (let vm2 :=
         if (scriptIdx vm1 <? len (scripts vm1))
            && (len (index [] (scripts vm1) (scriptIdx vm1)) =? 0)
         then set_scriptIdx (scriptIdx vm1 + 1) vm1
         else vm1 in
       let vm3 := set_lastCodeSep 0 vm2 in
       if len (scripts vm3) <=? scriptIdx vm3
       then ((true, @None error), vm3)
       else
         ((false, @None error),
          set_tokenizer
            (MakeScriptTokenizer (version vm3)
               (index [] (scripts vm3) (scriptIdx vm3))) vm3))
      = ((done, None), vm') ->
      stk (astack vm') = []
      /\ condStack vm' = []
      /\ opcodeIdx vm' = 0
      /\ lastCodeSep vm' = 0
      /\ (scriptIdx vm' = scriptIdx vm + 1 \/ scriptIdx vm' = scriptIdx vm + 2)
      /\ (done = true <-> len (scripts vm') <= scriptIdx vm')
      /\ (done = false ->
          tokenizer vm'
          = MakeScriptTokenizer (version vm')
              (index [] (scripts vm') (scriptIdx vm')))).
    { intros vm1 Ha Hcs Ho Hi. cbv zeta.
      destruct ((scriptIdx vm1 <? len (scripts vm1))
                && (len (index [] (scripts vm1) (scriptIdx vm1)) =? 0));
        simpl scripts; simpl scriptIdx;
        match goal with
        | |- context [?a <=? ?b] => destruct (Z.leb_spec a b) as [Hle|Hgt]
        end;
        intros [= <- <-]; simpl;
        repeat split; try assumption; try reflexivity; try lia;
        try (intros; discriminate); try (intros; lia); auto;
        try (left; lia); try (right; lia). }
    destruct H0 as (Ha0 & Hc0 & Ho0 & Hi0).
    destruct ((scriptIdx vm0 =? 1) && bool_decide (witnessProgram vm0 <> None)).
    + unfold at_index.
      destruct (if txIdx _ <? 0 then None else _) as [txin|];
        [|discriminate].
      unfold ret.
      set (vm1 := set_scriptIdx (scriptIdx vm0 + 1) vm0).
      pose proof (verifyWitnessProgram_frame (Witness txin) vm1)
        as (Hf1 & Hf2 & Hf3 & Hf4 & Hf5 & _).
      destruct (verifyWitnessProgram opcodeArray (Witness txin) vm1)
        as [[e|] vm2]; [discriminate|].
      simpl in Hf1, Hf2, Hf4, Hf5.
      apply Hnext.
      * rewrite Hf5. exact Ha0.
      * rewrite Hf4. exact Hc0.
      * rewrite Hf2. exact Ho0.
      * rewrite Hf1. simpl. lia.
    + apply Hnext; simpl; try assumption. lia.
Qed.

End ScriptBoundary.

Lemma engine_runs_once_witness :
  let vm := Demo.bareEngine [81] None [] in
  let vm' := snd (Step Demo.opcodeArray vm) in
  Step Demo.opcodeArray vm = ((true, None), vm')
  /\ Demo.run 1 (Ok vm) = Some None
  /\ (exists e, Step Demo.opcodeArray vm' = ((true, Some e), vm')
                /\ error_code e = Some ErrInvalidProgramCounter)
  /\ (exists e, Execute Demo.opcodeArray 1 vm' = Some (Some e, vm')
                /\ error_code e = Some ErrInvalidProgramCounter).
Proof.
  intros vm vm'.
  assert (Hstep : Step Demo.opcodeArray vm = ((true, None), vm'))
    by (unfold vm'; apply pair_of_fst; vm_compute; reflexivity).
  destruct (proj1 (engine_runs_once Demo.opcodeArray vm vm' 0) Hstep)
    as (_ & Hagain & Hexec).
  split; [exact Hstep|]. split; [vm_compute; reflexivity|].
  split; [exact Hagain|]. apply Hexec; reflexivity.
Defined.

Lemma script_boundary_witness :
  let vm := SetAltStack [[7]] (Demo.bareEngine [81] None [[1]]) in
  let vm' := snd (nextScript Demo.opcodeArray vm) in
  nextScript Demo.opcodeArray (set_condStack [1] vm)
  = ((false,
      Some (scriptError ErrUnbalancedConditional
              "end of script reached in conditional execution")),
     set_condStack [1] vm)
  /\ nextScript Demo.opcodeArray vm = ((true, None), vm')
  /\ stk (astack vm) = [[7]]
  /\ stk (astack vm') = []
  /\ (scriptIdx vm' = scriptIdx vm + 1 \/ scriptIdx vm' = scriptIdx vm + 2).
Proof.
  intros vm vm'.
  assert (Hnext : nextScript Demo.opcodeArray vm = ((true, None), vm'))
    by (unfold vm'; apply pair_of_fst; vm_compute; reflexivity).
  destruct (proj2 (script_boundary Demo.opcodeArray vm) true vm' Hnext)
    as (Ha & _ & _ & _ & Hidx & _).
  split.
  - apply (proj1 (script_boundary Demo.opcodeArray (set_condStack [1] vm))).
    discriminate.
  - split; [exact Hnext|]. split; [reflexivity|]. split; [exact Ha|exact Hidx].
Defined.

(** ** The sig-ops budget over several signatures *)

Lemma tallysigOp_step (t : taprootExecutionCtx) :
  0 <= sigOpsBudget t < 2 ^ 31 ->
  sigOpsBudget (snd (tallysigOp t)) = sigOpsBudget t - 50
  /\ (sigOpsBudget t < 50 ->
      fst (tallysigOp t) = Some (scriptError ErrTaprootMaxSigOps ""))
  /\ (50 <= sigOpsBudget t -> fst (tallysigOp t) = None).
Proof.
  intros Hb. unfold tallysigOp, sigOpsDelta. cbv zeta. simpl sigOpsBudget.
  rewrite (int32_small (sigOpsBudget t - 50)) by (unfold is_int32; lia).
  destruct (Z.ltb_spec (sigOpsBudget t - 50) 0); simpl;
    repeat split; intros; try reflexivity; lia.
Qed.

(** X25.  The sig-ops budget counts signatures.  From a budget [b], [n]
    signature checks in a row all pass the tally exactly when
    [50 * n <= b], and they leave the budget [b - 50 * n]; with the
    initial budget of 50 plus the witness size, a script may check one
    signature, and one more for every 50 bytes of witness.  The check
    that exceeds the budget fails with TaprootMaxSigOps. *)
Theorem sig_ops_budget_counts_signatures (n : nat) (t : taprootExecutionCtx) :
  0 <= sigOpsBudget t < 2 ^ 31 ->
  (fst (tally_n n t) = None <-> 50 * Z.of_nat n <= sigOpsBudget t)
  /\ (50 * Z.of_nat n <= sigOpsBudget t ->
      sigOpsBudget (snd (tally_n n t)) = sigOpsBudget t - 50 * Z.of_nat n)
  /\ (sigOpsBudget t < 50 * Z.of_nat n ->
      error_kind (fst (tally_n n t)) = Some "TaprootMaxSigOps"%string).
Proof.
  revert t. induction n as [|n IH]; intros t Hb.
  - simpl. repeat split; intros; try reflexivity; lia.
  - simpl tally_n.
    destruct (tallysigOp_step t Hb) as (Hdec & Hfail & Hok).
    destruct (tallysigOp t) as [[e|] t'] eqn:Htally; simpl in Hdec, Hfail, Hok.
    + assert (Hlow : sigOpsBudget t < 50).
      { destruct (Z.lt_ge_cases (sigOpsBudget t) 50) as [H|H]; [exact H|].
        specialize (Hok H). discriminate. }
      specialize (Hfail Hlow). injection Hfail as ->.
      simpl. repeat split; intros; try reflexivity; try lia.
      match goal with H : Some _ = None |- _ => discriminate H end.
    + assert (Hhigh : 50 <= sigOpsBudget t).
      { destruct (Z.lt_ge_cases (sigOpsBudget t) 50) as [H|H]; [|exact H].
        specialize (Hfail H). discriminate. }
      assert (Hb' : 0 <= sigOpsBudget t' < 2 ^ 31) by lia.
      destruct (IH t' Hb') as (Hiff & Hleft & Herr).
      rewrite Hdec in Hiff, Hleft, Herr.
      repeat split.
      * intros H. apply Hiff in H. lia.
      * intros H. apply Hiff. lia.
      * intros H. rewrite Hleft by lia. lia.
      * intros H. apply Herr. lia.
Qed.

Lemma sig_ops_budget_counts_signatures_witness :
  let t := newTaprootExecutionCtx 66 in
  sigOpsBudget t = 116
  /\ fst (tally_n 2 t) = None
  /\ sigOpsBudget (snd (tally_n 2 t)) = 16
  /\ error_kind (fst (tally_n 3 t)) = Some "TaprootMaxSigOps"%string.
Proof.
  intros t.
  assert (Hb : 0 <= sigOpsBudget t < 2 ^ 31)
    by (vm_compute; split; [discriminate|reflexivity]).
  split; [reflexivity|]. split; [|split].
  - apply (proj1 (sig_ops_budget_counts_signatures 2 t Hb)).
    vm_compute. discriminate.
  - apply (proj1 (proj2 (sig_ops_budget_counts_signatures 2 t Hb))).
    vm_compute. discriminate.
  - apply (proj2 (proj2 (sig_ops_budget_counts_signatures 3 t Hb))).
    vm_compute. reflexivity.
Defined.

(** ** Taproot signatures *)

Lemma SigCache_Add_present (c : SigCache) (key sig pk : bytes) :
  0 < maxEntries c ->
  SigCache_Exists (SigCache_Add c key sig pk) key sig pk = true.
Proof.
  intros Hmax. unfold SigCache_Add.
  replace (maxEntries c <=? 0) with false by (symmetry; apply Z.leb_gt; lia).
  unfold SigCache_Exists. simpl. rewrite lookup_insert_eq.
  rewrite !bytes_eqb_refl. reflexivity.
Qed.

Section TaprootSignatures.
Context `{L : Btcd}.

(** X26.  The length of a taproot signature decides how it is read, once
    the public key parses.  A signature of 64 bytes is parsed whole and
    has the default sighash type.  A signature of 65 bytes whose last
    byte is not zero has that byte as its sighash type and its first 64
    bytes are parsed.  A signature of 65 bytes ending in a zero byte, and
    a signature of any other length, are ErrInvalidTaprootSigLen: the
    default sighash type cannot be spelled out.  A public key that does
    not parse is the error of the key, whatever the signature. *)
Theorem taproot_signature_lengths (pk rawSig : bytes) :
  (forall e, schnorr_ParsePubKey pk = Fail e ->
             parseTaprootSigAndPubKey pk rawSig = Fail e)
  /\ (forall key, schnorr_ParsePubKey pk = Ok key ->
        (len rawSig = 64 ->
         parseTaprootSigAndPubKey pk rawSig
         = match schnorr_ParseSignature rawSig with
           | Ok sig => Ok (key, sig, SigHashDefault)
           | Fail e => Fail e
           end)
        /\ (len rawSig = 65 -> index 0 rawSig 64 <> 0 ->
            parseTaprootSigAndPubKey pk rawSig
            = match schnorr_ParseSignature (firstn 64 rawSig) with
              | Ok sig => Ok (key, sig, index 0 rawSig 64)
              | Fail e => Fail e
              end)
        /\ (len rawSig = 65 -> index 0 rawSig 64 = 0 ->
            exists e, parseTaprootSigAndPubKey pk rawSig = Fail e
                      /\ error_code e = Some ErrInvalidTaprootSigLen)
        /\ (len rawSig <> 64 -> len rawSig <> 65 ->
            exists e, parseTaprootSigAndPubKey pk rawSig = Fail e
                      /\ error_code e = Some ErrInvalidTaprootSigLen)
        /\ (forall k sig h,
              parseTaprootSigAndPubKey pk rawSig = Ok (k, sig, h) ->
              k = key
              /\ ((len rawSig = 64 /\ h = SigHashDefault)
                  \/ (len rawSig = 65 /\ h = index 0 rawSig 64 /\ h <> 0)))).
Proof.
  unfold parseTaprootSigAndPubKey, schnorr_SignatureSize, SigHashDefault.
  split.
  - intros e ->. reflexivity.
  - intros key ->. split; [|split; [|split; [|split]]].
    + intros ->. reflexivity.
    + intros -> Hlast. apply Z.eqb_neq in Hlast. rewrite Hlast. reflexivity.
    + intros -> ->. eexists. split; reflexivity.
    + intros H64 H65. apply Z.eqb_neq in H64, H65.
      eexists. change (64 + 1) with 65. rewrite H64, H65.
      split; reflexivity.
    + intros k sig h.
      destruct (Z.eqb_spec (len rawSig) 64) as [H64|H64].
      * destruct (schnorr_ParseSignature rawSig); [|discriminate].
        intros [= <- <- <-]. split; [reflexivity|]. left. auto.
      * change (64 + 1) with 65.
        destruct (Z.eqb_spec (len rawSig) 65) as [H65|H65];
          [|intros H; discriminate H].
        destruct (Z.eqb_spec (index 0 rawSig 64) 0) as [H0|H0];
          [intros H; discriminate H|].
        simpl andb. cbv iota.
        destruct (schnorr_ParseSignature _); [|discriminate].
        intros [= <- <- <-]. split; [reflexivity|]. right. auto.
Qed.

(** X27.  [verifySig] and the signature cache.  An entry of the cache
    for the digest, the signature and the key is a verdict of valid with
    no verification, and the cache is left as it is.  Without such an
    entry the verdict is that of the BIP-340 verification: an invalid
    signature leaves the cache as it is - no failure is ever cached -,
    and a valid one is added to a cache that holds entries, so that the
    same check is a hit from then on.  Without a cache the verdict is the
    verification's. *)
Theorem verifySig_and_the_cache (t : taprootSigVerifier) (sigHash : bytes) :
  len sigHash = chainhash_HashSize ->
  (v_sigCache t = None ->
   verifySig t sigHash
   = (Ok (Signature_Verify (sig t) sigHash (pubKey t)), None))
  /\ (forall c, v_sigCache t = Some c ->
        (SigCache_Exists c sigHash (fullSigBytes t) (pkBytes t) = true ->
         verifySig t sigHash = (Ok true, Some c))
        /\ (SigCache_Exists c sigHash (fullSigBytes t) (pkBytes t) = false ->
            Signature_Verify (sig t) sigHash (pubKey t) = false ->
            verifySig t sigHash = (Ok false, Some c))
        /\ (SigCache_Exists c sigHash (fullSigBytes t) (pkBytes t) = false ->
            Signature_Verify (sig t) sigHash (pubKey t) = true ->
            0 < maxEntries c ->
            exists c',
              verifySig t sigHash = (Ok true, Some c')
              /\ SigCache_Exists c' sigHash (fullSigBytes t) (pkBytes t) = true
              /\ verifySig (with_sigCache (Some c') t) sigHash
                 = (Ok true, Some c'))).
Proof.
  intros Hlen. unfold verifySig, chainhash_NewHash. rewrite Hlen.
  simpl (_ =? _). cbv iota zeta. split.
  - intros ->. destruct (Signature_Verify _ _ _); reflexivity.
  - intros c Hc. rewrite Hc. split; [|split].
    + intros ->. reflexivity.
    + intros -> ->. reflexivity.
    + intros -> -> Hmax.
      exists (SigCache_Add c sigHash (fullSigBytes t) (pkBytes t)).
      split; [reflexivity|].
      pose proof (SigCache_Add_present c sigHash (fullSigBytes t) (pkBytes t)
                    Hmax) as Hpresent.
      split; [exact Hpresent|].
      simpl. rewrite Hpresent. reflexivity.
Qed.

(** X28.  [Verify] never reports an error of the sighash computation:
    when [CalcTaprootSignatureHash] fails, the key-spend verifier and the
    tapscript verifier both return the verdict invalid and leave the
    signature cache as it is.  And as every digest the computation
    returns is a 32-byte hash, which is all [verifySig] asks of it,
    [Verify] always returns a verdict. *)
Theorem verify_reports_a_verdict (t : taprootSigVerifier)
    (b : baseTapscriptSigVerifier) :
  (forall e, taproot_sigHash t = Fail e ->
     taprootSigVerifier_Verify t = (Ok (mkVerifyResult false), v_sigCache t))
  /\ (forall e, baseTapscript_sigHash b = Fail e ->
        baseTapscriptSigVerifier_Verify b
        = (Ok (mkVerifyResult false), v_sigCache (base b)))
  /\ (digests_are_hashes ->
      (exists v c, taprootSigVerifier_Verify t = (Ok (mkVerifyResult v), c))
      /\ (exists v c,
            baseTapscriptSigVerifier_Verify b = (Ok (mkVerifyResult v), c))).
Proof.
  assert (Htotal : forall (t0 : taprootSigVerifier) (h : bytes),
            len h = chainhash_HashSize ->
            exists v c, verifySig t0 h = (Ok v, c)).
  { intros t0 h Hlen. unfold verifySig, chainhash_NewHash. rewrite Hlen.
    simpl (_ =? _). cbv iota zeta.
    destruct (v_sigCache t0) as [c|].
    - destruct (SigCache_Exists c h (fullSigBytes t0) (pkBytes t0));
        [eauto|].
      destruct (Signature_Verify (sig t0) h (pubKey t0)); eauto.
    - destruct (Signature_Verify (sig t0) h (pubKey t0)); eauto. }
  split; [|split].
  - intros e He. unfold taprootSigVerifier_Verify. rewrite He. reflexivity.
  - intros e He. unfold baseTapscriptSigVerifier_Verify. rewrite He.
    reflexivity.
  - intros Hdig. split.
    + unfold taprootSigVerifier_Verify.
      destruct (taproot_sigHash t) as [h|e] eqn:Hh; [|eauto].
      destruct (Htotal t h (Hdig _ _ _ _ _ _ Hh)) as (v & c & Hv).
      rewrite Hv. eauto.
    + unfold baseTapscriptSigVerifier_Verify.
      destruct (baseTapscript_sigHash b) as [h|e] eqn:Hh; [|eauto].
      destruct (Htotal (base b) h (Hdig _ _ _ _ _ _ Hh)) as (v & c & Hv).
      rewrite Hv. eauto.
Qed.

End TaprootSignatures.

Lemma taproot_signature_lengths_witness :
  (exists e,
      parseTaprootSigAndPubKey zeroHash (repeat 7 64 ++ [0]) = Fail e
      /\ error_code e = Some ErrInvalidTaprootSigLen)
  /\ parseTaprootSigAndPubKey zeroHash (repeat 7 64 ++ [3])
     = Ok (zeroHash, repeat 7 64, 3)
  /\ parseTaprootSigAndPubKey zeroHash (repeat 7 64)
     = Ok (zeroHash, repeat 7 64, SigHashDefault).
Proof.
  pose proof (fun rawSig =>
                proj2 (taproot_signature_lengths zeroHash rawSig) zeroHash
                  eq_refl) as Hparse.
  split; [|split].
  - apply (proj1 (proj2 (proj2 (Hparse (repeat 7 64 ++ [0]))))); reflexivity.
  - apply (proj1 (proj2 (Hparse (repeat 7 64 ++ [3]))));
      [reflexivity|discriminate].
  - apply (proj1 (Hparse (repeat 7 64))). reflexivity.
Defined.

Lemma verifySig_and_the_cache_witness :
  let vm := Demo.taprootVm zeroHash [] None (Some (newTaprootExecutionCtx 0)) in
  let t :=
    with_sigCache (Some (mkSigCache ∅ 100))
      (base (Demo.verifierOn zeroHash (Demo.signatureOf zeroHash) vm)) in
  exists c',
    verifySig t Demo.testDigest = (Ok true, Some c')
    /\ SigCache_Exists c' Demo.testDigest (fullSigBytes t) (pkBytes t) = true
    /\ verifySig (with_sigCache (Some c') t) Demo.testDigest
       = (Ok true, Some c').
Proof.
  intros vm t.
  apply (proj2 (proj2
           (proj2 (verifySig_and_the_cache t Demo.testDigest eq_refl)
              (mkSigCache ∅ 100) eq_refl))).
  - reflexivity.
  - vm_compute. reflexivity.
  - reflexivity.
Defined.

Lemma verify_reports_a_verdict_witness :
  let vm := Demo.taprootVm zeroHash [] None (Some (newTaprootExecutionCtx 0)) in
  let b := Demo.verifierOn zeroHash (Demo.signatureOf zeroHash) vm in
  (exists v c, taprootSigVerifier_Verify (base b) = (Ok (mkVerifyResult v), c))
  /\ (exists v c,
         baseTapscriptSigVerifier_Verify b = (Ok (mkVerifyResult v), c)).
Proof.
  intros vm b.
  exact (proj2 (proj2 (verify_reports_a_verdict (base b) b))
           demo_digests_are_hashes).
Defined.

(** ** The asset opcodes and the depth of the stack *)

Section StackGrowth.
Context `{L : Btcd}.

Lemma grows_weaken {A : Type} (d f d' f' : Z) (m : M A) :
  grows d f m -> d <= d' -> f <= f' -> grows d' f' m.
Proof.
  intros H Hd Hf vm. specialize (H vm).
  destruct (m vm) as [[a|e] vm']; lia.
Qed.

Lemma grows_ret {A : Type} (a : A) : grows 0 0 (ret a).
Proof. intros vm. simpl. lia. Qed.

Lemma grows_raise {A : Type} (e : error) : grows 0 0 (@raise L A e).
Proof. intros vm. simpl. lia. Qed.

Lemma grows_bind {A B : Type} (d1 f1 d2 f2 : Z) (m : M A) (k : A -> M B) :
  grows d1 f1 m -> (forall a, grows d2 f2 (k a)) ->
  grows (d1 + d2) (Z.max f1 (d1 + f2)) (bind m k).
Proof.
  intros Hm Hk vm. unfold bind. specialize (Hm vm).
  destruct (m vm) as [[a|e] vm1]; [|lia].
  specialize (Hk a vm1). destruct (k a vm1) as [[b|e] vm2]; lia.
Qed.

Lemma grows_if {A : Type} (d1 f1 d2 f2 : Z) (c : bool) (m1 m2 : M A) :
  grows d1 f1 m1 -> grows d2 f2 m2 ->
  grows (Z.max d1 d2) (Z.max f1 f2) (if c then m1 else m2).
Proof.
  intros H1 H2. destruct c;
    [apply (grows_weaken d1 f1)|apply (grows_weaken d2 f2)];
    try assumption; lia.
Qed.

Lemma grows_option {A B : Type} (d1 f1 d2 f2 : Z) (o : option B)
    (m1 : B -> M A) (m2 : M A) :
  (forall b, grows d1 f1 (m1 b)) -> grows d2 f2 m2 ->
  grows (Z.max d1 d2) (Z.max f1 f2)
    (match o with Some b => m1 b | None => m2 end).
Proof.
  intros H1 H2. destruct o as [b|];
    [apply (grows_weaken d1 f1)|apply (grows_weaken d2 f2)];
    try apply H1; try assumption; lia.
Qed.

Lemma grows_PushByteArray (so : bytes) : grows 1 0 (dstack_PushByteArray so).
Proof.
  intros vm. unfold dstack_PushByteArray, stack_PushByteArray, stack_Depth.
  simpl. rewrite len_app. unfold len. simpl. lia.
Qed.

Lemma grows_PushInt (n : scriptNum) : grows 1 0 (dstack_PushInt n).
Proof. intros vm. apply (grows_PushByteArray (scriptNum_Bytes n) vm). Qed.

Lemma stack_PopByteArray_depth (st : stack) :
  match stack_PopByteArray st with
  | (Ok _, st') => stack_Depth st' = stack_Depth st - 1
  | (Fail _, st') => stack_Depth st' = stack_Depth st
  end.
Proof.
  unfold stack_PopByteArray.
  destruct (rev (stk st)) as [|so below] eqn:Hrev; [reflexivity|].
  unfold stack_Depth, len. simpl. rewrite length_rev.
  rewrite <- (length_rev (stk st)), Hrev. simpl. lia.
Qed.

Lemma grows_PopByteArray : grows (-1) 0 dstack_PopByteArray.
Proof.
  intros vm. unfold dstack_PopByteArray.
  pose proof (stack_PopByteArray_depth (dstack vm)) as H.
  destruct (stack_PopByteArray (dstack vm)) as [[so|e] st]; simpl; lia.
Qed.

Lemma grows_PopInt : grows (-1) 0 dstack_PopInt.
Proof.
  intros vm. unfold dstack_PopInt, stack_PopInt.
  pose proof (stack_PopByteArray_depth (dstack vm)) as H.
  destruct (stack_PopByteArray (dstack vm)) as [[so|e] st]; simpl; [|lia].
  destruct (MakeScriptNum _ _ _); simpl; lia.
Qed.

Lemma grows_checkAssetPacket : grows 0 0 checkAssetPacket.
Proof.
  intros vm. unfold checkAssetPacket. destruct (assetPacket vm); simpl; lia.
Qed.

Lemma grows_deref : grows 0 0 deref_assetPacket.
Proof.
  intros vm. unfold deref_assetPacket. destruct (assetPacket vm); simpl; lia.
Qed.

Lemma grows_at_index {A : Type} (l : list A) (i : Z) :
  grows 0 0 (at_index l i).
Proof.
  unfold at_index.
  destruct (if i <? 0 then None else l !! Z.to_nat i);
    [apply grows_ret|apply grows_raise].
Qed.

End StackGrowth.

Ltac grows_step :=
  first
    [ eapply grows_bind; [|intros ?]
    | apply grows_ret
    | apply grows_raise
    | apply grows_PushByteArray
    | apply grows_PushInt
    | apply grows_PopByteArray
    | apply grows_PopInt
    | apply grows_checkAssetPacket
    | apply grows_deref
    | apply grows_at_index
    | eapply grows_if
    | eapply grows_option; [intros ?|] ].

Section StackGrowthTheorem.
Context `{L : Btcd}.

Lemma asset_opcodes_grow (h : M unit) : In h asset_opcodes -> grows 1 0 h.
Proof.
  intros Hin. unfold asset_opcodes in Hin. simpl in Hin.
  repeat (destruct Hin as [<- | Hin];
          [ unfold opcodeInspectNumAssetGroups,
              opcodeInspectAssetGroupAssetID, opcodeInspectAssetGroupCtrl,
              opcodeFindAssetGroupByAssetID,
              opcodeInspectAssetGroupMetadataHash,
              opcodeInspectAssetGroupNum, opcodeInspectAssetGroup,
              opcodeInspectAssetGroupSum, opcodeInspectOutAssetCount,
              opcodeInspectOutAssetAt, opcodeInspectOutAssetLookup,
              opcodeInspectInAssetCount, opcodeInspectInAssetAt,
              opcodeInspectInAssetLookup, opcodeInspectGroupIntentOutCount,
              opcodeInspectGroupIntentOut, opcodeInspectGroupIntentInCount,
              opcodeInspectGroupIntentIn, checkGroupIndex, group_at,
              pushAssetID, pushLE64, popAssetID;
            eapply grows_weaken; [repeat grows_step|lia|lia]
          | ]).
  contradiction.
Qed.

(** X29.  No opcode of the asset family grows the data stack by more
    than one element, and one that fails never leaves the stack deeper
    than it found it. *)
Theorem asset_opcodes_grow_stack_by_one (h : M unit) (vm : Engine) :
  In h asset_opcodes ->
  stack_Depth (dstack (snd (h vm))) <= stack_Depth (dstack vm) + 1
  /\ (forall e, fst (h vm) = Fail e ->
                stack_Depth (dstack (snd (h vm))) <= stack_Depth (dstack vm)).
Proof.
  intros Hin. pose proof (asset_opcodes_grow h Hin vm) as H.
  destruct (h vm) as [[u|e] vm']; simpl.
  - split; [exact H|]. intros e He. discriminate He.
  - split; [lia|]. intros e' _. lia.
Qed.

End StackGrowthTheorem.

Lemma asset_opcodes_grow_stack_by_one_witness :
  let vm :=
    Demo.bareEngine [235] (Some Demo.makeTestAssetPacket) [[]; [1]; []] in
  stack_Depth (dstack vm) = 3
  /\ stack_Depth (dstack (snd (opcodeInspectAssetGroup vm))) = 4
  /\ stack_Depth (dstack (snd (opcodeInspectAssetGroup vm)))
     <= stack_Depth (dstack vm) + 1.
Proof.
  intros vm. split; [reflexivity|]. split; [reflexivity|].
  apply (asset_opcodes_grow_stack_by_one opcodeInspectAssetGroup vm).
  do 6 right. left. reflexivity.
Defined.

(** ** The control asset and the metadata hash of a group *)

Section GroupFields.
Context `{L : Btcd}.

(** X30.  On a packet and an in-range group index,
    INSPECTASSETGROUPCTRL replaces the index by the single script number
    -1 when the group has no control asset, and by the two elements of
    the control asset id (txid, group index) when it has one;
    INSPECTASSETGROUPMETADATAHASH replaces it by one element of exactly
    32 bytes, the metadata hash of the group. *)
Theorem group_control_and_metadata (vm : Engine) (p : AssetPacket)
    (g : AssetGroup) (s : list bytes) (kb : bytes) (K : Z) :
  assetPacket vm = Some p ->
  stk (dstack vm) = s ++ [kb] ->
  MakeScriptNum kb (verifyMinimalData (dstack vm)) maxScriptNumLen = Ok K ->
  0 <= K ->
  Groups p !! Z.to_nat K = Some g ->
  (Control g = None ->
   opcodeInspectAssetGroupCtrl vm
   = (Ok tt, with_stack (s ++ [scriptNum_Bytes (-1)]) vm))
  /\ (forall ctrl, Control g = Some ctrl -> length (Txid ctrl) = 32%nat ->
        opcodeInspectAssetGroupCtrl vm
        = (Ok tt,
           with_stack (s ++ [Txid ctrl; scriptNum_Bytes (Gidx ctrl)]) vm))
  /\ (exists h : bytes,
        opcodeInspectAssetGroupMetadataHash vm
        = (Ok tt, with_stack (s ++ [h]) vm)
        /\ length h = 32%nat
        /\ (length (MetadataHash g) = 32%nat -> h = MetadataHash g)).
Proof.
  intros Hp Hs Hk HK Hg.
  assert (Hctrl :
    opcodeInspectAssetGroupCtrl vm
    = match Control g with
      | Some ctrl => pushAssetID ctrl
      | None => dstack_PushInt (-1)
      end (with_stack s vm)).
  { unfold opcodeInspectAssetGroupCtrl.
    run_checkAssetPacket p Hp. run_PopInt s kb K Hs Hk.
    run_checkGroupIndex p K Hp (lookup_in_range _ _ _ HK Hg).
    run_group_at p K g Hp HK Hg. reflexivity. }
  split; [|split].
  - intros Hnone. rewrite Hctrl, Hnone. reflexivity.
  - intros ctrl Hsome Hlen. rewrite Hctrl, Hsome.
    rewrite (pushAssetID_run (with_stack s vm) s ctrl eq_refl Hlen).
    reflexivity.
  - exists (copy_into 32 (MetadataHash g)). split; [|split].
    + unfold opcodeInspectAssetGroupMetadataHash.
      run_checkAssetPacket p Hp. run_PopInt s kb K Hs Hk.
      run_checkGroupIndex p K Hp (lookup_in_range _ _ _ HK Hg).
      run_group_at p K g Hp HK Hg. reflexivity.
    + apply copy_into_length.
    + apply copy_into_exact.
Qed.

End GroupFields.

Lemma group_control_and_metadata_witness :
  let vm := Demo.bareEngine [231] (Some Demo.makeTestAssetPacket) [[1]] in
  let vm' := Demo.bareEngine [231] (Some Demo.makeTestAssetPacket) [[]] in
  opcodeInspectAssetGroupCtrl vm = (Ok tt, with_stack [[129]] vm)
  /\ opcodeInspectAssetGroupCtrl vm'
     = (Ok tt, with_stack [Demo.testControlTxid; [1]] vm').
Proof.
  intros vm vm'. split.
  - exact (proj1
             (group_control_and_metadata vm Demo.makeTestAssetPacket
                (mkAssetGroup (mkAssetID Demo.testControlTxid 1) None zeroHash
                   [ mkAssetInput AssetInputTypeLocal 1 zeroHash 0 200 ]
                   [ mkAssetOutput AssetOutputTypeLocal 2 200 ])
                [] [1] 1 eq_refl eq_refl eq_refl Z.le_0_1 eq_refl)
             eq_refl).
  - exact (proj1 (proj2
             (group_control_and_metadata vm' Demo.makeTestAssetPacket
                (mkAssetGroup (mkAssetID Demo.testAssetTxid 0)
                   (Some (mkAssetID Demo.testControlTxid 1))
                   Demo.testMetadataHash
                   [ mkAssetInput AssetInputTypeLocal 0 zeroHash 0 1000;
                     mkAssetInput AssetInputTypeIntent 0 Demo.testIntentTxid 2
                       500 ]
                   [ mkAssetOutput AssetOutputTypeLocal 0 800;
                     mkAssetOutput AssetOutputTypeIntent 1 700 ])
                [] [] 0 eq_refl eq_refl eq_refl (Z.le_refl 0) eq_refl))
             (mkAssetID Demo.testControlTxid 1) eq_refl eq_refl).
Defined.

(** ** The sig-ops budget and the signature opcodes *)

Section SigOpsBudget.
Context `{L : Btcd}.
Variable opcodeArray : Z -> opcode.

Lemma quiet_ret {A : Type} (a : A) : quiet (ret a).
Proof. intros vm. destruct vm; reflexivity. Qed.

Lemma quiet_raise {A : Type} (e : error) : quiet (@raise L A e).
Proof. intros vm. destruct vm; reflexivity. Qed.

Lemma quiet_of_result {A : Type} (r : result A) : quiet (of_result r).
Proof. intros vm. destruct vm; reflexivity. Qed.

Lemma quiet_bind {A B : Type} (m : M A) (k : A -> M B) :
  quiet m -> (forall a, quiet (k a)) -> quiet (bind m k).
Proof.
  intros Hm Hk vm. unfold bind.
  pose proof (Hm vm) as Hq. destruct (m vm) as [[a|e] vm1]; simpl in Hq.
  - pose proof (Hk a vm1) as Hq'.
    set (vm2 := snd (k a vm1)) in *. clearbody vm2.
    transitivity (set_sigCache (sigCache vm2) (set_dstack (dstack vm2) vm1));
      [exact Hq'|].
    rewrite Hq. reflexivity.
  - exact Hq.
Qed.

Lemma quiet_PushInt (n : scriptNum) : quiet (dstack_PushInt n).
Proof. intros vm. reflexivity. Qed.

Lemma quiet_PushBool (b : bool) : quiet (dstack_PushBool b).
Proof. intros vm. reflexivity. Qed.

Lemma quiet_PopByteArray : quiet dstack_PopByteArray.
Proof.
  intros vm. unfold dstack_PopByteArray.
  destruct (stack_PopByteArray (dstack vm)) as [r st]. reflexivity.
Qed.

Lemma quiet_PopBool : quiet dstack_PopBool.
Proof.
  intros vm. unfold dstack_PopBool.
  destruct (stack_PopBool (dstack vm)) as [r st]. reflexivity.
Qed.

Lemma quiet_tapscript_verdict (pk fullSig : bytes) :
  quiet (tapscript_verdict pk fullSig).
Proof.
  intros vm. unfold tapscript_verdict, bind, ret.
  destruct (newBaseTapscriptSigVerifier pk fullSig vm) as [b|e].
  - destruct (baseTapscriptSigVerifier_Verify b) as [[r|e] c];
      destruct vm; reflexivity.
  - destruct vm; reflexivity.
Qed.

(** What a quiet computation leaves alone. *)
Lemma quiet_keeps {A : Type} (m : M A) (vm : Engine) :
  quiet m ->
  taprootCtx (snd (m vm)) = taprootCtx vm
  /\ scriptIdx (snd (m vm)) = scriptIdx vm
  /\ condStack (snd (m vm)) = condStack vm
  /\ witnessProgram (snd (m vm)) = witnessProgram vm
  /\ scripts (snd (m vm)) = scripts vm
  /\ astack (snd (m vm)) = astack vm
  /\ tokenizer (snd (m vm)) = tokenizer vm
  /\ tx (snd (m vm)) = tx vm
  /\ prevOutFetcher (snd (m vm)) = prevOutFetcher vm
  /\ hashCache (snd (m vm)) = hashCache vm.
Proof.
  intros Hq. rewrite (Hq vm). repeat split; reflexivity.
Qed.

Lemma tally_sigop_run (vm : Engine) (t : taprootExecutionCtx) :
  taprootCtx vm = Some t ->
  0 <= sigOpsBudget t < 2 ^ 31 ->
  tally_sigop vm
  = (if sigOpsBudget t <? 50
     then Fail (scriptError ErrTaprootMaxSigOps "") else Ok tt,
     set_taprootCtx (Some (ctx_set_budget (sigOpsBudget t - 50) t)) vm).
Proof.
  intros Hctx Hb. unfold tally_sigop, tallysigOp. rewrite Hctx. cbv zeta.
  cbn [sigOpsBudget]. unfold sigOpsDelta.
  rewrite (int32_small (sigOpsBudget t - 50)) by (unfold is_int32; lia).
  destruct (sigOpsBudget t - 50 <? 0) eqn:E1;
    destruct (sigOpsBudget t <? 50) eqn:E2;
    try reflexivity; exfalso;
    rewrite ?Z.ltb_lt, ?Z.ltb_ge in E1, E2; lia.
Qed.

(** The errors of [verifySig] are run-time panics. *)
Lemma verifySig_error (t : taprootSigVerifier) (sigHash : bytes) (e : error) :
  fst (verifySig t sigHash) = Fail e -> error_code e = None.
Proof.
  unfold verifySig. cbv zeta.
  destruct (v_sigCache t) as [c|];
    destruct (chainhash_NewHash sigHash) as [key|];
    try destruct (SigCache_Exists c key (fullSigBytes t) (pkBytes t));
    destruct (Signature_Verify (sig t) sigHash (pubKey t));
    simpl; intros H; try discriminate H; injection H as <-; reflexivity.
Qed.

Lemma tapscript_verdict_error (pk fullSig : bytes) (vm : Engine) (e : error) :
  library_errors_are_foreign ->
  fst (tapscript_verdict pk fullSig vm) = Fail e ->
  error_code e <> Some ErrTaprootMaxSigOps.
Proof.
  intros Hlib. unfold tapscript_verdict, bind, ret.
  destruct (newBaseTapscriptSigVerifier pk fullSig vm) as [b|e0] eqn:Hnew.
  - unfold baseTapscriptSigVerifier_Verify.
    destruct (baseTapscript_sigHash b) as [sigHash|e1];
      [|simpl; intros H; discriminate H].
    pose proof (verifySig_error (base b) sigHash) as Hv.
    destruct (verifySig (base b) sigHash) as [[v|e1] c]; simpl in *;
      [intros H; discriminate H|].
    intros [= <-]. rewrite (Hv e1 eq_refl). intros H; discriminate H.
  - simpl. intros [= <-].
    unfold newBaseTapscriptSigVerifier in Hnew.
    destruct (len pk =? 0);
      [injection Hnew as <-; intros H; discriminate H|].
    destruct (len pk =? 32);
      [|injection Hnew as <-; intros H; discriminate H].
    destruct (taprootCtx vm) as [ctx|];
      [|injection Hnew as <-; intros H; discriminate H].
    unfold newTaprootSigVerifier, parseTaprootSigAndPubKey in Hnew.
    destruct (schnorr_ParsePubKey pk) as [k|e1] eqn:Hk.
    2:{ injection Hnew as <-.
        rewrite (Hlib pk e1 (or_introl Hk)). intros H; discriminate H. }
    destruct (len fullSig =? schnorr_SignatureSize).
    { destruct (schnorr_ParseSignature fullSig) as [sg|e1] eqn:Hs;
        [discriminate Hnew|].
      injection Hnew as <-.
      rewrite (Hlib fullSig e1 (or_intror Hs)). intros H; discriminate H. }
    destruct ((len fullSig =? schnorr_SignatureSize + 1)
              && negb (index 0 fullSig 64 =? 0)).
    { destruct (schnorr_ParseSignature _) as [sg|e1] eqn:Hs;
        [discriminate Hnew|].
      injection Hnew as <-.
      rewrite (Hlib _ e1 (or_intror Hs)). intros H; discriminate H. }
    injection Hnew as <-. intros H; discriminate H.
Qed.

(** Once its operands are popped, a signature opcode is the tally of the
    budget followed by a computation that is quiet and never returns the
    error of the budget. *)
Lemma signature_opcode_shape (h : M unit) (n : nat) (vm : Engine)
    (s operands : list bytes) :
  In (h, n) signature_opcodes ->
  stk (dstack vm) = s ++ operands ->
  length operands = n ->
  exists rest : M unit,
    quiet rest
    /\ (library_errors_are_foreign ->
        forall vm' e, fst (rest vm') = Fail e ->
                      error_code e <> Some ErrTaprootMaxSigOps)
    /\ h vm = bind tally_sigop (fun _ => rest) (with_stack s vm).
Proof.
  intros Hin Hs Hn. unfold signature_opcodes in Hin.
  destruct Hin as [[= <- <-]|[[= <- <-]|[[= <- <-]|[]]]].
  - destruct operands as [|fullSig [|pk [|? ?]]]; try discriminate Hn.
    exists (bind (tapscript_verdict pk fullSig) dstack_PushBool).
    split; [|split].
    + apply quiet_bind; [apply quiet_tapscript_verdict|].
      intros a. apply quiet_PushBool.
    + intros Hlib vm' e. unfold bind at 1.
      pose proof (tapscript_verdict_error pk fullSig vm') as He.
      destruct (tapscript_verdict pk fullSig vm') as [[v|e0] vm1];
        simpl in *; [intros H; discriminate H|].
      intros [= <-]. exact (He e0 Hlib eq_refl).
    + unfold opcodeCheckSig.
      assert (Hs' : stk (dstack vm) = (s ++ [fullSig]) ++ [pk])
        by (rewrite Hs, <- app_assoc; reflexivity).
      run_PopByteArray (s ++ [fullSig]) pk Hs'.
      run_PopByteArray s fullSig (@eq_refl _ (s ++ [fullSig])).
      reflexivity.
  - destruct operands as [|fullSig [|pk [|? ?]]]; try discriminate Hn.
    exists (bind (bind (tapscript_verdict pk fullSig) dstack_PushBool)
              (fun _ =>
                 bind dstack_PopBool
                   (fun verified =>
                      if negb verified then
                        raise (scriptError ErrEvalFalse
                                 "OP_CHECKSIGVERIFY failed")
                      else ret tt))).
    split; [|split].
    + apply quiet_bind.
      * apply quiet_bind; [apply quiet_tapscript_verdict|].
        intros a. apply quiet_PushBool.
      * intros _. apply quiet_bind; [apply quiet_PopBool|].
        intros v. destruct (negb v); [apply quiet_raise|apply quiet_ret].
    + intros Hlib vm' e. unfold bind at 1 2.
      pose proof (tapscript_verdict_error pk fullSig vm') as He.
      destruct (tapscript_verdict pk fullSig vm') as [[v|e0] vm1];
        simpl in *.
      2:{ intros [= <-]. exact (He e0 Hlib eq_refl). }
      unfold bind, dstack_PopBool, stack_PopBool, stack_PopByteArray.
      simpl. rewrite rev_app_distr. simpl.
      destruct (negb (asBool _)); simpl; intros H; try discriminate H.
      injection H as <-. intros H; discriminate H.
    + unfold opcodeCheckSigVerify, opcodeCheckSig.
      assert (Hs' : stk (dstack vm) = (s ++ [fullSig]) ++ [pk])
        by (rewrite Hs, <- app_assoc; reflexivity).
      unfold bind at 1 2.
      rewrite (dstack_PopByteArray_top vm (s ++ [fullSig]) pk Hs').
      unfold bind at 1.
      match goal with
      | |- context [dstack_PopByteArray ?v] =>
          rewrite (dstack_PopByteArray_top v s fullSig eq_refl)
      end.
      unfold bind. unfold with_stack. simpl.
      destruct (tally_sigop _) as [[[]|e] vm1]; [|reflexivity].
      destruct (tapscript_verdict pk fullSig vm1) as [[v|e] vm2];
        reflexivity.
  - destruct operands as [|sigBytes [|msg [|pk [|? ?]]]]; try discriminate Hn.
    exists (bind (of_result (schnorr_ParsePubKey pk))
              (fun pubKey =>
                 bind (of_result (schnorr_ParseSignature sigBytes))
                   (fun sg =>
                      dstack_PushBool (Signature_Verify sg msg pubKey)))).
    split; [|split].
    + apply quiet_bind; [apply quiet_of_result|]. intros k.
      apply quiet_bind; [apply quiet_of_result|]. intros sg.
      apply quiet_PushBool.
    + intros Hlib vm' e. unfold bind, of_result.
      destruct (schnorr_ParsePubKey pk) as [k|e0] eqn:Hk.
      2:{ simpl. intros [= <-].
          rewrite (Hlib pk e0 (or_introl Hk)). intros H; discriminate H. }
      destruct (schnorr_ParseSignature sigBytes) as [sg|e0] eqn:Hsg.
      2:{ simpl. intros [= <-].
          rewrite (Hlib sigBytes e0 (or_intror Hsg)).
          intros H; discriminate H. }
      simpl. intros H; discriminate H.
    + unfold opcodeCheckSigFromStack.
      assert (Hs' : stk (dstack vm) = (s ++ [sigBytes; msg]) ++ [pk])
        by (rewrite Hs, <- app_assoc; reflexivity).
      run_PopByteArray (s ++ [sigBytes; msg]) pk Hs'.
      assert (Hs2 : s ++ [sigBytes; msg] = (s ++ [sigBytes]) ++ [msg])
        by (rewrite <- app_assoc; reflexivity).
      run_PopByteArray (s ++ [sigBytes]) msg Hs2.
      run_PopByteArray s sigBytes (@eq_refl _ (s ++ [sigBytes])).
      reflexivity.
Qed.

(** A signature opcode on an engine in leaf execution: the failure of
    the tally, or the check run on the engine with the operands popped
    and the budget decreased. *)
Lemma signature_opcode_run (h : M unit) (n : nat) (vm : Engine)
    (t : taprootExecutionCtx) (s operands : list bytes) :
  In (h, n) signature_opcodes ->
  taprootCtx vm = Some t ->
  0 <= sigOpsBudget t < 2 ^ 31 ->
  stk (dstack vm) = s ++ operands ->
  length operands = n ->
  exists rest : M unit,
    quiet rest
    /\ (library_errors_are_foreign ->
        forall vm' e, fst (rest vm') = Fail e ->
                      error_code e <> Some ErrTaprootMaxSigOps)
    /\ h vm
       = (if sigOpsBudget t <? 50 then
            (Fail (scriptError ErrTaprootMaxSigOps ""),
             set_taprootCtx (Some (ctx_set_budget (sigOpsBudget t - 50) t))
               (with_stack s vm))
          else
            rest (set_taprootCtx
                    (Some (ctx_set_budget (sigOpsBudget t - 50) t))
                    (with_stack s vm))).
Proof.
  intros Hin Hctx Hb Hs Hn.
  destruct (signature_opcode_shape h n vm s operands Hin Hs Hn)
    as (rest & Hq & Herr & Hrun).
  exists rest. split; [exact Hq|]. split; [exact Herr|].
  rewrite Hrun. unfold bind.
  rewrite (tally_sigop_run (with_stack s vm) t Hctx Hb).
  destruct (sigOpsBudget t <? 50); reflexivity.
Qed.

(** Past script 1 the end of a script never fails on the budget. *)
Lemma nextScript_no_budget_error (vm : Engine) (e : error) :
  scriptIdx vm <> 1 ->
  snd (fst (nextScript opcodeArray vm)) = Some e ->
  error_code e <> Some ErrTaprootMaxSigOps.
Proof.
  intros Hidx. unfold nextScript.
  destruct (negb (len (condStack vm) =? 0));
    [simpl; intros [= <-] H; discriminate H|].
  cbv zeta.
  replace (scriptIdx (set_opcodeIdx 0 (set_astack _ vm)) =? 1) with false
    by (symmetry; apply Z.eqb_neq; exact Hidx).
  cbn [andb].
  match goal with
  | |- context [if ?c then set_scriptIdx _ _ else _] => destruct c
  end;
    match goal with
    | |- context [if ?c then ((true, None), _) else _] => destruct c
    end;
    simpl; intros H; discriminate H.
Qed.

(** C6.  The sig-ops budget.  A successful [verifyWitnessProgram] leaves
    a taproot context whose budget is 50 plus the serialized size of the
    witness (a size that fits the [int32] budget); [tallysigOp] decreases
    a budget by exactly 50 and fails exactly when the decreased budget is
    below zero.  Each signature opcode (CHECKSIG, CHECKSIGVERIFY,
    CHECKSIGFROMSTACK), run in leaf execution on a stack that holds its
    operands, leaves the budget decreased by exactly 50, whatever the
    signature check returns; it fails with the error TaprootMaxSigOps
    exactly when the decreased budget is below zero, and then before any
    signature is checked.  When [Step] dispatches the opcode in an
    executing branch, the step fails with TaprootMaxSigOps exactly in
    that case, and [Execute] returns the error: the execution fails. *)
Theorem sig_ops_budget :
  sigOpsDelta = 50
  /\ (forall (vm vm' : Engine) (witness : list bytes),
         verifyWitnessProgram opcodeArray witness vm = (None, vm') ->
         TxWitness_SerializeSize witness <= 2 ^ 31 - 51 ->
         budget_of vm' = Some (50 + TxWitness_SerializeSize witness))
  /\ (forall t : taprootExecutionCtx,
         - 2 ^ 31 + 50 <= sigOpsBudget t < 2 ^ 31 ->
         sigOpsBudget (snd (tallysigOp t)) = sigOpsBudget t - 50
         /\ (fst (tallysigOp t) = Some (scriptError ErrTaprootMaxSigOps "")
             <-> sigOpsBudget t - 50 < 0)
         /\ (fst (tallysigOp t) = None <-> 0 <= sigOpsBudget t - 50)
         /\ (sigOpsBudget t - 50 < 0 ->
             error_kind (fst (tallysigOp t)) = Some "TaprootMaxSigOps"%string))
  /\ (forall (h : M unit) (n : nat) (vm : Engine) (t : taprootExecutionCtx)
            (s operands : list bytes),
         In (h, n) signature_opcodes ->
         taprootCtx vm = Some t ->
         0 <= sigOpsBudget t < 2 ^ 31 ->
         stk (dstack vm) = s ++ operands ->
         length operands = n ->
         budget_of (snd (h vm)) = Some (sigOpsBudget t - 50)
         /\ (sigOpsBudget t < 50 ->
             h vm
             = (Fail (scriptError ErrTaprootMaxSigOps ""),
                set_taprootCtx
                  (Some (ctx_set_budget (sigOpsBudget t - 50) t))
                  (with_stack s vm)))
         /\ (library_errors_are_foreign ->
             ((exists e, fst (h vm) = Fail e
                         /\ error_code e = Some ErrTaprootMaxSigOps)
              <-> sigOpsBudget t < 50))
         /\ (forall tk : ScriptTokenizer,
               checkValidPC vm = None ->
               tk_Next opcodeArray (tokenizer vm) = (true, tk) ->
               (forall vm0,
                  opfunc (opcodeArray (tk_op tk)) (tk_data tk) vm0
                  = as_error (h vm0)) ->
               OP_PUSHDATA4 < op_value (opcodeArray (tk_op tk)) ->
               isOpcodeAlwaysIllegal (op_value (opcodeArray (tk_op tk)))
               = false ->
               len (tk_data tk) <= MaxScriptElementSize ->
               isBranchExecuting vm = true ->
               budget_of (snd (executeOpcode (opcodeArray (tk_op tk))
                                 (tk_data tk) (set_tokenizer tk vm)))
               = Some (sigOpsBudget t - 50)
               /\ (sigOpsBudget t < 50 ->
                   fst (Step opcodeArray vm)
                   = (true, Some (scriptError ErrTaprootMaxSigOps ""))
                   /\ (version vm = 0 -> stepCallback vm = None ->
                       forall fuel,
                         fst <$> Execute opcodeArray (S fuel) vm
                         = Some (Some (scriptError ErrTaprootMaxSigOps ""))))
               /\ (library_errors_are_foreign -> scriptIdx vm <> 1 ->
                   ((exists e, snd (fst (Step opcodeArray vm)) = Some e
                               /\ error_code e = Some ErrTaprootMaxSigOps)
                    <-> sigOpsBudget t < 50)))).
Proof.
  split; [reflexivity|]. split.
  { intros vm vm' witness Hv Hsize. unfold budget_of.
    apply verifyWitnessProgram_success in Hv as (_ & _ & Hbud).
    rewrite Hbud. f_equal.
    pose proof (TxWitness_SerializeSize_pos witness).
    rewrite (int32_small (TxWitness_SerializeSize witness))
      by (unfold is_int32; lia).
    unfold sigOpsDelta. apply int32_small. unfold is_int32. lia. }
  split.
  { intros t Ht. unfold tallysigOp. cbv zeta. simpl sigOpsBudget.
    unfold sigOpsDelta.
    rewrite (int32_small (sigOpsBudget t - 50)) by (unfold is_int32; lia).
    destruct (sigOpsBudget t - 50 <? 0) eqn:E; simpl.
    - apply Z.ltb_lt in E.
      repeat split; try reflexivity; try lia; try discriminate; auto.
    - apply Z.ltb_ge in E.
      repeat split; try reflexivity; try lia; try discriminate; auto. }
  intros h n vm t s operands Hin Hctx Hb Hs Hn.
  assert (Hfacts : forall vm0 : Engine,
            taprootCtx vm0 = Some t -> stk (dstack vm0) = s ++ operands ->
            budget_of (snd (h vm0)) = Some (sigOpsBudget t - 50)
            /\ scriptIdx (snd (h vm0)) = scriptIdx vm0
            /\ (sigOpsBudget t < 50 ->
                h vm0
                = (Fail (scriptError ErrTaprootMaxSigOps ""),
                   set_taprootCtx
                     (Some (ctx_set_budget (sigOpsBudget t - 50) t))
                     (with_stack s vm0)))
            /\ (library_errors_are_foreign -> 50 <= sigOpsBudget t ->
                forall e, fst (h vm0) = Fail e ->
                          error_code e <> Some ErrTaprootMaxSigOps)).
  { intros vm0 Hctx0 Hs0.
    destruct (signature_opcode_run h n vm0 t s operands Hin Hctx0 Hb Hs0 Hn)
      as (rest & Hq & Herr & Hrun).
    rewrite Hrun.
    destruct (Z.ltb_spec (sigOpsBudget t) 50) as [Hlt|Hge].
    - split; [reflexivity|]. split; [reflexivity|].
      split; [reflexivity|]. intros _ Hge. lia.
    - match goal with
      | |- context [rest ?v] =>
          destruct (quiet_keeps rest v Hq) as (Hc & Hi & _)
      end.
      split; [unfold budget_of; rewrite Hc; reflexivity|].
      split; [rewrite Hi; reflexivity|].
      split; [intros Hlt; lia|].
      intros Hlib _ e He. exact (Herr Hlib _ e He). }
  destruct (Hfacts vm Hctx Hs) as (Hbud & _ & Hlow & Hhigh).
  split; [exact Hbud|]. split; [exact Hlow|]. split.
  { intros Hlib. split.
    - intros (e & He & Hc).
      destruct (Z.ltb_spec (sigOpsBudget t) 50) as [Hlt|Hge]; [exact Hlt|].
      exfalso. exact (Hhigh Hlib Hge e He Hc).
    - intros Hlt. eexists. rewrite (Hlow Hlt). split; reflexivity. }
  intros tk Hpc Htk Hop Hval Hill Hlen Hexec.
  set (op := opcodeArray (tk_op tk)) in *.
  set (vmt := set_tokenizer tk vm).
  assert (Hexe : executeOpcode op (tk_data tk) vmt = as_error (h vmt)).
  { unfold executeOpcode. rewrite Hill.
    replace (MaxScriptElementSize <? len (tk_data tk)) with false
      by (symmetry; apply Z.ltb_ge; exact Hlen).
    change (isBranchExecuting vmt) with (isBranchExecuting vm).
    rewrite Hexec. cbn [negb andb].
    replace (op_value op <=? OP_PUSHDATA4) with false
      by (symmetry; apply Z.leb_gt; exact Hval).
    rewrite andb_false_r. apply Hop. }
  destruct (Hfacts vmt Hctx Hs) as (Hbudt & Hidxt & Hlowt & Hhight).
  assert (Hstep_low :
    sigOpsBudget t < 50 ->
    Step opcodeArray vm
    = ((true, Some (scriptError ErrTaprootMaxSigOps "")),
       set_taprootCtx (Some (ctx_set_budget (sigOpsBudget t - 50) t))
         (with_stack s vmt))).
  { intros Hlt. unfold Step. rewrite Hpc, Htk. cbn [negb]. cbv iota.
    fold op. fold vmt. rewrite Hexe, (Hlowt Hlt). reflexivity. }
  split; [|split].
  - rewrite Hexe. destruct (h vmt) as [[[]|e] vmh]; exact Hbudt.
  - intros Hlt. rewrite (Hstep_low Hlt). split; [reflexivity|].
    intros Hver Hcb fuel. unfold Execute. rewrite Hver, Hcb.
    cbn [Z.eqb negb Execute_loop]. rewrite (Hstep_low Hlt). reflexivity.
  - intros Hlib Hidx. split.
    2:{ intros Hlt. eexists. rewrite (Hstep_low Hlt). split; reflexivity. }
    intros (e & He & Hc).
    destruct (Z.ltb_spec (sigOpsBudget t) 50) as [Hlt|Hge]; [exact Hlt|].
    exfalso. revert He. unfold Step. rewrite Hpc, Htk. cbn [negb]. cbv iota.
    fold op. fold vmt. rewrite Hexe.
    pose proof (Hhight Hlib Hge) as Herr.
    destruct (h vmt) as [[[]|e0] vmh]; simpl in Hidxt, Herr |- *.
    2:{ intros [= <-]. exact (Herr e0 eq_refl Hc). }
    destruct (MaxStackSize <? _).
    { simpl. intros [= <-]. discriminate Hc. }
    destruct (tk_Done _); [|simpl; intros H; discriminate H].
    intros He.
    refine (nextScript_no_budget_error _ e _ He Hc).
    simpl. rewrite Hidxt. exact Hidx.
Qed.

End SigOpsBudget.

Lemma demo_library_errors_are_foreign : @library_errors_are_foreign Demo.lib.
Proof.
  intros b e [H|H]; simpl in H.
  - unfold Demo.ParsePubKey in H.
    destruct (len b =? 32); [discriminate H|]. injection H as <-. reflexivity.
  - unfold Demo.ParseSignature in H.
    destruct (len b =? 64); [discriminate H|]. injection H as <-. reflexivity.
Qed.

Lemma sig_ops_budget_witness :
  let rawSig := Demo.signatureOf Demo.testKey in
  let witness := Demo.scriptPathWitness rawSig in
  let vm0 := Demo.scriptPathVm rawSig None (Demo.NewTxSigHashes (Demo.makeTestTx [])) in
  let vm := Demo.leafVm None in
  let t :=
    mkTaprootCtx None blankCodeSepValue (Demo.Leaf Demo.checksigScript) 185
      false in
  let poor := set_taprootCtx (Some (ctx_set_budget 40 t)) vm in
  TxWitness_SerializeSize witness = 135
  /\ budget_of (snd (verifyWitnessProgram Demo.opcodeArray witness vm0))
     = Some (50 + 135)
  /\ taprootCtx vm = Some t
  /\ fst (opcodeCheckSig vm) = Ok tt
  /\ stk (dstack (snd (opcodeCheckSig vm))) = [[1]]
  /\ budget_of (snd (opcodeCheckSig vm)) = Some (185 - 50)
  /\ budget_of (snd (opcodeCheckSig poor)) = Some (40 - 50)
  /\ fst (Step Demo.opcodeArray poor)
     = (true, Some (scriptError ErrTaprootMaxSigOps ""))
  /\ fst <$> Execute Demo.opcodeArray 1 poor
     = Some (Some (scriptError ErrTaprootMaxSigOps ""))
  /\ ~ (exists e, snd (fst (Step Demo.opcodeArray vm)) = Some e
                  /\ error_code e = Some ErrTaprootMaxSigOps).
Proof.
  intros rawSig witness vm0 vm t poor.
  pose proof (sig_ops_budget Demo.opcodeArray) as (_ & Hinit & _ & Hop).
  assert (Hin : In (opcodeCheckSig, 2%nat) signature_opcodes)
    by (left; reflexivity).
  assert (Hctx : taprootCtx vm = Some t) by (vm_compute; reflexivity).
  assert (Hstk : stk (dstack vm) = [] ++ [rawSig; Demo.testKey])
    by (vm_compute; reflexivity).
  assert (Hb : 0 <= sigOpsBudget t < 2 ^ 31)
    by (vm_compute; split; [discriminate|reflexivity]).
  destruct (Hop opcodeCheckSig 2%nat vm t [] [rawSig; Demo.testKey]
              Hin Hctx Hb Hstk eq_refl) as (Hdec & _ & _ & Hstep).
  assert (Hb' : 0 <= sigOpsBudget (ctx_set_budget 40 t) < 2 ^ 31)
    by (vm_compute; split; [discriminate|reflexivity]).
  assert (Hctx' : taprootCtx poor = Some (ctx_set_budget 40 t))
    by (vm_compute; reflexivity).
  assert (Hstk' : stk (dstack poor) = [] ++ [rawSig; Demo.testKey])
    by (vm_compute; reflexivity).
  destruct (Hop opcodeCheckSig 2%nat poor (ctx_set_budget 40 t) []
              [rawSig; Demo.testKey] Hin Hctx' Hb' Hstk' eq_refl)
    as (Hdec' & _ & _ & Hstep').
  split; [reflexivity|]. split.
  { apply (Hinit vm0 (snd (verifyWitnessProgram Demo.opcodeArray witness vm0))
             witness).
    - apply pair_of_fst. vm_compute. reflexivity.
    - vm_compute. discriminate. }
  split; [exact Hctx|]. split; [vm_compute; reflexivity|].
  split; [vm_compute; reflexivity|]. split; [exact Hdec|].
  split; [exact Hdec'|].
  destruct (Hstep' (snd (tk_Next Demo.opcodeArray (tokenizer poor))))
    as (_ & Hfail & _).
  { vm_compute. reflexivity. }
  { apply pair_of_fst. vm_compute. reflexivity. }
  { intros vm1. reflexivity. }
  { vm_compute. reflexivity. }
  { vm_compute. reflexivity. }
  { vm_compute. discriminate. }
  { vm_compute. reflexivity. }
  destruct Hfail as [Hs He]; [vm_compute; reflexivity|].
  split; [exact Hs|]. split; [apply He; reflexivity|].
  destruct (Hstep (snd (tk_Next Demo.opcodeArray (tokenizer vm))))
    as (_ & _ & Hiff).
  { vm_compute. reflexivity. }
  { apply pair_of_fst. vm_compute. reflexivity. }
  { intros vm1. reflexivity. }
  { vm_compute. reflexivity. }
  { vm_compute. reflexivity. }
  { vm_compute. discriminate. }
  { vm_compute. reflexivity. }
  intros Hex.
  apply (Hiff demo_library_errors_are_foreign) in Hex.
  - vm_compute in Hex. discriminate Hex.
  - vm_compute. discriminate.
Defined.

(** ** The caches and the outcome of an execution *)

(** The fields of an engine with other caches, and the setters on it. *)
Ltac push_caches :=
  repeat
    match goal with
    | |- context [sigCache (with_caches ?c ?h ?v)] =>
        change (sigCache (with_caches c h v)) with c
    | |- context [hashCache (with_caches ?c ?h ?v)] =>
        change (hashCache (with_caches c h v)) with h
    | |- context [tx (with_caches ?c ?h ?v)] =>
        change (tx (with_caches c h v)) with (tx v)
    | |- context [txIdx (with_caches ?c ?h ?v)] =>
        change (txIdx (with_caches c h v)) with (txIdx v)
    | |- context [version (with_caches ?c ?h ?v)] =>
        change (version (with_caches c h v)) with (version v)
    | |- context [prevOutFetcher (with_caches ?c ?h ?v)] =>
        change (prevOutFetcher (with_caches c h v)) with (prevOutFetcher v)
    | |- context [assetPacket (with_caches ?c ?h ?v)] =>
        change (assetPacket (with_caches c h v)) with (assetPacket v)
    | |- context [scripts (with_caches ?c ?h ?v)] =>
        change (scripts (with_caches c h v)) with (scripts v)
    | |- context [scriptIdx (with_caches ?c ?h ?v)] =>
        change (scriptIdx (with_caches c h v)) with (scriptIdx v)
    | |- context [opcodeIdx (with_caches ?c ?h ?v)] =>
        change (opcodeIdx (with_caches c h v)) with (opcodeIdx v)
    | |- context [tokenizer (with_caches ?c ?h ?v)] =>
        change (tokenizer (with_caches c h v)) with (tokenizer v)
    | |- context [dstack (with_caches ?c ?h ?v)] =>
        change (dstack (with_caches c h v)) with (dstack v)
    | |- context [astack (with_caches ?c ?h ?v)] =>
        change (astack (with_caches c h v)) with (astack v)
    | |- context [condStack (with_caches ?c ?h ?v)] =>
        change (condStack (with_caches c h v)) with (condStack v)
    | |- context [witnessProgram (with_caches ?c ?h ?v)] =>
        change (witnessProgram (with_caches c h v)) with (witnessProgram v)
    | |- context [taprootCtx (with_caches ?c ?h ?v)] =>
        change (taprootCtx (with_caches c h v)) with (taprootCtx v)
    | |- context [stepCallback (with_caches ?c ?h ?v)] =>
        change (stepCallback (with_caches c h v)) with (stepCallback v)
    | |- context [isWitnessVersionActive (with_caches ?c ?h ?v)] =>
        change (isWitnessVersionActive (with_caches c h v))
          with (isWitnessVersionActive v)
    | |- context [witnessProgram_bytes (with_caches ?c ?h ?v)] =>
        change (witnessProgram_bytes (with_caches c h v))
          with (witnessProgram_bytes v)
    | |- context [checkValidPC (with_caches ?c ?h ?v)] =>
        change (checkValidPC (with_caches c h v)) with (checkValidPC v)
    | |- context [isBranchExecuting (with_caches ?c ?h ?v)] =>
        change (isBranchExecuting (with_caches c h v))
          with (isBranchExecuting v)
    | |- context [GetStack (with_caches ?c ?h ?v)] =>
        change (GetStack (with_caches c h v)) with (GetStack v)
    | |- context [stepInfo_of ?a ?b (with_caches ?c ?h ?v)] =>
        change (stepInfo_of a b (with_caches c h v)) with (stepInfo_of a b v)
    | |- context [set_dstack ?a (with_caches ?c ?h ?v)] =>
        change (set_dstack a (with_caches c h v))
          with (with_caches c h (set_dstack a v))
    | |- context [set_astack ?a (with_caches ?c ?h ?v)] =>
        change (set_astack a (with_caches c h v))
          with (with_caches c h (set_astack a v))
    | |- context [set_taprootCtx ?a (with_caches ?c ?h ?v)] =>
        change (set_taprootCtx a (with_caches c h v))
          with (with_caches c h (set_taprootCtx a v))
    | |- context [set_scripts ?a (with_caches ?c ?h ?v)] =>
        change (set_scripts a (with_caches c h v))
          with (with_caches c h (set_scripts a v))
    | |- context [set_scriptIdx ?a (with_caches ?c ?h ?v)] =>
        change (set_scriptIdx a (with_caches c h v))
          with (with_caches c h (set_scriptIdx a v))
    | |- context [set_opcodeIdx ?a (with_caches ?c ?h ?v)] =>
        change (set_opcodeIdx a (with_caches c h v))
          with (with_caches c h (set_opcodeIdx a v))
    | |- context [set_lastCodeSep ?a (with_caches ?c ?h ?v)] =>
        change (set_lastCodeSep a (with_caches c h v))
          with (with_caches c h (set_lastCodeSep a v))
    | |- context [set_tokenizer ?a (with_caches ?c ?h ?v)] =>
        change (set_tokenizer a (with_caches c h v))
          with (with_caches c h (set_tokenizer a v))
    | |- context [SetStack ?a (with_caches ?c ?h ?v)] =>
        change (SetStack a (with_caches c h v))
          with (with_caches c h (SetStack a v))
    | |- context [set_sigCache ?a (with_caches ?c ?h ?v)] =>
        change (set_sigCache a (with_caches c h v)) with (with_caches a h v)
    end.

Section CacheVariants.
Context `{L : Btcd}.

Lemma with_caches_self (vm : Engine) :
  with_caches (sigCache vm) (hashCache vm) vm = vm.
Proof. destruct vm; reflexivity. Qed.

Lemma same_digests_refl (t : MsgTx) (po : PrevOutputFetcher) (h : TxSigHashes) :
  same_digests t po h h.
Proof. intros hashType idx. reflexivity. Qed.

Lemma cache_variant_inv (vm1 vm2 : Engine) :
  cache_variant vm1 vm2 ->
  exists c h,
    vm2 = with_caches c h vm1
    /\ cache_sound (sigCache vm1) /\ cache_sound c
    /\ same_digests (tx vm1) (prevOutFetcher vm1) (hashCache vm1) h.
Proof.
  intros (Heq & H1 & H2 & H3).
  exists (sigCache vm2), (hashCache vm2). auto.
Qed.

Lemma cache_variant_with (vm : Engine) (c1 c2 : option SigCache)
    (h1 h2 : TxSigHashes) :
  cache_sound c1 -> cache_sound c2 ->
  same_digests (tx vm) (prevOutFetcher vm) h1 h2 ->
  cache_variant (with_caches c1 h1 vm) (with_caches c2 h2 vm).
Proof.
  intros H1 H2 H3. split; [reflexivity|]. auto.
Qed.

Lemma cache_variant_self (vm : Engine) (c : option SigCache)
    (h : TxSigHashes) :
  cache_sound (sigCache vm) -> cache_sound c ->
  same_digests (tx vm) (prevOutFetcher vm) (hashCache vm) h ->
  cache_variant vm (with_caches c h vm).
Proof.
  intros H1 H2 H3. split; [reflexivity|]. auto.
Qed.

(** A function that does not touch the caches respects them. *)
Lemma oblivious_respects {X : Type} (f : Engine -> X * Engine) :
  oblivious f -> keeps_tx f -> respects_caches f.
Proof.
  intros Ho Hk vm1 vm2 Hv.
  apply cache_variant_inv in Hv as (c & h & -> & Hs1 & Hs2 & Hd).
  rewrite (Ho c h vm1). simpl. split; [reflexivity|].
  pose proof (Ho (sigCache vm1) (hashCache vm1) vm1) as Hself.
  rewrite with_caches_self in Hself.
  apply (f_equal snd) in Hself. simpl in Hself.
  destruct (Hk vm1) as [Htx Hpo].
  apply cache_variant_self.
  - rewrite Hself. exact Hs1.
  - exact Hs2.
  - rewrite Htx, Hpo, Hself. exact Hd.
Qed.

Lemma oblivious_ret {A : Type} (a : A) : oblivious (ret a).
Proof. intros c h vm. reflexivity. Qed.

Lemma oblivious_raise {A : Type} (e : error) : oblivious (@raise L A e).
Proof. intros c h vm. reflexivity. Qed.

Lemma oblivious_bind {A B : Type} (m : M A) (k : A -> M B) :
  oblivious m -> (forall a, oblivious (k a)) -> oblivious (bind m k).
Proof.
  intros Hm Hk c h vm. unfold bind. rewrite (Hm c h vm).
  destruct (m vm) as [[a|e] vm1]; simpl; [apply Hk|reflexivity].
Qed.

Lemma oblivious_PushByteArray (so : bytes) : oblivious (dstack_PushByteArray so).
Proof. intros c h vm. reflexivity. Qed.

Lemma oblivious_PushInt (n : scriptNum) : oblivious (dstack_PushInt n).
Proof. intros c h vm. reflexivity. Qed.

Lemma oblivious_PopByteArray : oblivious dstack_PopByteArray.
Proof.
  intros c h vm. unfold dstack_PopByteArray. push_caches.
  destruct (stack_PopByteArray (dstack vm)) as [r st]. reflexivity.
Qed.

Lemma oblivious_PopInt : oblivious dstack_PopInt.
Proof.
  intros c h vm. unfold dstack_PopInt. push_caches.
  destruct (stack_PopInt (dstack vm)) as [r st]. reflexivity.
Qed.

Lemma oblivious_PopBool : oblivious dstack_PopBool.
Proof.
  intros c h vm. unfold dstack_PopBool. push_caches.
  destruct (stack_PopBool (dstack vm)) as [r st]. reflexivity.
Qed.

Lemma oblivious_checkAssetPacket : oblivious checkAssetPacket.
Proof.
  intros c h vm. unfold checkAssetPacket. push_caches.
  destruct (assetPacket vm); reflexivity.
Qed.

Lemma oblivious_deref : oblivious deref_assetPacket.
Proof.
  intros c h vm. unfold deref_assetPacket. push_caches.
  destruct (assetPacket vm); reflexivity.
Qed.

Lemma oblivious_at_index {A : Type} (l : list A) (i : Z) :
  oblivious (at_index l i).
Proof.
  intros c h vm. unfold at_index.
  destruct (if i <? 0 then None else l !! Z.to_nat i); reflexivity.
Qed.

Lemma oblivious_of_result {A : Type} (r : result A) : oblivious (of_result r).
Proof. intros c h vm. reflexivity. Qed.

Lemma oblivious_as_error {A : Type} (m : M A) :
  oblivious m -> oblivious (fun vm => as_error (m vm)).
Proof.
  intros Hm c h vm. rewrite (Hm c h vm).
  destruct (m vm) as [[a|e] vm1]; reflexivity.
Qed.

Lemma keeps_tx_as_error {A : Type} (m : M A) :
  keeps_tx m -> keeps_tx (fun vm => as_error (m vm)).
Proof.
  intros Hm vm. specialize (Hm vm).
  destruct (m vm) as [[a|e] vm1]; exact Hm.
Qed.

Lemma frames_keeps_tx {A : Type} (m : M A) : frames m -> keeps_tx m.
Proof.
  intros Hf vm. destruct (Hf vm) as [Heq _]. rewrite Heq.
  split; reflexivity.
Qed.

Lemma quiet_keeps_tx {A : Type} (m : M A) : quiet m -> keeps_tx m.
Proof.
  intros Hq vm. rewrite (Hq vm). split; reflexivity.
Qed.

End CacheVariants.

Ltac oblivious_step :=
  first
    [ apply oblivious_bind; [|intros ?]
    | apply oblivious_ret
    | apply oblivious_raise
    | apply oblivious_PushByteArray
    | apply oblivious_PushInt
    | apply oblivious_PopByteArray
    | apply oblivious_PopInt
    | apply oblivious_checkAssetPacket
    | apply oblivious_deref
    | apply oblivious_at_index
    | match goal with
      | |- oblivious (if ?c then _ else _) => destruct c
      | |- oblivious (match ?x with _ => _ end) => destruct x
      end ].

Ltac variant_ok :=
  split; [reflexivity | split; [assumption | split; assumption]].

Ltac variant_done := split; [reflexivity | variant_ok].

Section CacheIndependence.
Context `{L : Btcd}.
Variable opcodeArray : Z -> opcode.

Lemma asset_opcodes_oblivious (h : M unit) : In h asset_opcodes -> oblivious h.
Proof.
  intros Hin. unfold asset_opcodes in Hin. simpl in Hin.
  repeat (destruct Hin as [<- | Hin];
          [ unfold opcodeInspectNumAssetGroups,
              opcodeInspectAssetGroupAssetID, opcodeInspectAssetGroupCtrl,
              opcodeFindAssetGroupByAssetID,
              opcodeInspectAssetGroupMetadataHash,
              opcodeInspectAssetGroupNum, opcodeInspectAssetGroup,
              opcodeInspectAssetGroupSum, opcodeInspectOutAssetCount,
              opcodeInspectOutAssetAt, opcodeInspectOutAssetLookup,
              opcodeInspectInAssetCount, opcodeInspectInAssetAt,
              opcodeInspectInAssetLookup, opcodeInspectGroupIntentOutCount,
              opcodeInspectGroupIntentOut, opcodeInspectGroupIntentInCount,
              opcodeInspectGroupIntentIn, checkGroupIndex, group_at,
              pushAssetID, pushLE64, popAssetID;
            repeat oblivious_step
          | ]).
  contradiction.
Qed.

(** The opcodes of the asset family respect the caches. *)
Lemma asset_opcodes_respect (h : M unit) :
  In h asset_opcodes -> respects_caches (fun vm => as_error (h vm)).
Proof.
  intros Hin. apply oblivious_respects.
  - apply oblivious_as_error, asset_opcodes_oblivious, Hin.
  - apply keeps_tx_as_error, frames_keeps_tx, asset_opcodes_frames, Hin.
Qed.


(** The signature check gives the same verdict under sound caches, hit
    or miss, and leaves sound caches. *)
Lemma tapscript_verdict_respects (pk fullSig : bytes) :
  digests_are_hashes -> respects_caches (tapscript_verdict pk fullSig).
Proof.
  intros Hdig vm1 vm2 Hv.
  apply cache_variant_inv in Hv as (c & h & -> & Hs1 & Hs2 & Hd).
  unfold tapscript_verdict, bind, ret, newBaseTapscriptSigVerifier.
  push_caches.
  destruct (len pk =? 0); [simpl; variant_done|].
  destruct (len pk =? 32); [|simpl; variant_done].
  destruct (taprootCtx vm1) as [ctx|]; [|simpl; variant_done].
  unfold newTaprootSigVerifier.
  destruct (parseTaprootSigAndPubKey pk fullSig) as [[[k sg] ht]|e] eqn:Hp;
    [|simpl; variant_done].
  unfold baseTapscriptSigVerifier_Verify, baseTapscript_sigHash.
  cbn [base v_hashCache hashType v_tx inputIndex prevOuts].
  rewrite <- (Hd ht (txIdx vm1)).
  destruct (CalcTaprootSignatureHash (hashCache vm1) ht (tx vm1) (txIdx vm1)
              (prevOutFetcher vm1)) as [sigHash|e] eqn:Hh;
    [|simpl; variant_done].
  pose proof (Hdig _ _ _ _ _ _ Hh) as Hlen.
  match goal with
  | |- context [verifySig ?t1 sigHash] =>
      match goal with
      | |- context [verifySig ?t2 sigHash] =>
          tryif constr_eq t1 t2 then fail else
            (destruct (verifySig_sound t1 sigHash Hp Hs1 Hlen) as [Hv1 Hc1];
             destruct (verifySig_sound t2 sigHash Hp Hs2 Hlen) as [Hv2 Hc2];
             destruct (verifySig t1 sigHash) as [r1 k1];
             destruct (verifySig t2 sigHash) as [r2 k2])
      end
  end.
  simpl in Hv1, Hv2, Hc1, Hc2. subst r1 r2. simpl. variant_done.
Qed.



Lemma respects_bind {A B : Type} (m : M A) (k : A -> M B) :
  respects_caches m -> (forall a, respects_caches (k a)) ->
  respects_caches (bind m k).
Proof.
  intros Hm Hk vm1 vm2 Hv. unfold bind.
  destruct (Hm vm1 vm2 Hv) as [He Hv'].
  destruct (m vm1) as [r1 vmA]; destruct (m vm2) as [r2 vmB].
  simpl in He, Hv'. subst r2.
  destruct r1 as [a|e]; [apply Hk; exact Hv'|].
  split; [reflexivity|exact Hv'].
Qed.

Lemma respects_as_error {A : Type} (m : M A) :
  respects_caches m -> respects_caches (fun vm => as_error (m vm)).
Proof.
  intros Hm vm1 vm2 Hv. destruct (Hm vm1 vm2 Hv) as [He Hv'].
  destruct (m vm1) as [r1 vmA]; destruct (m vm2) as [r2 vmB].
  simpl in He, Hv'. subst r2. destruct r1; split; solve [reflexivity|exact Hv'].
Qed.

Lemma respects_quiet {A : Type} (m : M A) :
  oblivious m -> quiet m -> respects_caches m.
Proof.
  intros Ho Hq. apply oblivious_respects; [exact Ho|].
  apply quiet_keeps_tx, Hq.
Qed.

Lemma respects_tally : respects_caches tally_sigop.
Proof.
  apply oblivious_respects.
  - intros c h vm. unfold tally_sigop. push_caches.
    destruct (taprootCtx vm) as [ctx|]; [|reflexivity].
    destruct (tallysigOp ctx) as [[e|] ctx']; reflexivity.
  - intros vm. unfold tally_sigop.
    destruct (taprootCtx vm) as [ctx|]; [|split; reflexivity].
    destruct (tallysigOp ctx) as [[e|] ctx']; split; reflexivity.
Qed.

(** The signature opcodes respect the caches. *)
Lemma signature_opcodes_respect (h : M unit) (n : nat) :
  digests_are_hashes ->
  In (h, n) signature_opcodes ->
  respects_caches (fun vm => as_error (h vm)).
Proof.
  intros Hdig Hin. apply respects_as_error.
  assert (Hpop : respects_caches dstack_PopByteArray)
    by (apply respects_quiet;
        [apply oblivious_PopByteArray|apply quiet_PopByteArray]).
  assert (Hpush : forall b, respects_caches (dstack_PushBool b))
    by (intros b; apply respects_quiet;
        [apply oblivious_PushInt|apply quiet_PushBool]).
  assert (Hcheck : respects_caches opcodeCheckSig).
  { unfold opcodeCheckSig.
    apply respects_bind; [exact Hpop|intros pk].
    apply respects_bind; [exact Hpop|intros fullSig].
    apply respects_bind; [exact respects_tally|intros _].
    apply respects_bind; [|exact Hpush].
    apply tapscript_verdict_respects, Hdig. }
  unfold signature_opcodes in Hin.
  destruct Hin as [[= <- <-]|[[= <- <-]|[[= <- <-]|[]]]].
  - exact Hcheck.
  - unfold opcodeCheckSigVerify.
    apply respects_bind; [exact Hcheck|intros _].
    apply respects_bind.
    + apply respects_quiet; [apply oblivious_PopBool|apply quiet_PopBool].
    + intros v. destruct (negb v);
        (apply respects_quiet;
         [first [apply oblivious_raise|apply oblivious_ret]
         |first [apply quiet_raise|apply quiet_ret]]).
  - unfold opcodeCheckSigFromStack.
    apply respects_bind; [exact Hpop|intros pk].
    apply respects_bind; [exact Hpop|intros msg].
    apply respects_bind; [exact Hpop|intros sigBytes].
    apply respects_bind; [exact respects_tally|intros _].
    apply respects_bind;
      [apply respects_quiet;
       [apply oblivious_of_result|apply quiet_of_result]|intros k].
    apply respects_bind;
      [apply respects_quiet;
       [apply oblivious_of_result|apply quiet_of_result]|intros sg].
    apply Hpush.
Qed.

Lemma verifyWitnessProgram_respects (witness : list bytes) :
  keyspend_respects_caches ->
  respects_caches (verifyWitnessProgram opcodeArray witness).
Proof.
  intros Hkey vm1 vm2 Hv.
  apply cache_variant_inv in Hv as (c & h & -> & Hs1 & Hs2 & Hd).
  unfold verifyWitnessProgram. push_caches.
  destruct (negb (isWitnessVersionActive vm1 TaprootWitnessVersion)
            || negb (len (witnessProgram_bytes vm1) =? payToTaprootDataSize));
    [simpl; variant_done|].
  destruct (len witness =? 0); [simpl; variant_done|].
  cbv zeta. push_caches.
  match goal with
  | |- context [if len ?w =? 1 then _ else _] => destruct (len w =? 1)
  end.
  - match goal with
    | |- context [VerifyTaprootKeySpend ?p ?r ?t ?i ?po h c] =>
        match goal with
        | |- context [VerifyTaprootKeySpend p r t i po ?h1 ?c1] =>
            tryif constr_eq c1 c then fail else
              (destruct (Hkey p r t i po h1 h c1 c Hs1 Hs2 Hd)
                 as (He & Hc1 & Hc2);
               destruct (VerifyTaprootKeySpend p r t i po h1 c1) as [e1 k1];
               destruct (VerifyTaprootKeySpend p r t i po h c) as [e2 k2])
        end
    end.
    simpl in He, Hc1, Hc2. subst e2.
    destruct e1; simpl; variant_done.
  - destruct (ParseControlBlock _) as [cb|e]; [|simpl; variant_done].
    destruct (VerifyTaprootLeafCommitment _ _ _); [simpl; variant_done|].
    destruct (negb (LeafVersion cb =? BaseLeafVersion));
      [simpl; variant_done|].
    destruct (checkScriptParses _ _ _); [simpl; variant_done|].
    destruct (MaxStackSize <? _); [simpl; variant_done|].
    destruct (List.find _ _); simpl; variant_done.
Qed.



Lemma at_index_pure {A : Type} (l : list A) (i : Z) (vm : Engine) :
  at_index l i vm
  = (match (if i <? 0 then None else l !! Z.to_nat i) with
     | Some x => Ok x
     | None => Fail (RuntimePanic "index out of range")
     end, vm).
Proof.
  unfold at_index.
  destruct (if i <? 0 then None else l !! Z.to_nat i); reflexivity.
Qed.

Lemma nextScript_respects :
  keyspend_respects_caches -> respects_caches (nextScript opcodeArray).
Proof.
  intros Hkey vm1 vm2 Hv.
  apply cache_variant_inv in Hv as (c & h & -> & Hs1 & Hs2 & Hd).
  unfold nextScript. push_caches.
  destruct (negb (len (condStack vm1) =? 0)); [simpl; variant_done|].
  cbv zeta. push_caches.
  match goal with
  | |- context [if ?b then _ else (None, set_scriptIdx _ _)] => destruct b
  end.
  - rewrite !at_index_pure. simpl.
    destruct (if txIdx vm1 <? 0 then None
              else TxIn (tx vm1) !! Z.to_nat (txIdx vm1)) as [txin|];
      simpl; [|variant_done].
    match goal with
    | |- context [verifyWitnessProgram opcodeArray ?w (with_caches c h ?v)] =>
        destruct (verifyWitnessProgram_respects w Hkey v
                    (with_caches c h v)) as [He Hv'];
        [apply cache_variant_self; assumption|];
        destruct (verifyWitnessProgram opcodeArray w v) as [e1 vmA];
        destruct (verifyWitnessProgram opcodeArray w (with_caches c h v))
          as [e2 vmB]
    end.
    simpl in He, Hv'. subst e2.
    destruct e1 as [e|]; [split; [reflexivity|exact Hv']|].
    apply cache_variant_inv in Hv' as (c' & h' & -> & Hs1' & Hs2' & Hd').
    push_caches.
    destruct ((scriptIdx vmA <? len (scripts vmA))
              && (len (index [] (scripts vmA) (scriptIdx vmA)) =? 0));
      push_caches;
      match goal with
      | |- context [if ?b then ((true, None), _) else _] => destruct b
      end; simpl; variant_done.
  - simpl.
    destruct ((scriptIdx vm1 + 1 <? len (scripts vm1))
              && (len (index [] (scripts vm1) (scriptIdx vm1 + 1)) =? 0));
      simpl;
      match goal with
      | |- context [if ?b then _ else _] => destruct b
      end; simpl; variant_done.
Qed.

Lemma CheckErrorCondition_respects (finalScript : bool) :
  respects_caches (CheckErrorCondition finalScript).
Proof.
  intros vm1 vm2 Hv.
  apply cache_variant_inv in Hv as (c & h & -> & Hs1 & Hs2 & Hd).
  unfold CheckErrorCondition. push_caches.
  destruct (match taprootCtx vm1 with
            | Some c0 => mustSucceed c0
            | None => false
            end); [simpl; variant_done|].
  destruct (scriptIdx vm1 <? len (scripts vm1)); [simpl; variant_done|].
  destruct (finalScript && negb (stack_Depth (dstack vm1) =? 1));
    [simpl; variant_done|].
  destruct (stack_Depth (dstack vm1) <? 1); [simpl; variant_done|].
  unfold dstack_PopBool. push_caches.
  destruct (stack_PopBool (dstack vm1)) as [[v|e] st];
    try destruct (negb v); simpl; variant_done.
Qed.

Lemma executeOpcode_respects (op : opcode) (data : bytes) :
  respects_caches (opfunc op data) ->
  respects_caches (executeOpcode op data).
Proof.
  intros Hop vm1 vm2 Hv.
  pose proof (Hop vm1 vm2 Hv) as Hrun.
  apply cache_variant_inv in Hv as (c & h & -> & Hs1 & Hs2 & Hd).
  unfold executeOpcode. push_caches.
  destruct (isOpcodeAlwaysIllegal (op_value op)); [simpl; variant_done|].
  destruct (MaxScriptElementSize <? len data); [simpl; variant_done|].
  destruct (negb (isBranchExecuting vm1)
            && negb (isOpcodeConditional (op_value op)));
    [simpl; variant_done|].
  destruct (if verifyMinimalData (dstack vm1) && isBranchExecuting vm1
               && (op_value op <=? OP_PUSHDATA4)
            then checkMinimalDataPush op data else None);
    [simpl; variant_done|].
  exact Hrun.
Qed.

Lemma Step_respects :
  keyspend_respects_caches ->
  (forall b data, respects_caches (opfunc (opcodeArray b) data)) ->
  respects_caches (Step opcodeArray).
Proof.
  intros Hkey Htable vm1 vm2 Hv.
  apply cache_variant_inv in Hv as (c & h & -> & Hs1 & Hs2 & Hd).
  unfold Step. push_caches.
  destruct (checkValidPC vm1); [simpl; variant_done|].
  destruct (tk_Next opcodeArray (tokenizer vm1)) as [ok tk].
  push_caches. destruct ok; cbn [negb]; cbv iota.
  2:{ destruct (tk_err tk); simpl; variant_done. }
  destruct (executeOpcode_respects (opcodeArray (tk_op tk)) (tk_data tk)
              (Htable _ _) (set_tokenizer tk vm1)
              (with_caches c h (set_tokenizer tk vm1))) as [He Hv'];
    [apply cache_variant_self; assumption|].
  destruct (executeOpcode (opcodeArray (tk_op tk)) (tk_data tk)
              (set_tokenizer tk vm1)) as [e1 vmA].
  destruct (executeOpcode (opcodeArray (tk_op tk)) (tk_data tk)
              (with_caches c h (set_tokenizer tk vm1))) as [e2 vmB].
  simpl in He, Hv'. subst e2.
  destruct e1 as [e|]; [split; [reflexivity|exact Hv']|].
  apply cache_variant_inv in Hv' as (c' & h' & -> & Hs1' & Hs2' & Hd').
  cbv zeta. simpl.
  match goal with
  | |- context [if MaxStackSize <? ?x then _ else _] =>
      destruct (MaxStackSize <? x)
  end; [simpl; variant_done|].
  destruct (tk_Done (tokenizer vmA)); [|simpl; variant_done].
  apply (nextScript_respects Hkey). variant_ok.
Qed.

Lemma Execute_loop_respects (fuel : nat) :
  keyspend_respects_caches ->
  (forall b data, respects_caches (opfunc (opcodeArray b) data)) ->
  forall (stepInfo : option StepInfo) (vm1 vm2 : Engine),
    cache_variant vm1 vm2 ->
    same_outcome (Execute_loop opcodeArray fuel stepInfo vm1)
      (Execute_loop opcodeArray fuel stepInfo vm2).
Proof.
  intros Hkey Htable.
  induction fuel as [|fuel IH]; intros stepInfo vm1 vm2 Hv; [exact I|].
  cbn [Execute_loop].
  destruct (Step_respects Hkey Htable vm1 vm2 Hv) as [He Hv'].
  destruct (Step opcodeArray vm1) as [[d1 e1] vmA].
  destruct (Step opcodeArray vm2) as [[d2 e2] vmB].
  simpl in He, Hv'. injection He as <- <-.
  destruct e1 as [e|]; [split; [reflexivity|exact Hv']|].
  pose proof Hv' as Hv''.
  apply cache_variant_inv in Hv'' as (c' & h' & -> & Hs1' & Hs2' & Hd').
  cbv beta iota. push_caches.
  pose proof (CheckErrorCondition_respects true vmA _ Hv') as [Hce Hcv].
  assert (Hfinal : same_outcome (Some (CheckErrorCondition true vmA))
                     (Some (CheckErrorCondition true (with_caches c' h' vmA)))).
  { destruct (CheckErrorCondition true vmA) as [x1 y1].
    destruct (CheckErrorCondition true (with_caches c' h' vmA)) as [x2 y2].
    simpl in Hce, Hcv. split; assumption. }
  destruct (stepCallback vmA) as [callback|].
  - destruct d1.
    + destruct stepInfo as [prev|]; push_caches;
        [|split; [reflexivity|exact Hv']].
      destruct (callback _); [split; [reflexivity|exact Hv']|exact Hfinal].
    + destruct (callback _); [split; [reflexivity|exact Hv']|].
      apply IH. exact Hv'.
  - destruct d1; [exact Hfinal|]. apply IH. exact Hv'.
Qed.

Lemma Execute_respects (fuel : nat) (vm1 vm2 : Engine) :
  keyspend_respects_caches ->
  (forall b data, respects_caches (opfunc (opcodeArray b) data)) ->
  cache_variant vm1 vm2 ->
  same_outcome (Execute opcodeArray fuel vm1) (Execute opcodeArray fuel vm2).
Proof.
  intros Hkey Htable Hv. pose proof Hv as Hv'.
  apply cache_variant_inv in Hv' as (c & h & -> & Hs1 & Hs2 & Hd).
  unfold Execute. push_caches.
  destruct (negb (version vm1 =? 0)); [split; [reflexivity|exact Hv]|].
  destruct (stepCallback vm1) as [callback|].
  - destruct (callback _); [split; [reflexivity|exact Hv]|].
    apply Execute_loop_respects; assumption.
  - apply Execute_loop_respects; assumption.
Qed.

Lemma NewEngine_respects (pk : bytes) (t : MsgTx) (idx : Z)
    (c1 c2 : option SigCache) (h1 h2 : TxSigHashes) (amt : Z)
    (po : PrevOutputFetcher) :
  cache_sound c1 -> cache_sound c2 -> same_digests t po h1 h2 ->
  same_engine (NewEngine opcodeArray pk t idx c1 h1 amt po)
    (NewEngine opcodeArray pk t idx c2 h2 amt po).
Proof.
  intros Hs1 Hs2 Hd. unfold NewEngine. cbv zeta.
  repeat
    match goal with
    | |- same_engine (if ?b then _ else _) _ => destruct b
    | |- same_engine (match ?x with _ => _ end) _ => destruct x
    end;
    try reflexivity;
    (split; [reflexivity|split; [exact Hs1|split; [exact Hs2|exact Hd]]]).
Qed.


(** C9 (as amended).  Two engines that differ only in the contents of
    the signature cache and of the hash cache - every entry of either
    signature cache a triple that passes BIP-340 verification, both hash
    caches giving the digests of the transaction - have the same outcome
    under [Execute]: both run out of fuel, or both return, with the same
    error or both with none, and the engines they leave differ in their
    caches only, which are sound again.  It holds step by step, for every
    opcode table whose handlers respect the caches, as the opcodes of the
    asset family and the signature opcodes do; [NewEngine] builds such
    engines from such caches.  The verdict of a signature check is that
    of BIP-340 verification against the digest, on a hit and on a miss. *)
Theorem outcome_independent_of_sound_caches (fuel : nat) (vm1 vm2 : Engine) :
  digests_are_hashes ->
  keyspend_respects_caches ->
  (forall b data, respects_caches (opfunc (opcodeArray b) data)) ->
  cache_variant vm1 vm2 ->
  same_outcome (Execute opcodeArray fuel vm1) (Execute opcodeArray fuel vm2)
  /\ (fst (Step opcodeArray vm1) = fst (Step opcodeArray vm2)
      /\ cache_variant (snd (Step opcodeArray vm1))
           (snd (Step opcodeArray vm2)))
  /\ (forall h : M unit,
        In h asset_opcodes \/ In h (map fst signature_opcodes) ->
        respects_caches (fun vm => as_error (h vm)))
  /\ (forall pk t idx c1 c2 h1 h2 amt po,
        cache_sound c1 -> cache_sound c2 -> same_digests t po h1 h2 ->
        same_engine (NewEngine opcodeArray pk t idx c1 h1 amt po)
          (NewEngine opcodeArray pk t idx c2 h2 amt po))
  /\ (forall (pk rawSig : bytes) (b1 b2 : baseTapscriptSigVerifier),
        newBaseTapscriptSigVerifier pk rawSig vm1 = Ok b1 ->
        newBaseTapscriptSigVerifier pk rawSig vm2 = Ok b2 ->
        fst (baseTapscriptSigVerifier_Verify b1)
        = fst (baseTapscriptSigVerifier_Verify b2)
        /\ fst (baseTapscriptSigVerifier_Verify b1)
           = Ok (mkVerifyResult
                   match baseTapscript_sigHash b1 with
                   | Ok sigHash =>
                       Signature_Verify (sig (base b1)) sigHash
                         (pubKey (base b1))
                   | Fail _ => false
                   end)
        /\ cache_sound (snd (baseTapscriptSigVerifier_Verify b1))
        /\ cache_sound (snd (baseTapscriptSigVerifier_Verify b2))).
Proof.
  intros Hdig Hkey Htable Hv.
  split; [apply Execute_respects; assumption|].
  split; [apply Step_respects; assumption|].
  split.
  { intros h [Hin|Hin]; [apply asset_opcodes_respect, Hin|].
    apply in_map_iff in Hin as ([h' n] & <- & Hin).
    exact (signature_opcodes_respect h' n Hdig Hin). }
  split; [intros; apply NewEngine_respects; assumption|].
  intros pk rawSig b1 b2 H1 H2.
  apply cache_variant_inv in Hv as (c & h & -> & Hs1 & Hs2 & Hd).
  apply newBaseTapscriptSigVerifier_fields in H1 as (x1 & Hx1 & Ht1 & _ & _).
  apply newBaseTapscriptSigVerifier_fields in H2 as (x2 & Hx2 & Ht2 & _ & _).
  apply newTaprootSigVerifier_fields in Ht1
    as (Hwb1 & Hpk1 & Hfs1 & Hca1 & Hhc1 & Htx1 & Hidx1 & Hpo1 & _).
  apply newTaprootSigVerifier_fields in Ht2
    as (Hwb2 & Hpk2 & Hfs2 & Hca2 & Hhc2 & Htx2 & Hidx2 & Hpo2 & _).
  simpl in Hca2, Hhc2, Htx2, Hidx2, Hpo2.
  assert (Hsame : pubKey (base b1) = pubKey (base b2)
                  /\ sig (base b1) = sig (base b2)
                  /\ hashType (base b1) = hashType (base b2)).
  { unfold well_built in Hwb1, Hwb2.
    rewrite Hpk1, Hfs1 in Hwb1. rewrite Hpk2, Hfs2, Hwb1 in Hwb2.
    injection Hwb2 as -> -> ->. auto. }
  destruct Hsame as (Hkeq & Hseq & Hheq).
  assert (Hhash : baseTapscript_sigHash b1 = baseTapscript_sigHash b2).
  { unfold baseTapscript_sigHash.
    rewrite Hhc1, Htx1, Hidx1, Hpo1, Hhc2, Htx2, Hidx2, Hpo2, Hheq.
    apply Hd. }
  rewrite <- Hca1 in Hs1. rewrite <- Hca2 in Hs2.
  unfold baseTapscriptSigVerifier_Verify. rewrite <- Hhash.
  destruct (baseTapscript_sigHash b1) as [sigHash|e] eqn:Hh.
  - assert (Hlen : len sigHash = chainhash_HashSize)
      by (unfold baseTapscript_sigHash in Hh; exact (Hdig _ _ _ _ _ _ Hh)).
    destruct (verifySig_sound (base b1) sigHash Hwb1 Hs1 Hlen) as [Hv1 Hc1].
    destruct (verifySig_sound (base b2) sigHash Hwb2 Hs2 Hlen) as [Hv2 Hc2].
    destruct (verifySig (base b1) sigHash) as [r1 k1].
    destruct (verifySig (base b2) sigHash) as [r2 k2].
    simpl in Hv1, Hv2, Hc1, Hc2. subst r1 r2.
    simpl. rewrite Hkeq, Hseq. repeat split; assumption.
  - simpl. repeat split; assumption.
Qed.

End CacheIndependence.

Lemma demo_keyspend_respects_caches : @keyspend_respects_caches Demo.lib.
Proof.
  intros prog rawSig t idx po h1 h2 c1 c2 Hs1 Hs2 Hd.
  change (@VerifyTaprootKeySpend Demo.lib) with Demo.KeySpend.
  unfold Demo.KeySpend.
  pose proof (Hd SigHashDefault idx) as He.
  change (@CalcTaprootSignatureHash Demo.lib) with Demo.SignatureHash in He.
  rewrite He.
  destruct (Demo.SignatureHash h2 SigHashDefault t idx po) as [d|e];
    [destruct (Demo.Verify rawSig d prog)|]; simpl; auto.
Qed.

Lemma demo_table_respects (b : Z) (data : bytes) :
  respects_caches (opfunc (Demo.opcodeArray b) data).
Proof.
  assert (Hpush : forall so : bytes,
            respects_caches
              (fun vm : @Engine Demo.lib => as_error (dstack_PushByteArray so vm))).
  { intros so. apply oblivious_respects.
    - apply oblivious_as_error, oblivious_PushByteArray.
    - apply keeps_tx_as_error, frames_keeps_tx, frames_PushByteArray. }
  assert (Hsig : forall h n, In (h, n) signature_opcodes ->
            respects_caches (fun vm : @Engine Demo.lib => as_error (h vm))).
  { intros h n Hin.
    exact (signature_opcodes_respect h n demo_digests_are_hashes Hin). }
  unfold Demo.opcodeArray.
  destruct (b =? OP_0); [apply Hpush|].
  destruct ((1 <=? b) && (b <=? 75)); [apply Hpush|].
  destruct (b =? OP_PUSHDATA1); [apply Hpush|].
  destruct (b =? OP_PUSHDATA2); [apply Hpush|].
  destruct (b =? OP_PUSHDATA4); [apply Hpush|].
  destruct (b =? OP_1NEGATE).
  { apply oblivious_respects.
    - apply (oblivious_as_error (dstack_PushInt (-1))), oblivious_PushInt.
    - apply (keeps_tx_as_error (dstack_PushInt (-1))), frames_keeps_tx,
        frames_PushInt. }
  destruct ((OP_1 <=? b) && (b <=? 96)); [apply Hpush|].
  destruct (b =? OP_CHECKSIG).
  { apply (Hsig opcodeCheckSig 2%nat). left. reflexivity. }
  destruct (b =? OP_CHECKSIGVERIFY).
  { apply (Hsig opcodeCheckSigVerify 2%nat). right. left. reflexivity. }
  destruct (if b <? OP_INSPECTNUMASSETGROUPS then None
            else asset_opcodes !! Z.to_nat (b - OP_INSPECTNUMASSETGROUPS))
    as [m|] eqn:Hm.
  - apply (asset_opcodes_respect m).
    destruct (b <? OP_INSPECTNUMASSETGROUPS); [discriminate Hm|].
    apply list_elem_of_In. exact (list_elem_of_lookup_2 _ _ _ Hm).
  - apply oblivious_respects.
    + intros c h vm. reflexivity.
    + intros vm. split; reflexivity.
Qed.

Lemma demo_warm_cache_sound : @cache_sound Demo.lib (Some Demo.warmCache).
Proof.
  intros c key fullSig pk [= <-] Hex.
  unfold SigCache_Exists, Demo.warmCache in Hex. cbn [validSigs] in Hex.
  destruct (decide (key = Demo.testDigest)) as [->|Hne].
  - rewrite lookup_singleton_eq in Hex.
    apply andb_true_iff in Hex as [Hpk Hsig].
    apply bytes_eqb_eq in Hpk, Hsig. subst pk fullSig.
    exists Demo.testKey, (Demo.signatureOf Demo.testKey), SigHashDefault.
    split; vm_compute; reflexivity.
  - rewrite lookup_singleton_ne in Hex by (intros H; apply Hne; symmetry; exact H).
    discriminate Hex.
Qed.

Lemma outcome_independent_of_sound_caches_witness :
  let rawSig := Demo.signatureOf Demo.testKey in
  let fresh := Demo.NewTxSigHashes (Demo.makeTestTx []) in
  let vm1 := Demo.scriptPathVm rawSig (Some Demo.warmCache) fresh in
  let vm2 :=
    Demo.scriptPathVm rawSig (Some (mkSigCache ∅ 100)) (fresh ++ [9]) in
  baseTapscript_sigHash
    (Demo.verifierOn Demo.testKey rawSig (Demo.leafVm (Some Demo.warmCache)))
  = Ok Demo.testDigest
  /\ SigCache_Exists Demo.warmCache Demo.testDigest rawSig Demo.testKey = true
  /\ cache_variant vm1 vm2
  /\ same_outcome (Execute Demo.opcodeArray 3 vm1)
       (Execute Demo.opcodeArray 3 vm2)
  /\ fst <$> Execute Demo.opcodeArray 3 vm1 = Some None
  /\ fst <$> Execute Demo.opcodeArray 3 vm2 = Some None
  /\ (sigCache <$> (snd <$> Execute Demo.opcodeArray 3 vm2))
     = Some (Some Demo.warmCache).
Proof.
  intros rawSig fresh vm1 vm2.
  assert (Hv : cache_variant vm1 vm2).
  { split; [reflexivity|].
    split; [exact demo_warm_cache_sound|].
    split; [exact (cache_sound_empty 100)|].
    intros hashType idx. reflexivity. }
  split; [vm_compute; reflexivity|].
  split; [vm_compute; reflexivity|]. split; [exact Hv|].
  split.
  { exact (proj1 (outcome_independent_of_sound_caches Demo.opcodeArray 3
                    vm1 vm2 demo_digests_are_hashes
                    demo_keyspend_respects_caches demo_table_respects Hv)). }
  split; [vm_compute; reflexivity|].
  split; vm_compute; reflexivity.
Defined.

(** C9 (as stated) fails on caches that do not hold what they should.
    With a signature that does not verify, the run with an empty
    signature cache rejects, and the run with a cache that holds an entry
    for that signature accepts.  With a signature that verifies, the run
    with the hash cache of the transaction accepts, and the run with the
    hash cache of another transaction rejects.  The two runs differ in
    the one cache only; so do the verdicts of the verifier itself. *)
Lemma unsound_caches_change_outcome :
  let rawSig := Demo.signatureOf Demo.testKey in
  let badSig := repeat 7 64 in
  let fresh := Demo.NewTxSigHashes (Demo.makeTestTx []) in
  let empty := Some (mkSigCache ∅ 100) in
  let poisoned :=
    Some (mkSigCache {[ Demo.testDigest := (badSig, Demo.testKey) ]} 100) in
  let rejected :=
    Some (Some (scriptError ErrEvalFalse
                  "false stack entry at end of script execution")) in
  (Demo.scriptPathVm badSig poisoned fresh
   = set_sigCache poisoned (Demo.scriptPathVm badSig empty fresh)
   /\ fst <$> Execute Demo.opcodeArray 3 (Demo.scriptPathVm badSig empty fresh)
      = rejected
   /\ fst <$> Execute Demo.opcodeArray 3
                (Demo.scriptPathVm badSig poisoned fresh)
      = Some None)
  /\ (Demo.scriptPathVm rawSig empty Demo.staleHashes
      = with_caches empty Demo.staleHashes
          (Demo.scriptPathVm rawSig empty fresh)
      /\ fst <$> Execute Demo.opcodeArray 3
                   (Demo.scriptPathVm rawSig empty fresh)
         = Some None
      /\ fst <$> Execute Demo.opcodeArray 3
                   (Demo.scriptPathVm rawSig empty Demo.staleHashes)
         = rejected)
  /\ (fst (baseTapscriptSigVerifier_Verify
             (Demo.verifierOn Demo.testKey badSig (Demo.leafVm empty)))
      = Ok (mkVerifyResult false)
      /\ fst (baseTapscriptSigVerifier_Verify
                (Demo.verifierOn Demo.testKey badSig (Demo.leafVm poisoned)))
         = Ok (mkVerifyResult true))
  /\ (fst (baseTapscriptSigVerifier_Verify
             (Demo.verifierOn Demo.testKey rawSig (Demo.leafVm empty)))
      = Ok (mkVerifyResult true)
      /\ fst (baseTapscriptSigVerifier_Verify
                (Demo.verifierOn Demo.testKey rawSig
                   (with_caches empty Demo.staleHashes (Demo.leafVm empty))))
         = Ok (mkVerifyResult false)).
Proof.
  intros rawSig badSig fresh empty poisoned rejected.
  repeat split; try reflexivity; vm_compute; reflexivity.
Qed.
